(* ===== verification/_CoqProject ===== *)
-Q . S2P
Prelude.v
JsPlatform.v
FlatBuffers.v
FbTables.v
FbReference.v
SpanreedMessages.v
HelloMessages.v
ClientGen.v
ClientGenTheorems.v
SpanreedCodec.v
SpanreedTheorems.v
HelloCodec.v
HelloTheorems.v
Log.v
Connection.v
ConnectionTheorems.v
Renderer.v
RendererTheorems.v
DemoCanvas.v
DemoPage.v
DemoPageTheorems.v
Markup.v
View.v
ViewTheorems.v
ClientStore.v
Proxy.v
ProxyInvariant.v
ProxyTheorems.v
GoMessages.v
GoGenerated.v
GoUtil.v
Router.v
RouterTheorems.v
HandshakeTheorems.v
UdpDestination.v
UdpTheorems.v
Transports.v
TransportTheorems.v
HubMain.v
HubTheorems.v
EndToEnd.v
CppMessages.v
CppGenerated.v
WireAgreement.v
DemoServer.v
CppCodec.v
DemoServerTheorems.v
DemoFrame.v
Acceptance.v
FullCircle.v
Departure.v
