(* ===== verification/Prelude.v ===== *)
(** * Spanreed netcode proxy: a verification development

    Spanreed is a proxy between web clients, which speak WebSocket or
    WebTransport, and game servers, which speak UDP. Clients, proxy and servers
    exchange flatbuffers messages; the repository has the generated TypeScript
    code for them, and a demo client in TypeScript and React that connects to a
    demo server through the proxy, chats, and draws the dots of the game state.
    The proxy itself is a Go program, the demo server a C++ one. This development
    models all three, and proves them correct alone and together; paths below
    are relative to src/.

    ** The program's parts and the files that model them

    - The platform. [JsPlatform]: ECMAScript integer conversions, binary64
      numbers and their rounding to binary32 (over [SpecFloat]), ArrayBuffers and
      their views, UTF-16 strings and their UTF-8 encoding. [Prelude] (this
      file): results that may be thrown exceptions ([outcome]), code that mutates
      an object and may throw ([stm], with the total-correctness predicate [wp]),
      and lists addressed by integers.
    - The flatbuffers runtime (npm package [flatbuffers], not in the repository).
      [FlatBuffers]: the operations the generated code calls are the class
      [FlatBuffers], its documented behaviour is the class [FlatBuffersLaws], in
      terms of a logical view of a builder (finished objects, the object under
      construction). [FbTables]: the scheme every generated [create...] function
      follows, proved once, and the reading of finished tables. [FbReference]: a
      byte-level implementation of the wire format and the proof that it
      satisfies the laws, so every theorem that assumes them applies to it; the
      witnesses run on it.
    - The proxy protocol, flatbuffers/generated/ts/spanreed-message/.
      [SpanreedMessages] has a module per class with the source's function names:
      accessors take the table object ([bb], [bb_pos]), builder functions are
      [stm] actions on the builder. [SpanreedCodec] says what each message shows
      and how it is built, [SpanreedTheorems] proves the round trips.
    - The demo client's own copy of that code, under
      examples/hello-spanreed/client/src/gen/spanreed-message/: [ClientGen], and
      [ClientGenTheorems] for their agreement.
    - The demo's messages, examples/hello-spanreed/client/src/gen/hello-spanreed/:
      [HelloMessages], [HelloCodec], [HelloTheorems], in the same way, with the
      inline struct [Dot].
    - The client, examples/hello-spanreed/client/src/. [Log]: log.ts.
      [Connection]: Connection.ts, where [Ws] and [Wt] are the two asynchronous
      functions as machines whose states are the awaits and whose inputs are
      transport events. [Renderer]: geomtry.ts, glutils.ts, solid.shader.ts,
      colors.ts and DemoRenderer.ts, with WebGL calls recorded as commands and
      WebGL answers as the class [GL]. [DemoCanvas]: DemoCanvas.tsx. [DemoPage]:
      DemoPage.tsx, ChatBox.tsx, common/Button.tsx and the form of
      ConnectionStateComponent.tsx, as steps on a record that holds the React
      state, the handlers and the timer. [Markup]: elements with attributes,
      styles and handlers, and how events bubble. [View]: what each component
      renders (the files above, Console.tsx and App.tsx), and the application as
      a machine driven by events on the elements shown.
    - The proxy. [ClientStore]: internal/client_store.go, each method one function
      on the table of clients. [Proxy]: pkg/proxy/proxy.go, each method and each
      turn of a goroutine one function on the hub, with everything put on a
      handler's channel recorded in order. [ProxyInvariant]: the same turns cut
      into the actions that the locks make atomic, any number of them interleaved
      in any order, and the rely-guarantee argument for the hub's invariant.
    - The transports. [GoMessages]: the functions of pkg/transport/SpanreedMessage/
      that the transports call; the Go flatbuffers runtime is the same interface
      [FlatBuffers]. [GoGenerated]: the other functions of that package. [GoUtil]: the
      errors of pkg/errors/ that nothing raises and the random strings of pkg/util/, over a
      class for math/rand. [Router]: client_connection_router.go, where [conn] holds the
      bounded channels and the goroutines of one client, [conn_step] is one case
      of a [select], and [step] adds the delivery loop with its lock; schedules
      are arbitrary. [UdpDestination]: udp_destination.go, each turn of a goroutine
      one function, panics that nothing recovers as [Throw]. In the hub the only call that can
      panic is the match function of a destination handler, recorded as [MatchPanics]. [Transports]:
      websocket_client.go and webtransport_client.go, where [session] is the handler,
      reader and writer of one request, [session_step] one step of one of them, and
      [step] adds the router with the connection of the same index, new requests with
      their origin, and the shutdown.
    - The command, cmd/spanreed-hub/main.go: [HubMain], the settings as a function of the
      environment, with strconv and strings.Split, and [main] as the hub that is started.
    - The demo server, examples/hello-spanreed/server/. [CppMessages]: the parts of the
      generated headers (include/) that it uses, on the interface [FlatBuffers]; the C++
      verifier is the class [Verifier]. [CppGenerated]: the other functions of those headers,
      which flatbuffers/generated/cc/ has as well, byte for byte. [DemoServer]: main.cc, where [server] holds the
      globals, the main thread's variables and its place in the frame, and [step] is a
      datagram handled by the receiving thread or the main thread's next critical section.
      [CppCodec] says what its datagrams show and reads those of the proxy, [Acceptance] what
      is assumed of the verifier ([VerifierLaws]: it accepts what the builders of the page and
      the proxy write), with an instance.

    ** What the theorems show

    - Round trips ([SpanreedTheorems], [HelloTheorems]): every message, with every
      member of its union, with and without size prefix, is read back with the
      content it was built from, where strings come back as what their UTF-8 bytes
      decode to (the same string, but for lone surrogates and a leading byte-order
      mark); objects survive pack and unpack; building in the
      wrong order throws.
    - Connecting ([ConnectionTheorems]): for all event sequences the two connect
      functions implement an abstract specification, the handshake carries the
      backend address and the user name, the verdict decides, and a connection is
      handed over without leftover handlers.
    - What is shown ([ViewTheorems]): components are mounted as the connection
      says, inputs show what is typed, buttons act on what is shown, the console
      shows the log, ids are unique.
    - The page ([DemoPageTheorems]): what server messages change, what user
      actions send, that connections are kept tidy in every reachable state, the
      form from button to connection with every line that the form and its attempt
      ([hear]) put into the log; and a stale close event that drops a new
      connection.
    - Drawing ([RendererTheorems], [DemoCanvas]): instances reach the vertex
      attributes as written up to the capacity of 200, and throw beyond it; set-up
      errors are reported; the geometry has no gaps; one frame is pending at a
      time and none after destroy.

    - The hub ([ProxyTheorems]): the invariant holds in every schedule; a turn left
      alone ends and is the function of the code; attached clients and destinations
      exchange messages unchanged; connection requests go to the first matching
      handler; kicks inform both sides once; timeouts remove exactly the overdue;
      ids are fresh until they wrap around; the shutdown informs everyone. A refused
      client that stays connected, and a race in which a destination is never told
      that its client is gone, are proved as they are.
    - The router ([RouterTheorems]): in every schedule a client gets the verdict and
      then the hub's messages in order, and the hub gets the request and then the
      client's packets in order; when a full queue can move on and when it blocks
      the router for ever; what a malformed handshake and a close command taken by
      the wrong goroutine leave behind.
    - The servers ([TransportTheorems]): a run of a server is a run of its router, what
      goes over the network is what router and hub exchange, in order; a connection is
      known exactly as long as its request is served; and a client that leaves before it
      has asked for anything is never removed.
    - The command ([HubTheorems]): which servers and handlers an environment gives (not the
      ones that its README.md says), whose requests they accept, and that numbers are in range.
    - The demo server ([DemoServerTheorems], [DemoFrame]): the types of its state in every
      interleaving; admission, closing and what incomplete messages do; every frame ends,
      and one frame serves the messages, then the clients that are due.
    - The UDP destination ([UdpTheorems]): datagrams go to permitted hosts only and
      read back as the hub's commands; a destination's datagrams reach the hub; the
      shutdown tells every destination.
    - Across languages ([WireAgreement], [HandshakeTheorems]) and through all components
      ([EndToEnd]): the generated code of TypeScript, Go and C++ agrees field by field on
      every table in which the field lies in the buffer, but for bools that are neither 0 nor 1, and Go
      panics on the others ([GoGenerated] reads with bounds; [GoMessages], what the proxy calls,
      leaves the panics to parameters of its callers); the TypeScript client and the Go router read each other's
      messages, and requests, packets and datagrams travel from end to end unchanged. A
      chat goes from one page through proxy and server to all pages ([FullCircle]), and a
      client that leaves is forgotten by all of them ([Departure]): in every schedule the hub is
      told once and a handler that has returned left nothing behind, and one schedule gets there.

    ** Bounds

    Builders are limited to [fb_limit] (1 GiB), the limit of the runtime; round
    trips ask that the variable-length parts fit. Strings of the handshake and of
    chats are [sendable]: well-formed UTF-16 without a leading byte-order mark (a
    decoder strips it) and at most 1 MiB. Client ids are 32 bits wide and wrap
    around. No definition runs on fuel: loops are
    structural on the lists or counts of the source. The demo server receives at most
    1024 bytes of a datagram ([BUFLEN]), which a chat of 600 bytes cannot exceed, and a frame of it takes at
    most 53 steps. The UDP destination reads at most 2048 bytes ([read_buffer]), which a game state of
    103 dots cannot exceed, while one of 123 does.

    ** Not modelled

    In the client, scrolling the console and what React and the browser do with the
    elements. Of the proxy, log lines and the capacities of the channels between
    hub and transports (a full channel delays a sender); HTTP, TLS and the .env file. Console
    output of the demo server. What the runtimes do when they write into a received buffer
    (the class [TableWriters]) or verify a size-prefixed one ([SizePrefixedVerifier]). Nothing is left of the
    TypeScript sources but imports, re-exports, types of component properties and the
    configuration of webpack. Inputs and parameters are the network, the clocks, host names
    ([ResolveUDPAddr]), key pairs ([LoadX509KeyPair]), the C++ verifier, the random radii and
    the order of an unordered_map in the demo server ([radius_dist], [walk]), and whether
    the Go runtime panics on given bytes ([malformed], [bad_root], [bad_body], [vtable_inside]). *)

From stdpp Require Export base list gmap strings option.
From Stdlib Require Export ZArith Lia.

#[global] Open Scope Z_scope.
#[global] Set Default Proof Using "Type".

(** ** Outcomes of JavaScript calls: a value, or a thrown value. *)
Inductive outcome (E A : Type) : Type :=
| Ret (a : A)
| Throw (e : E).
Arguments Ret {E A} a.
Arguments Throw {E A} e.

#[export] Instance outcome_ret {E} : MRet (outcome E) := fun _ a => Ret a.
#[export] Instance outcome_bind {E} : MBind (outcome E) := fun _ _ f m =>
  match m with Ret a => f a | Throw e => Throw e end.

#[export] Instance outcome_fmap {E} : FMap (outcome E) := fun _ _ f m =>
  match m with Ret a => Ret (f a) | Throw e => Throw e end.

(** A sequence that returned: both parts did. *)
Lemma outcome_bind_Ret {E A B} (m : outcome E A) (f : A -> outcome E B) b :
  m ≫= f = Ret b -> exists a, m = Ret a /\ f a = Ret b.
Proof. destruct m as [a|e]; [by exists a | done]. Qed.

(** Take the first part of a sequence that returned, in [H], as [x]. *)
Tactic Notation "bind_inv" hyp(H) "as" ident(x) :=
  let Hx := fresh "H" x in apply outcome_bind_Ret in H as (x & Hx & H).

(** Stateful JavaScript code: the object it mutates is threaded through, and the
    mutations made before a [throw] persist. *)
Definition stm (S E A : Type) : Type := S -> outcome E A * S.

#[export] Instance stm_ret {S E} : MRet (stm S E) := fun _ a s => (Ret a, s).
#[export] Instance stm_bind {S E} : MBind (stm S E) := fun _ _ f m s =>
  match m s with
  | (Ret a, s') => f a s'
  | (Throw e, s') => (Throw e, s')
  end.

(** [for (const x of l) f(x)] *)
Fixpoint for_each {S E A : Type} (l : list A) (f : A -> stm S E unit) : stm S E unit :=
  match l with
  | [] => mret tt
  | x :: rest => f x ≫= fun _ => for_each rest f
  end.

(** Total-correctness predicate: [m] run from [s] returns and establishes [Q]. *)
Definition wp {S E A} (m : stm S E A) (s : S) (Q : A -> S -> Prop) : Prop :=
  match m s with
  | (Ret a, s') => Q a s'
  | (Throw _, _) => False
  end.

Section wp.
Context {S E : Type}.

Lemma wp_ret {A} (a : A) (s : S) (Q : A -> S -> Prop) :
  Q a s -> wp (mret (M := stm S E) a) s Q.
Proof. done. Qed.

Lemma wp_bind {A B} (m : stm S E A) (f : A -> stm S E B) s (Q : B -> S -> Prop) :
  wp m s (fun a s' => wp (f a) s' Q) -> wp (m ≫= f) s Q.
Proof. unfold wp, mbind, stm_bind. by destruct (m s) as [[?|?] ?]. Qed.

Lemma wp_mono {A} (m : stm S E A) s (P Q : A -> S -> Prop) :
  wp m s P -> (forall a s', P a s' -> Q a s') -> wp m s Q.
Proof. unfold wp. destruct (m s) as [[?|?] ?]; naive_solver. Qed.

Lemma wp_run {A} (m : stm S E A) s (Q : A -> S -> Prop) :
  wp m s Q -> exists a s', m s = (Ret a, s') /\ Q a s'.
Proof. unfold wp. destruct (m s) as [[?|?] ?]; naive_solver. Qed.
End wp.

(** ** Lists of bytes addressed by integers *)
Definition zlen {A} (l : list A) : Z := Z.of_nat (length l).

(** The sub-list of [n] elements that starts at index [i]. *)
Definition zslice {A} (l : list A) (i n : Z) : list A :=
  take (Z.to_nat n) (drop (Z.to_nat i) l).

Definition zeros (n : Z) : list Z := replicate (Z.to_nat n) 0.

Lemma zlen_nonneg {A} (l : list A) : 0 <= zlen l.
Proof. unfold zlen. lia. Qed.

Lemma zlen_nil {A} : zlen (@nil A) = 0.
Proof. done. Qed.

Lemma zlen_cons {A} (x : A) l : zlen (x :: l) = 1 + zlen l.
Proof. unfold zlen. simpl length. lia. Qed.

Lemma zlen_app {A} (l k : list A) : zlen (l ++ k) = zlen l + zlen k.
Proof. unfold zlen. rewrite length_app. lia. Qed.

Lemma zlen_zeros n : 0 <= n -> zlen (zeros n) = n.
Proof. intros. unfold zlen, zeros. rewrite length_replicate. lia. Qed.

Lemma zlen_zslice {A} (l : list A) i n :
  0 <= i -> 0 <= n -> i + n <= zlen l -> zlen (zslice l i n) = n.
Proof.
  intros. unfold zlen, zslice in *. rewrite length_take, length_drop. lia.
Qed.

(** Prepending bytes moves a slice by their number. *)
Lemma zslice_app_r {A} (p l : list A) i n :
  0 <= i -> zslice (p ++ l) (zlen p + i) n = zslice l i n.
Proof.
  intros. unfold zslice, zlen. f_equal. rewrite drop_app.
  rewrite (drop_ge p) by lia. simpl. f_equal. lia.
Qed.

Lemma zslice_app_l {A} (p l : list A) i n :
  0 <= i -> 0 <= n -> i + n <= zlen p -> zslice (p ++ l) i n = zslice p i n.
Proof.
  intros. unfold zslice, zlen in *.
  rewrite drop_app_le by lia. apply take_app_le. rewrite length_drop. lia.
Qed.

Lemma zslice_all {A} (l : list A) : zslice l 0 (zlen l) = l.
Proof. unfold zslice, zlen. rewrite drop_0. apply take_ge. lia. Qed.

Lemma zslice_0_app {A} (p l : list A) : zslice (p ++ l) 0 (zlen p) = p.
Proof.
  rewrite zslice_app_l; [apply zslice_all | lia | apply zlen_nonneg | lia].
Qed.

Lemma zslice_zslice {A} (l : list A) i n j m :
  0 <= i -> 0 <= j -> 0 <= m -> j + m <= n ->
  zslice (zslice l i n) j m = zslice l (i + j) m.
Proof.
  intros. unfold zslice. rewrite skipn_firstn_comm, take_take, drop_drop.
  f_equal; [lia|]. f_equal. lia.
Qed.

Lemma zslice_lookup {A} (l : list A) i n j :
  0 <= i -> 0 <= j < n -> zslice l i n !! Z.to_nat j = l !! Z.to_nat (i + j).
Proof.
  intros. unfold zslice. rewrite lookup_take_lt by lia. rewrite lookup_drop.
  f_equal. lia.
Qed.

Create Rewrite HintDb zlen.
#[export] Hint Rewrite @zlen_nil @zlen_cons @zlen_app : zlen.

(** Normalise byte-count arithmetic and finish with [lia]. *)
Ltac zlen_lia :=
  autorewrite with zlen in *;
  repeat match goal with
  | |- context [zlen ?l] =>
      lazymatch goal with
      | _ : 0 <= zlen l |- _ => fail
      | _ => pose proof (zlen_nonneg l)
      end
  end; lia.
