(* ===== verification/JsPlatform.v ===== *)
(** * The JavaScript platform the TypeScript sources run on

    What the sources use of the language and its standard library: integer
    conversions of typed arrays, little-endian bytes, binary64 numbers with
    their rounding to binary32, [ArrayBuffer]s with [Uint8Array] views,
    UTF-16 strings and the [TextEncoder]/[TextDecoder] pair. *)

From S2P Require Import Prelude.
From Corelib.Floats Require Import SpecFloat.
From Stdlib Require Ascii String.

(** ** Exceptions a modelled call can raise *)
Inductive exn : Type :=
| TypeError                      (** a method call on null *)
| RangeError                     (** a typed-array view outside its buffer *)
| LibError.                      (** an Error raised by a library call *)

(** ** Integer conversions (ECMAScript ToUint8, ToInt8, ToUint32, ToInt32) *)
Definition to_uint (w : Z) (z : Z) : Z := z mod 2 ^ w.
Definition to_sint (w : Z) (z : Z) : Z := (z + 2 ^ (w - 1)) mod 2 ^ w - 2 ^ (w - 1).
Definition is_byte (z : Z) : Prop := 0 <= z < 256.
Definition is_uint32 (z : Z) : Prop := 0 <= z < 2 ^ 32.

(** ** Little-endian bytes *)
Fixpoint le_bytes (n : nat) (z : Z) : list Z :=
  match n with
  | O => []
  | S k => z mod 256 :: le_bytes k (z / 256)
  end.

Fixpoint le_value (bs : list Z) : Z :=
  match bs with
  | [] => 0
  | b :: rest => b + 256 * le_value rest
  end.

Lemma length_le_bytes n z : length (le_bytes n z) = n.
Proof. revert z. induction n; intros; simpl; auto. Qed.

Lemma zlen_le_bytes n z : zlen (le_bytes n z) = Z.of_nat n.
Proof. unfold zlen. by rewrite length_le_bytes. Qed.
#[export] Hint Rewrite zlen_le_bytes : zlen.

Lemma le_bytes_byte n z : Forall is_byte (le_bytes n z).
Proof.
  revert z. induction n; intros; simpl; constructor; auto.
  apply Z.mod_pos_bound. lia.
Qed.

Lemma le_value_bytes n z : le_value (le_bytes n z) = z mod 256 ^ Z.of_nat n.
Proof.
  revert z. induction n as [|n IH]; intros z.
  - simpl. by rewrite Z.mod_1_r.
  - change (le_bytes (S n) z) with (z mod 256 :: le_bytes n (z / 256)).
    simpl le_value. rewrite IH, Nat2Z.inj_succ, Z.pow_succ_r by lia.
    rewrite (Z.rem_mul_r z 256 (256 ^ Z.of_nat n)); lia.
Qed.

Lemma le_value_range bs : Forall is_byte bs -> 0 <= le_value bs < 256 ^ zlen bs.
Proof.
  induction 1 as [|b bs Hb _ IH]; [done|].
  rewrite zlen_cons, Z.pow_add_r by zlen_lia. simpl le_value. unfold is_byte in Hb. lia.
Qed.

Lemma to_sint_small w z : 0 < w -> - 2 ^ (w - 1) <= z < 2 ^ (w - 1) -> to_sint w z = z.
Proof.
  intros Hw Hz. unfold to_sint.
  assert (2 ^ w = 2 * 2 ^ (w - 1)) as Hpow
    by (rewrite <- Z.pow_succ_r by lia; f_equal; lia).
  rewrite Z.mod_small; lia.
Qed.

Lemma to_sint_uint w z : 0 < w -> to_sint w (to_uint w z) = to_sint w z.
Proof.
  intros. unfold to_sint, to_uint. f_equal.
  by rewrite Zplus_mod_idemp_l.
Qed.

(** ** Numbers

    A JavaScript number is a binary64 value; a store to a float32 cell rounds
    to nearest-even binary32. The bit patterns are the IEEE interchange ones. *)
Definition number : Type := spec_float.

Definition num_zero : number := S754_zero false.
Definition num_of_Z (z : Z) : number := binary_normalize 53 1024 z 0 false.
Definition num_sub (x y : number) : number := SFsub 53 1024 x y.
Definition num_mul (x y : number) : number := SFmul 53 1024 x y.
Definition num_div (x y : number) : number := SFdiv 53 1024 x y.
(** [x == y] on numbers: NaN differs from everything, the two zeros agree. *)
Definition num_eqb (x y : number) : bool := SFeqb x y.

Definition round32 (x : number) : spec_float :=
  match x with
  | S754_finite s m e => binary_normalize 24 128 (cond_Zopp s (Zpos m)) e s
  | _ => x
  end.

Definition sign_bit (s : bool) : Z := if s then 2 ^ 31 else 0.

(** The interchange bits of a binary32 datum. *)
Definition bits32 (x : spec_float) : Z :=
  to_uint 32
  match x with
  | S754_zero s => sign_bit s
  | S754_infinity s => sign_bit s + 255 * 2 ^ 23
  | S754_nan => 255 * 2 ^ 23 + 2 ^ 22
  | S754_finite s m e =>
      if Zpos m <? 2 ^ 23 then sign_bit s + Zpos m
      else sign_bit s + (e + 150) * 2 ^ 23 + (Zpos m - 2 ^ 23)
  end.

(** The number a 32-bit pattern denotes. *)
Definition num_of_bits32 (b : Z) : number :=
  let s := 2 ^ 31 <=? b in
  let ex := (b / 2 ^ 23) mod 256 in
  let fr := b mod 2 ^ 23 in
  if ex =? 255 then (if fr =? 0 then S754_infinity s else S754_nan)
  else if ex =? 0 then
    match fr with Zpos m => S754_finite s m (-149) | _ => S754_zero s end
  else
    match fr + 2 ^ 23 with Zpos m => S754_finite s m (ex - 150) | _ => S754_zero s end.

Definition f32_bytes (x : number) : list Z := le_bytes 4 (bits32 (round32 x)).
Definition f32_value (bs : list Z) : number := num_of_bits32 (le_value bs).

(** What a number becomes when it goes through a float32 cell ([Math.fround]). *)
Definition fround (x : number) : number := num_of_bits32 (bits32 (round32 x)).

Lemma f32_roundtrip x : f32_value (f32_bytes x) = fround x.
Proof.
  unfold f32_value, f32_bytes, fround. rewrite le_value_bytes. f_equal.
  change (256 ^ Z.of_nat 4) with (2 ^ 32). unfold bits32, to_uint.
  apply Zmod_mod.
Qed.

Lemma zlen_f32_bytes x : zlen (f32_bytes x) = 4.
Proof. done. Qed.
#[export] Hint Rewrite zlen_f32_bytes : zlen.

Lemma f32_bytes_byte x : Forall is_byte (f32_bytes x).
Proof. apply le_bytes_byte. Qed.

Example fround_exact : fround (num_of_Z 200) = S754_finite false 13107200 (-16).
Proof. vm_compute. reflexivity. Qed.
Example fround_tenth :
  fround (num_div (num_of_Z 1) (num_of_Z 10)) = S754_finite false 13421773 (-27).
Proof. vm_compute. reflexivity. Qed.

(** ** ArrayBuffers and Uint8Array views *)
Record Uint8Array := mkU8 { u8_buffer : list Z; u8_byteOffset : Z; u8_length : Z }.

(** The elements a view shows. *)
Definition u8_bytes (u : Uint8Array) : list Z :=
  zslice (u8_buffer u) (u8_byteOffset u) (u8_length u).

(** [new Uint8Array(buffer)] *)
Definition u8_of_buffer (buf : list Z) : Uint8Array := mkU8 buf 0 (zlen buf).

(** [new Uint8Array(buffer, byteOffset, length)] *)
Definition u8_view (buf : list Z) (off len : Z) : outcome exn Uint8Array :=
  if (0 <=? off) && (0 <=? len) && (off + len <=? zlen buf)
  then Ret (mkU8 buf off len) else Throw RangeError.

Definition u8_wf (u : Uint8Array) : Prop :=
  0 <= u8_byteOffset u /\ 0 <= u8_length u /\
  u8_byteOffset u + u8_length u <= zlen (u8_buffer u) /\ Forall is_byte (u8_buffer u).

Lemma u8_of_buffer_bytes buf : u8_bytes (u8_of_buffer buf) = buf.
Proof. apply zslice_all. Qed.

Lemma u8_of_buffer_wf buf : Forall is_byte buf -> u8_wf (u8_of_buffer buf).
Proof. intros. unfold u8_wf. simpl. pose proof (zlen_nonneg buf). auto with lia. Qed.

(** ** Strings: sequences of UTF-16 code units *)
Definition jsstring : Type := list Z.

(** A string literal of the source (ASCII). *)
Definition js (s : string) : jsstring :=
  map (fun a => Z.of_N (Ascii.N_of_ascii a)) (String.list_ascii_of_string s).

Definition is_high (u : Z) : bool := (55296 <=? u) && (u <=? 56319).
Definition is_low (u : Z) : bool := (56320 <=? u) && (u <=? 57343).
Definition replacement : Z := 65533.

(** Code points of a string; a lone surrogate becomes U+FFFD (USVString conversion). *)
Fixpoint utf16_decode (s : jsstring) : list Z :=
  match s with
  | [] => []
  | u :: rest =>
      if is_high u then
        match rest with
        | v :: rest' =>
            if is_low v then (65536 + (u - 55296) * 1024 + (v - 56320)) :: utf16_decode rest'
            else replacement :: utf16_decode rest
        | [] => [replacement]
        end
      else if is_low u then replacement :: utf16_decode rest
      else u :: utf16_decode rest
  end.

Definition utf16_units (cp : Z) : jsstring :=
  if cp <? 65536 then [cp]
  else [55296 + (cp - 65536) / 1024; 56320 + (cp - 65536) mod 1024].

Definition utf16_encode (cps : list Z) : jsstring := flat_map utf16_units cps.

(** [String.prototype.isWellFormed], with the range of the code units. *)
Fixpoint well_formed (s : jsstring) : bool :=
  match s with
  | [] => true
  | u :: rest =>
      (0 <=? u) && (u <? 65536) &&
      (if is_high u then
         match rest with v :: rest' => is_low v && well_formed rest' | [] => false end
       else negb (is_low u) && well_formed rest)
  end.

(** *** UTF-8 *)
Definition utf8_enc (cp : Z) : list Z :=
  if cp <? 128 then [cp]
  else if cp <? 2048 then [192 + cp / 64; 128 + cp mod 64]
  else if cp <? 65536 then [224 + cp / 4096; 128 + (cp / 64) mod 64; 128 + cp mod 64]
  else [240 + cp / 262144; 128 + (cp / 4096) mod 64; 128 + (cp / 64) mod 64; 128 + cp mod 64].

(** How the decoder reacts to a byte in its initial state. *)
Inductive utf8_lead : Type :=
| LEmit (cp : Z)
| LNeed (cp need lo hi : Z)
| LBad.

Definition utf8_first (b : Z) : utf8_lead :=
  if (0 <=? b) && (b <=? 127) then LEmit b
  else if (194 <=? b) && (b <=? 223) then LNeed (b - 192) 1 128 191
  else if (224 <=? b) && (b <=? 239) then
    LNeed (b - 224) 2 (if b =? 224 then 160 else 128) (if b =? 237 then 159 else 191)
  else if (240 <=? b) && (b <=? 244) then
    LNeed (b - 240) 3 (if b =? 240 then 144 else 128) (if b =? 244 then 143 else 191)
  else LBad.

(** The decoder's loop: the code point so far, how many continuation bytes are
    still needed and the range the next byte must be in. A byte out of range
    emits U+FFFD and is looked at again in the initial state. *)
Fixpoint utf8_loop (bs : list Z) (cp need lo hi : Z) : list Z :=
  match bs with
  | [] => if need =? 0 then [] else [replacement]
  | b :: rest =>
      let restart :=
        match utf8_first b with
        | LEmit c => c :: utf8_loop rest 0 0 128 191
        | LNeed c n l h => utf8_loop rest c n l h
        | LBad => replacement :: utf8_loop rest 0 0 128 191
        end in
      if need =? 0 then restart
      else if (lo <=? b) && (b <=? hi) then
        let cp' := cp * 64 + (b - 128) in
        if need =? 1 then cp' :: utf8_loop rest 0 0 128 191
        else utf8_loop rest cp' (need - 1) 128 191
      else replacement :: restart
  end.

Definition strip_bom (cps : list Z) : list Z :=
  match cps with
  | c :: rest => if c =? 65279 then rest else cps
  | [] => []
  end.

(** [TextEncoder.encode] and [TextDecoder.decode] (default options: the byte
    order mark is dropped, malformed input is replaced). *)
Definition text_encode (s : jsstring) : list Z := flat_map utf8_enc (utf16_decode s).
Definition text_decode (bs : list Z) : jsstring :=
  utf16_encode (strip_bom (utf8_loop bs 0 0 128 191)).

(** The strings that survive an encode/decode round trip unchanged. *)
Definition text_ok (s : jsstring) : bool :=
  well_formed s && match s with u :: _ => negb (u =? 65279) | [] => true end.

Definition is_scalar (cp : Z) : Prop := 0 <= cp < 55296 \/ 57344 <= cp < 1114112.

(** A code unit that is no surrogate, and a surrogate pair. *)
Definition bmp (u : Z) : Prop := 0 <= u < 65536 /\ is_high u = false /\ is_low u = false.
Definition pair (u v : Z) : Prop := is_high u = true /\ is_low v = true.

Lemma well_formed_inv u s :
  well_formed (u :: s) = true ->
  (bmp u /\ well_formed s = true) \/
  (exists v s', s = v :: s' /\ pair u v /\ well_formed s' = true).
Proof.
  cbn [well_formed]. unfold bmp, pair.
  rewrite !andb_true_iff, Z.leb_le, Z.ltb_lt. intros [Hu H].
  destruct (is_high u) eqn:Hh; [right; destruct s as [|v s'] | left].
  - done.
  - apply andb_true_iff in H as []. by exists v, s'.
  - apply andb_true_iff in H as [H%negb_true_iff ?]. done.
Qed.

(** Induction that follows the characters of a well-formed string. *)
Lemma well_formed_ind (P : jsstring -> Prop) :
  P [] -> (forall u s, bmp u -> P s -> P (u :: s)) ->
  (forall u v s, pair u v -> P s -> P (u :: v :: s)) ->
  forall s, well_formed s = true -> P s.
Proof.
  intros H0 H1 H2 s. remember (length s) as n eqn:Hn. revert s Hn.
  induction (lt_wf n) as [n _ IH]. intros [|u s] -> Hwf; [done|].
  destruct (well_formed_inv _ _ Hwf) as [[Hb Hs] | (v & s' & -> & Hp & Hs)].
  - apply H1; [done|]. eapply IH; [|done|done]. simpl; lia.
  - apply H2; [done|]. eapply IH; [|done|done]. simpl; lia.
Qed.

Lemma utf16_decode_bmp u s : bmp u -> utf16_decode (u :: s) = u :: utf16_decode s.
Proof. intros (_ & Hh & Hl). simpl. by rewrite Hh, Hl. Qed.

Lemma utf16_decode_pair u v s : pair u v ->
  utf16_decode (u :: v :: s) = (65536 + (u - 55296) * 1024 + (v - 56320)) :: utf16_decode s.
Proof. intros (Hh & Hl). simpl. by rewrite Hh, Hl. Qed.

Lemma utf16_decode_scalar s : well_formed s = true -> Forall is_scalar (utf16_decode s).
Proof.
  revert s. apply well_formed_ind; [constructor|..].
  - intros u s Hb IH. rewrite utf16_decode_bmp by done. constructor; [|done].
    unfold bmp, is_high, is_low, is_scalar in *. lia.
  - intros u v s Hp IH. rewrite utf16_decode_pair by done. constructor; [|done].
    unfold pair, is_high, is_low, is_scalar in *. lia.
Qed.

Lemma utf16_units_pair u v : pair u v ->
  utf16_units (65536 + (u - 55296) * 1024 + (v - 56320)) = [u; v].
Proof.
  unfold pair, is_high, is_low, utf16_units. intros Hp.
  destruct (Z.ltb_spec (65536 + (u - 55296) * 1024 + (v - 56320)) 65536); [lia|].
  f_equal; [|f_equal]; Z.to_euclidean_division_equations; lia.
Qed.

Lemma utf16_roundtrip s : well_formed s = true -> utf16_encode (utf16_decode s) = s.
Proof.
  unfold utf16_encode. revert s. apply well_formed_ind; [done|..].
  - intros u s Hb IH. rewrite utf16_decode_bmp by done. cbn [flat_map]. rewrite IH.
    unfold utf16_units, bmp in *. destruct (Z.ltb_spec u 65536); [done | lia].
  - intros u v s Hp IH. rewrite utf16_decode_pair by done. cbn [flat_map].
    by rewrite utf16_units_pair, IH.
Qed.

(** Resolve the conditionals of the goal by arithmetic. *)
Ltac zdiv_lia := Z.to_euclidean_division_equations; lia.
Ltac if_lia :=
  repeat match goal with
  | |- context [if ?b then _ else _] =>
      first [replace b with true by zdiv_lia | replace b with false by zdiv_lia]
  end.

(** The decoder recovers each encoded scalar value and goes on with the rest. *)
Lemma utf8_loop_enc cp rest : is_scalar cp ->
  utf8_loop (utf8_enc cp ++ rest) 0 0 128 191 = cp :: utf8_loop rest 0 0 128 191.
Proof.
  intros Hs. unfold is_scalar in Hs. unfold utf8_enc.
  destruct (Z.ltb_spec cp 128); [|destruct (Z.ltb_spec cp 2048); [|destruct (Z.ltb_spec cp 65536)]];
    cbn [app utf8_loop Z.eqb]; unfold utf8_first; if_lia; try done.
  - f_equal. zdiv_lia.
  - destruct (Z.eqb_spec (224 + cp / 4096) 224), (Z.eqb_spec (224 + cp / 4096) 237);
      if_lia; f_equal; zdiv_lia.
  - destruct (Z.eqb_spec (240 + cp / 262144) 240), (Z.eqb_spec (240 + cp / 262144) 244);
      if_lia; f_equal; zdiv_lia.
Qed.

Lemma utf8_roundtrip cps : Forall is_scalar cps ->
  utf8_loop (flat_map utf8_enc cps) 0 0 128 191 = cps.
Proof.
  induction 1 as [|cp cps Hcp _ IH]; [done|].
  cbn [flat_map]. by rewrite utf8_loop_enc, IH.
Qed.

Lemma text_roundtrip s : text_ok s = true -> text_decode (text_encode s) = s.
Proof.
  unfold text_ok, text_decode, text_encode. intros [Hwf Hbom]%andb_true_iff.
  rewrite utf8_roundtrip by by apply utf16_decode_scalar.
  replace (strip_bom (utf16_decode s)) with (utf16_decode s); [by apply utf16_roundtrip|].
  destruct s as [|u s]; [done|]. apply negb_true_iff in Hbom.
  destruct (well_formed_inv _ _ Hwf) as [[Hb _] | (v & s' & -> & Hp & _)].
  - rewrite utf16_decode_bmp by done. simpl. by rewrite Hbom.
  - rewrite utf16_decode_pair by done. simpl.
    unfold pair, is_high, is_low in Hp. by if_lia.
Qed.

Lemma utf8_enc_byte cp : is_scalar cp -> Forall is_byte (utf8_enc cp).
Proof.
  intros Hs. unfold is_scalar, utf8_enc, is_byte in *.
  repeat case_match; repeat constructor; try zdiv_lia.
Qed.

Lemma text_encode_byte s : well_formed s = true -> Forall is_byte (text_encode s).
Proof.
  intros Hwf%utf16_decode_scalar. unfold text_encode.
  induction Hwf as [|cp cps Hcp _ IH]; [constructor|].
  apply Forall_app. split; [by apply utf8_enc_byte | done].
Qed.

Lemma text_ok_wf s : text_ok s = true -> well_formed s = true.
Proof. by intros [? _]%andb_true_iff. Qed.

Example text_roundtrip_emoji :
  text_encode [55357; 56832; 65] = [240; 159; 152; 128; 65] /\
  text_decode [240; 159; 152; 128; 65] = [55357; 56832; 65].
Proof. split; reflexivity. Qed.
Example text_decode_malformed :
  text_decode [226; 130; 65; 255] = [65533; 65; 65533].
Proof. reflexivity. Qed.
