(* ===== verification/FlatBuffers.v ===== *)
(** * The flatbuffers runtime library, as the generated code sees it

    The npm package [flatbuffers] is not part of the repository. The operations
    the sources call are the class [FlatBuffers]; what they rely on is the class
    [FlatBuffersLaws], stated over a logical view of a builder: the objects
    finished so far and the table or vector under construction. [FbReference]
    gives an implementation of the wire format that satisfies the laws. *)

From S2P Require Import Prelude JsPlatform.

(** ** Interface *)

(** The [encoding] argument of string accessors, and what they return. *)
Inductive Encoding : Type := UTF8_BYTES | UTF16_STRING.
Inductive text : Type :=
| Str (s : jsstring)
| Utf8 (bs : list Z).

(** The two members every generated table class declares. *)
Record fbtable (BB : Type) := mkTable { bb : option BB; bb_pos : Z }.
Arguments mkTable {BB} bb bb_pos.
Arguments bb {BB} f.
Arguments bb_pos {BB} f.

Definition SIZE_PREFIX_LENGTH : Z := 4.

Class FlatBuffers := {
  Builder : Type;
  ByteBuffer : Type;
  (* Builder: tables *)
  new_Builder : Z -> Builder;
  startObject : Z -> stm Builder exn unit;
  addFieldInt8 : Z -> Z -> Z -> stm Builder exn unit;
  addFieldInt32 : Z -> Z -> Z -> stm Builder exn unit;
  addFieldFloat32 : Z -> number -> number -> stm Builder exn unit;
  addFieldOffset : Z -> Z -> Z -> stm Builder exn unit;
  endObject : stm Builder exn Z;
  (* Builder: vectors and strings *)
  startVector : Z -> Z -> Z -> stm Builder exn unit;
  addInt8 : Z -> stm Builder exn unit;
  endVector : stm Builder exn Z;
  createString : text -> stm Builder exn Z;
  createByteVector : list Z -> stm Builder exn Z;
  (* Builder: inline structs *)
  prep : Z -> Z -> stm Builder exn unit;
  pad : Z -> stm Builder exn unit;
  writeInt8 : Z -> stm Builder exn unit;
  writeFloat32 : number -> stm Builder exn unit;
  offset : stm Builder exn Z;
  (* Builder: finishing *)
  finish : Z -> bool -> stm Builder exn unit;
  asUint8Array : stm Builder exn Uint8Array;
  (* ByteBuffer *)
  new_ByteBuffer : Uint8Array -> ByteBuffer;
  bytes : ByteBuffer -> Uint8Array;
  position : ByteBuffer -> Z;
  setPosition : Z -> ByteBuffer -> ByteBuffer;
  readInt8 : ByteBuffer -> Z -> Z;
  readUint8 : ByteBuffer -> Z -> Z;
  readInt32 : ByteBuffer -> Z -> Z;
  readUint32 : ByteBuffer -> Z -> Z;
  readFloat32 : ByteBuffer -> Z -> number;
  __offset : ByteBuffer -> Z -> Z -> Z;
  __string : ByteBuffer -> Z -> option Encoding -> text;
  __vector : ByteBuffer -> Z -> Z;
  __vector_len : ByteBuffer -> Z -> Z;
  __union : ByteBuffer -> fbtable ByteBuffer -> Z -> fbtable ByteBuffer;
  createScalarList : (Z -> outcome exn (option Z)) -> Z -> outcome exn (list Z);
}.

(** ** The logical view of a builder *)

(** A table field holds its inline bytes, or the offset of another object. *)
Inductive field : Type :=
| FInline (bs : list Z)
| FOff (o : Z).

Inductive object : Type :=
| OText (bs : list Z)
| OVec (n : Z) (bs : list Z)
| OTable (fs : gmap Z field).

Inductive nest : Type :=
| Idle
| InTable (n : Z) (fs : gmap Z field)
| InVec (esz n : Z) (bs : list Z).

(** [used] bounds the bytes written so far; [fin] is the root after [finish]. *)
Record LB := mkLB {
  objs : gmap Z object;
  cur : nest;
  used : Z;
  fin : option (Z * bool)
}.

Definition lb_new : LB := mkLB ∅ Idle 0 None.
Definition lb_step (l : LB) (c : Z) (k : nest) : LB := mkLB (objs l) k (used l + c) (fin l).
Definition lb_alloc (l : LB) (c o : Z) (x : object) : LB :=
  mkLB (<[o := x]> (objs l)) Idle (used l + c) (fin l).
Definition lb_finish (l : LB) (root : Z) (sp : bool) : LB :=
  mkLB (objs l) Idle (used l + 32) (Some (root, sp)).

(** A field equal to its default is not stored. *)
Definition put (fs : gmap Z field) (slot : Z) (stored : bool) (f : field) : gmap Z field :=
  if stored then <[slot := f]> fs else fs.

(** A builder cannot outgrow 1 GiB. *)
Definition fb_limit : Z := 2 ^ 30.

(** ** The logical view of a finished buffer *)
Section reading.
Context `{FB : FlatBuffers}.

(** [bs] stands at position [p] of the buffer. *)
Definition region (b : ByteBuffer) (p : Z) (bs : list Z) : Prop :=
  0 <= p /\ p + zlen bs <= zlen (u8_bytes (bytes b)) /\
  zslice (u8_bytes (bytes b)) p (zlen bs) = bs.

(** What following a reference at position [p] gives. *)
Definition ref_at (b : ByteBuffer) (addr : Z -> Z) (p t : Z) (x : object) : Prop :=
  match x with
  | OText bs =>
      __string b p None = Str (text_decode bs) /\
      __string b p (Some UTF16_STRING) = Str (text_decode bs) /\
      __string b p (Some UTF8_BYTES) = Utf8 bs
  | OVec n bs => __vector_len b p = n /\ region b (__vector b p) bs
  | OTable _ => forall t0, __union b t0 p = mkTable (Some b) (addr t)
  end.

Definition field_at (os : gmap Z object) (b : ByteBuffer) (addr : Z -> Z) (p : Z) (f : field) : Prop :=
  match f with
  | FInline bs => region b p bs
  | FOff t => exists x, os !! t = Some x /\ ref_at b addr p t x
  end.

(** The vtable entry of slot [i] is at vtable offset [4 + 2 * i]. *)
Definition slot_voffset (i : Z) : Z := 4 + 2 * i.

Definition table_at (os : gmap Z object) (b : ByteBuffer) (addr : Z -> Z) (pos : Z)
    (fs : gmap Z field) : Prop :=
  forall i, 0 <= i ->
  match fs !! i with
  | None => __offset b pos (slot_voffset i) = 0
  | Some f => __offset b pos (slot_voffset i) <> 0 /\
              field_at os b addr (pos + __offset b pos (slot_voffset i)) f
  end.

Definition prefix_len (sp : bool) : Z := if sp then SIZE_PREFIX_LENGTH else 0.

(** The bytes are a buffer whose root is [root] and which holds the objects [os]. *)
Definition holds (os : gmap Z object) (root : Z) (sp : bool) (payload : list Z) : Prop :=
  forall b, u8_bytes (bytes b) = payload ->
  exists addr,
    readInt32 b (prefix_len sp) + prefix_len sp = addr root /\
    forall o fs, os !! o = Some (OTable fs) -> table_at os b addr (addr o) fs.
End reading.

(** ** JavaScript idioms of the generated code *)

(** [offset ? ... : ...] and [!!n] on numbers; [+b] on booleans. *)
Definition truthy (z : Z) : bool := negb (z =? 0).
Definition bool_number (b : bool) : Z := if b then 1 else 0.

(** [this.bb!]: using it while it is null throws. *)
Definition deref {BB} (t : fbtable BB) : outcome exn BB :=
  match bb t with Some b => Ret b | None => Throw TypeError end.

(** ** Laws

    Documented behaviour of the runtime: how each builder call changes the
    logical view (as total-correctness rules), what the raw readers return on
    bytes that are present, and that a finished buffer holds its objects. *)
Class FlatBuffersLaws (FB : FlatBuffers) := {
  Rep : Builder -> LB -> Prop;
  Rep_new (n : Z) : 0 < n -> Rep (new_Builder n) lb_new;
  Rep_used_nonneg b l : Rep b l -> 0 <= used l;

  law_startObject b l n Q :
    Rep b l -> cur l = Idle -> fin l = None -> 0 <= n <= 1024 ->
    (forall b', Rep b' (lb_step l 0 (InTable n ∅)) -> Q tt b') ->
    wp (startObject n) b Q;
  law_startObject_nested b l n m fs :
    Rep b l -> cur l = InTable n fs -> exists b', startObject m b = (Throw LibError, b');
  law_addFieldInt8 b l n fs i v d Q :
    Rep b l -> cur l = InTable n fs -> 0 <= i < n -> fs !! i = None -> used l + 1 <= fb_limit ->
    (forall b', Rep b' (lb_step l 1 (InTable n (put fs i (negb (v =? d)) (FInline [to_uint 8 v])))) ->
       Q tt b') ->
    wp (addFieldInt8 i v d) b Q;
  law_addFieldInt32 b l n fs i v d Q :
    Rep b l -> cur l = InTable n fs -> 0 <= i < n -> fs !! i = None -> used l + 7 <= fb_limit ->
    (forall b', Rep b' (lb_step l 7 (InTable n (put fs i (negb (v =? d)) (FInline (le_bytes 4 v))))) ->
       Q tt b') ->
    wp (addFieldInt32 i v d) b Q;
  law_addFieldFloat32 b l n fs i v d Q :
    Rep b l -> cur l = InTable n fs -> 0 <= i < n -> fs !! i = None -> used l + 7 <= fb_limit ->
    (forall b', Rep b' (lb_step l 7 (InTable n (put fs i (negb (num_eqb v d)) (FInline (f32_bytes v))))) ->
       Q tt b') ->
    wp (addFieldFloat32 i v d) b Q;
  law_addFieldOffset b l n fs i o d Q :
    Rep b l -> cur l = InTable n fs -> 0 <= i < n -> fs !! i = None ->
    (o = d \/ is_Some (objs l !! o)) -> used l + 7 <= fb_limit ->
    (forall b', Rep b' (lb_step l 7 (InTable n (put fs i (negb (o =? d)) (FOff o)))) -> Q tt b') ->
    wp (addFieldOffset i o d) b Q;
  law_endObject b l n fs Q :
    Rep b l -> cur l = InTable n fs -> used l + (2 * n + 12) <= fb_limit ->
    (forall o b', o <> 0 -> objs l !! o = None ->
       Rep b' (lb_alloc l (2 * n + 12) o (OTable fs)) -> Q o b') ->
    wp endObject b Q;

  law_startVector b l esz n al Q :
    Rep b l -> cur l = Idle -> fin l = None -> 0 <= esz -> 0 <= n -> (al = 1 \/ al = 2 \/ al = 4) ->
    used l + 6 + esz * n <= fb_limit ->
    (forall b', Rep b' (lb_step l (6 + esz * n) (InVec esz n [])) -> Q tt b') ->
    wp (startVector esz n al) b Q;
  law_startVector_nested b l n fs esz m al :
    Rep b l -> cur l = InTable n fs -> exists b', startVector esz m al b = (Throw LibError, b');
  law_addInt8 b l esz n bs v Q :
    Rep b l -> cur l = InVec esz n bs -> zlen bs + 1 <= esz * n ->
    (forall b', Rep b' (lb_step l 0 (InVec esz n (to_uint 8 v :: bs))) -> Q tt b') ->
    wp (addInt8 v) b Q;
  law_prep b l esz n bs sz add Q :
    Rep b l -> cur l = InVec esz n bs -> (sz = 1 \/ sz = 2 \/ sz = 4) ->
    zlen bs + add <= esz * n -> 0 <= add ->
    (esz * n) mod sz = 0 -> (zlen bs) mod sz = 0 -> add mod sz = 0 ->
    (forall b', Rep b' l -> Q tt b') ->
    wp (prep sz add) b Q;
  law_pad b l esz n bs k Q :
    Rep b l -> cur l = InVec esz n bs -> 0 <= k -> zlen bs + k <= esz * n ->
    (forall b', Rep b' (lb_step l 0 (InVec esz n (zeros k ++ bs))) -> Q tt b') ->
    wp (pad k) b Q;
  law_writeInt8 b l esz n bs v Q :
    Rep b l -> cur l = InVec esz n bs -> zlen bs + 1 <= esz * n ->
    (forall b', Rep b' (lb_step l 0 (InVec esz n (to_uint 8 v :: bs))) -> Q tt b') ->
    wp (writeInt8 v) b Q;
  law_writeFloat32 b l esz n bs v Q :
    Rep b l -> cur l = InVec esz n bs -> zlen bs + 4 <= esz * n ->
    (forall b', Rep b' (lb_step l 0 (InVec esz n (f32_bytes v ++ bs))) -> Q tt b') ->
    wp (writeFloat32 v) b Q;
  law_offset b l Q :
    Rep b l -> (forall o, Q o b) -> wp offset b Q;
  law_endVector b l esz n bs Q :
    Rep b l -> cur l = InVec esz n bs -> zlen bs = esz * n -> n < 2 ^ 31 -> used l + 4 <= fb_limit ->
    (forall o b', o <> 0 -> objs l !! o = None -> Rep b' (lb_alloc l 4 o (OVec n bs)) -> Q o b') ->
    wp endVector b Q;
  law_createString b l s Q :
    let bs := match s with Str s' => text_encode s' | Utf8 bs => bs end in
    Rep b l -> cur l = Idle -> fin l = None -> Forall is_byte bs -> used l + zlen bs + 16 <= fb_limit ->
    (forall o b', o <> 0 -> objs l !! o = None ->
       Rep b' (lb_alloc l (zlen bs + 16) o (OText bs)) -> Q o b') ->
    wp (createString s) b Q;
  law_createByteVector b l bs Q :
    Rep b l -> cur l = Idle -> fin l = None -> Forall is_byte bs -> used l + zlen bs + 16 <= fb_limit ->
    (forall o b', o <> 0 -> objs l !! o = None ->
       Rep b' (lb_alloc l (zlen bs + 16) o (OVec (zlen bs) bs)) -> Q o b') ->
    wp (createByteVector bs) b Q;

  law_finish b l root fs sp Q :
    Rep b l -> cur l = Idle -> fin l = None -> objs l !! root = Some (OTable fs) ->
    used l + 32 <= fb_limit ->
    (forall b', Rep b' (lb_finish l root sp) -> Q tt b') ->
    wp (finish root sp) b Q;
  law_asUint8Array b l root sp Q :
    Rep b l -> fin l = Some (root, sp) ->
    (forall u b', u8_wf u -> u8_length u <= used l -> holds (objs l) root sp (u8_bytes u) -> Q u b') ->
    wp asUint8Array b Q;

  law_bytes u : bytes (new_ByteBuffer u) = u;
  law_position u : position (new_ByteBuffer u) = 0;
  law_bytes_setPosition p b : bytes (setPosition p b) = bytes b;
  law_position_setPosition p b : position (setPosition p b) = p;
  law_readUint8 b p x : region b p [x] -> is_byte x -> readUint8 b p = x;
  law_readInt8 b p x : region b p [x] -> is_byte x -> readInt8 b p = to_sint 8 x;
  law_readUint32 b p bs :
    region b p bs -> Forall is_byte bs -> zlen bs = 4 -> readUint32 b p = le_value bs;
  law_readFloat32 b p bs :
    region b p bs -> Forall is_byte bs -> zlen bs = 4 -> readFloat32 b p = f32_value bs;
  law_createScalarList f n vs :
    (forall i v, vs !! i = Some v -> f (Z.of_nat i) = Ret (Some v)) -> n = zlen vs ->
    createScalarList f n = Ret vs;
}.

(** ** Derived rules *)

(** [x] has been added at offset [o], at a cost of at most [c] bytes. *)
Definition allocated (l l' : LB) (c o : Z) (x : object) : Prop :=
  o <> 0 /\ objs l !! o = None /\ objs l' = <[o := x]> (objs l) /\
  cur l' = Idle /\ fin l' = None /\ used l <= used l' <= used l + c.

(** Ready for the next object. *)
Definition ready (l : LB) (c : Z) : Prop := cur l = Idle /\ fin l = None /\ used l + c <= fb_limit.

(** An offset argument: null, or a finished object. *)
Definition off_ok (l : LB) (o : Z) : Prop := o = 0 \/ is_Some (objs l !! o).

Definition stored (st : bool) (f : field) : option field := if st then Some f else None.

Lemma lookup_put_ne fs i j st f : i <> j -> put fs i st f !! j = fs !! j.
Proof. intros. unfold put. destruct st; [by apply lookup_insert_ne | done]. Qed.

Lemma lookup_put_eq fs i st f : fs !! i = None -> put fs i st f !! i = stored st f.
Proof. intros. unfold put. destruct st; [apply lookup_insert_eq | done]. Qed.

(** Evaluate [put ... !! i] at literal slots. *)
Ltac put_lookup :=
  repeat (rewrite lookup_put_ne by lia);
  first [ reflexivity | by apply lookup_put_eq; put_lookup | apply lookup_empty ].

Ltac lb_simpl := cbn [cur objs used fin lb_step lb_alloc lb_finish lb_new] in *.

Lemma allocated_lookup l l' c o x : allocated l l' c o x -> objs l' !! o = Some x.
Proof. intros (_ & _ & -> & _). apply lookup_insert_eq. Qed.

Lemma allocated_old l l' c o x t y :
  allocated l l' c o x -> objs l !! t = Some y -> objs l' !! t = Some y.
Proof.
  intros (_ & Hn & -> & _) Ht. rewrite lookup_insert_ne; [done|]. congruence.
Qed.

Lemma allocated_off_ok l l' c o x t : allocated l l' c o x -> off_ok l t -> off_ok l' t.
Proof.
  intros H [->|[y Hy]]; [by left | right]. exists y. by eapply allocated_old.
Qed.

Lemma allocated_self l l' c o x : allocated l l' c o x -> off_ok l' o.
Proof. intros H. right. rewrite (allocated_lookup _ _ _ _ _ H). eauto. Qed.

Lemma allocated_ready l l' c o x k : allocated l l' c o x -> ready l (c + k) -> ready l' k.
Proof. unfold allocated, ready. intros (? & ? & ? & ? & ? & ?) (? & ? & ?). split_and!; auto; lia. Qed.

Lemma ready_new c : c <= fb_limit -> ready lb_new c.
Proof. unfold ready. simpl. auto with lia. Qed.

Create HintDb fb.
#[export] Hint Resolve allocated_lookup allocated_old allocated_off_ok allocated_self : fb.

Section facts.
#[local] Set Default Proof Using "Type*".
Context {FB : FlatBuffers} {FL : FlatBuffersLaws FB}.

Lemma addInt8s_spec b l esz n bs data Q :
  Rep b l -> cur l = InVec esz n bs -> zlen bs + zlen data <= esz * n ->
  (forall b', Rep b' (lb_step l 0 (InVec esz n (map (to_uint 8) data ++ bs))) -> Q tt b') ->
  wp (for_each (rev data) addInt8) b Q.
Proof.
  revert b l bs Q. induction data as [|x data IH] using rev_ind; intros b l bs Q H Hc Hlen HQ.
  - apply wp_ret, HQ. unfold lb_step. simpl. rewrite Z.add_0_r, <- Hc. by destruct l.
  - rewrite rev_app_distr. simpl. apply wp_bind. autorewrite with zlen in Hlen.
    pose proof (zlen_nonneg data).
    eapply law_addInt8; [done | done | lia |]. intros b' H'.
    eapply (IH b' _ (to_uint 8 x :: bs)); [done | done | rewrite zlen_cons; lia |].
    intros b'' H''. apply HQ. rewrite map_app, <- app_assoc.
    unfold lb_step in *. simpl in *. by rewrite !Z.add_0_r in *.
Qed.

(** A vector of bytes written element by element, as the generated code does. *)
Lemma byteVector_spec b l data c Q :
  Rep b l -> ready l c -> zlen data + 10 <= c ->
  (forall o b' l', Rep b' l' -> allocated l l' c o (OVec (zlen data) (map (to_uint 8) data)) -> Q o b') ->
  wp (startVector 1 (zlen data) 1 ≫= fun _ => for_each (rev data) addInt8 ≫= fun _ => endVector) b Q.
Proof.
  intros H (Hc & Hf & Hu) Hlen HQ. pose proof (zlen_nonneg data).
  pose proof (Rep_used_nonneg _ _ H). assert (fb_limit < 2 ^ 31) by done.
  apply wp_bind. eapply law_startVector; [done | done | done | lia | lia | auto | lia |].
  intros b1 HR1. apply wp_bind.
  eapply (addInt8s_spec _ _ 1 (zlen data) []); [exact HR1 | done | rewrite zlen_nil; lia |].
  rewrite app_nil_r. intros b2 HR2.
  assert (zlen (map (to_uint 8) data) = zlen data) as Hm by (unfold zlen; by rewrite length_map).
  eapply (law_endVector _ _ 1 (zlen data)); [exact HR2 | done | lia | lia | lb_simpl; lia |].
  intros o b3 Ho Hn HR3. eapply HQ; [exact HR3|]. unfold allocated. lb_simpl.
  split_and!; try done; lia.
Qed.

Lemma string_spec b l s c Q :
  let bs := match s with Str s' => text_encode s' | Utf8 bs => bs end in
  Rep b l -> ready l c -> Forall is_byte bs -> zlen bs + 16 <= c ->
  (forall o b' l', Rep b' l' -> allocated l l' c o (OText bs) -> Q o b') ->
  wp (createString s) b Q.
Proof.
  intros bs H (Hc & Hf & Hu) Hb Hlen HQ. pose proof (zlen_nonneg bs).
  apply (law_createString b l s Q); [done | done | done | done | fold bs; lia |].
  fold bs. intros o b' Ho Hn H'. eapply HQ; [exact H'|]. unfold allocated. lb_simpl.
  split_and!; try done; lia.
Qed.

Lemma createByteVector_spec b l bs c Q :
  Rep b l -> ready l c -> Forall is_byte bs -> zlen bs + 16 <= c ->
  (forall o b' l', Rep b' l' -> allocated l l' c o (OVec (zlen bs) bs) -> Q o b') ->
  wp (createByteVector bs) b Q.
Proof.
  intros H (Hc & Hf & Hu) Hb Hlen HQ. pose proof (zlen_nonneg bs).
  apply (law_createByteVector b l bs Q); [done | done | done | done | lia |].
  intros o b' Ho Hn H'. eapply HQ; [exact H'|]. unfold allocated. lb_simpl.
  split_and!; try done; lia.
Qed.

(** Finish with root [o] and take the bytes. *)
Lemma finish_spec b l root fs sp c Q :
  Rep b l -> ready l c -> 32 <= c -> objs l !! root = Some (OTable fs) ->
  (forall u b', u8_wf u -> u8_length u <= used l + 32 -> holds (objs l) root sp (u8_bytes u) -> Q u b') ->
  wp (finish root sp ≫= fun _ => asUint8Array) b Q.
Proof.
  intros H (Hc & Hf & Hu) H32 Hr HQ. apply wp_bind.
  eapply law_finish; [done | done | done | done | lia |]. intros b' H'.
  eapply law_asUint8Array; [exact H' | done |]. lb_simpl. auto.
Qed.

(** ** Reading tables *)

(** The table object [t] stands at the object [o] of a buffer holding [os]. *)
Definition shows (os : gmap Z object) (o : Z) (t : fbtable ByteBuffer) : Prop :=
  exists b addr, bb t = Some b /\ bb_pos t = addr o /\ u8_wf (bytes b) /\
    forall o' fs, os !! o' = Some (OTable fs) -> table_at os b addr (addr o') fs.

Lemma shows_root os root payload u :
  holds os root false payload -> u8_bytes u = payload -> u8_wf u ->
  shows os root (mkTable (Some (new_ByteBuffer u))
    (readInt32 (new_ByteBuffer u) (position (new_ByteBuffer u)) + position (new_ByteBuffer u))).
Proof.
  intros H Hu Hwf. destruct (H (new_ByteBuffer u)) as (addr & Hroot & Hall); [by rewrite law_bytes|].
  exists (new_ByteBuffer u), addr. rewrite law_position, law_bytes. simpl. auto.
Qed.

Lemma shows_root_prefixed os root payload u :
  holds os root true payload -> u8_bytes u = payload -> u8_wf u ->
  let b0 := new_ByteBuffer u in
  let b := setPosition (position b0 + SIZE_PREFIX_LENGTH) b0 in
  shows os root (mkTable (Some b) (readInt32 b (position b) + position b)).
Proof.
  intros H Hu Hwf b0 b. subst b0 b.
  set (b := setPosition _ _). destruct (H b) as (addr & Hroot & Hall).
  { subst b. by rewrite law_bytes_setPosition, law_bytes. }
  exists b, addr. subst b. rewrite law_position_setPosition, law_bytes_setPosition, law_position, law_bytes in *.
  simpl in *. auto.
Qed.

(** The object an offset argument refers to, if it is not null. *)
Definition off_is (os : gmap Z object) (r : Z) (x : option object) : Prop :=
  match x with None => r = 0 | Some x => r <> 0 /\ os !! r = Some x end.

(** A string field as the encoding argument asks for it. *)
Definition text_as (enc : option Encoding) (bs : list Z) : text :=
  match enc with Some UTF8_BYTES => Utf8 bs | _ => Str (text_decode bs) end.

Lemma off_is_stored os r x :
  off_is os r x ->
  stored (negb (r =? 0)) (FOff r) = (fun _ => FOff r) <$> x /\ from_option (fun x => os !! r = Some x) True x.
Proof.
  destruct x as [x|]; simpl; [|by intros ->]. intros [Hne Hr].
  apply Z.eqb_neq in Hne. by rewrite Hne.
Qed.

Lemma region_elem b p bs k x :
  region b p bs -> 0 <= k -> bs !! Z.to_nat k = Some x -> region b (p + k) [x].
Proof.
  intros (Hp & Hlen & Hs) Hk Hx. pose proof (lookup_lt_Some _ _ _ Hx) as Hlt.
  assert (k < zlen bs) by (unfold zlen; lia). unfold region. autorewrite with zlen.
  split_and!; [lia | lia |]. rewrite <- Hs in Hx. rewrite zslice_lookup in Hx by lia.
  unfold zslice. change (Z.to_nat (1 + 0)) with 1%nat.
  apply drop_S in Hx. by rewrite Hx.
Qed.

Lemma region_byte b p bs : u8_wf (bytes b) -> region b p bs -> Forall is_byte bs.
Proof.
  intros (_ & _ & _ & Hall) (Hp & Hlen & Hs).
  rewrite <- Hs. unfold u8_bytes, zslice. by do 2 apply Forall_take, Forall_drop.
Qed.

(** A [Uint8Array] over a region of the buffer's bytes. *)
Lemma region_view b p bs :
  u8_wf (bytes b) -> region b p bs ->
  exists u, u8_view (u8_buffer (bytes b)) (u8_byteOffset (bytes b) + p) (zlen bs) = Ret u /\
    u8_bytes u = bs /\ u8_wf u.
Proof.
  intros (H0 & Hn & Hlen & Hall) (Hp & Hle & Hs). pose proof (zlen_nonneg bs).
  assert (zlen (u8_bytes (bytes b)) = u8_length (bytes b)) as Hz by (apply zlen_zslice; lia).
  unfold u8_view. rewrite (proj2 (Z.leb_le _ _)), (proj2 (Z.leb_le _ _)), (proj2 (Z.leb_le _ _)) by lia.
  simpl. eexists. split; [done|]. unfold u8_bytes in *. simpl. split.
  - rewrite <- Hs at 2. by rewrite zslice_zslice by lia.
  - unfold u8_wf. simpl. split_and!; [lia | lia | lia | done].
Qed.

Section accessors.
Context (os : gmap Z object) (o : Z) (t : fbtable ByteBuffer) (fs : gmap Z field) (i : Z).
Hypothesis Hshow : shows os o t.
Hypothesis Ho : os !! o = Some (OTable fs).
Hypothesis Hi : 0 <= i.
Let voff : Z := slot_voffset i.

Lemma acc_absent {A} (k : ByteBuffer -> Z -> A) (d : A) :
  fs !! i = None ->
  (this_bb ← deref t;
   let offset := __offset this_bb (bb_pos t) voff in
   Ret (if truthy offset then k this_bb (bb_pos t + offset) else d)) = Ret d.
Proof.
  intros Hf. destruct Hshow as (b & addr & Hb & Hp & Hwf & Hall).
  specialize (Hall _ _ Ho i Hi). rewrite Hf in Hall. unfold deref. rewrite Hb. simpl.
  unfold voff. rewrite Hp, Hall. done.
Qed.

Lemma acc_present {A} (k : ByteBuffer -> Z -> A) (d : A) f (P : A -> Prop) :
  fs !! i = Some f ->
  (forall b addr p, u8_wf (bytes b) ->
     (forall o' fs', os !! o' = Some (OTable fs') -> table_at os b addr (addr o') fs') ->
     field_at os b addr p f -> P (k b p)) ->
  exists a, (this_bb ← deref t;
   let offset := __offset this_bb (bb_pos t) voff in
   Ret (if truthy offset then k this_bb (bb_pos t + offset) else d)) = Ret a /\ P a.
Proof.
  intros Hf HP. destruct Hshow as (b & addr & Hb & Hp & Hwf & Hall).
  pose proof (Hall _ _ Ho i Hi) as Hs. rewrite Hf in Hs. destruct Hs as [Hne Hat].
  unfold deref. rewrite Hb. simpl. unfold voff. rewrite Hp. unfold truthy.
  apply Z.eqb_neq in Hne. rewrite Hne. simpl. eauto.
Qed.

Lemma acc_uint32 v :
  fs !! i = stored (negb (v =? 0)) (FInline (le_bytes 4 v)) -> is_uint32 v ->
  (this_bb ← deref t;
   let offset := __offset this_bb (bb_pos t) voff in
   Ret (if truthy offset then readUint32 this_bb (bb_pos t + offset) else 0)) = Ret v.
Proof.
  intros Hf Hv. destruct (Z.eqb_spec v 0) as [Hz|Hz]; [subst v|]; cbn [negb stored] in Hf; [by apply acc_absent|].
  edestruct (acc_present readUint32 0 _ (fun a => a = v) Hf) as (a & -> & ->); [|done].
  intros b addr p Hwf _ Hr. erewrite law_readUint32; [|exact Hr|apply le_bytes_byte|done].
  rewrite le_value_bytes. apply Z.mod_small. exact Hv.
Qed.

Lemma acc_bool a :
  fs !! i = stored (negb (bool_number a =? bool_number false)) (FInline [to_uint 8 (bool_number a)]) ->
  (this_bb ← deref t;
   let offset := __offset this_bb (bb_pos t) voff in
   Ret (if truthy offset then truthy (readInt8 this_bb (bb_pos t + offset)) else false)) = Ret a.
Proof.
  intros Hf. destruct a; cbn [negb stored] in Hf; [|by apply (acc_absent (fun b p => truthy (readInt8 b p)))].
  edestruct (acc_present (fun b p => truthy (readInt8 b p)) false _ (fun a => a = true) Hf) as (a & -> & ->);
    [|done].
  intros b addr p Hwf _ Hr. erewrite law_readInt8; [|exact Hr|done]. done.
Qed.

(** The same field where true is the byte one. *)
Lemma acc_bool_byte a :
  fs !! i = stored (negb (bool_number a =? bool_number false)) (FInline [to_uint 8 (bool_number a)]) ->
  (this_bb ← deref t;
   let offset := __offset this_bb (bb_pos t) voff in
   Ret (if truthy offset then readUint8 this_bb (bb_pos t + offset) =? 1 else false)) = Ret a.
Proof.
  intros Hf. destruct a; cbn [negb stored] in Hf; [|by apply (acc_absent (fun b p => readUint8 b p =? 1))].
  edestruct (acc_present (fun b p => readUint8 b p =? 1) false _ (fun a => a = true) Hf) as (a & -> & ->); [|done].
  intros b addr p Hwf _ Hr. erewrite law_readUint8; [|exact Hr|done]. done.
Qed.

Lemma acc_uint8 v d :
  fs !! i = stored (negb (v =? d)) (FInline [to_uint 8 v]) -> is_byte v ->
  (this_bb ← deref t;
   let offset := __offset this_bb (bb_pos t) voff in
   Ret (if truthy offset then readUint8 this_bb (bb_pos t + offset) else d)) = Ret v.
Proof.
  intros Hf Hv. destruct (Z.eqb_spec v d) as [Hz|Hz]; [subst v|]; cbn [negb stored] in Hf; [by apply acc_absent|].
  assert (to_uint 8 v = v) as Hw by (apply Z.mod_small; exact Hv). rewrite Hw in Hf.
  edestruct (acc_present readUint8 d _ (fun a => a = v) Hf) as (a & -> & ->); [|done].
  intros b addr p Hwf _ Hr. by erewrite law_readUint8; [|exact Hr|].
Qed.

(** A float32 field: the default is not stored, everything else is rounded. *)
Definition float_field (x : number) : number := if num_eqb x num_zero then num_zero else fround x.

Lemma acc_float32 x :
  fs !! i = stored (negb (num_eqb x num_zero)) (FInline (f32_bytes x)) ->
  (this_bb ← deref t;
   let offset := __offset this_bb (bb_pos t) voff in
   Ret (if truthy offset then readFloat32 this_bb (bb_pos t + offset) else num_zero)) = Ret (float_field x).
Proof.
  intros Hf. unfold float_field. destruct (num_eqb x num_zero); cbn [negb stored] in Hf; [by apply acc_absent|].
  edestruct (acc_present readFloat32 num_zero _ (fun a => a = fround x) Hf) as (a & Ha & ->); [|exact Ha].
  intros b addr p Hwf _ Hr. erewrite law_readFloat32; [|exact Hr|apply f32_bytes_byte|done].
  apply f32_roundtrip.
Qed.

(** A union field: the table the offset refers to. *)
Lemma acc_union r mfs t0 :
  fs !! i = stored (negb (r =? 0)) (FOff r) -> off_is os r (OTable <$> mfs) ->
  exists res,
    (this_bb ← deref t;
     let offset := __offset this_bb (bb_pos t) voff in
     Ret (if truthy offset then Some (__union this_bb t0 (bb_pos t + offset)) else None)) = Ret res /\
    match mfs with None => res = None | Some _ => exists t', res = Some t' /\ shows os r t' end.
Proof.
  intros Hf Hr. apply off_is_stored in Hr as [Hst Hr]. rewrite Hst in Hf.
  destruct mfs as [fs'|]; cbn [stored fmap option_fmap option_map] in *.
  - eapply (acc_present (fun b p => Some (__union b t0 p)) None _
      (fun res => exists t', res = Some t' /\ shows os r t') Hf).
    intros b addr p Hwf Hall (x & Hx & Hat). rewrite Hr in Hx. injection Hx as <-.
    rewrite Hat. eexists. split; [done|]. exists b, addr. done.
  - exists None. split; [|done]. by apply (acc_absent (fun b p => Some (__union b t0 p))).
Qed.

(** A string field in the encoding asked for. *)
Lemma acc_text r mbs enc :
  fs !! i = stored (negb (r =? 0)) (FOff r) -> off_is os r (OText <$> mbs) ->
  (this_bb ← deref t;
   let offset := __offset this_bb (bb_pos t) voff in
   Ret (if truthy offset then Some (__string this_bb (bb_pos t + offset) enc) else None)) =
  Ret (text_as enc <$> mbs).
Proof.
  intros Hf Hr. apply off_is_stored in Hr as [Hst Hr]. rewrite Hst in Hf.
  destruct mbs as [bs|]; cbn [stored fmap option_fmap option_map] in *;
    [|by apply (acc_absent (fun b p => Some (__string b p enc)))].
  edestruct (acc_present (fun b p => Some (__string b p enc)) None _
    (fun res => res = Some (text_as enc bs)) Hf) as (a & Ha & ->); [|exact Ha].
  intros b addr p Hwf Hall (x & Hx & Hat). rewrite Hr in Hx. injection Hx as <-.
  destruct Hat as (H1 & H2 & H3). f_equal. destruct enc as [[]|]; done.
Qed.

Lemma acc_vector_len r mv :
  fs !! i = stored (negb (r =? 0)) (FOff r) -> off_is os r (uncurry OVec <$> mv) ->
  (this_bb ← deref t;
   let offset := __offset this_bb (bb_pos t) voff in
   Ret (if truthy offset then __vector_len this_bb (bb_pos t + offset) else 0)) =
  Ret (default 0 (fst <$> mv)).
Proof.
  intros Hf Hr. apply off_is_stored in Hr as [Hst Hr]. rewrite Hst in Hf.
  destruct mv as [[n bs]|]; cbn [stored fmap option_fmap option_map] in *; [|by apply acc_absent].
  edestruct (acc_present __vector_len 0 _ (fun res => res = n) Hf) as (a & Ha & ->); [|exact Ha].
  intros b addr p Hwf Hall (x & Hx & Hat). rewrite Hr in Hx. injection Hx as <-. apply Hat.
Qed.

(** An element of a byte vector. *)
Lemma acc_byte r n bs k x :
  fs !! i = stored (negb (r =? 0)) (FOff r) -> off_is os r (Some (OVec n bs)) ->
  0 <= k -> bs !! Z.to_nat k = Some x ->
  (this_bb ← deref t;
   let offset := __offset this_bb (bb_pos t) voff in
   Ret (Some (if truthy offset then readUint8 this_bb (__vector this_bb (bb_pos t + offset) + k) else 0))) =
  Ret (Some x).
Proof.
  intros Hf [Hne Hr] Hk Hx. apply Z.eqb_neq in Hne. rewrite Hne in Hf. cbn [negb stored] in Hf.
  destruct (acc_present (fun b p => readUint8 b (__vector b p + k)) 0 _ (fun a => a = x) Hf) as (a & Ha & ->).
  { intros b addr p Hwf Hall (y & Hy & Hat). rewrite Hr in Hy. injection Hy as <-.
    destruct Hat as [_ Hreg]. eapply region_elem in Hreg; [|exact Hk|exact Hx].
    apply law_readUint8; [done|]. eapply Forall_inv, region_byte; done. }
  unfold deref in *. destruct (bb t); simpl in *; [|done]. by injection Ha as ->.
Qed.

(** The view a generated [...Array] accessor returns. *)
Lemma acc_bytes_array r mbs :
  fs !! i = stored (negb (r =? 0)) (FOff r) -> off_is os r ((fun bs => OVec (zlen bs) bs) <$> mbs) ->
  exists res,
    (this_bb ← deref t;
     let offset := __offset this_bb (bb_pos t) voff in
     if truthy offset then
       u ← u8_view (u8_buffer (bytes this_bb))
         (u8_byteOffset (bytes this_bb) + __vector this_bb (bb_pos t + offset))
         (__vector_len this_bb (bb_pos t + offset));
       Ret (Some u)
     else Ret None) = Ret res /\ u8_bytes <$> res = mbs /\ from_option u8_wf True res.
Proof.
  intros Hf Hr. apply off_is_stored in Hr as [Hst Hr]. rewrite Hst in Hf.
  destruct Hshow as (b & addr & Hb & Hp & Hwf & Hall).
  pose proof (Hall _ _ Ho i Hi) as Hs. rewrite Hf in Hs.
  unfold deref. rewrite Hb. simpl. unfold voff. rewrite Hp.
  destruct mbs as [bs|]; cbn [stored fmap option_fmap option_map] in *;
    [|exists None; by rewrite Hs].
  destruct Hs as [Hne (x & Hx & Hat)]. rewrite Hr in Hx. injection Hx as <-.
  destruct Hat as [Hn Hreg]. unfold truthy. apply Z.eqb_neq in Hne. rewrite Hne. simpl.
  rewrite Hn. destruct (region_view _ _ _ Hwf Hreg) as (u & -> & <- & Hu). simpl. eauto.
Qed.
End accessors.
End facts.
