(* ===== verification/FbTables.v ===== *)
(** * Tables as the generated [create...] functions build them

    Every generated [createX(builder, f1, ..., fk)] opens a table, adds its
    fields in order and closes it. [create_table] is that scheme over a list of
    [addField...] calls, proved correct once; each generated function is an
    instance of it by computation. *)

From S2P Require Import Prelude JsPlatform FlatBuffers.

(** One [addField...] call: slot, value, default. *)
Inductive add : Type :=
| AddInt8 (slot v d : Z)
| AddInt32 (slot v d : Z)
| AddFloat32 (slot : Z) (v d : number)
| AddOffset (slot o d : Z).

Definition add_slot (a : add) : Z :=
  match a with AddInt8 i _ _ | AddInt32 i _ _ | AddFloat32 i _ _ | AddOffset i _ _ => i end.

Definition add_stored (a : add) : bool :=
  match a with
  | AddInt8 _ v d | AddInt32 _ v d | AddOffset _ v d => negb (v =? d)
  | AddFloat32 _ v d => negb (num_eqb v d)
  end.

Definition add_field (a : add) : field :=
  match a with
  | AddInt8 _ v _ => FInline [to_uint 8 v]
  | AddInt32 _ v _ => FInline (le_bytes 4 v)
  | AddFloat32 _ v _ => FInline (f32_bytes v)
  | AddOffset _ o _ => FOff o
  end.

(** Offsets handed to a table refer to finished objects. *)
Definition add_ok (l : LB) (a : add) : Prop :=
  match a with AddOffset _ o d => o = d \/ is_Some (objs l !! o) | _ => True end.

Definition put_add (fs : gmap Z field) (a : add) : gmap Z field :=
  put fs (add_slot a) (add_stored a) (add_field a).

(** The fields of the finished table. *)
Definition table_fields (adds : list add) : gmap Z field := foldl put_add ∅ adds.

(** The builder moved on from [l] to [l'] by completing objects, at a cost of at
    most [c] bytes; everything finished before is still there. *)
Definition grows (l l' : LB) (c : Z) : Prop :=
  objs l ⊆ objs l' /\ cur l' = Idle /\ fin l' = None /\ used l <= used l' <= used l + c.

(** Byte vectors as objects. *)
Definition OBytes (bs : list Z) : object := OVec (zlen bs) bs.

(** The bytes a string argument stands for. *)
Definition text_bytes (s : text) : list Z :=
  match s with Str s' => text_encode s' | Utf8 bs => bs end.

Section build.
Context `{FB : FlatBuffers}.

Definition run_add (a : add) : stm Builder exn unit :=
  match a with
  | AddInt8 i v d => addFieldInt8 i v d
  | AddInt32 i v d => addFieldInt32 i v d
  | AddFloat32 i v d => addFieldFloat32 i v d
  | AddOffset i o d => addFieldOffset i o d
  end.

Fixpoint run_adds (adds : list add) : stm Builder exn Z :=
  match adds with
  | [] => endObject
  | a :: rest => run_add a ≫= fun _ => run_adds rest
  end.

Definition create_table (n : Z) (adds : list add) : stm Builder exn Z :=
  startObject n ≫= fun _ => run_adds adds.

(** Null offsets stand for absent strings and vectors. *)
Definition opt_string (s : option text) : stm Builder exn Z :=
  match s with Some s => createString s | None => mret 0 end.

Definition opt_vector (create : list Z -> stm Builder exn Z) (bs : option (list Z)) : stm Builder exn Z :=
  match bs with Some bs => create bs | None => mret 0 end.

(** Finish with a root and take the bytes. *)
Definition finish_bytes (root : Z) (sizePrefixed : bool) : stm Builder exn Uint8Array :=
  finish root sizePrefixed ≫= fun _ => asUint8Array.
End build.

Lemma lookup_put_add_ne fs a i : add_slot a <> i -> put_add fs a !! i = fs !! i.
Proof. apply lookup_put_ne. Qed.

Lemma foldl_put_add_notin adds fs i :
  Forall (fun a => add_slot a <> i) adds -> foldl put_add fs adds !! i = fs !! i.
Proof.
  intros H. revert fs. induction H as [|a adds Ha _ IH]; intros fs; simpl; [done|].
  rewrite IH. by apply lookup_put_add_ne.
Qed.

(** Side conditions of [create_table] that hold by computation on literal slots. *)
Definition slots_ok (n : Z) (adds : list add) : bool :=
  (0 <=? n) && (n <=? 1024) &&
  forallb (fun a => (0 <=? add_slot a) && (add_slot a <? n)) adds &&
  bool_decide (NoDup (map add_slot adds)).

(** The bytes [create_table] may use. *)
Definition table_cost (n : Z) (adds : list add) : Z := 7 * zlen adds + (2 * n + 12).

Section facts.
#[local] Set Default Proof Using "Type*".
Context {FB : FlatBuffers} {FL : FlatBuffersLaws FB}.

Lemma run_add_spec b l n fs a Q :
  Rep b l -> cur l = InTable n fs -> 0 <= add_slot a < n -> fs !! add_slot a = None ->
  add_ok l a -> used l + 7 <= fb_limit ->
  (forall b' l', Rep b' l' -> cur l' = InTable n (put_add fs a) -> objs l' = objs l ->
     fin l' = fin l -> used l <= used l' <= used l + 7 -> Q tt b') ->
  wp (run_add a) b Q.
Proof.
  intros HR Hc Hi Hf Hok Hu HQ.
  destruct a; simpl in *;
    [eapply law_addFieldInt8 | eapply law_addFieldInt32 | eapply law_addFieldFloat32 | eapply law_addFieldOffset];
    try done; try lia; intros b' HR'; (eapply HQ; [exact HR' | done | done | done | simpl; lia]).
Qed.

Lemma run_adds_spec adds b l n fs Q :
  Rep b l -> cur l = InTable n fs -> fin l = None ->
  Forall (fun a => 0 <= add_slot a < n /\ fs !! add_slot a = None /\ add_ok l a) adds ->
  NoDup (map add_slot adds) -> used l + table_cost n adds <= fb_limit -> 0 <= n ->
  (forall o b' l', Rep b' l' ->
     allocated l l' (table_cost n adds) o (OTable (foldl put_add fs adds)) -> Q o b') ->
  wp (run_adds adds) b Q.
Proof.
  revert b l fs Q. induction adds as [|a adds IH]; intros b l fs Q HR Hc Hfin Hall Hnd Hu Hn HQ; simpl.
  - unfold table_cost in *. autorewrite with zlen in *.
    eapply law_endObject; [done | done | lia |]. intros o b' Ho Hnone HR'. eapply HQ; [exact HR'|].
    unfold allocated. lb_simpl. split_and!; try done; lia.
  - apply Forall_cons_1 in Hall as [(Hi & Hf & Hok) Hall]. simpl in Hnd. apply (list.NoDup_cons) in Hnd as [Hnot Hnd].
    unfold table_cost in *. autorewrite with zlen in *. pose proof (zlen_nonneg adds).
    apply wp_bind. eapply run_add_spec; [done | done | done | done | done | lia |].
    intros b1 l1 HR1 Hc1 Hobjs Hfin1 Hu1.
    eapply (IH b1 l1); [done | done | congruence | | done | lia | done |].
    + apply Forall_forall. intros a' Ha'. rewrite Forall_forall in Hall.
      destruct (Hall a' Ha') as (? & ? & Hok'). split_and!; [lia | lia | |].
      * rewrite lookup_put_add_ne; [done|]. intros Heq. apply Hnot. rewrite Heq.
        apply list_elem_of_In, in_map. done.
      * destruct a'; simpl in *; rewrite ?Hobjs; done.
    + intros o b' l' HR' Hal. eapply HQ; [exact HR'|]. unfold allocated in *. rewrite Hobjs in Hal.
      destruct Hal as (? & ? & ? & ? & ? & ?). split_and!; try done; lia.
Qed.

Lemma create_table_spec b l n adds c Q :
  Rep b l -> ready l c -> slots_ok n adds = true -> Forall (add_ok l) adds -> table_cost n adds <= c ->
  (forall o b' l', Rep b' l' -> allocated l l' c o (OTable (table_fields adds)) -> Q o b') ->
  wp (create_table n adds) b Q.
Proof.
  intros HR (Hc & Hfin & Hu) Hs Hok Hcost HQ. unfold slots_ok in Hs. unfold create_table.
  apply andb_true_iff in Hs as [Hs Hnd]. apply andb_true_iff in Hs as [Hn Hslots].
  apply bool_decide_eq_true in Hnd. rewrite forallb_forall in Hslots.
  apply wp_bind. eapply law_startObject; [done | done | done | lia |]. intros b1 HR1.
  eapply (run_adds_spec adds b1 _ n ∅); [exact HR1 | done | done | | done | simpl; lia | lia |].
  - rewrite Forall_forall in Hok |- *. intros a Ha. specialize (Hok a Ha).
    specialize (Hslots a Ha). split_and!; [lia | lia | apply lookup_empty | by destruct a].
  - intros o b' l' HR' Hal. eapply HQ; [exact HR'|].
    unfold allocated in *. lb_simpl. destruct Hal as (? & ? & ? & ? & ? & ?).
    split_and!; try done; lia.
Qed.

Lemma allocated_grows l l' c o x : allocated l l' c o x -> grows l l' c.
Proof.
  intros (Hne & Hn & Ho & Hc & Hf & Hu). unfold grows. split_and!; auto; try lia.
  rewrite Ho. by apply insert_subseteq.
Qed.

Lemma allocated_off_is l l' c o x : allocated l l' c o x -> off_is (objs l') o (Some x).
Proof. intros Hal. split; [apply Hal | eauto using allocated_lookup]. Qed.

Lemma grows_refl l c : cur l = Idle -> fin l = None -> 0 <= c -> grows l l c.
Proof. unfold grows. auto with lia. Qed.

Lemma off_is_grows l l' c o x : grows l l' c -> off_is (objs l) o x -> off_is (objs l') o x.
Proof.
  intros (Hsub & _). destruct x as [x|]; simpl; [|done]. intros [Hne Hx].
  split; [done|]. by eapply lookup_weaken.
Qed.

Lemma grows_trans l1 l2 l3 c1 c2 : grows l1 l2 c1 -> grows l2 l3 c2 -> grows l1 l3 (c1 + c2).
Proof.
  unfold grows. intros (? & ? & ? & ?) (? & ? & ? & ?). split_and!; auto; try lia. by etrans.
Qed.

Lemma off_is_add_ok l i o x : off_is (objs l) o x -> add_ok l (AddOffset i o 0).
Proof. destruct x; simpl; [intros [_ ->]; eauto | auto]. Qed.

Lemma fits_new c : c <= fb_limit -> ready lb_new c.
Proof. unfold ready. simpl. auto with lia. Qed.

(** *** Building blocks, in terms of [grows] *)

Lemma table_spec b l n adds c Q :
  Rep b l -> ready l c -> slots_ok n adds = true -> Forall (add_ok l) adds -> table_cost n adds <= c ->
  (forall o b' l', Rep b' l' -> grows l l' c -> off_is (objs l') o (Some (OTable (table_fields adds))) ->
     Q o b') ->
  wp (create_table n adds) b Q.
Proof.
  intros. eapply create_table_spec; eauto using allocated_grows, allocated_off_is.
Qed.

Lemma opt_string_spec b l s c Q :
  Rep b l -> ready l c -> Forall is_byte (default [] (text_bytes <$> s)) ->
  zlen (default [] (text_bytes <$> s)) + 16 <= c ->
  (forall o b' l', Rep b' l' -> grows l l' c -> off_is (objs l') o (OText <$> (text_bytes <$> s)) -> Q o b') ->
  wp (opt_string s) b Q.
Proof.
  intros HR Hrd Hb Hc HQ. destruct s as [s|]; cbn [fmap option_fmap option_map default opt_string] in *.
  - eapply string_spec; [done | exact Hrd | exact Hb | exact Hc |].
    intros. eapply HQ; eauto using allocated_grows, allocated_off_is.
  - apply wp_ret. eapply HQ; [done | | done]. destruct Hrd as (? & ? & ?).
    apply grows_refl; auto. rewrite zlen_nil in Hc. lia.
Qed.

Lemma opt_vector_spec create b l bs c Q :
  (forall bs b l c Q, Rep b l -> ready l c -> Forall is_byte bs -> zlen bs + 16 <= c ->
     (forall o b' l', Rep b' l' -> allocated l l' c o (OBytes bs) -> Q o b') -> wp (create bs) b Q) ->
  Rep b l -> ready l c -> Forall is_byte (default [] bs) -> zlen (default [] bs) + 16 <= c ->
  (forall o b' l', Rep b' l' -> grows l l' c -> off_is (objs l') o (OBytes <$> bs) -> Q o b') ->
  wp (opt_vector create bs) b Q.
Proof.
  intros Hcreate HR Hrd Hb Hc HQ. destruct bs as [bs|]; cbn [fmap option_fmap option_map default opt_vector] in *.
  - eapply Hcreate; [done | exact Hrd | exact Hb | exact Hc |].
    intros. eapply HQ; eauto using allocated_grows, allocated_off_is.
  - apply wp_ret. eapply HQ; [done | | done]. destruct Hrd as (? & ? & ?).
    apply grows_refl; auto. rewrite zlen_nil in Hc. lia.
Qed.

Lemma map_to_uint_bytes bs : Forall is_byte bs -> map (to_uint 8) bs = bs.
Proof.
  induction 1 as [|x bs Hx _ IH]; simpl; [done|]. rewrite IH. f_equal. by apply Z.mod_small.
Qed.

(** The generated [create...Vector] loop on bytes. *)
Lemma byte_loop_spec bs b l c Q :
  Rep b l -> ready l c -> Forall is_byte bs -> zlen bs + 16 <= c ->
  (forall o b' l', Rep b' l' -> allocated l l' c o (OBytes bs) -> Q o b') ->
  wp (startVector 1 (zlen bs) 1 ≫= fun _ => for_each (rev bs) addInt8 ≫= fun _ => endVector) b Q.
Proof.
  intros HR Hrd Hb Hc HQ. eapply byteVector_spec; [done | exact Hrd | lia |].
  rewrite map_to_uint_bytes by done. exact HQ.
Qed.

Lemma finish_bytes_spec b l root fs sp Q :
  Rep b l -> ready l 32 -> off_is (objs l) root (Some (OTable fs)) ->
  (forall u b', u8_wf u -> u8_length u <= used l + 32 -> holds (objs l) root sp (u8_bytes u) -> Q u b') ->
  wp (finish_bytes root sp) b Q.
Proof. intros HR Hrd [_ Hr] HQ. eapply finish_spec; eauto. lia. Qed.

(** *** Roots *)

(** What [getRootAs...] and [getSizePrefixedRootAs...] build on a buffer. *)
Definition root_table (sp : bool) (b : ByteBuffer) : fbtable ByteBuffer :=
  let b := if sp then setPosition (position b + SIZE_PREFIX_LENGTH) b else b in
  mkTable (Some b) (readInt32 b (position b) + position b).

(** Whoever receives the bytes of [u] in an array of their own finds [P] at the root. *)
Definition decodes (u : Uint8Array) (root : ByteBuffer -> fbtable ByteBuffer)
    (P : fbtable ByteBuffer -> Prop) : Prop :=
  forall u', u8_wf u' -> u8_bytes u' = u8_bytes u -> P (root (new_ByteBuffer u')).

Lemma holds_decodes os o sp u P :
  holds os o sp (u8_bytes u) -> (forall t, shows os o t -> P t) -> decodes u (root_table sp) P.
Proof.
  intros Hh HP u' Hwf Hu. apply HP.
  destruct sp; [by eapply shows_root_prefixed | by eapply shows_root].
Qed.

Lemma finish_decodes b l root fs sp (P : fbtable ByteBuffer -> Prop) :
  Rep b l -> ready l 32 -> off_is (objs l) root (Some (OTable fs)) ->
  (forall t, shows (objs l) root t -> P t) ->
  wp (finish_bytes root sp) b (fun u _ =>
    u8_wf u /\ u8_length u <= used l + 32 /\ decodes u (root_table sp) P).
Proof.
  intros HR Hrd Hr HP. eapply finish_bytes_spec; [done | done | exact Hr |].
  intros u b' Hwf Hlen Hh. split_and!; [done | done | by eapply holds_decodes].
Qed.

(** [o] is a finished table that reads as [P] in whatever buffer it ends up in. *)
Definition shown (l : LB) (o : Z) (P : fbtable ByteBuffer -> Prop) : Prop :=
  exists fs, off_is (objs l) o (Some (OTable fs)) /\
    forall os t, objs l ⊆ os -> shows os o t -> P t.

Lemma shown_grows l l' c o P : grows l l' c -> shown l o P -> shown l' o P.
Proof.
  intros G (fs & Ho & HP). exists fs. split; [by eapply off_is_grows|].
  intros os t Hsub. apply HP. destruct G as (? & _). by etrans.
Qed.

Lemma off_is_sub os os' o x : os ⊆ os' -> off_is os o x -> off_is os' o x.
Proof.
  intros Hsub. destruct x as [x|]; simpl; [|done]. intros [Hne Hx].
  split; [done|]. by eapply lookup_weaken.
Qed.

(** Build a table that reads as [P]. *)
Lemma table_shown b l n adds c (P : fbtable ByteBuffer -> Prop) Q :
  Rep b l -> ready l c -> slots_ok n adds = true -> Forall (add_ok l) adds -> table_cost n adds <= c ->
  (forall os o t, objs l ⊆ os -> shows os o t -> os !! o = Some (OTable (table_fields adds)) -> P t) ->
  (forall o b' l', Rep b' l' -> grows l l' c -> shown l' o P -> Q o b') ->
  wp (create_table n adds) b Q.
Proof.
  intros HR Hrd Hs Hok Hc HP HQ. eapply table_spec; [done | exact Hrd | done | done | done |].
  intros o b' l' HR' G Ho. eapply HQ; [done | done |]. eexists. split; [exact Ho|].
  intros os t Hsub Ht. eapply HP; [|exact Ht|].
  - destruct G as (? & _). by etrans.
  - apply (off_is_sub _ _ _ _ Hsub Ho).
Qed.

Lemma shown_add_ok l i o P : shown l o P -> add_ok l (AddOffset i o 0).
Proof. intros (fs & Ho & _). by eapply off_is_add_ok. Qed.

Lemma finish_shown b l root sp (P : fbtable ByteBuffer -> Prop) :
  Rep b l -> ready l 32 -> shown l root P ->
  wp (finish_bytes root sp) b (fun u _ =>
    u8_wf u /\ u8_length u <= used l + 32 /\ decodes u (root_table sp) P).
Proof.
  intros HR Hrd (fs & Ho & HP). eapply finish_decodes; [done | done | exact Ho |].
  intros t Ht. by eapply HP.
Qed.

Lemma finish_roundtrip b l root sp (P : fbtable ByteBuffer -> Prop) :
  Rep b l -> ready l 32 -> shown l root P ->
  wp (finish_bytes root sp) b (fun u _ => u8_wf u /\ decodes u (root_table sp) P).
Proof.
  intros HR Hrd Ho. eapply wp_mono; [by apply (finish_shown b l root sp P)|].
  intros u b' (Hwf & _ & Hdec). done.
Qed.

(** *** Reading byte vectors *)

(** The three generated accessors of a byte-vector field agree on its content. *)
Definition reads_bytes (len : outcome exn Z) (elem : Z -> outcome exn (option Z))
    (arr : outcome exn (option Uint8Array)) (data : option (list Z)) : Prop :=
  len = Ret (zlen (default [] data)) /\
  (forall k x, default [] data !! k = Some x -> elem (Z.of_nat k) = Ret (Some x)) /\
  exists r, arr = Ret r /\ u8_bytes <$> r = data /\ from_option u8_wf True r.

Lemma acc_bytes os o t fs i r data :
  shows os o t -> os !! o = Some (OTable fs) -> 0 <= i ->
  fs !! i = stored (negb (r =? 0)) (FOff r) -> off_is os r (OBytes <$> data) ->
  let off b := __offset b (bb_pos t) (slot_voffset i) in
  reads_bytes
    (this_bb ← deref t;
     Ret (if truthy (off this_bb) then __vector_len this_bb (bb_pos t + off this_bb) else 0))
    (fun k => this_bb ← deref t;
     Ret (Some (if truthy (off this_bb)
                then readUint8 this_bb (__vector this_bb (bb_pos t + off this_bb) + k) else 0)))
    (this_bb ← deref t;
     if truthy (off this_bb) then
       u ← u8_view (u8_buffer (bytes this_bb))
         (u8_byteOffset (bytes this_bb) + __vector this_bb (bb_pos t + off this_bb))
         (__vector_len this_bb (bb_pos t + off this_bb));
       Ret (Some u)
     else Ret None)
    data.
Proof.
  intros Hs Ho Hi Hf Hr off. split_and!.
  - pose proof (acc_vector_len os o t fs i Hs Ho Hi r ((fun bs => (zlen bs, bs)) <$> data) Hf) as Hl.
    destruct data as [bs|]; apply Hl; exact Hr.
  - intros k x Hx. destruct data as [bs|]; [|done]. simpl in Hx, Hr.
    eapply (acc_byte os o t fs i Hs Ho Hi r (zlen bs) bs); [done | exact Hr | lia | by rewrite Nat2Z.id].
  - exact (acc_bytes_array os o t fs i Hs Ho Hi r data Hf Hr).
Qed.

(** *** Union members *)

(** The offset of a union member: null for [NONE], else a table that reads as [P]. *)
Definition member_off (l : LB) (o : Z) (P : option (fbtable ByteBuffer -> Prop)) : Prop :=
  match P with None => o = 0 | Some P => shown l o P end.

Lemma member_off_grows l l' c o P : grows l l' c -> member_off l o P -> member_off l' o P.
Proof. destruct P; simpl; eauto using shown_grows. Qed.

Lemma member_off_add_ok l i o P : member_off l o P -> add_ok l (AddOffset i o 0).
Proof. destruct P; simpl; [apply (shown_add_ok l i) | auto]. Qed.

(** Reading a union field gives the member. *)
Lemma acc_member os o t fs i r l P t0 :
  shows os o t -> os !! o = Some (OTable fs) -> 0 <= i ->
  fs !! i = stored (negb (r =? 0)) (FOff r) -> member_off l r P -> objs l ⊆ os ->
  exists res,
    (this_bb ← deref t;
     let offset := __offset this_bb (bb_pos t) (slot_voffset i) in
     Ret (if truthy offset then Some (__union this_bb t0 (bb_pos t + offset)) else None)) = Ret res /\
    match P with None => res = None | Some P => exists t', res = Some t' /\ P t' end.
Proof.
  intros Hs Ho Hi Hf Hr Hsub. destruct P as [P|]; simpl in Hr.
  - destruct Hr as (fs' & Hoff & HP).
    destruct (acc_union os o t fs i Hs Ho Hi r (Some fs') t0 Hf) as (res & -> & t' & -> & Ht').
    { by eapply off_is_sub. }
    eexists. split; [done|]. exists t'. eauto.
  - destruct (acc_union os o t fs i Hs Ho Hi r None t0 Hf) as (res & -> & ->); eauto.
Qed.

End facts.

(** Discharge [ready] and size side conditions from the [grows] facts in scope. *)
Ltac fb_arith :=
  repeat match goal with H : grows _ _ _ |- _ => destruct H as (_ & ? & ? & ?) end;
  unfold ready in *; destruct_and?; cbn [cur fin used lb_new] in *; split_and?;
  try (assumption || reflexivity || congruence);
  unfold table_cost; autorewrite with zlen; cbn [default] in *; lia.

Ltac fb_grows :=
  repeat match goal with H : grows _ _ _ |- _ => destruct H as (? & ? & ? & ?) end;
  split_and!; [repeat (etrans; [eassumption|]); first [eassumption | reflexivity] | assumption | assumption | lia | lia].

(** Fields of a finished table at a literal slot. *)
Ltac table_field := cbv [table_fields put_add foldl add_slot add_stored add_field]; put_lookup.

Create HintDb fbgrow.
#[export] Hint Resolve off_is_grows off_is_sub shown_grows : fbgrow.

(** Every offset handed to the table refers to an object finished before. *)
Ltac adds_ok :=
  repeat (apply Forall_cons; [first [exact I | eapply off_is_add_ok; by eauto with fbgrow | eapply shown_add_ok; by eauto with fbgrow] |]);
  apply Forall_nil.

(** Finish the buffer with a root that [H] says how it reads. *)
Ltac fb_finish sp H :=
  destruct sp; [eapply (finish_roundtrip _ _ _ true) | eapply (finish_roundtrip _ _ _ false)];
  [done | fb_arith | exact H | done | fb_arith | exact H].

(** Build with the [build..._spec] lemma and finish with either kind of root. *)
Ltac roundtrip spec sp :=
  let SO := fresh "SO" in
  lazymatch goal with Hn : 0 < ?n |- _ => pose proof (Rep_new n Hn) end;
  apply wp_bind; eapply spec; try eassumption; try apply Z.le_refl;
  [fb_arith | intros ? ? ? ? ? SO; fb_finish sp SO].

(** Side conditions on literal inputs, by evaluation. *)
Lemma check_bytes bs : forallb (fun x => (0 <=? x) && (x <? 256)) bs = true -> Forall is_byte bs.
Proof.
  intros H. apply Forall_forall. intros x Hx. rewrite forallb_forall in H.
  specialize (H x Hx). unfold is_byte. lia.
Qed.

Ltac concrete :=
  lazymatch goal with
  | |- Forall is_byte _ => apply check_bytes; vm_compute; reflexivity
  | |- _ <= _ => vm_compute; discriminate
  | |- _ < _ => vm_compute; reflexivity
  | |- is_uint32 _ => split; [vm_compute; discriminate | vm_compute; reflexivity]
  | |- _ /\ _ => split; concrete
  | |- _ => vm_compute; reflexivity
  end.

(** Bounds the bytes used after a chain of builder calls. *)
Ltac used_bound :=
  repeat match goal with H : grows _ _ _ |- _ => destruct H as (_ & _ & _ & ?) end;
  cbn [used lb_new] in *; lia.
