(* ===== verification/FbReference.v ===== *)
(** * A reference implementation of the flatbuffers runtime

    Builds and reads the FlatBuffers wire format on lists of bytes: data is
    written back to front, offsets count from the end of the buffer, a table
    starts with the signed distance to its vtable. The instance shows that the
    laws of [FlatBuffersLaws] can hold, and lets encoded messages be computed. *)

From S2P Require Import Prelude JsPlatform FlatBuffers.

(** ** Builder *)
Record bld := mkBld {
  data : list Z;          (* bytes written so far, lowest address first *)
  slots : list Z;         (* offset of each field of the open table, 0 when unset *)
  inTable : bool;
  objStart : Z;
  vecNum : Z
}.

Definition cmd := stm bld exn.

Definition rb_push (bs : list Z) (b : bld) : bld :=
  mkBld (bs ++ data b) (slots b) (inTable b) (objStart b) (vecNum b).
Definition rb_align (sz add : Z) (b : bld) : bld :=
  rb_push (zeros ((- (zlen (data b) + add)) mod sz)) b.

Definition rb_new (_ : Z) : bld := mkBld [] [] false 0 0.

Definition rb_startObject (n : Z) : cmd unit := fun b =>
  if inTable b then (Throw LibError, b)
  else (Ret tt, mkBld (data b) (zeros n) true (zlen (data b)) (vecNum b)).

(** Write [mk off] (its value may depend on the current offset), and note the slot. *)
Definition rb_addField (i sz : Z) (stored : bool) (mk : Z -> list Z) : cmd unit := fun b =>
  if stored then
    let b1 := rb_align sz 0 b in
    let d := mk (zlen (data b1)) ++ data b1 in
    (Ret tt, mkBld d (<[Z.to_nat i := zlen d]> (slots b)) (inTable b) (objStart b) (vecNum b))
  else (Ret tt, b).

Definition vtable_bytes (vloc start : Z) (ss : list Z) : list Z :=
  le_bytes 2 (4 + 2 * zlen ss) ++ le_bytes 2 (vloc - start) ++
  flat_map (fun s => le_bytes 2 (if s =? 0 then 0 else vloc - s)) ss.

Definition rb_endObject : cmd Z := fun b =>
  if inTable b then
    let b1 := rb_push (le_bytes 4 (4 + 2 * zlen (slots b))) (rb_align 4 0 b) in
    let vloc := zlen (data b1) in
    (Ret vloc, mkBld (vtable_bytes vloc (objStart b) (slots b) ++ data b1) [] false 0 (vecNum b))
  else (Throw LibError, b).

Definition rb_startVector (esz n al : Z) : cmd unit := fun b =>
  if inTable b then (Throw LibError, b)
  else let b1 := rb_align al (esz * n) (rb_align 4 (esz * n) b) in
       (Ret tt, mkBld (data b1) [] false 0 n).

Definition rb_write (bs : list Z) : cmd unit := fun b => (Ret tt, rb_push bs b).

Definition rb_endVector : cmd Z := fun b =>
  let b1 := rb_push (le_bytes 4 (vecNum b)) b in (Ret (zlen (data b1)), b1).

Definition rb_byteVector (bs : list Z) : cmd Z :=
  rb_startVector 1 (zlen bs) 1 ≫= fun _ => rb_write bs ≫= fun _ => rb_endVector.

Definition rb_createString (s : text) : cmd Z :=
  let bs := match s with Str s' => text_encode s' | Utf8 bs => bs end in
  rb_write [0] ≫= fun _ => rb_byteVector bs.

Definition rb_finish (root : Z) (sp : bool) : cmd unit := fun b =>
  if inTable b then (Throw LibError, b)
  else
    let b1 := rb_align 4 (4 + prefix_len sp) b in
    let b2 := rb_push (le_bytes 4 (zlen (data b1) + 4 - root)) b1 in
    (Ret tt, if sp then rb_push (le_bytes 4 (zlen (data b2))) b2 else b2).

(** ** ByteBuffer *)
Record rbb := mkRbb { rbb_u : Uint8Array; rbb_pos : Z }.

Definition rd (n : Z) (b : rbb) (p : Z) : Z := le_value (zslice (u8_bytes (rbb_u b)) p n).
Definition rd_int (n : Z) (b : rbb) (p : Z) : Z := to_sint (8 * n) (rd n b p).

Definition rbb_offset (b : rbb) (pos vo : Z) : Z :=
  let vt := pos - rd_int 4 b pos in
  if vo <? rd_int 2 b vt then rd_int 2 b (vt + vo) else 0.
Definition rbb_vector (b : rbb) (p : Z) : Z := p + rd_int 4 b p + 4.
Definition rbb_vector_len (b : rbb) (p : Z) : Z := rd_int 4 b (p + rd_int 4 b p).
Definition rbb_string (b : rbb) (p : Z) (e : option Encoding) : text :=
  let bs := zslice (u8_bytes (rbb_u b)) (rbb_vector b p) (rbb_vector_len b p) in
  match e with Some UTF8_BYTES => Utf8 bs | _ => Str (text_decode bs) end.
Definition rbb_union (b : rbb) (_ : fbtable rbb) (p : Z) : fbtable rbb :=
  mkTable (Some b) (p + rd_int 4 b p).

Fixpoint rbb_scalars (f : Z -> outcome exn (option Z)) (ixs : list Z) : outcome exn (list Z) :=
  match ixs with
  | [] => Ret []
  | i :: rest =>
      v ← f i; vs ← rbb_scalars f rest;
      Ret (match v with Some x => x :: vs | None => vs end)
  end.

#[export] Instance FbRef : FlatBuffers := {|
  Builder := bld; ByteBuffer := rbb;
  new_Builder := rb_new;
  startObject := rb_startObject;
  addFieldInt8 i v d := rb_addField i 1 (negb (v =? d)) (fun _ => [to_uint 8 v]);
  addFieldInt32 i v d := rb_addField i 4 (negb (v =? d)) (fun _ => le_bytes 4 v);
  addFieldFloat32 i v d := rb_addField i 4 (negb (num_eqb v d)) (fun _ => f32_bytes v);
  addFieldOffset i o d := rb_addField i 4 (negb (o =? d)) (fun off => le_bytes 4 (off + 4 - o));
  endObject := rb_endObject;
  startVector := rb_startVector;
  addInt8 v := rb_write [to_uint 8 v];
  endVector := rb_endVector;
  createString := rb_createString;
  createByteVector := rb_byteVector;
  prep sz add := fun b => (Ret tt, rb_align sz add b);
  pad k := rb_write (zeros k);
  writeInt8 v := rb_write [to_uint 8 v];
  writeFloat32 x := rb_write (f32_bytes x);
  offset := fun b => (Ret (zlen (data b)), b);
  finish := rb_finish;
  asUint8Array := fun b => (Ret (u8_of_buffer (data b)), b);
  new_ByteBuffer u := mkRbb u 0;
  bytes := rbb_u;
  position := rbb_pos;
  setPosition p b := mkRbb (rbb_u b) p;
  readInt8 := rd_int 1;
  readUint8 := rd 1;
  readInt32 := rd_int 4;
  readUint32 := rd 4;
  readFloat32 b p := num_of_bits32 (rd 4 b p);
  __offset := rbb_offset;
  __string := rbb_string;
  __vector := rbb_vector;
  __vector_len := rbb_vector_len;
  __union := rbb_union;
  createScalarList f n := rbb_scalars f (seqZ 0 n)
|}.

(** ** Representation invariant *)

(** The bytes [bs] stand [k] bytes before the end of [d]. *)
Definition at_end (d : list Z) (k : Z) (bs : list Z) : Prop :=
  zlen bs <= k <= zlen d /\ zslice d (zlen d - k) (zlen bs) = bs.

Definition enc_field (d : list Z) (os : gmap Z object) (p : Z) (f : field) : Prop :=
  match f with
  | FInline bs => at_end d p bs
  | FOff t => at_end d p (le_bytes 4 (p - t)) /\ 0 < t <= p /\ is_Some (os !! t)
  end.

Definition enc_slots (d : list Z) (os : gmap Z object) (lo hi : Z) (ss : list Z)
    (fs : gmap Z field) : Prop :=
  forall i, 0 <= i ->
  match fs !! i with
  | None => forall s, ss !! Z.to_nat i = Some s -> s = 0
  | Some f => exists s, ss !! Z.to_nat i = Some s /\ 0 <= lo /\ lo < s <= hi /\ enc_field d os s f
  end.

Definition enc_object (d : list Z) (os : gmap Z object) (o : Z) (x : object) : Prop :=
  match x with
  | OText bs => at_end d o (le_bytes 4 (zlen bs) ++ bs) /\ zlen bs < 2 ^ 31
  | OVec n bs => at_end d o (le_bytes 4 n ++ bs) /\ 0 <= n < 2 ^ 31
  | OTable fs => exists ss start,
      at_end d (o + 4 + 2 * zlen ss)
        (vtable_bytes o start ss ++ le_bytes 4 (4 + 2 * zlen ss)) /\
      zlen ss <= 1024 /\ o - start < 2 ^ 15 /\ 0 <= start /\ enc_slots d os start (o - 1) ss fs
  end.

Definition rep_cur (b : bld) (l : LB) : Prop :=
  match cur l with
  | Idle => inTable b = false /\ zlen (data b) <= used l
  | InTable n fs =>
      fin l = None /\ inTable b = true /\ zlen (data b) <= used l /\ zlen (slots b) = n /\ n <= 1024 /\
      0 <= objStart b <= zlen (data b) /\
      zlen (data b) - objStart b <= 7 * Z.of_nat (size fs) /\
      (forall i, is_Some (fs !! i) -> 0 <= i) /\
      enc_slots (data b) (objs l) (objStart b) (zlen (data b)) (slots b) fs
  | InVec esz n bs =>
      fin l = None /\ inTable b = false /\ vecNum b = n /\ 0 <= n /\ 0 <= esz /\
      exists d0, data b = bs ++ d0 /\ (zlen d0 + esz * n) mod 4 = 0 /\
                 zlen bs <= esz * n /\ zlen d0 + esz * n <= used l
  end.

Definition rep_fin (b : bld) (l : LB) : Prop :=
  match fin l with
  | None => True
  | Some (root, sp) =>
      let k := zlen (data b) - prefix_len sp in
      at_end (data b) k (le_bytes 4 (k - root)) /\ root <= k /\
      (exists fs, objs l !! root = Some (OTable fs)) /\ zlen (data b) <= used l
  end.

Record rep (b : bld) (l : LB) : Prop := mkRep {
  rep_bytes : Forall is_byte (data b);
  rep_objs : forall o x, objs l !! o = Some x ->
    0 < o <= zlen (data b) /\ enc_object (data b) (objs l) o x;
  rep_used : used l <= fb_limit;
  rep_current : rep_cur b l;
  rep_finished : rep_fin b l
}.

(** ** Stability under writing more bytes and adding objects *)
Lemma at_end_push p d k bs : at_end d k bs -> at_end (p ++ d) k bs.
Proof.
  intros [Hk Hs]. split; [zlen_lia|].
  replace (zlen (p ++ d) - k) with (zlen p + (zlen d - k)) by zlen_lia.
  rewrite zslice_app_r by lia. done.
Qed.

Lemma at_end_new bs d : at_end (bs ++ d) (zlen bs + zlen d) bs.
Proof.
  split; [zlen_lia|].
  replace (zlen (bs ++ d) - (zlen bs + zlen d)) with 0 by zlen_lia. apply zslice_0_app.
Qed.

Lemma at_end_app d k x y : at_end d k (x ++ y) -> at_end d k x /\ at_end d (k - zlen x) y.
Proof.
  intros [Hk Hs]. rewrite zlen_app in *. pose proof (zlen_nonneg x). pose proof (zlen_nonneg y).
  split; (split; [lia|]).
  - transitivity (zslice (zslice d (zlen d - k) (zlen x + zlen y)) 0 (zlen x)).
    + rewrite zslice_zslice by lia. f_equal. lia.
    + rewrite Hs. apply zslice_0_app.
  - transitivity (zslice (zslice d (zlen d - k) (zlen x + zlen y)) (zlen x) (zlen y)).
    + rewrite zslice_zslice by lia. f_equal. lia.
    + rewrite Hs. replace (zlen x) with (zlen x + 0) at 1 by lia.
      rewrite zslice_app_r by lia. apply zslice_all.
Qed.

Lemma enc_field_push p d os os' s f :
  (forall o, is_Some (os !! o) -> is_Some (os' !! o)) ->
  enc_field d os s f -> enc_field (p ++ d) os' s f.
Proof.
  intros Hos. destruct f as [bs|t]; simpl.
  - apply at_end_push.
  - intros (? & ? & ?). auto using at_end_push.
Qed.

Lemma enc_slots_push p d os os' lo hi hi' ss fs :
  (forall o, is_Some (os !! o) -> is_Some (os' !! o)) -> hi <= hi' ->
  enc_slots d os lo hi ss fs -> enc_slots (p ++ d) os' lo hi' ss fs.
Proof.
  intros Hos Hhi H i Hi. specialize (H i Hi). destruct (fs !! i); [|done].
  destruct H as (s & Hs & Hlo & Hr & He). exists s. split_and!; [done|lia|lia|lia|].
  by eapply enc_field_push.
Qed.

Lemma enc_object_push p d os os' o x :
  (forall o, is_Some (os !! o) -> is_Some (os' !! o)) ->
  enc_object d os o x -> enc_object (p ++ d) os' o x.
Proof.
  intros Hos. destruct x as [bs|n bs|fs]; simpl.
  - intros []. auto using at_end_push.
  - intros []. auto using at_end_push.
  - intros (ss & start & Ha & Hn & Hlt & Hst & Hs). exists ss, start.
    split_and!; auto using at_end_push. eapply enc_slots_push; [done| |done]. lia.
Qed.

Lemma insert_is_Some (os : gmap Z object) o x t :
  is_Some (os !! t) -> is_Some (<[o := x]> os !! t).
Proof. intros []. destruct (decide (o = t)) as [->|]; simplify_map_eq; eauto. Qed.

Lemma rep_objs_push p b l :
  rep b l -> forall o x, objs l !! o = Some x ->
  0 < o <= zlen (p ++ data b) /\ enc_object (p ++ data b) (objs l) o x.
Proof.
  intros H o x Ho. destruct (rep_objs _ _ H _ _ Ho). split; [zlen_lia|].
  eapply enc_object_push; [|done]. auto.
Qed.

(** Adding the object [x] at the offset just reached. *)
Lemma rep_objs_alloc p b l o x :
  rep b l -> zlen (data b) < o <= zlen (p ++ data b) ->
  enc_object (p ++ data b) (objs l) o x ->
  objs l !! o = None /\
  forall t y, <[o := x]> (objs l) !! t = Some y ->
  0 < t <= zlen (p ++ data b) /\ enc_object (p ++ data b) (<[o := x]> (objs l)) t y.
Proof.
  intros H Ho Hx. assert (objs l !! o = None) as Hn.
  { destruct (objs l !! o) eqn:E; [|done]. destruct (rep_objs _ _ H _ _ E). lia. }
  split; [done|]. intros t y. destruct (decide (t = o)) as [->|Hne].
  - rewrite lookup_insert_eq. intros [= <-]. split; [zlen_lia|].
    rewrite <- (app_nil_l (p ++ data b)). eapply enc_object_push, Hx. eauto using insert_is_Some.
  - rewrite lookup_insert_ne by done. intros Ht. destruct (rep_objs _ _ H _ _ Ht).
    split; [zlen_lia|]. eapply enc_object_push; [|done]. eauto using insert_is_Some.
Qed.

Lemma zeros_byte n : Forall is_byte (zeros n).
Proof. apply Forall_replicate. unfold is_byte. lia. Qed.

Lemma pad_range x sz : 0 < sz -> 0 <= (- x) mod sz < sz.
Proof. intros. by apply Z.mod_pos_bound. Qed.

(** ** The builder laws *)
Lemma rb_new_rep n : rep (rb_new n) lb_new.
Proof. by split. Qed.

Lemma rb_startObject_spec b l n :
  rep b l -> cur l = Idle -> fin l = None -> 0 <= n <= 1024 ->
  wp (rb_startObject n) b (fun _ b' => rep b' (lb_step l 0 (InTable n ∅))).
Proof.
  intros [Hb Ho Hu Hc Hf] Hcur Hfin Hn. unfold rep_cur in Hc. rewrite Hcur in Hc.
  destruct Hc as [Ht Hl]. unfold wp, rb_startObject. rewrite Ht.
  split; simpl; try done; try lia.
  - unfold rep_cur. simpl. rewrite zlen_zeros, map_size_empty by lia.
    split_and!; try done; try lia; try apply zlen_nonneg.
    { intros i []. by rewrite lookup_empty in *. }
    intros i Hi. rewrite lookup_empty. intros s Hs.
    by apply lookup_replicate_1 in Hs as [-> _].
  - unfold rep_fin. simpl. by rewrite Hfin.
Qed.

Lemma fields_bound d os lo hi ss fs :
  enc_slots d os lo hi ss fs -> (forall i, is_Some (fs !! i) -> 0 <= i) ->
  Z.of_nat (size fs) <= zlen ss.
Proof.
  intros H Hpos. rewrite <- size_dom.
  assert (dom fs ⊆ (list_to_set (seqZ 0 (zlen ss)) : gset Z)) as Hsub.
  { intros i Hi%elem_of_dom. apply elem_of_list_to_set, elem_of_seqZ.
    pose proof (Hpos _ Hi). specialize (H i ltac:(lia)). destruct Hi as [f Hf].
    rewrite Hf in H. destruct H as (s & Hs%lookup_lt_Some & _). unfold zlen. lia. }
  apply subseteq_size in Hsub.
  rewrite size_list_to_set, length_seqZ in Hsub by apply NoDup_seqZ. unfold zlen in *. lia.
Qed.

(** A field write: at most [c] bytes, the last ones being the encoded field. *)
Lemma rb_addField_spec b l n fs i sz c stored mk len f :
  rep b l -> cur l = InTable n fs -> 0 <= i < n -> fs !! i = None ->
  used l + c <= fb_limit -> 0 < sz -> 0 < len -> sz - 1 + len <= c <= 7 ->
  (forall off, zlen (mk off) = len /\ Forall is_byte (mk off)) ->
  (stored = true -> forall d, zlen (data b) <= zlen d ->
     enc_field (mk (zlen d) ++ d) (objs l) (len + zlen d) f) ->
  wp (rb_addField i sz stored mk) b
     (fun _ b' => rep b' (lb_step l c (InTable n (put fs i stored f)))).
Proof.
  intros H Hcur Hi Hfi Hu Hsz Hlen Hc Hmk Henc.
  pose proof (rep_current _ _ H) as Hr. unfold rep_cur in Hr. rewrite Hcur in Hr.
  destruct Hr as (Hfin & Ht & Hl & Hs & Hn & Hstart & Hsize & Hpos & Hslots).
  assert (forall b' k, rep_fin b' (lb_step l c k)) as Hfin'
    by (intros; unfold rep_fin; simpl; by rewrite Hfin).
  unfold wp, rb_addField, put. destruct stored.
  2: { destruct H. split; simpl; try done.
       unfold rep_cur; simpl. split_and!; try done; lia. }
  cbv zeta. unfold rb_align, rb_push. cbn [data].
  pose proof (pad_range (zlen (data b) + 0) sz Hsz) as Hp.
  set (z := zeros _). assert (zlen z <= sz - 1 /\ 0 <= zlen z) as [Hz Hz0]
    by (subst z; rewrite zlen_zeros; lia).
  destruct (Hmk (zlen (z ++ data b))) as [Hml Hmb]. specialize (Henc eq_refl).
  set (m := mk _) in *.
  assert (zlen (m ++ z ++ data b) = len + zlen (z ++ data b)) as Hd by zlen_lia.
  assert (zlen (z ++ data b) = zlen z + zlen (data b)) as Hd' by zlen_lia.
  split; cbn [data objs used cur fin lb_step].
  - apply Forall_app; split; [done|]. apply Forall_app; split; [apply zeros_byte | apply H].
  - rewrite app_assoc. apply (rep_objs_push _ _ _ H).
  - lia.
  - unfold rep_cur. cbn [cur lb_step inTable used data slots objStart objs].
    split_and!; try done; try lia.
    + unfold zlen in *. by rewrite length_insert.
    + rewrite map_size_insert_None by done. lia.
    + intros j Hj. destruct (decide (i = j)) as [<-|Hne]; [lia|].
      rewrite lookup_insert_ne in Hj by done. auto.
    + intros j Hj. destruct (decide (i = j)) as [<-|Hne].
      * rewrite lookup_insert_eq. exists (zlen (m ++ z ++ data b)). split_and!; [|lia|lia|lia|].
        { apply list_lookup_insert_eq. unfold zlen in *. lia. }
        rewrite Hd. apply Henc. lia.
      * rewrite lookup_insert_ne by done. rewrite list_lookup_insert_ne by lia.
        rewrite app_assoc.
        apply (enc_slots_push (m ++ z) (data b) (objs l) (objs l) _ (zlen (data b)) _ _ _);
          [done | zlen_lia | exact Hslots | exact Hj].
  - done.
Qed.

Ltac lb_cbn :=
  cbn [cur inTable data slots used vecNum objStart objs fin lb_alloc lb_step lb_finish].

Lemma zlen_vtable vloc start ss : zlen (vtable_bytes vloc start ss) = 4 + 2 * zlen ss.
Proof.
  unfold vtable_bytes. autorewrite with zlen.
  assert (zlen (flat_map (fun s => le_bytes 2 (if s =? 0 then 0 else vloc - s)) ss) = 2 * zlen ss)
    as ->; [|lia].
  induction ss as [|s ss IH]; [done|]. cbn [flat_map]. zlen_lia.
Qed.
#[local] Hint Rewrite zlen_vtable : zlen.

Lemma vtable_byte vloc start ss : Forall is_byte (vtable_bytes vloc start ss).
Proof.
  unfold vtable_bytes. repeat (apply Forall_app; split); try apply le_bytes_byte.
  induction ss; cbn [flat_map]; [constructor|]. apply Forall_app. auto using le_bytes_byte.
Qed.
Create HintDb rb_bytes.
#[local] Hint Resolve zeros_byte le_bytes_byte f32_bytes_byte vtable_byte rep_bytes : rb_bytes.
#[local] Hint Resolve Forall_app_2 : rb_bytes.

Lemma rb_endObject_spec b l n fs :
  rep b l -> cur l = InTable n fs -> used l + (2 * n + 12) <= fb_limit ->
  wp rb_endObject b (fun o b' => o <> 0 /\ objs l !! o = None /\
    rep b' (lb_alloc l (2 * n + 12) o (OTable fs))).
Proof.
  intros H Hcur Hu.
  pose proof (rep_current _ _ H) as Hr. unfold rep_cur in Hr. rewrite Hcur in Hr.
  destruct Hr as (Hfin & Ht & Hl & Hs & Hn & Hstart & Hsize & Hpos & Hslots).
  pose proof (fields_bound _ _ _ _ _ _ Hslots Hpos) as Hfb.
  unfold wp, rb_endObject. rewrite Ht. cbv zeta. unfold rb_align, rb_push. cbn [data slots].
  pose proof (pad_range (zlen (data b) + 0) 4 ltac:(lia)) as Hp.
  set (z := zeros _). assert (0 <= zlen z <= 3) as Hz by (subst z; rewrite zlen_zeros; lia).
  set (le := le_bytes 4 _). assert (zlen le = 4) as Hle by done. set (o := zlen (le ++ z ++ data b)).
  assert (o = 4 + zlen z + zlen (data b)) as Ho by (subst o le; zlen_lia).
  set (vt := vtable_bytes _ _ _). assert (zlen vt = 4 + 2 * n) as Hvt by (subst vt; zlen_lia).
  assert (vt ++ le ++ z ++ data b = (vt ++ le ++ z) ++ data b) as Happ by by rewrite !app_assoc.
  rewrite Happ.
  destruct (rep_objs_alloc (vt ++ le ++ z) b l o (OTable fs) H) as [Hnone Hobjs].
  { rewrite <- Happ. zlen_lia. }
  { exists (slots b), (objStart b). split_and!; try lia.
    - rewrite <- Happ, app_assoc.
      replace (o + 4 + 2 * zlen (slots b)) with (zlen (vt ++ le) + zlen (z ++ data b)) by zlen_lia.
      apply at_end_new.
    - eapply enc_slots_push; [| |exact Hslots]; [auto | lia]. }
  split_and!; [lia | done |].
  split; cbn [data objs used cur fin lb_alloc].
  - subst vt le z. eauto 10 with rb_bytes.
  - done.
  - lia.
  - unfold rep_cur; lb_cbn. split; [done|]. rewrite <- Happ. subst le. zlen_lia.
  - unfold rep_fin; lb_cbn. by rewrite Hfin.
Qed.

(** *** Vectors *)
Lemma mod4_pad x : (x + (- x) mod 4) mod 4 = 0.
Proof. zdiv_lia. Qed.

Lemma rb_startVector_spec b l esz n al :
  rep b l -> cur l = Idle -> fin l = None -> 0 <= esz -> 0 <= n ->
  (al = 1 \/ al = 2 \/ al = 4) -> used l + 6 + esz * n <= fb_limit ->
  wp (rb_startVector esz n al) b
     (fun _ b' => rep b' (lb_step l (6 + esz * n) (InVec esz n []))).
Proof.
  intros H Hcur Hfin Hesz Hn Hal Hu.
  pose proof (rep_current _ _ H) as Hr. unfold rep_cur in Hr. rewrite Hcur in Hr.
  destruct Hr as [Ht Hl].
  unfold wp, rb_startVector. rewrite Ht. cbv zeta. unfold rb_align, rb_push. cbn [data].
  set (tot := esz * n) in *.
  pose proof (pad_range (zlen (data b) + tot) 4 ltac:(lia)) as Hp1.
  pose proof (mod4_pad (zlen (data b) + tot)) as Hm.
  set (z1 := zeros ((- (zlen (data b) + tot)) mod 4)). assert (zlen z1 = (- (zlen (data b) + tot)) mod 4) as Hz1
    by (subst z1; rewrite zlen_zeros; lia).
  assert ((- (zlen (z1 ++ data b) + tot)) mod al = 0) as ->.
  { rewrite zlen_app, Hz1. set (k := (- (zlen (data b) + tot)) mod 4) in *.
    destruct Hal as [-> | [-> | ->]]; zdiv_lia. }
  change (zeros 0) with (@nil Z). cbn [app].
  split; cbn [data objs used cur fin lb_step].
  - subst z1. eauto with rb_bytes.
  - apply (rep_objs_push _ _ _ H).
  - lia.
  - unfold rep_cur; lb_cbn. assert (0 <= tot) by (subst tot; nia). split_and!; try done; try lia.
    exists (z1 ++ data b). split_and!; [done | | done | ]; fold tot; rewrite zlen_app, Hz1.
    + rewrite <- Hm. f_equal. lia.
    + lia.
  - unfold rep_fin; lb_cbn. by rewrite Hfin.
Qed.

Lemma rb_write_spec b l esz n bs p :
  rep b l -> cur l = InVec esz n bs -> zlen bs + zlen p <= esz * n -> Forall is_byte p ->
  wp (rb_write p) b (fun _ b' => rep b' (lb_step l 0 (InVec esz n (p ++ bs)))).
Proof.
  intros H Hcur Hlen Hp.
  pose proof (rep_current _ _ H) as Hr. unfold rep_cur in Hr. rewrite Hcur in Hr.
  destruct Hr as (Hfin & Ht & Hv & Hn & Hesz & d0 & Hd & Hm & Hbs & Hu).
  unfold wp, rb_write, rb_push. split; cbn [data objs used cur fin lb_step].
  - eauto with rb_bytes.
  - apply (rep_objs_push _ _ _ H).
  - pose proof (rep_used _ _ H). lia.
  - unfold rep_cur; lb_cbn. split_and!; try done. exists d0. rewrite Hd.
    split_and!; [by rewrite app_assoc | done | zlen_lia | lia].
  - unfold rep_fin; lb_cbn. by rewrite Hfin.
Qed.

Lemma rb_endVector_spec b l esz n bs :
  rep b l -> cur l = InVec esz n bs -> zlen bs = esz * n -> n < 2 ^ 31 -> used l + 4 <= fb_limit ->
  wp rb_endVector b (fun o b' => o <> 0 /\ objs l !! o = None /\
    rep b' (lb_alloc l 4 o (OVec n bs))).
Proof.
  intros H Hcur Hlen Hn32 Hu4.
  pose proof (rep_current _ _ H) as Hr. unfold rep_cur in Hr. rewrite Hcur in Hr.
  destruct Hr as (Hfin & Ht & Hv & Hn & Hesz & d0 & Hd & Hm & Hbs & Hu).
  unfold wp, rb_endVector, rb_push. cbv zeta. cbn [data]. rewrite Hv.
  assert (zlen (le_bytes 4 n ++ data b) = 4 + zlen (data b)) as Hz by zlen_lia.
  destruct (rep_objs_alloc (le_bytes 4 n) b l (zlen (le_bytes 4 n ++ data b)) (OVec n bs) H)
    as [Hnone Hobjs]; [lia | |].
  { cbn [enc_object]. split; [|lia]. rewrite Hd, app_assoc.
    rewrite (zlen_app (le_bytes 4 n ++ bs) d0). apply at_end_new. }
  split_and!; [zlen_lia | done |].
  split; cbn [data objs used cur fin lb_alloc]; [eauto with rb_bytes | done | lia | |].
  - unfold rep_cur; lb_cbn. split; [done|]. rewrite Hz, Hd. zlen_lia.
  - unfold rep_fin; lb_cbn. by rewrite Hfin.
Qed.

Lemma rb_prep_spec b l esz n bs sz add :
  rep b l -> cur l = InVec esz n bs -> (sz = 1 \/ sz = 2 \/ sz = 4) ->
  (esz * n) mod sz = 0 -> (zlen bs) mod sz = 0 -> add mod sz = 0 ->
  rb_align sz add b = b.
Proof.
  intros H Hcur Hsz He Hb Ha.
  pose proof (rep_current _ _ H) as Hr. unfold rep_cur in Hr. rewrite Hcur in Hr.
  destruct Hr as (Hfin & Ht & Hv & Hn & Hesz & d0 & Hd & Hm & Hbs & Hu).
  unfold rb_align. replace ((- (zlen (data b) + add)) mod sz) with 0.
  - unfold rb_push. simpl. by destruct b.
  - rewrite Hd, zlen_app. set (t := esz * n) in *.
    destruct Hsz as [-> | [-> | ->]]; zdiv_lia.
Qed.

Lemma rep_used_nonneg b l : rep b l -> 0 <= used l.
Proof.
  intros H. pose proof (rep_current _ _ H) as Hr. pose proof (zlen_nonneg (data b)).
  unfold rep_cur in Hr. destruct (cur l) as [| |esz n bs]; [lia|lia|].
  destruct Hr as (_ & _ & _ & _ & _ & d0 & Hd & _ & Hb & Hu).
  pose proof (zlen_nonneg d0). pose proof (zlen_nonneg bs). lia.
Qed.

(** [used] is only an upper bound. *)
Lemma rep_used_mono b l l' :
  rep b l -> objs l' = objs l -> cur l' = cur l -> fin l' = fin l ->
  used l <= used l' <= fb_limit -> rep b l'.
Proof.
  intros [? Ho Hu Hc Hf] Eo Ec Ef Hu'. split; rewrite ?Eo; try done; try lia.
  - unfold rep_cur in *. rewrite Ec, Eo, Ef. destruct (cur l) as [| |esz n bs].
    + destruct Hc. split; [done | lia].
    + destruct Hc as (? & ? & ? & ? & ? & ? & ? & ? & ?). split_and!; try done; lia.
    + destruct Hc as (? & ? & ? & ? & ? & d0 & ? & ? & ? & ?). split_and!; try done.
      exists d0. split_and!; try done. lia.
  - unfold rep_fin in *. rewrite Ef, Eo. destruct (fin l) as [[]|]; [|done].
    destruct Hf as (? & ? & ? & ?). split_and!; try done. lia.
Qed.

Lemma rb_push_idle b l p :
  rep b l -> cur l = Idle -> fin l = None -> Forall is_byte p -> used l + zlen p <= fb_limit ->
  rep (rb_push p b) (lb_step l (zlen p) Idle).
Proof.
  intros H Hcur Hfin Hp Hu. pose proof (rep_current _ _ H) as Hr.
  unfold rep_cur in Hr. rewrite Hcur in Hr. unfold rb_push.
  split; cbn [data objs used cur fin lb_step].
  - eauto with rb_bytes.
  - apply (rep_objs_push _ _ _ H).
  - lia.
  - unfold rep_cur; lb_cbn. split; [apply Hr | zlen_lia].
  - unfold rep_fin; lb_cbn. by rewrite Hfin.
Qed.

Lemma rb_byteVector_spec b l bs c :
  rep b l -> cur l = Idle -> fin l = None -> Forall is_byte bs ->
  zlen bs + 10 <= c -> used l + c <= fb_limit ->
  wp (rb_byteVector bs) b (fun o b' => o <> 0 /\ objs l !! o = None /\
    rep b' (lb_alloc l c o (OVec (zlen bs) bs))).
Proof.
  intros H Hcur Hfin Hbs Hc Hu. pose proof (zlen_nonneg bs). pose proof (rep_used_nonneg _ _ H).
  assert (fb_limit < 2 ^ 31) by done.
  apply wp_bind. eapply wp_mono; [apply (rb_startVector_spec b l 1 (zlen bs) 1); auto; lia|].
  intros [] b1 HR1. cbn beta in HR1. apply wp_bind.
  eapply wp_mono; [eapply (rb_write_spec _ _ 1 (zlen bs) [] bs HR1); [done| |done]; rewrite zlen_nil; lia|].
  intros [] b2 HR2. cbn beta in HR2. rewrite app_nil_r in HR2.
  eapply wp_mono; [eapply (rb_endVector_spec _ _ 1 (zlen bs) bs HR2); lb_cbn; try done; lia|].
  intros o b3 (Ho & Hn & HR3). split_and!; [done | done |].
  eapply rep_used_mono; [exact HR3 | done | done | done | lb_cbn; lia].
Qed.

(** A string is a byte vector whose bytes are followed by a zero. *)
Lemma rb_text_spec b l bs c :
  rep b l -> cur l = Idle -> fin l = None -> Forall is_byte bs ->
  zlen bs + 11 <= c -> used l + c <= fb_limit ->
  wp (rb_write [0] ≫= fun _ => rb_byteVector bs) b (fun o b' => o <> 0 /\ objs l !! o = None /\
    rep b' (lb_alloc l c o (OText bs))).
Proof.
  intros H Hcur Hfin Hbs Hc Hu. pose proof (zlen_nonneg bs).
  assert (fb_limit < 2 ^ 31) by done. pose proof (rep_used_nonneg _ _ H).
  apply wp_bind. unfold wp at 1, rb_write.
  pose proof (rb_push_idle b l [0] H Hcur Hfin) as HR1.
  eapply wp_mono; [apply (rb_byteVector_spec _ (lb_step l (zlen [0]) Idle) bs (c - 1));
    lb_cbn; try done; try lia|].
  { apply HR1; [repeat constructor; done | rewrite zlen_cons, zlen_nil; lia]. }
  { rewrite zlen_cons, zlen_nil. lia. }
  intros o b3 (Ho & Hn & HR3). split_and!; [done | done |].
  destruct HR3 as [Hb Hobj Hu3 Hc3 Hf3]. split; try done.
  - intros t x. lb_cbn. intros Ht.
    revert Hobj. lb_cbn. intros Hobj. destruct (decide (t = o)) as [->|Hne].
    + rewrite lookup_insert_eq in Ht. simplify_eq.
      destruct (Hobj o (OVec (zlen bs) bs)) as [? [? ?]]; [by rewrite lookup_insert_eq|].
      split; [done|]. cbn [enc_object]. split; [done|lia].
    + rewrite lookup_insert_ne in Ht by done.
      destruct (Hobj t x) as [? He]; [by rewrite lookup_insert_ne|]. split; [done|].
      rewrite <- (app_nil_l (data b3)). eapply enc_object_push; [|exact He].
      intros k Hk. destruct (decide (k = o)) as [->|];
        [rewrite lookup_insert_eq; eauto | by rewrite lookup_insert_ne in Hk |- *].
  - revert Hc3. unfold rep_cur; lb_cbn. rewrite zlen_cons, zlen_nil. intros []. split; [done|lia].
  - revert Hf3. unfold rep_fin; lb_cbn. by rewrite Hfin.
Qed.

Lemma rb_finish_spec b l root fs sp :
  rep b l -> cur l = Idle -> fin l = None -> objs l !! root = Some (OTable fs) ->
  used l + 32 <= fb_limit ->
  wp (rb_finish root sp) b (fun _ b' => rep b' (lb_finish l root sp)).
Proof.
  intros H Hcur Hfin Hroot Hu. pose proof (rep_current _ _ H) as Hr.
  unfold rep_cur in Hr. rewrite Hcur in Hr. destruct Hr as [Ht Hl].
  unfold wp, rb_finish. rewrite Ht. cbv zeta. unfold rb_align, rb_push. cbn [data].
  set (m := - _ mod 4). assert (0 <= m < 4) as Hm by (apply pad_range; lia).
  assert (zlen (zeros m) = m) as Hz by (apply zlen_zeros; lia).
  set (d1 := le_bytes 4 _ ++ zeros m ++ data b).
  assert (zlen d1 = 4 + m + zlen (data b)) as Hd1 by (subst d1; zlen_lia).
  assert (at_end d1 (zlen d1) (le_bytes 4 (zlen d1 - root))) as Hat.
  { replace (zlen d1 - root) with (zlen (zeros m ++ data b) + 4 - root) by zlen_lia.
    subst d1. rewrite (zlen_app (le_bytes _ _)). apply at_end_new. }
  set (p := if sp then le_bytes 4 (zlen d1) else []).
  assert (zlen p = prefix_len sp) as Hp by (subst p; by destruct sp).
  set (b' := if sp then _ else _).
  assert (data b' = p ++ d1) as Hdata by (subst b' p; by destruct sp).
  assert (inTable b' = false) as Ht' by (subst b'; by destruct sp).
  clearbody b'.
  assert (prefix_len sp <= 4) by by destruct sp.
  assert (zlen (p ++ d1) <= used l + 32) by zlen_lia.
  split; lb_cbn.
  - rewrite Hdata. subst p d1. destruct sp; eauto 10 with rb_bytes.
  - intros o x Ho. rewrite Hdata.
    replace (p ++ d1) with ((p ++ le_bytes 4 (zlen (zeros m ++ data b) + 4 - root) ++ zeros m) ++ data b)
      by (subst d1; by rewrite <- !app_assoc). by apply (rep_objs_push _ _ _ H).
  - lia.
  - unfold rep_cur; lb_cbn. rewrite Hdata. split; [done | lia].
  - unfold rep_fin; lb_cbn. rewrite Hdata. replace (zlen (p ++ d1) - prefix_len sp) with (zlen d1) by zlen_lia.
    destruct (rep_objs _ _ H _ _ Hroot). split_and!; [by apply at_end_push | lia | eauto | done].
Qed.

(** ** Reading a represented buffer *)
Section read.
Context (b : bld) (l : LB) (v : rbb).
Hypothesis Hrep : rep b l.
Hypothesis Hv : u8_bytes (rbb_u v) = data b.
Hypothesis Hlim : zlen (data b) <= fb_limit.

Definition pos_of (k : Z) : Z := zlen (data b) - k.

Lemma rd_at_end k bs : at_end (data b) k bs -> rd (zlen bs) v (pos_of k) = le_value bs.
Proof using Hv. intros [_ H]. unfold rd, pos_of. by rewrite Hv, H. Qed.

Lemma rd_int_at_end (n : nat) k z :
  (0 < n)%nat -> at_end (data b) k (le_bytes n z) ->
  - 2 ^ (8 * Z.of_nat n - 1) <= z < 2 ^ (8 * Z.of_nat n - 1) ->
  rd_int (Z.of_nat n) v (pos_of k) = z.
Proof using Hv.
  intros Hn H%rd_at_end Hz. unfold rd_int. rewrite zlen_le_bytes in H. rewrite H, le_value_bytes.
  replace (256 ^ Z.of_nat n) with (2 ^ (8 * Z.of_nat n)).
  - change (to_sint (8 * Z.of_nat n) (to_uint (8 * Z.of_nat n) z) = z).
    rewrite to_sint_uint, to_sint_small; lia.
  - rewrite Z.pow_mul_r by lia. done.
Qed.

Lemma rd_int32 k z :
  at_end (data b) k (le_bytes 4 z) -> - 2 ^ 31 <= z < 2 ^ 31 -> rd_int 4 v (pos_of k) = z.
Proof using Hv. intros. apply (rd_int_at_end 4); auto with lia. Qed.

Lemma rd_int16 k z :
  at_end (data b) k (le_bytes 2 z) -> - 2 ^ 15 <= z < 2 ^ 15 -> rd_int 2 v (pos_of k) = z.
Proof using Hv. intros. apply (rd_int_at_end 2); auto with lia. Qed.

Lemma region_at_end k bs : at_end (data b) k bs -> region v (pos_of k) bs.
Proof using Hv.
  intros [? H]. unfold region, pos_of. simpl. rewrite Hv. split_and!; [lia|lia|done].
Qed.
Lemma follow_ref p t :
  at_end (data b) p (le_bytes 4 (p - t)) -> 0 < t <= p ->
  pos_of p + rd_int 4 v (pos_of p) = pos_of t.
Proof using Hv Hlim.
  intros H Ht. assert (p <= zlen (data b)) by apply H.
  rewrite (rd_int32 p (p - t)); [unfold pos_of; lia | done |].
  unfold fb_limit in Hlim. lia.
Qed.

Lemma ref_at_read p t x :
  at_end (data b) p (le_bytes 4 (p - t)) -> 0 < t <= p -> objs l !! t = Some x ->
  ref_at v pos_of (pos_of p) t x.
Proof using Hv Hlim Hrep.
  intros H Ht Hx. pose proof (follow_ref _ _ H Ht) as Hf.
  destruct (rep_objs _ _ Hrep _ _ Hx) as [Hr He].
  assert (forall n bs, at_end (data b) t (le_bytes 4 n ++ bs) -> 0 <= n < 2 ^ 31 ->
    rbb_vector_len v (pos_of p) = n /\ region v (rbb_vector v (pos_of p)) bs) as Hvec.
  { intros n bs [H1 H2]%at_end_app Hn. unfold rbb_vector_len, rbb_vector. rewrite Hf.
    rewrite (rd_int32 t n) by (done || lia). split; [done|].
    rewrite zlen_le_bytes in H2. replace (pos_of t + 4) with (pos_of (t - 4)) by (unfold pos_of; lia).
    by apply region_at_end. }
  destruct x as [bs|n bs|fs].
  - destruct He as [Ha Hl]. pose proof (zlen_nonneg bs).
    destruct (Hvec _ _ Ha ltac:(lia)) as [Hlen (_ & _ & Hreg)].
    simpl in Hreg. cbn. unfold rbb_string. rewrite Hlen, Hreg. done.
  - destruct He as [Ha Hl]. exact (Hvec _ _ Ha Hl).
  - intros t0. cbn. unfold rbb_union. by rewrite Hf.
Qed.

Lemma field_at_read p f :
  enc_field (data b) (objs l) p f -> field_at (objs l) v pos_of (pos_of p) f.
Proof using Hv Hlim Hrep.
  destruct f as [bs|t]; simpl; [by apply region_at_end|].
  intros (H & Ht & [x Hx]). exists x. split; [done|]. by eapply ref_at_read.
Qed.

Lemma at_end_entry (f : Z -> Z) k ss i s :
  at_end (data b) k (flat_map (fun s => le_bytes 2 (f s)) ss) -> ss !! i = Some s ->
  at_end (data b) (k - 2 * Z.of_nat i) (le_bytes 2 (f s)).
Proof using Type.
  revert k i. induction ss as [|s0 ss IH]; intros k i H Hi; [done|].
  cbn [flat_map] in H. apply at_end_app in H as [H1 H2]. rewrite zlen_le_bytes in H2.
  destruct i as [|i]; simpl in Hi; [simplify_eq; by rewrite Z.sub_0_r|].
  specialize (IH _ _ H2 Hi). by replace (k - 2 * Z.of_nat (S i)) with (k - Z.of_nat 2 - 2 * Z.of_nat i) by lia.
Qed.

Lemma offset_read o ss start i :
  at_end (data b) (o + 4 + 2 * zlen ss)
    (vtable_bytes o start ss ++ le_bytes 4 (4 + 2 * zlen ss)) ->
  zlen ss <= 1024 -> o - start < 2 ^ 15 -> 0 <= i ->
  (forall s, ss !! Z.to_nat i = Some s -> s = 0 \/ start < s < o) -> 0 <= start ->
  rbb_offset v (pos_of o) (slot_voffset i) =
  match ss !! Z.to_nat i with
  | Some s => if s =? 0 then 0 else o - s
  | None => 0
  end.
Proof using Hv.
  intros [Hvt Hs]%at_end_app Hn Hlt Hi Hrange Hstart.
  rewrite zlen_vtable in Hs. unfold vtable_bytes in Hvt.
  apply at_end_app in Hvt as [Hlen Hvt]. apply at_end_app in Hvt as [_ Hent].
  rewrite !zlen_le_bytes in Hent. pose proof (zlen_nonneg ss).
  unfold rbb_offset, slot_voffset.
  replace (o + 4 + 2 * zlen ss - (4 + 2 * zlen ss)) with o in Hs by lia.
  rewrite (rd_int32 o (4 + 2 * zlen ss)) by (done || lia). cbv zeta.
  replace (pos_of o - (4 + 2 * zlen ss)) with (pos_of (o + 4 + 2 * zlen ss)) by (unfold pos_of; lia).
  rewrite (rd_int16 _ (4 + 2 * zlen ss)) by (done || lia).
  destruct (ss !! Z.to_nat i) as [s|] eqn:E.
  - pose proof (lookup_lt_Some _ _ _ E). unfold zlen in *.
    destruct (Z.ltb_spec (4 + 2 * i) (4 + 2 * Z.of_nat (length ss))); [|lia].
    pose proof (at_end_entry _ _ _ _ _ Hent E) as He.
    match type of He with at_end _ ?k _ =>
      replace (pos_of (o + 4 + 2 * Z.of_nat (length ss)) + (4 + 2 * i)) with (pos_of k)
        by (unfold pos_of; lia) end.
    apply rd_int16; [done |].
    destruct (Hrange s eq_refl); destruct (Z.eqb_spec s 0); lia.
  - apply lookup_ge_None in E. unfold zlen.
    destruct (Z.ltb_spec (4 + 2 * i) (4 + 2 * Z.of_nat (length ss))); [lia | done].
Qed.

Lemma table_at_read o fs :
  objs l !! o = Some (OTable fs) -> table_at (objs l) v pos_of (pos_of o) fs.
Proof using Hv Hlim Hrep.
  intros Ho i Hi. destruct (rep_objs _ _ Hrep _ _ Ho) as [_ (ss & start & Ha & Hn & Hlt & Hst & Hss)].
  specialize (Hss i Hi).
  change (@__offset FbRef v) with (rbb_offset v). rewrite (offset_read o ss start i); try done.
  - destruct (fs !! i) as [f|].
    + destruct Hss as (s & -> & _ & Hs & He). destruct (Z.eqb_spec s 0); [lia|].
      split; [lia|]. replace (pos_of o + (o - s)) with (pos_of s) by (unfold pos_of; lia).
      by apply field_at_read.
    + destruct (ss !! Z.to_nat i) as [s|]; [|done]. by rewrite (Hss s eq_refl).
  - intros s Hs. destruct (fs !! i); [|by left; apply Hss].
    destruct Hss as (s' & Hs' & ? & ? & _). simplify_eq. right. lia.
Qed.
End read.

Lemma rb_holds b l root sp :
  rep b l -> fin l = Some (root, sp) -> holds (objs l) root sp (data b).
Proof.
  intros H Hfin v Hv. pose proof (rep_finished _ _ H) as Hf. unfold rep_fin in Hf.
  rewrite Hfin in Hf. destruct Hf as (Hat & Hk & [fs Hroot] & Hl).
  pose proof (rep_used _ _ H). destruct (rep_objs _ _ H _ _ Hroot) as [Hr He].
  assert (zlen (data b) <= fb_limit) as Hlim by lia.
  exists (pos_of b). split; [|intros o fs' Ho; by apply (table_at_read b l v H Hv Hlim)].
  set (k := zlen (data b) - prefix_len sp) in *.
  replace (prefix_len sp) with (pos_of b k) by (unfold pos_of; lia). rewrite Z.add_comm.
  apply (follow_ref b v Hv Hlim); [done | lia].
Qed.

Lemma rbb_scalars_spec f (vs : list Z) k :
  (forall i v, vs !! i = Some v -> f (k + Z.of_nat i) = Ret (Some v)) ->
  rbb_scalars f (seqZ k (zlen vs)) = Ret vs.
Proof.
  revert k. induction vs as [|x vs IH]; intros k H; [done|].
  rewrite zlen_cons, seqZ_cons by zlen_lia. simpl.
  assert (f k = Ret (Some x)) as -> by (rewrite <- (H 0%nat x eq_refl); f_equal; lia). simpl.
  replace (Z.pred (1 + zlen vs)) with (zlen vs) by lia. rewrite IH; [done|].
  intros i v Hi. rewrite <- (H (S i) v Hi). f_equal. lia.
Qed.

Lemma rep_inTable b l n fs : rep b l -> cur l = InTable n fs -> inTable b = true.
Proof.
  intros H Hc. pose proof (rep_current _ _ H) as Hr. unfold rep_cur in Hr. rewrite Hc in Hr.
  apply Hr.
Qed.

Lemma to_uint8_byte z : is_byte (to_uint 8 z).
Proof. unfold is_byte, to_uint. apply Z.mod_pos_bound. done. Qed.

(** Use a specification lemma, then the continuation. *)
Ltac spec_by lem HQ :=
  eapply wp_mono;
  [ eapply lem; eauto; try lia
  | let HP := fresh in
    first [intros [] ? HP | intros ? ? HP]; cbn beta in HP;
    first [exact (HQ _ HP) | destruct HP as (? & ? & ?); by apply HQ] ].

(** The reference implementation satisfies the laws. *)
#[export] Instance FbRefLaws : FlatBuffersLaws FbRef.
Proof.
  refine {| Rep := rep : @Builder FbRef -> LB -> Prop |}.
  - intros n _. apply rb_new_rep.
  - apply rep_used_nonneg.
  - intros b l n Q H Hc Hf Hn HQ. spec_by rb_startObject_spec HQ.
  - intros b l n m fs H Hc. exists b. simpl. unfold rb_startObject.
    by rewrite (rep_inTable _ _ _ _ H Hc).
  - intros b l n fs i v d Q H Hc Hi Hfi Hu HQ.
    eapply wp_mono; [eapply (rb_addField_spec b l n fs i 1 1 _ _ 1 (FInline [to_uint 8 v]) H Hc Hi Hfi); try lia|].
    + intros _. split; [done|]. repeat constructor; apply to_uint8_byte.
    + intros _ d' Hd. apply (at_end_new [to_uint 8 v] d').
    + intros []. apply HQ.
  - intros b l n fs i v d Q H Hc Hi Hfi Hu HQ.
    eapply wp_mono; [eapply (rb_addField_spec b l n fs i 4 7 _ _ 4 (FInline (le_bytes 4 v)) H Hc Hi Hfi); try lia|].
    + intros _. split; [done|]. apply le_bytes_byte.
    + intros _ d' Hd. apply (at_end_new (le_bytes 4 v) d').
    + intros []. apply HQ.
  - intros b l n fs i v d Q H Hc Hi Hfi Hu HQ.
    eapply wp_mono; [eapply (rb_addField_spec b l n fs i 4 7 _ _ 4 (FInline (f32_bytes v)) H Hc Hi Hfi); try lia|].
    + intros _. split; [done|]. apply f32_bytes_byte.
    + intros _ d' Hd. apply (at_end_new (f32_bytes v) d').
    + intros []. apply HQ.
  - intros b l n fs i o d Q H Hc Hi Hfi Ho Hu HQ.
    eapply wp_mono; [eapply (rb_addField_spec b l n fs i 4 7 _ _ 4 (FOff o) H Hc Hi Hfi); try lia|].
    + intros off. split; [done|]. apply le_bytes_byte.
    + intros Hs%negb_true_iff%Z.eqb_neq d' Hd. destruct Ho as [|[x Hx]]; [done|].
      destruct (rep_objs _ _ H _ _ Hx). cbn [enc_field]. split_and!; [|lia|lia|eauto].
      replace (zlen d' + 4 - o) with (4 + zlen d' - o) by lia.
      apply (at_end_new (le_bytes 4 _) d').
    + intros []. apply HQ.
  - intros b l n fs Q H Hc Hu HQ. spec_by rb_endObject_spec HQ.
  - intros b l esz n al Q H Hc Hf Hesz Hn Hal Hu HQ. spec_by rb_startVector_spec HQ.
  - intros b l n fs esz m al H Hc. exists b. simpl. unfold rb_startVector.
    by rewrite (rep_inTable _ _ _ _ H Hc).
  - intros b l esz n bs v Q H Hc Hlen HQ.
    spec_by (rb_write_spec b l esz n bs [to_uint 8 v]) HQ. repeat constructor; apply to_uint8_byte.
  - intros b l esz n bs sz add Q H Hc Hsz Hlen Hadd He Hb Ha HQ. unfold wp. simpl.
    rewrite (rb_prep_spec b l esz n bs sz add); auto.
  - intros b l esz n bs k Q H Hc Hk Hlen HQ.
    spec_by (rb_write_spec b l esz n bs (zeros k)) HQ; [rewrite zlen_zeros; lia | apply zeros_byte].
  - intros b l esz n bs v Q H Hc Hlen HQ.
    spec_by (rb_write_spec b l esz n bs [to_uint 8 v]) HQ. repeat constructor; apply to_uint8_byte.
  - intros b l esz n bs v Q H Hc Hlen HQ.
    spec_by (rb_write_spec b l esz n bs (f32_bytes v)) HQ. apply f32_bytes_byte.
  - intros b l Q H HQ. apply HQ.
  - intros b l esz n bs Q H Hc Hlen Hn Hu HQ. spec_by rb_endVector_spec HQ.
  - intros b l s Q bs H Hc Hf Hb Hu HQ. spec_by (rb_text_spec b l bs (zlen bs + 16)) HQ.
  - intros b l bs Q H Hc Hf Hb Hu HQ. spec_by (rb_byteVector_spec b l bs (zlen bs + 16)) HQ.
  - intros b l root fs sp Q H Hc Hf Hr Hu HQ. spec_by rb_finish_spec HQ.
  - intros b l root sp Q H Hf HQ. unfold wp. simpl. apply HQ.
    + apply u8_of_buffer_wf. apply (rep_bytes _ _ H).
    + pose proof (rep_finished _ _ H) as Hr. unfold rep_fin in Hr. rewrite Hf in Hr.
      simpl. apply Hr.
    + rewrite u8_of_buffer_bytes. by apply rb_holds.
  - done.
  - done.
  - done.
  - done.
  - intros b p x (_ & _ & H) Hx. simpl. unfold rd. change 1 with (zlen [x]).
    change rbb_u with (@bytes FbRef). rewrite H. simpl. lia.
  - intros b p x (_ & _ & H) Hx. simpl. unfold rd_int, rd. f_equal. change 1 with (zlen [x]).
    change rbb_u with (@bytes FbRef). rewrite H. simpl. lia.
  - intros b p bs (_ & _ & H) Hb Hl. simpl in *. unfold rd. by rewrite <- Hl, H.
  - intros b p bs (_ & _ & H) Hb Hl. simpl in *. unfold rd, f32_value. by rewrite <- Hl, H.
  - intros f n vs H ->. by apply (rbb_scalars_spec f vs 0).
Defined.
