(* ===== verification/SpanreedMessages.v ===== *)
(** * The messages of the proxy protocol

    One module per class of [flatbuffers/generated/ts/spanreed-message/]: the
    accessors read a table object (the members [bb] and [bb_pos]), the static
    functions run on a builder. The table classes that mutate the [ByteBuffer]
    they are given ([getSizePrefixedRootAs...] moves its position) return the
    moved buffer inside the table. *)

From S2P Require Import Prelude JsPlatform FlatBuffers.

(** ** [InnerMsg] ([inner-msg.ts]) *)
Module InnerMsg.
Inductive t : Type := NONE | ProxyMessage | ConnectionVerdict | CloseConnection.
#[global] Instance t_eq_dec : EqDecision t.
Proof. solve_decision. Defined.

(** The number of a member, and the reverse mapping TypeScript gives a numeric enum. *)
Definition to_number (m : t) : Z :=
  match m with NONE => 0 | ProxyMessage => 1 | ConnectionVerdict => 2 | CloseConnection => 3 end.
Definition of_number (n : Z) : option t :=
  if n =? 0 then Some NONE else if n =? 1 then Some ProxyMessage else if n =? 2 then Some ConnectionVerdict else if n =? 3 then Some CloseConnection else None.
End InnerMsg.

(** ** [ProxyDestInnerMsg] ([proxy-dest-inner-msg.ts]) *)
Module ProxyDestInnerMsg.
Inductive t : Type := NONE | ProxyDestConnectionRequest | ProxyDestClientMessage | ProxyDestCloseConnection.
#[global] Instance t_eq_dec : EqDecision t.
Proof. solve_decision. Defined.

(** The number of a member, and the reverse mapping TypeScript gives a numeric enum. *)
Definition to_number (m : t) : Z :=
  match m with NONE => 0 | ProxyDestConnectionRequest => 1 | ProxyDestClientMessage => 2 | ProxyDestCloseConnection => 3 end.
Definition of_number (n : Z) : option t :=
  if n =? 0 then Some NONE else if n =? 1 then Some ProxyDestConnectionRequest else if n =? 2 then Some ProxyDestClientMessage else if n =? 3 then Some ProxyDestCloseConnection else None.
End ProxyDestInnerMsg.

(** ** [ProxyMessage] ([proxy-message.ts]) *)
Module ProxyMessage.
Section with_fb.
Context `{FB : FlatBuffers}.

Definition new : fbtable ByteBuffer := mkTable None 0.

Definition __init (i : Z) (b : ByteBuffer) (self : fbtable ByteBuffer) : fbtable ByteBuffer :=
  mkTable (Some b) i.

Definition getRootAsProxyMessage (b : ByteBuffer) (obj : option (fbtable ByteBuffer)) : fbtable ByteBuffer :=
  __init (readInt32 b (position b) + position b) b (default new obj).

Definition getSizePrefixedRootAsProxyMessage (b : ByteBuffer) (obj : option (fbtable ByteBuffer)) : fbtable ByteBuffer :=
  let b := setPosition (position b + SIZE_PREFIX_LENGTH) b in
  __init (readInt32 b (position b) + position b) b (default new obj).

Definition clientId (self : fbtable ByteBuffer) : outcome exn Z :=
  this_bb ← deref self;
  let offset := __offset this_bb (bb_pos self) 4 in
  Ret (if truthy offset then readUint32 this_bb (bb_pos self + offset) else 0).

Definition startProxyMessage : stm Builder exn unit := startObject 1.

Definition addClientId (clientId : Z) : stm Builder exn unit := addFieldInt32 0 clientId 0.

Definition endProxyMessage : stm Builder exn Z := endObject.

Definition createProxyMessage (clientId : Z) : stm Builder exn Z :=
  startProxyMessage ≫= fun _ =>
  addClientId clientId ≫= fun _ =>
  endProxyMessage.

End with_fb.
End ProxyMessage.

(** ** [ConnectionVerdict] ([connection-verdict.ts]) *)
Module ConnectionVerdict.
Section with_fb.
Context `{FB : FlatBuffers}.

Definition new : fbtable ByteBuffer := mkTable None 0.

Definition __init (i : Z) (b : ByteBuffer) (self : fbtable ByteBuffer) : fbtable ByteBuffer :=
  mkTable (Some b) i.

Definition getRootAsConnectionVerdict (b : ByteBuffer) (obj : option (fbtable ByteBuffer)) : fbtable ByteBuffer :=
  __init (readInt32 b (position b) + position b) b (default new obj).

Definition getSizePrefixedRootAsConnectionVerdict (b : ByteBuffer) (obj : option (fbtable ByteBuffer)) : fbtable ByteBuffer :=
  let b := setPosition (position b + SIZE_PREFIX_LENGTH) b in
  __init (readInt32 b (position b) + position b) b (default new obj).

Definition clientId (self : fbtable ByteBuffer) : outcome exn Z :=
  this_bb ← deref self;
  let offset := __offset this_bb (bb_pos self) 4 in
  Ret (if truthy offset then readUint32 this_bb (bb_pos self + offset) else 0).

Definition accepted (self : fbtable ByteBuffer) : outcome exn bool :=
  this_bb ← deref self;
  let offset := __offset this_bb (bb_pos self) 6 in
  Ret (if truthy offset then truthy (readInt8 this_bb (bb_pos self + offset)) else false).

Definition startConnectionVerdict : stm Builder exn unit := startObject 2.

Definition addClientId (clientId : Z) : stm Builder exn unit := addFieldInt32 0 clientId 0.

Definition addAccepted (accepted : bool) : stm Builder exn unit := addFieldInt8 1 (bool_number accepted) (bool_number false).

Definition endConnectionVerdict : stm Builder exn Z := endObject.

Definition createConnectionVerdict (clientId : Z) (accepted : bool) : stm Builder exn Z :=
  startConnectionVerdict ≫= fun _ =>
  addClientId clientId ≫= fun _ =>
  addAccepted accepted ≫= fun _ =>
  endConnectionVerdict.

End with_fb.
End ConnectionVerdict.

(** ** [CloseConnection] ([close-connection.ts]) *)
Module CloseConnection.
Section with_fb.
Context `{FB : FlatBuffers}.

Definition new : fbtable ByteBuffer := mkTable None 0.

Definition __init (i : Z) (b : ByteBuffer) (self : fbtable ByteBuffer) : fbtable ByteBuffer :=
  mkTable (Some b) i.

Definition getRootAsCloseConnection (b : ByteBuffer) (obj : option (fbtable ByteBuffer)) : fbtable ByteBuffer :=
  __init (readInt32 b (position b) + position b) b (default new obj).

Definition getSizePrefixedRootAsCloseConnection (b : ByteBuffer) (obj : option (fbtable ByteBuffer)) : fbtable ByteBuffer :=
  let b := setPosition (position b + SIZE_PREFIX_LENGTH) b in
  __init (readInt32 b (position b) + position b) b (default new obj).

Definition clientId (self : fbtable ByteBuffer) : outcome exn Z :=
  this_bb ← deref self;
  let offset := __offset this_bb (bb_pos self) 4 in
  Ret (if truthy offset then readUint32 this_bb (bb_pos self + offset) else 0).

Definition reason (self : fbtable ByteBuffer) (optionalEncoding : option Encoding) : outcome exn (option text) :=
  this_bb ← deref self;
  let offset := __offset this_bb (bb_pos self) 6 in
  Ret (if truthy offset then Some (__string this_bb (bb_pos self + offset) optionalEncoding) else None).

Definition startCloseConnection : stm Builder exn unit := startObject 2.

Definition addClientId (clientId : Z) : stm Builder exn unit := addFieldInt32 0 clientId 0.

Definition addReason (reasonOffset : Z) : stm Builder exn unit := addFieldOffset 1 reasonOffset 0.

Definition endCloseConnection : stm Builder exn Z := endObject.

Definition createCloseConnection (clientId : Z) (reasonOffset : Z) : stm Builder exn Z :=
  startCloseConnection ≫= fun _ =>
  addClientId clientId ≫= fun _ =>
  addReason reasonOffset ≫= fun _ =>
  endCloseConnection.

End with_fb.
End CloseConnection.

(** ** Union helpers of [InnerMsg] *)
Module InnerMsgUnion.
Section with_fb.
Context `{FB : FlatBuffers}.

(** An instance of one of the member classes. *)
Inductive object : Type :=
| AProxyMessage (self : fbtable ByteBuffer)
| AConnectionVerdict (self : fbtable ByteBuffer)
| ACloseConnection (self : fbtable ByteBuffer).

Definition self_of (x : object) : fbtable ByteBuffer :=
  match x with AProxyMessage self | AConnectionVerdict self | ACloseConnection self => self end.

Definition unionToInnerMsg (type : Z) (accessor : object -> outcome exn (option object)) : outcome exn (option object) :=
  match InnerMsg.of_number type with
  | Some InnerMsg.NONE => Ret None
  | Some InnerMsg.ProxyMessage => accessor (AProxyMessage ProxyMessage.new)
  | Some InnerMsg.ConnectionVerdict => accessor (AConnectionVerdict ConnectionVerdict.new)
  | Some InnerMsg.CloseConnection => accessor (ACloseConnection CloseConnection.new)
  | None => Ret None
  end.

Definition unionListToInnerMsg (type : Z) (accessor : Z -> object -> outcome exn (option object)) (index : Z) : outcome exn (option object) :=
  match InnerMsg.of_number type with
  | Some InnerMsg.NONE => Ret None
  | Some InnerMsg.ProxyMessage => accessor index (AProxyMessage ProxyMessage.new)
  | Some InnerMsg.ConnectionVerdict => accessor index (AConnectionVerdict ConnectionVerdict.new)
  | Some InnerMsg.CloseConnection => accessor index (ACloseConnection CloseConnection.new)
  | None => Ret None
  end.

End with_fb.
#[global] Arguments object {FB}.
End InnerMsgUnion.

(** ** [DestinationMessage] ([destination-message.ts]) *)
Module DestinationMessage.
Section with_fb.
Context `{FB : FlatBuffers}.

Definition new : fbtable ByteBuffer := mkTable None 0.

Definition __init (i : Z) (b : ByteBuffer) (self : fbtable ByteBuffer) : fbtable ByteBuffer :=
  mkTable (Some b) i.

Definition getRootAsDestinationMessage (b : ByteBuffer) (obj : option (fbtable ByteBuffer)) : fbtable ByteBuffer :=
  __init (readInt32 b (position b) + position b) b (default new obj).

Definition getSizePrefixedRootAsDestinationMessage (b : ByteBuffer) (obj : option (fbtable ByteBuffer)) : fbtable ByteBuffer :=
  let b := setPosition (position b + SIZE_PREFIX_LENGTH) b in
  __init (readInt32 b (position b) + position b) b (default new obj).

Definition msgType (self : fbtable ByteBuffer) : outcome exn Z :=
  this_bb ← deref self;
  let offset := __offset this_bb (bb_pos self) 4 in
  Ret (if truthy offset then readUint8 this_bb (bb_pos self + offset) else InnerMsg.to_number InnerMsg.NONE).

Definition msg (self obj : fbtable ByteBuffer) : outcome exn (option (fbtable ByteBuffer)) :=
  this_bb ← deref self;
  let offset := __offset this_bb (bb_pos self) 6 in
  Ret (if truthy offset then Some (__union this_bb obj (bb_pos self + offset)) else None).

Definition appData (self : fbtable ByteBuffer) (index : Z) : outcome exn (option Z) :=
  this_bb ← deref self;
  let offset := __offset this_bb (bb_pos self) 8 in
  Ret (Some (if truthy offset then readUint8 this_bb (__vector this_bb (bb_pos self + offset) + index) else 0)).

Definition appDataLength (self : fbtable ByteBuffer) : outcome exn Z :=
  this_bb ← deref self;
  let offset := __offset this_bb (bb_pos self) 8 in
  Ret (if truthy offset then __vector_len this_bb (bb_pos self + offset) else 0).

Definition appDataArray (self : fbtable ByteBuffer) : outcome exn (option Uint8Array) :=
  this_bb ← deref self;
  let offset := __offset this_bb (bb_pos self) 8 in
  if truthy offset then
    u ← u8_view (u8_buffer (bytes this_bb))
      (u8_byteOffset (bytes this_bb) + __vector this_bb (bb_pos self + offset))
      (__vector_len this_bb (bb_pos self + offset));
    Ret (Some u)
  else Ret None.

Definition startDestinationMessage : stm Builder exn unit := startObject 3.

Definition addMsgType (msgType : InnerMsg.t) : stm Builder exn unit :=
  addFieldInt8 0 (InnerMsg.to_number msgType) (InnerMsg.to_number InnerMsg.NONE).

Definition addMsg (msgOffset : Z) : stm Builder exn unit := addFieldOffset 1 msgOffset 0.

Definition addAppData (appDataOffset : Z) : stm Builder exn unit := addFieldOffset 2 appDataOffset 0.

Definition createAppDataVector (data : list Z) : stm Builder exn Z :=
  startVector 1 (zlen data) 1 ≫= fun _ =>
  for_each (rev data) addInt8 ≫= fun _ =>
  endVector.

Definition startAppDataVector (numElems : Z) : stm Builder exn unit := startVector 1 numElems 1.

Definition endDestinationMessage : stm Builder exn Z := endObject.

Definition finishDestinationMessageBuffer (offset : Z) : stm Builder exn unit := finish offset false.

Definition finishSizePrefixedDestinationMessageBuffer (offset : Z) : stm Builder exn unit := finish offset true.

Definition createDestinationMessage (msgType : InnerMsg.t) (msgOffset : Z) (appDataOffset : Z) : stm Builder exn Z :=
  startDestinationMessage ≫= fun _ =>
  addMsgType msgType ≫= fun _ =>
  addMsg msgOffset ≫= fun _ =>
  addAppData appDataOffset ≫= fun _ =>
  endDestinationMessage.

End with_fb.
End DestinationMessage.

(** ** [ProxyDestConnectionRequest] ([proxy-dest-connection-request.ts]) *)
Module ProxyDestConnectionRequest.
Section with_fb.
Context `{FB : FlatBuffers}.

Definition new : fbtable ByteBuffer := mkTable None 0.

Definition __init (i : Z) (b : ByteBuffer) (self : fbtable ByteBuffer) : fbtable ByteBuffer :=
  mkTable (Some b) i.

Definition getRootAsProxyDestConnectionRequest (b : ByteBuffer) (obj : option (fbtable ByteBuffer)) : fbtable ByteBuffer :=
  __init (readInt32 b (position b) + position b) b (default new obj).

Definition getSizePrefixedRootAsProxyDestConnectionRequest (b : ByteBuffer) (obj : option (fbtable ByteBuffer)) : fbtable ByteBuffer :=
  let b := setPosition (position b + SIZE_PREFIX_LENGTH) b in
  __init (readInt32 b (position b) + position b) b (default new obj).

Definition clientId (self : fbtable ByteBuffer) : outcome exn Z :=
  this_bb ← deref self;
  let offset := __offset this_bb (bb_pos self) 4 in
  Ret (if truthy offset then readUint32 this_bb (bb_pos self + offset) else 0).

Definition startProxyDestConnectionRequest : stm Builder exn unit := startObject 1.

Definition addClientId (clientId : Z) : stm Builder exn unit := addFieldInt32 0 clientId 0.

Definition endProxyDestConnectionRequest : stm Builder exn Z := endObject.

Definition createProxyDestConnectionRequest (clientId : Z) : stm Builder exn Z :=
  startProxyDestConnectionRequest ≫= fun _ =>
  addClientId clientId ≫= fun _ =>
  endProxyDestConnectionRequest.

End with_fb.
End ProxyDestConnectionRequest.

(** ** [ProxyDestClientMessage] ([proxy-dest-client-message.ts]) *)
Module ProxyDestClientMessage.
Section with_fb.
Context `{FB : FlatBuffers}.

Definition new : fbtable ByteBuffer := mkTable None 0.

Definition __init (i : Z) (b : ByteBuffer) (self : fbtable ByteBuffer) : fbtable ByteBuffer :=
  mkTable (Some b) i.

Definition getRootAsProxyDestClientMessage (b : ByteBuffer) (obj : option (fbtable ByteBuffer)) : fbtable ByteBuffer :=
  __init (readInt32 b (position b) + position b) b (default new obj).

Definition getSizePrefixedRootAsProxyDestClientMessage (b : ByteBuffer) (obj : option (fbtable ByteBuffer)) : fbtable ByteBuffer :=
  let b := setPosition (position b + SIZE_PREFIX_LENGTH) b in
  __init (readInt32 b (position b) + position b) b (default new obj).

Definition clientId (self : fbtable ByteBuffer) : outcome exn Z :=
  this_bb ← deref self;
  let offset := __offset this_bb (bb_pos self) 4 in
  Ret (if truthy offset then readUint32 this_bb (bb_pos self + offset) else 0).

Definition startProxyDestClientMessage : stm Builder exn unit := startObject 1.

Definition addClientId (clientId : Z) : stm Builder exn unit := addFieldInt32 0 clientId 0.

Definition endProxyDestClientMessage : stm Builder exn Z := endObject.

Definition createProxyDestClientMessage (clientId : Z) : stm Builder exn Z :=
  startProxyDestClientMessage ≫= fun _ =>
  addClientId clientId ≫= fun _ =>
  endProxyDestClientMessage.

End with_fb.
End ProxyDestClientMessage.

(** ** [ProxyDestCloseConnection] ([proxy-dest-close-connection.ts]) *)
Module ProxyDestCloseConnection.
Section with_fb.
Context `{FB : FlatBuffers}.

Definition new : fbtable ByteBuffer := mkTable None 0.

Definition __init (i : Z) (b : ByteBuffer) (self : fbtable ByteBuffer) : fbtable ByteBuffer :=
  mkTable (Some b) i.

Definition getRootAsProxyDestCloseConnection (b : ByteBuffer) (obj : option (fbtable ByteBuffer)) : fbtable ByteBuffer :=
  __init (readInt32 b (position b) + position b) b (default new obj).

Definition getSizePrefixedRootAsProxyDestCloseConnection (b : ByteBuffer) (obj : option (fbtable ByteBuffer)) : fbtable ByteBuffer :=
  let b := setPosition (position b + SIZE_PREFIX_LENGTH) b in
  __init (readInt32 b (position b) + position b) b (default new obj).

Definition clientId (self : fbtable ByteBuffer) : outcome exn Z :=
  this_bb ← deref self;
  let offset := __offset this_bb (bb_pos self) 4 in
  Ret (if truthy offset then readUint32 this_bb (bb_pos self + offset) else 0).

Definition startProxyDestCloseConnection : stm Builder exn unit := startObject 1.

Definition addClientId (clientId : Z) : stm Builder exn unit := addFieldInt32 0 clientId 0.

Definition endProxyDestCloseConnection : stm Builder exn Z := endObject.

Definition createProxyDestCloseConnection (clientId : Z) : stm Builder exn Z :=
  startProxyDestCloseConnection ≫= fun _ =>
  addClientId clientId ≫= fun _ =>
  endProxyDestCloseConnection.

End with_fb.
End ProxyDestCloseConnection.

(** ** Union helpers of [ProxyDestInnerMsg] *)
Module ProxyDestInnerMsgUnion.
Section with_fb.
Context `{FB : FlatBuffers}.

(** An instance of one of the member classes. *)
Inductive object : Type :=
| AProxyDestConnectionRequest (self : fbtable ByteBuffer)
| AProxyDestClientMessage (self : fbtable ByteBuffer)
| AProxyDestCloseConnection (self : fbtable ByteBuffer).

Definition self_of (x : object) : fbtable ByteBuffer :=
  match x with AProxyDestConnectionRequest self | AProxyDestClientMessage self | AProxyDestCloseConnection self => self end.

Definition unionToProxyDestInnerMsg (type : Z) (accessor : object -> outcome exn (option object)) : outcome exn (option object) :=
  match ProxyDestInnerMsg.of_number type with
  | Some ProxyDestInnerMsg.NONE => Ret None
  | Some ProxyDestInnerMsg.ProxyDestConnectionRequest => accessor (AProxyDestConnectionRequest ProxyDestConnectionRequest.new)
  | Some ProxyDestInnerMsg.ProxyDestClientMessage => accessor (AProxyDestClientMessage ProxyDestClientMessage.new)
  | Some ProxyDestInnerMsg.ProxyDestCloseConnection => accessor (AProxyDestCloseConnection ProxyDestCloseConnection.new)
  | None => Ret None
  end.

Definition unionListToProxyDestInnerMsg (type : Z) (accessor : Z -> object -> outcome exn (option object)) (index : Z) : outcome exn (option object) :=
  match ProxyDestInnerMsg.of_number type with
  | Some ProxyDestInnerMsg.NONE => Ret None
  | Some ProxyDestInnerMsg.ProxyDestConnectionRequest => accessor index (AProxyDestConnectionRequest ProxyDestConnectionRequest.new)
  | Some ProxyDestInnerMsg.ProxyDestClientMessage => accessor index (AProxyDestClientMessage ProxyDestClientMessage.new)
  | Some ProxyDestInnerMsg.ProxyDestCloseConnection => accessor index (AProxyDestCloseConnection ProxyDestCloseConnection.new)
  | None => Ret None
  end.

End with_fb.
#[global] Arguments object {FB}.
End ProxyDestInnerMsgUnion.

(** ** [ProxyDestinationMessage] ([proxy-destination-message.ts]) *)
Module ProxyDestinationMessage.
Section with_fb.
Context `{FB : FlatBuffers}.

Definition new : fbtable ByteBuffer := mkTable None 0.

Definition __init (i : Z) (b : ByteBuffer) (self : fbtable ByteBuffer) : fbtable ByteBuffer :=
  mkTable (Some b) i.

Definition getRootAsProxyDestinationMessage (b : ByteBuffer) (obj : option (fbtable ByteBuffer)) : fbtable ByteBuffer :=
  __init (readInt32 b (position b) + position b) b (default new obj).

Definition getSizePrefixedRootAsProxyDestinationMessage (b : ByteBuffer) (obj : option (fbtable ByteBuffer)) : fbtable ByteBuffer :=
  let b := setPosition (position b + SIZE_PREFIX_LENGTH) b in
  __init (readInt32 b (position b) + position b) b (default new obj).

Definition innerMessageType (self : fbtable ByteBuffer) : outcome exn Z :=
  this_bb ← deref self;
  let offset := __offset this_bb (bb_pos self) 4 in
  Ret (if truthy offset then readUint8 this_bb (bb_pos self + offset) else ProxyDestInnerMsg.to_number ProxyDestInnerMsg.NONE).

Definition innerMessage (self obj : fbtable ByteBuffer) : outcome exn (option (fbtable ByteBuffer)) :=
  this_bb ← deref self;
  let offset := __offset this_bb (bb_pos self) 6 in
  Ret (if truthy offset then Some (__union this_bb obj (bb_pos self + offset)) else None).

Definition appData (self : fbtable ByteBuffer) (index : Z) : outcome exn (option Z) :=
  this_bb ← deref self;
  let offset := __offset this_bb (bb_pos self) 8 in
  Ret (Some (if truthy offset then readUint8 this_bb (__vector this_bb (bb_pos self + offset) + index) else 0)).

Definition appDataLength (self : fbtable ByteBuffer) : outcome exn Z :=
  this_bb ← deref self;
  let offset := __offset this_bb (bb_pos self) 8 in
  Ret (if truthy offset then __vector_len this_bb (bb_pos self + offset) else 0).

Definition appDataArray (self : fbtable ByteBuffer) : outcome exn (option Uint8Array) :=
  this_bb ← deref self;
  let offset := __offset this_bb (bb_pos self) 8 in
  if truthy offset then
    u ← u8_view (u8_buffer (bytes this_bb))
      (u8_byteOffset (bytes this_bb) + __vector this_bb (bb_pos self + offset))
      (__vector_len this_bb (bb_pos self + offset));
    Ret (Some u)
  else Ret None.

Definition startProxyDestinationMessage : stm Builder exn unit := startObject 3.

Definition addInnerMessageType (innerMessageType : ProxyDestInnerMsg.t) : stm Builder exn unit :=
  addFieldInt8 0 (ProxyDestInnerMsg.to_number innerMessageType) (ProxyDestInnerMsg.to_number ProxyDestInnerMsg.NONE).

Definition addInnerMessage (innerMessageOffset : Z) : stm Builder exn unit := addFieldOffset 1 innerMessageOffset 0.

Definition addAppData (appDataOffset : Z) : stm Builder exn unit := addFieldOffset 2 appDataOffset 0.

Definition createAppDataVector (data : list Z) : stm Builder exn Z :=
  startVector 1 (zlen data) 1 ≫= fun _ =>
  for_each (rev data) addInt8 ≫= fun _ =>
  endVector.

Definition startAppDataVector (numElems : Z) : stm Builder exn unit := startVector 1 numElems 1.

Definition endProxyDestinationMessage : stm Builder exn Z := endObject.

Definition finishProxyDestinationMessageBuffer (offset : Z) : stm Builder exn unit := finish offset false.

Definition finishSizePrefixedProxyDestinationMessageBuffer (offset : Z) : stm Builder exn unit := finish offset true.

Definition createProxyDestinationMessage (innerMessageType : ProxyDestInnerMsg.t) (innerMessageOffset : Z) (appDataOffset : Z) : stm Builder exn Z :=
  startProxyDestinationMessage ≫= fun _ =>
  addInnerMessageType innerMessageType ≫= fun _ =>
  addInnerMessage innerMessageOffset ≫= fun _ =>
  addAppData appDataOffset ≫= fun _ =>
  endProxyDestinationMessage.

End with_fb.
End ProxyDestinationMessage.

(** ** [ConnectClientMessageT] ([connect-client-message.ts]) *)
Module ConnectClientMessageT.
(** The object API of [ConnectClientMessage]: plain members. *)
Record t : Type := mk { connectionString : option text; appData : list Z }.

(** [new ConnectClientMessageT()] with its default arguments. *)
Definition new : t := mk None [].
End ConnectClientMessageT.

(** ** [ConnectClientMessage] ([connect-client-message.ts]) *)
Module ConnectClientMessage.
Section with_fb.
Context `{FB : FlatBuffers}.

Definition new : fbtable ByteBuffer := mkTable None 0.

Definition __init (i : Z) (b : ByteBuffer) (self : fbtable ByteBuffer) : fbtable ByteBuffer :=
  mkTable (Some b) i.

Definition getRootAsConnectClientMessage (b : ByteBuffer) (obj : option (fbtable ByteBuffer)) : fbtable ByteBuffer :=
  __init (readInt32 b (position b) + position b) b (default new obj).

Definition getSizePrefixedRootAsConnectClientMessage (b : ByteBuffer) (obj : option (fbtable ByteBuffer)) : fbtable ByteBuffer :=
  let b := setPosition (position b + SIZE_PREFIX_LENGTH) b in
  __init (readInt32 b (position b) + position b) b (default new obj).

Definition connectionString (self : fbtable ByteBuffer) (optionalEncoding : option Encoding) : outcome exn (option text) :=
  this_bb ← deref self;
  let offset := __offset this_bb (bb_pos self) 4 in
  Ret (if truthy offset then Some (__string this_bb (bb_pos self + offset) optionalEncoding) else None).

Definition appData (self : fbtable ByteBuffer) (index : Z) : outcome exn (option Z) :=
  this_bb ← deref self;
  let offset := __offset this_bb (bb_pos self) 6 in
  Ret (Some (if truthy offset then readUint8 this_bb (__vector this_bb (bb_pos self + offset) + index) else 0)).

Definition appDataLength (self : fbtable ByteBuffer) : outcome exn Z :=
  this_bb ← deref self;
  let offset := __offset this_bb (bb_pos self) 6 in
  Ret (if truthy offset then __vector_len this_bb (bb_pos self + offset) else 0).

Definition appDataArray (self : fbtable ByteBuffer) : outcome exn (option Uint8Array) :=
  this_bb ← deref self;
  let offset := __offset this_bb (bb_pos self) 6 in
  if truthy offset then
    u ← u8_view (u8_buffer (bytes this_bb))
      (u8_byteOffset (bytes this_bb) + __vector this_bb (bb_pos self + offset))
      (__vector_len this_bb (bb_pos self + offset));
    Ret (Some u)
  else Ret None.

Definition startConnectClientMessage : stm Builder exn unit := startObject 2.

Definition addConnectionString (connectionStringOffset : Z) : stm Builder exn unit := addFieldOffset 0 connectionStringOffset 0.

Definition addAppData (appDataOffset : Z) : stm Builder exn unit := addFieldOffset 1 appDataOffset 0.

Definition createAppDataVector (data : list Z) : stm Builder exn Z :=
  startVector 1 (zlen data) 1 ≫= fun _ =>
  for_each (rev data) addInt8 ≫= fun _ =>
  endVector.

Definition startAppDataVector (numElems : Z) : stm Builder exn unit := startVector 1 numElems 1.

Definition endConnectClientMessage : stm Builder exn Z := endObject.

Definition finishConnectClientMessageBuffer (offset : Z) : stm Builder exn unit := finish offset false.

Definition finishSizePrefixedConnectClientMessageBuffer (offset : Z) : stm Builder exn unit := finish offset true.

Definition createConnectClientMessage (connectionStringOffset : Z) (appDataOffset : Z) : stm Builder exn Z :=
  startConnectClientMessage ≫= fun _ =>
  addConnectionString connectionStringOffset ≫= fun _ =>
  addAppData appDataOffset ≫= fun _ =>
  endConnectClientMessage.

Definition unpack (self : fbtable ByteBuffer) : outcome exn ConnectClientMessageT.t :=
  s ← connectionString self None;
  _ ← deref self;
  n ← appDataLength self;
  xs ← createScalarList (appData self) n;
  Ret (ConnectClientMessageT.mk s xs).

(** Assigns the members of [_o] in turn. *)
Definition unpackTo (self : fbtable ByteBuffer) : stm ConnectClientMessageT.t exn unit := fun _o =>
  match connectionString self None with
  | Throw e => (Throw e, _o)
  | Ret s =>
      let _o := ConnectClientMessageT.mk s (ConnectClientMessageT.appData _o) in
      match (_ ← deref self; n ← appDataLength self; createScalarList (appData self) n) with
      | Throw e => (Throw e, _o)
      | Ret xs => (Ret tt, ConnectClientMessageT.mk (ConnectClientMessageT.connectionString _o) xs)
      end
  end.

Definition pack (this : ConnectClientMessageT.t) : stm Builder exn Z :=
  connectionString ← match ConnectClientMessageT.connectionString this with
                     | Some s => createString s
                     | None => mret 0
                     end;
  appData ← createAppDataVector (ConnectClientMessageT.appData this);
  createConnectClientMessage connectionString appData.

End with_fb.
End ConnectClientMessage.

(** ** [ConnectClientVerdict] ([connect-client-verdict.ts]) *)
Module ConnectClientVerdict.
Section with_fb.
Context `{FB : FlatBuffers}.

Definition new : fbtable ByteBuffer := mkTable None 0.

Definition __init (i : Z) (b : ByteBuffer) (self : fbtable ByteBuffer) : fbtable ByteBuffer :=
  mkTable (Some b) i.

Definition getRootAsConnectClientVerdict (b : ByteBuffer) (obj : option (fbtable ByteBuffer)) : fbtable ByteBuffer :=
  __init (readInt32 b (position b) + position b) b (default new obj).

Definition getSizePrefixedRootAsConnectClientVerdict (b : ByteBuffer) (obj : option (fbtable ByteBuffer)) : fbtable ByteBuffer :=
  let b := setPosition (position b + SIZE_PREFIX_LENGTH) b in
  __init (readInt32 b (position b) + position b) b (default new obj).

Definition accepted (self : fbtable ByteBuffer) : outcome exn bool :=
  this_bb ← deref self;
  let offset := __offset this_bb (bb_pos self) 4 in
  Ret (if truthy offset then truthy (readInt8 this_bb (bb_pos self + offset)) else false).

Definition errorReason (self : fbtable ByteBuffer) (optionalEncoding : option Encoding) : outcome exn (option text) :=
  this_bb ← deref self;
  let offset := __offset this_bb (bb_pos self) 6 in
  Ret (if truthy offset then Some (__string this_bb (bb_pos self + offset) optionalEncoding) else None).

Definition appData (self : fbtable ByteBuffer) (index : Z) : outcome exn (option Z) :=
  this_bb ← deref self;
  let offset := __offset this_bb (bb_pos self) 8 in
  Ret (Some (if truthy offset then readUint8 this_bb (__vector this_bb (bb_pos self + offset) + index) else 0)).

Definition appDataLength (self : fbtable ByteBuffer) : outcome exn Z :=
  this_bb ← deref self;
  let offset := __offset this_bb (bb_pos self) 8 in
  Ret (if truthy offset then __vector_len this_bb (bb_pos self + offset) else 0).

Definition appDataArray (self : fbtable ByteBuffer) : outcome exn (option Uint8Array) :=
  this_bb ← deref self;
  let offset := __offset this_bb (bb_pos self) 8 in
  if truthy offset then
    u ← u8_view (u8_buffer (bytes this_bb))
      (u8_byteOffset (bytes this_bb) + __vector this_bb (bb_pos self + offset))
      (__vector_len this_bb (bb_pos self + offset));
    Ret (Some u)
  else Ret None.

Definition startConnectClientVerdict : stm Builder exn unit := startObject 3.

Definition addAccepted (accepted : bool) : stm Builder exn unit := addFieldInt8 0 (bool_number accepted) (bool_number false).

Definition addErrorReason (errorReasonOffset : Z) : stm Builder exn unit := addFieldOffset 1 errorReasonOffset 0.

Definition addAppData (appDataOffset : Z) : stm Builder exn unit := addFieldOffset 2 appDataOffset 0.

Definition createAppDataVector (data : list Z) : stm Builder exn Z :=
  startVector 1 (zlen data) 1 ≫= fun _ =>
  for_each (rev data) addInt8 ≫= fun _ =>
  endVector.

Definition startAppDataVector (numElems : Z) : stm Builder exn unit := startVector 1 numElems 1.

Definition endConnectClientVerdict : stm Builder exn Z := endObject.

Definition finishConnectClientVerdictBuffer (offset : Z) : stm Builder exn unit := finish offset false.

Definition finishSizePrefixedConnectClientVerdictBuffer (offset : Z) : stm Builder exn unit := finish offset true.

Definition createConnectClientVerdict (accepted : bool) (errorReasonOffset : Z) (appDataOffset : Z) : stm Builder exn Z :=
  startConnectClientVerdict ≫= fun _ =>
  addAccepted accepted ≫= fun _ =>
  addErrorReason errorReasonOffset ≫= fun _ =>
  addAppData appDataOffset ≫= fun _ =>
  endConnectClientVerdict.

End with_fb.
End ConnectClientVerdict.

(** ** [ConnectDestinationVerdict] ([connect-destination-verdict.ts]) *)
Module ConnectDestinationVerdict.
Section with_fb.
Context `{FB : FlatBuffers}.

Definition new : fbtable ByteBuffer := mkTable None 0.

Definition __init (i : Z) (b : ByteBuffer) (self : fbtable ByteBuffer) : fbtable ByteBuffer :=
  mkTable (Some b) i.

Definition getRootAsConnectDestinationVerdict (b : ByteBuffer) (obj : option (fbtable ByteBuffer)) : fbtable ByteBuffer :=
  __init (readInt32 b (position b) + position b) b (default new obj).

Definition getSizePrefixedRootAsConnectDestinationVerdict (b : ByteBuffer) (obj : option (fbtable ByteBuffer)) : fbtable ByteBuffer :=
  let b := setPosition (position b + SIZE_PREFIX_LENGTH) b in
  __init (readInt32 b (position b) + position b) b (default new obj).

Definition clientId (self : fbtable ByteBuffer) : outcome exn Z :=
  this_bb ← deref self;
  let offset := __offset this_bb (bb_pos self) 4 in
  Ret (if truthy offset then readUint32 this_bb (bb_pos self + offset) else 0).

Definition accepted (self : fbtable ByteBuffer) : outcome exn bool :=
  this_bb ← deref self;
  let offset := __offset this_bb (bb_pos self) 6 in
  Ret (if truthy offset then truthy (readInt8 this_bb (bb_pos self + offset)) else false).

Definition errorReason (self : fbtable ByteBuffer) (optionalEncoding : option Encoding) : outcome exn (option text) :=
  this_bb ← deref self;
  let offset := __offset this_bb (bb_pos self) 8 in
  Ret (if truthy offset then Some (__string this_bb (bb_pos self + offset) optionalEncoding) else None).

Definition appData (self : fbtable ByteBuffer) (index : Z) : outcome exn (option Z) :=
  this_bb ← deref self;
  let offset := __offset this_bb (bb_pos self) 10 in
  Ret (Some (if truthy offset then readUint8 this_bb (__vector this_bb (bb_pos self + offset) + index) else 0)).

Definition appDataLength (self : fbtable ByteBuffer) : outcome exn Z :=
  this_bb ← deref self;
  let offset := __offset this_bb (bb_pos self) 10 in
  Ret (if truthy offset then __vector_len this_bb (bb_pos self + offset) else 0).

Definition appDataArray (self : fbtable ByteBuffer) : outcome exn (option Uint8Array) :=
  this_bb ← deref self;
  let offset := __offset this_bb (bb_pos self) 10 in
  if truthy offset then
    u ← u8_view (u8_buffer (bytes this_bb))
      (u8_byteOffset (bytes this_bb) + __vector this_bb (bb_pos self + offset))
      (__vector_len this_bb (bb_pos self + offset));
    Ret (Some u)
  else Ret None.

Definition startConnectDestinationVerdict : stm Builder exn unit := startObject 4.

Definition addClientId (clientId : Z) : stm Builder exn unit := addFieldInt32 0 clientId 0.

Definition addAccepted (accepted : bool) : stm Builder exn unit := addFieldInt8 1 (bool_number accepted) (bool_number false).

Definition addErrorReason (errorReasonOffset : Z) : stm Builder exn unit := addFieldOffset 2 errorReasonOffset 0.

Definition addAppData (appDataOffset : Z) : stm Builder exn unit := addFieldOffset 3 appDataOffset 0.

Definition createAppDataVector (data : list Z) : stm Builder exn Z :=
  startVector 1 (zlen data) 1 ≫= fun _ =>
  for_each (rev data) addInt8 ≫= fun _ =>
  endVector.

Definition startAppDataVector (numElems : Z) : stm Builder exn unit := startVector 1 numElems 1.

Definition endConnectDestinationVerdict : stm Builder exn Z := endObject.

Definition finishConnectDestinationVerdictBuffer (offset : Z) : stm Builder exn unit := finish offset false.

Definition finishSizePrefixedConnectDestinationVerdictBuffer (offset : Z) : stm Builder exn unit := finish offset true.

Definition createConnectDestinationVerdict (clientId : Z) (accepted : bool) (errorReasonOffset : Z) (appDataOffset : Z) : stm Builder exn Z :=
  startConnectDestinationVerdict ≫= fun _ =>
  addClientId clientId ≫= fun _ =>
  addAccepted accepted ≫= fun _ =>
  addErrorReason errorReasonOffset ≫= fun _ =>
  addAppData appDataOffset ≫= fun _ =>
  endConnectDestinationVerdict.

End with_fb.
End ConnectDestinationVerdict.
