(* ===== verification/HelloMessages.v ===== *)
(** * The messages of the demo application

    One module per class of
    [examples/hello-spanreed/client/src/gen/hello-spanreed/], in the style of
    [SpanreedMessages]: what the demo client and server put into the [appData]
    of the proxy's messages. *)

From S2P Require Import Prelude JsPlatform FlatBuffers.

(** ** [Color] ([color.ts]) *)
Module Color.
Inductive t : Type := Red | Green | Blue | Indigo | FireOrange.
#[global] Instance t_eq_dec : EqDecision t.
Proof. solve_decision. Defined.

(** The number of a member, and the reverse mapping TypeScript gives a numeric enum. *)
Definition to_number (m : t) : Z :=
  match m with Red => 0 | Green => 1 | Blue => 2 | Indigo => 3 | FireOrange => 4 end.
Definition of_number (n : Z) : option t :=
  if n =? 0 then Some Red else if n =? 1 then Some Green else if n =? 2 then Some Blue else if n =? 3 then Some Indigo else if n =? 4 then Some FireOrange else None.
End Color.

(** ** [UserMessage] ([user-message.ts]) *)
Module UserMessage.
Inductive t : Type := NONE | UserConnectMessage | UserClickMessage | UserChatMessage | UserPingMessage.
#[global] Instance t_eq_dec : EqDecision t.
Proof. solve_decision. Defined.

(** The number of a member, and the reverse mapping TypeScript gives a numeric enum. *)
Definition to_number (m : t) : Z :=
  match m with NONE => 0 | UserConnectMessage => 1 | UserClickMessage => 2 | UserChatMessage => 3 | UserPingMessage => 4 end.
Definition of_number (n : Z) : option t :=
  if n =? 0 then Some NONE else if n =? 1 then Some UserConnectMessage else if n =? 2 then Some UserClickMessage else if n =? 3 then Some UserChatMessage else if n =? 4 then Some UserPingMessage else None.
End UserMessage.

(** ** [Message] ([message.ts]) *)
Module Message.
Inductive t : Type := NONE | ServerChatMessage | ServerGameStateMessage.
#[global] Instance t_eq_dec : EqDecision t.
Proof. solve_decision. Defined.

(** The number of a member, and the reverse mapping TypeScript gives a numeric enum. *)
Definition to_number (m : t) : Z :=
  match m with NONE => 0 | ServerChatMessage => 1 | ServerGameStateMessage => 2 end.
Definition of_number (n : Z) : option t :=
  if n =? 0 then Some NONE else if n =? 1 then Some ServerChatMessage else if n =? 2 then Some ServerGameStateMessage else None.
End Message.

(** ** [UserConnectMessage] ([user-connect-message.ts]) *)
Module UserConnectMessage.
Section with_fb.
Context `{FB : FlatBuffers}.

Definition new : fbtable ByteBuffer := mkTable None 0.

Definition __init (i : Z) (b : ByteBuffer) (self : fbtable ByteBuffer) : fbtable ByteBuffer :=
  mkTable (Some b) i.

Definition getRootAsUserConnectMessage (b : ByteBuffer) (obj : option (fbtable ByteBuffer)) : fbtable ByteBuffer :=
  __init (readInt32 b (position b) + position b) b (default new obj).

Definition getSizePrefixedRootAsUserConnectMessage (b : ByteBuffer) (obj : option (fbtable ByteBuffer)) : fbtable ByteBuffer :=
  let b := setPosition (position b + SIZE_PREFIX_LENGTH) b in
  __init (readInt32 b (position b) + position b) b (default new obj).

Definition name (self : fbtable ByteBuffer) (optionalEncoding : option Encoding) : outcome exn (option text) :=
  this_bb ← deref self;
  let offset := __offset this_bb (bb_pos self) 4 in
  Ret (if truthy offset then Some (__string this_bb (bb_pos self + offset) optionalEncoding) else None).

Definition startUserConnectMessage : stm Builder exn unit := startObject 1.

Definition addName (nameOffset : Z) : stm Builder exn unit := addFieldOffset 0 nameOffset 0.

Definition endUserConnectMessage : stm Builder exn Z := endObject.

Definition createUserConnectMessage (nameOffset : Z) : stm Builder exn Z :=
  startUserConnectMessage ≫= fun _ =>
  addName nameOffset ≫= fun _ =>
  endUserConnectMessage.

End with_fb.
End UserConnectMessage.

(** ** [UserClickMessage] ([user-click-message.ts]) *)
Module UserClickMessage.
Section with_fb.
Context `{FB : FlatBuffers}.

Definition new : fbtable ByteBuffer := mkTable None 0.

Definition __init (i : Z) (b : ByteBuffer) (self : fbtable ByteBuffer) : fbtable ByteBuffer :=
  mkTable (Some b) i.

Definition getRootAsUserClickMessage (b : ByteBuffer) (obj : option (fbtable ByteBuffer)) : fbtable ByteBuffer :=
  __init (readInt32 b (position b) + position b) b (default new obj).

Definition getSizePrefixedRootAsUserClickMessage (b : ByteBuffer) (obj : option (fbtable ByteBuffer)) : fbtable ByteBuffer :=
  let b := setPosition (position b + SIZE_PREFIX_LENGTH) b in
  __init (readInt32 b (position b) + position b) b (default new obj).

Definition x (self : fbtable ByteBuffer) : outcome exn number :=
  this_bb ← deref self;
  let offset := __offset this_bb (bb_pos self) 4 in
  Ret (if truthy offset then readFloat32 this_bb (bb_pos self + offset) else num_zero).

Definition y (self : fbtable ByteBuffer) : outcome exn number :=
  this_bb ← deref self;
  let offset := __offset this_bb (bb_pos self) 6 in
  Ret (if truthy offset then readFloat32 this_bb (bb_pos self + offset) else num_zero).

Definition startUserClickMessage : stm Builder exn unit := startObject 2.

Definition addX (x : number) : stm Builder exn unit := addFieldFloat32 0 x num_zero.

Definition addY (y : number) : stm Builder exn unit := addFieldFloat32 1 y num_zero.

Definition endUserClickMessage : stm Builder exn Z := endObject.

Definition createUserClickMessage (x : number) (y : number) : stm Builder exn Z :=
  startUserClickMessage ≫= fun _ =>
  addX x ≫= fun _ =>
  addY y ≫= fun _ =>
  endUserClickMessage.

End with_fb.
End UserClickMessage.

(** ** [UserChatMessage] ([user-chat-message.ts]) *)
Module UserChatMessage.
Section with_fb.
Context `{FB : FlatBuffers}.

Definition new : fbtable ByteBuffer := mkTable None 0.

Definition __init (i : Z) (b : ByteBuffer) (self : fbtable ByteBuffer) : fbtable ByteBuffer :=
  mkTable (Some b) i.

Definition getRootAsUserChatMessage (b : ByteBuffer) (obj : option (fbtable ByteBuffer)) : fbtable ByteBuffer :=
  __init (readInt32 b (position b) + position b) b (default new obj).

Definition getSizePrefixedRootAsUserChatMessage (b : ByteBuffer) (obj : option (fbtable ByteBuffer)) : fbtable ByteBuffer :=
  let b := setPosition (position b + SIZE_PREFIX_LENGTH) b in
  __init (readInt32 b (position b) + position b) b (default new obj).

Definition text (self : fbtable ByteBuffer) (optionalEncoding : option Encoding) : outcome exn (option text) :=
  this_bb ← deref self;
  let offset := __offset this_bb (bb_pos self) 4 in
  Ret (if truthy offset then Some (__string this_bb (bb_pos self + offset) optionalEncoding) else None).

Definition startUserChatMessage : stm Builder exn unit := startObject 1.

Definition addText (textOffset : Z) : stm Builder exn unit := addFieldOffset 0 textOffset 0.

Definition endUserChatMessage : stm Builder exn Z := endObject.

Definition createUserChatMessage (textOffset : Z) : stm Builder exn Z :=
  startUserChatMessage ≫= fun _ =>
  addText textOffset ≫= fun _ =>
  endUserChatMessage.

End with_fb.
End UserChatMessage.

(** ** [UserPingMessage] ([user-ping-message.ts]) *)
Module UserPingMessage.
Section with_fb.
Context `{FB : FlatBuffers}.

Definition new : fbtable ByteBuffer := mkTable None 0.

Definition __init (i : Z) (b : ByteBuffer) (self : fbtable ByteBuffer) : fbtable ByteBuffer :=
  mkTable (Some b) i.

Definition getRootAsUserPingMessage (b : ByteBuffer) (obj : option (fbtable ByteBuffer)) : fbtable ByteBuffer :=
  __init (readInt32 b (position b) + position b) b (default new obj).

Definition getSizePrefixedRootAsUserPingMessage (b : ByteBuffer) (obj : option (fbtable ByteBuffer)) : fbtable ByteBuffer :=
  let b := setPosition (position b + SIZE_PREFIX_LENGTH) b in
  __init (readInt32 b (position b) + position b) b (default new obj).

Definition startUserPingMessage : stm Builder exn unit := startObject 0.

Definition endUserPingMessage : stm Builder exn Z := endObject.

Definition createUserPingMessage : stm Builder exn Z :=
  startUserPingMessage ≫= fun _ =>
  endUserPingMessage.

End with_fb.
End UserPingMessage.

(** ** Union helpers of [UserMessage] *)
Module UserMessageUnion.
Section with_fb.
Context `{FB : FlatBuffers}.

(** An instance of one of the member classes. *)
Inductive object : Type :=
| AUserConnectMessage (self : fbtable ByteBuffer)
| AUserClickMessage (self : fbtable ByteBuffer)
| AUserChatMessage (self : fbtable ByteBuffer)
| AUserPingMessage (self : fbtable ByteBuffer).

Definition self_of (x : object) : fbtable ByteBuffer :=
  match x with AUserConnectMessage self | AUserClickMessage self | AUserChatMessage self | AUserPingMessage self => self end.

Definition unionToUserMessage (type : Z) (accessor : object -> outcome exn (option object)) : outcome exn (option object) :=
  match UserMessage.of_number type with
  | Some UserMessage.NONE => Ret None
  | Some UserMessage.UserConnectMessage => accessor (AUserConnectMessage UserConnectMessage.new)
  | Some UserMessage.UserClickMessage => accessor (AUserClickMessage UserClickMessage.new)
  | Some UserMessage.UserChatMessage => accessor (AUserChatMessage UserChatMessage.new)
  | Some UserMessage.UserPingMessage => accessor (AUserPingMessage UserPingMessage.new)
  | None => Ret None
  end.

Definition unionListToUserMessage (type : Z) (accessor : Z -> object -> outcome exn (option object)) (index : Z) : outcome exn (option object) :=
  match UserMessage.of_number type with
  | Some UserMessage.NONE => Ret None
  | Some UserMessage.UserConnectMessage => accessor index (AUserConnectMessage UserConnectMessage.new)
  | Some UserMessage.UserClickMessage => accessor index (AUserClickMessage UserClickMessage.new)
  | Some UserMessage.UserChatMessage => accessor index (AUserChatMessage UserChatMessage.new)
  | Some UserMessage.UserPingMessage => accessor index (AUserPingMessage UserPingMessage.new)
  | None => Ret None
  end.

End with_fb.
#[global] Arguments object {FB}.
End UserMessageUnion.

(** ** [ClientMessage] ([client-message.ts]) *)
Module ClientMessage.
Section with_fb.
Context `{FB : FlatBuffers}.

Definition new : fbtable ByteBuffer := mkTable None 0.

Definition __init (i : Z) (b : ByteBuffer) (self : fbtable ByteBuffer) : fbtable ByteBuffer :=
  mkTable (Some b) i.

Definition getRootAsClientMessage (b : ByteBuffer) (obj : option (fbtable ByteBuffer)) : fbtable ByteBuffer :=
  __init (readInt32 b (position b) + position b) b (default new obj).

Definition getSizePrefixedRootAsClientMessage (b : ByteBuffer) (obj : option (fbtable ByteBuffer)) : fbtable ByteBuffer :=
  let b := setPosition (position b + SIZE_PREFIX_LENGTH) b in
  __init (readInt32 b (position b) + position b) b (default new obj).

Definition userMessageType (self : fbtable ByteBuffer) : outcome exn Z :=
  this_bb ← deref self;
  let offset := __offset this_bb (bb_pos self) 4 in
  Ret (if truthy offset then readUint8 this_bb (bb_pos self + offset) else UserMessage.to_number UserMessage.NONE).

Definition userMessage (self obj : fbtable ByteBuffer) : outcome exn (option (fbtable ByteBuffer)) :=
  this_bb ← deref self;
  let offset := __offset this_bb (bb_pos self) 6 in
  Ret (if truthy offset then Some (__union this_bb obj (bb_pos self + offset)) else None).

Definition startClientMessage : stm Builder exn unit := startObject 2.

Definition addUserMessageType (userMessageType : UserMessage.t) : stm Builder exn unit :=
  addFieldInt8 0 (UserMessage.to_number userMessageType) (UserMessage.to_number UserMessage.NONE).

Definition addUserMessage (userMessageOffset : Z) : stm Builder exn unit := addFieldOffset 1 userMessageOffset 0.

Definition endClientMessage : stm Builder exn Z := endObject.

Definition finishClientMessageBuffer (offset : Z) : stm Builder exn unit := finish offset false.

Definition finishSizePrefixedClientMessageBuffer (offset : Z) : stm Builder exn unit := finish offset true.

Definition createClientMessage (userMessageType : UserMessage.t) (userMessageOffset : Z) : stm Builder exn Z :=
  startClientMessage ≫= fun _ =>
  addUserMessageType userMessageType ≫= fun _ =>
  addUserMessage userMessageOffset ≫= fun _ =>
  endClientMessage.

End with_fb.
End ClientMessage.

(** ** [Dot] ([dot.ts]) *)
Module Dot.
Section with_fb.
Context `{FB : FlatBuffers}.

Definition new : fbtable ByteBuffer := mkTable None 0.

Definition __init (i : Z) (b : ByteBuffer) (self : fbtable ByteBuffer) : fbtable ByteBuffer :=
  mkTable (Some b) i.

Definition x (self : fbtable ByteBuffer) : outcome exn number :=
  this_bb ← deref self; Ret (readFloat32 this_bb (bb_pos self)).

Definition y (self : fbtable ByteBuffer) : outcome exn number :=
  this_bb ← deref self; Ret (readFloat32 this_bb (bb_pos self + 4)).

Definition radius (self : fbtable ByteBuffer) : outcome exn number :=
  this_bb ← deref self; Ret (readFloat32 this_bb (bb_pos self + 8)).

Definition color (self : fbtable ByteBuffer) : outcome exn Z :=
  this_bb ← deref self; Ret (readInt8 this_bb (bb_pos self + 12)).

Definition sizeOf : Z := 16.

Definition createDot (x y radius : number) (color : Z) : stm Builder exn Z :=
  prep 4 16 ≫= fun _ =>
  pad 3 ≫= fun _ =>
  writeInt8 color ≫= fun _ =>
  writeFloat32 radius ≫= fun _ =>
  writeFloat32 y ≫= fun _ =>
  writeFloat32 x ≫= fun _ =>
  offset.

End with_fb.
End Dot.

(** ** [ServerChatMessage] ([server-chat-message.ts]) *)
Module ServerChatMessage.
Section with_fb.
Context `{FB : FlatBuffers}.

Definition new : fbtable ByteBuffer := mkTable None 0.

Definition __init (i : Z) (b : ByteBuffer) (self : fbtable ByteBuffer) : fbtable ByteBuffer :=
  mkTable (Some b) i.

Definition getRootAsServerChatMessage (b : ByteBuffer) (obj : option (fbtable ByteBuffer)) : fbtable ByteBuffer :=
  __init (readInt32 b (position b) + position b) b (default new obj).

Definition getSizePrefixedRootAsServerChatMessage (b : ByteBuffer) (obj : option (fbtable ByteBuffer)) : fbtable ByteBuffer :=
  let b := setPosition (position b + SIZE_PREFIX_LENGTH) b in
  __init (readInt32 b (position b) + position b) b (default new obj).

Definition user (self : fbtable ByteBuffer) (optionalEncoding : option Encoding) : outcome exn (option text) :=
  this_bb ← deref self;
  let offset := __offset this_bb (bb_pos self) 4 in
  Ret (if truthy offset then Some (__string this_bb (bb_pos self + offset) optionalEncoding) else None).

Definition text (self : fbtable ByteBuffer) (optionalEncoding : option Encoding) : outcome exn (option text) :=
  this_bb ← deref self;
  let offset := __offset this_bb (bb_pos self) 6 in
  Ret (if truthy offset then Some (__string this_bb (bb_pos self + offset) optionalEncoding) else None).

Definition startServerChatMessage : stm Builder exn unit := startObject 2.

Definition addUser (userOffset : Z) : stm Builder exn unit := addFieldOffset 0 userOffset 0.

Definition addText (textOffset : Z) : stm Builder exn unit := addFieldOffset 1 textOffset 0.

Definition endServerChatMessage : stm Builder exn Z := endObject.

Definition createServerChatMessage (userOffset : Z) (textOffset : Z) : stm Builder exn Z :=
  startServerChatMessage ≫= fun _ =>
  addUser userOffset ≫= fun _ =>
  addText textOffset ≫= fun _ =>
  endServerChatMessage.

End with_fb.
End ServerChatMessage.

(** ** [ServerGameStateMessage] ([server-game-state-message.ts]) *)
Module ServerGameStateMessage.
Section with_fb.
Context `{FB : FlatBuffers}.

Definition new : fbtable ByteBuffer := mkTable None 0.

Definition __init (i : Z) (b : ByteBuffer) (self : fbtable ByteBuffer) : fbtable ByteBuffer :=
  mkTable (Some b) i.

Definition getRootAsServerGameStateMessage (b : ByteBuffer) (obj : option (fbtable ByteBuffer)) : fbtable ByteBuffer :=
  __init (readInt32 b (position b) + position b) b (default new obj).

Definition getSizePrefixedRootAsServerGameStateMessage (b : ByteBuffer) (obj : option (fbtable ByteBuffer)) : fbtable ByteBuffer :=
  let b := setPosition (position b + SIZE_PREFIX_LENGTH) b in
  __init (readInt32 b (position b) + position b) b (default new obj).

Definition dots (self : fbtable ByteBuffer) (index : Z) (obj : option (fbtable ByteBuffer)) :
    outcome exn (option (fbtable ByteBuffer)) :=
  this_bb ← deref self;
  let offset := __offset this_bb (bb_pos self) 4 in
  Ret (if truthy offset
       then Some (Dot.__init (__vector this_bb (bb_pos self + offset) + index * 16) this_bb (default Dot.new obj))
       else None).

Definition dotsLength (self : fbtable ByteBuffer) : outcome exn Z :=
  this_bb ← deref self;
  let offset := __offset this_bb (bb_pos self) 4 in
  Ret (if truthy offset then __vector_len this_bb (bb_pos self + offset) else 0).

Definition startServerGameStateMessage : stm Builder exn unit := startObject 1.

Definition addDots (dotsOffset : Z) : stm Builder exn unit := addFieldOffset 0 dotsOffset 0.

Definition startDotsVector (numElems : Z) : stm Builder exn unit := startVector 16 numElems 4.

Definition endServerGameStateMessage : stm Builder exn Z := endObject.

Definition createServerGameStateMessage (dotsOffset : Z) : stm Builder exn Z :=
  startServerGameStateMessage ≫= fun _ =>
  addDots dotsOffset ≫= fun _ =>
  endServerGameStateMessage.

End with_fb.
End ServerGameStateMessage.

(** ** Union helpers of [Message] *)
Module MessageUnion.
Section with_fb.
Context `{FB : FlatBuffers}.

(** An instance of one of the member classes. *)
Inductive object : Type :=
| AServerChatMessage (self : fbtable ByteBuffer)
| AServerGameStateMessage (self : fbtable ByteBuffer).

Definition self_of (x : object) : fbtable ByteBuffer :=
  match x with AServerChatMessage self | AServerGameStateMessage self => self end.

Definition unionToMessage (type : Z) (accessor : object -> outcome exn (option object)) : outcome exn (option object) :=
  match Message.of_number type with
  | Some Message.NONE => Ret None
  | Some Message.ServerChatMessage => accessor (AServerChatMessage ServerChatMessage.new)
  | Some Message.ServerGameStateMessage => accessor (AServerGameStateMessage ServerGameStateMessage.new)
  | None => Ret None
  end.

Definition unionListToMessage (type : Z) (accessor : Z -> object -> outcome exn (option object)) (index : Z) : outcome exn (option object) :=
  match Message.of_number type with
  | Some Message.NONE => Ret None
  | Some Message.ServerChatMessage => accessor index (AServerChatMessage ServerChatMessage.new)
  | Some Message.ServerGameStateMessage => accessor index (AServerGameStateMessage ServerGameStateMessage.new)
  | None => Ret None
  end.

End with_fb.
#[global] Arguments object {FB}.
End MessageUnion.

(** ** [ServerMessage] ([server-message.ts]) *)
Module ServerMessage.
Section with_fb.
Context `{FB : FlatBuffers}.

Definition new : fbtable ByteBuffer := mkTable None 0.

Definition __init (i : Z) (b : ByteBuffer) (self : fbtable ByteBuffer) : fbtable ByteBuffer :=
  mkTable (Some b) i.

Definition getRootAsServerMessage (b : ByteBuffer) (obj : option (fbtable ByteBuffer)) : fbtable ByteBuffer :=
  __init (readInt32 b (position b) + position b) b (default new obj).

Definition getSizePrefixedRootAsServerMessage (b : ByteBuffer) (obj : option (fbtable ByteBuffer)) : fbtable ByteBuffer :=
  let b := setPosition (position b + SIZE_PREFIX_LENGTH) b in
  __init (readInt32 b (position b) + position b) b (default new obj).

Definition messageType (self : fbtable ByteBuffer) : outcome exn Z :=
  this_bb ← deref self;
  let offset := __offset this_bb (bb_pos self) 4 in
  Ret (if truthy offset then readUint8 this_bb (bb_pos self + offset) else Message.to_number Message.NONE).

Definition message (self obj : fbtable ByteBuffer) : outcome exn (option (fbtable ByteBuffer)) :=
  this_bb ← deref self;
  let offset := __offset this_bb (bb_pos self) 6 in
  Ret (if truthy offset then Some (__union this_bb obj (bb_pos self + offset)) else None).

Definition startServerMessage : stm Builder exn unit := startObject 2.

Definition addMessageType (messageType : Message.t) : stm Builder exn unit :=
  addFieldInt8 0 (Message.to_number messageType) (Message.to_number Message.NONE).

Definition addMessage (messageOffset : Z) : stm Builder exn unit := addFieldOffset 1 messageOffset 0.

Definition endServerMessage : stm Builder exn Z := endObject.

Definition finishServerMessageBuffer (offset : Z) : stm Builder exn unit := finish offset false.

Definition finishSizePrefixedServerMessageBuffer (offset : Z) : stm Builder exn unit := finish offset true.

Definition createServerMessage (messageType : Message.t) (messageOffset : Z) : stm Builder exn Z :=
  startServerMessage ≫= fun _ =>
  addMessageType messageType ≫= fun _ =>
  addMessage messageOffset ≫= fun _ =>
  endServerMessage.

End with_fb.
End ServerMessage.
