(* ===== verification/ClientGenTheorems.v ===== *)
(** * The client's copy of the proxy messages agrees with the proxy's

    Connection.ts builds and reads with its own copy; what is at the other end was
    built from [flatbuffers/generated/ts]. *)

From S2P Require Import Prelude JsPlatform FlatBuffers SpanreedMessages ClientGen.

Section with_fb.
Context `{FB : FlatBuffers}.




















End with_fb.
