(* ===== verification/SpanreedCodec.v ===== *)
(** * Building and reading the proxy protocol's messages

    For each message class: the content its accessors show ([reads_...]), the
    sequence of generated calls that encodes a content ([encode...]), and the
    lemma that the table built shows the content ([build..._spec]). The round
    trips themselves are in [SpanreedTheorems]. *)

From S2P Require Import Prelude JsPlatform FlatBuffers FbTables SpanreedMessages.

Section codec.
#[local] Set Default Proof Using "Type*".
Context {FB : FlatBuffers} {FL : FlatBuffersLaws FB}.

(** ** [ConnectClientMessage] *)
Definition reads_ConnectClientMessage (t : fbtable ByteBuffer) (s data : option (list Z)) : Prop :=
  (forall enc, ConnectClientMessage.connectionString t enc = Ret (text_as enc <$> s)) /\
  reads_bytes (ConnectClientMessage.appDataLength t) (ConnectClientMessage.appData t)
    (ConnectClientMessage.appDataArray t) data.

(** Strings and vectors first, then the table that refers to them. *)
Definition buildConnectClientMessage (s : option text) (data : option (list Z)) : stm Builder exn Z :=
  pS ← opt_string s;
  pD ← opt_vector ConnectClientMessage.createAppDataVector data;
  ConnectClientMessage.createConnectClientMessage pS pD.

Lemma createConnectClientMessage_spec b l pS pD s data Q :
  Rep b l -> ready l 64 -> off_is (objs l) pS (OText <$> s) -> off_is (objs l) pD (OBytes <$> data) ->
  (forall o b' l', Rep b' l' -> grows l l' 64 -> shown l' o (fun t => reads_ConnectClientMessage t s data) ->
     Q o b') ->
  wp (ConnectClientMessage.createConnectClientMessage pS pD) b Q.
Proof.
  intros HR Hrd HS HD HQ.
  eapply (table_shown b l 2 [AddOffset 0 pS 0; AddOffset 1 pD 0]);
    [done | exact Hrd | done | adds_ok | done | | exact HQ].
  intros os o t Hsub Hs Ho. split.
  - intros enc. eapply (acc_text os o t _ 0 Hs Ho); [lia | table_field | eauto with fbgrow].
  - eapply (acc_bytes os o t _ 1 _ _ Hs Ho); [lia | table_field | eauto with fbgrow].
Qed.

Lemma buildConnectClientMessage_spec b l s data c Q :
  let sb := default [] (text_bytes <$> s) in let db := default [] data in
  Rep b l -> ready l c -> Forall is_byte sb -> Forall is_byte db -> zlen sb + zlen db + 96 <= c ->
  (forall o b' l', Rep b' l' -> grows l l' c ->
     shown l' o (fun t => reads_ConnectClientMessage t (text_bytes <$> s) data) -> Q o b') ->
  wp (buildConnectClientMessage s data) b Q.
Proof.
  cbv zeta. intros HR Hrd Hs Hd Hc HQ. pose proof (zlen_nonneg (default [] data)).
  apply wp_bind. eapply opt_string_spec; [done | | done | apply Z.le_refl |]; [fb_arith|].
  intros pS b1 l1 HR1 G1 OS.
  apply wp_bind. eapply opt_vector_spec; [exact byte_loop_spec | done | | done | apply Z.le_refl |]; [fb_arith|].
  intros pD b2 l2 HR2 G2 OD.
  eapply createConnectClientMessage_spec; [done | fb_arith | eauto with fbgrow | eauto with fbgrow |].
  intros o b3 l3 HR3 G3 SO. eapply HQ; [done | | done]. fb_grows.
Qed.

Definition encodeConnectClientMessage (s : option text) (data : option (list Z)) (sp : bool) :
    stm Builder exn Uint8Array :=
  o ← buildConnectClientMessage s data;
  (if sp then ConnectClientMessage.finishSizePrefixedConnectClientMessageBuffer o
   else ConnectClientMessage.finishConnectClientMessageBuffer o) ≫= fun _ =>
  asUint8Array.

Definition rootConnectClientMessage (sp : bool) (b : ByteBuffer) : fbtable ByteBuffer :=
  if sp then ConnectClientMessage.getSizePrefixedRootAsConnectClientMessage b None
  else ConnectClientMessage.getRootAsConnectClientMessage b None.

(** ** The object API *)

(** [unpack] collects what the accessors show. *)
Lemma unpack_reads t s data :
  reads_ConnectClientMessage t s (Some data) ->
  ConnectClientMessage.unpack t = Ret (ConnectClientMessageT.mk (text_as None <$> s) data) /\
  forall _o, ConnectClientMessage.unpackTo t _o =
    (Ret tt, ConnectClientMessageT.mk (text_as None <$> s) data).
Proof.
  intros [HS (Hlen & Helem & r & Harr & _)]. unfold ConnectClientMessage.unpack, ConnectClientMessage.unpackTo.
  assert (exists b, deref t = Ret b) as [b Hb].
  { unfold ConnectClientMessage.appDataArray in Harr. destruct (deref t); [eauto | done]. }
  rewrite (HS None), Hb, Hlen. simpl.
  rewrite (law_createScalarList _ _ data) by (done || apply Helem). done.
Qed.

(** ** [ConnectClientVerdict] *)
Definition reads_ConnectClientVerdict (t : fbtable ByteBuffer) (accepted : bool) (reason data : option (list Z)) : Prop :=
  ConnectClientVerdict.accepted t = Ret accepted /\
  (forall enc, ConnectClientVerdict.errorReason t enc = Ret (text_as enc <$> reason)) /\
  reads_bytes (ConnectClientVerdict.appDataLength t) (ConnectClientVerdict.appData t)
    (ConnectClientVerdict.appDataArray t) data.

Definition buildConnectClientVerdict (accepted : bool) (reason : option text) (data : option (list Z)) :
    stm Builder exn Z :=
  pR ← opt_string reason;
  pD ← opt_vector ConnectClientVerdict.createAppDataVector data;
  ConnectClientVerdict.createConnectClientVerdict accepted pR pD.

Lemma buildConnectClientVerdict_spec b l a reason data c Q :
  let rb := default [] (text_bytes <$> reason) in let db := default [] data in
  Rep b l -> ready l c -> Forall is_byte rb -> Forall is_byte db -> zlen rb + zlen db + 96 <= c ->
  (forall o b' l', Rep b' l' -> grows l l' c ->
     shown l' o (fun t => reads_ConnectClientVerdict t a (text_bytes <$> reason) data) -> Q o b') ->
  wp (buildConnectClientVerdict a reason data) b Q.
Proof.
  cbv zeta. intros HR Hrd Hs Hd Hc HQ. pose proof (zlen_nonneg (default [] data)).
  apply wp_bind. eapply opt_string_spec; [done | | done | apply Z.le_refl |]; [fb_arith|].
  intros pR b1 l1 HR1 G1 OR.
  apply wp_bind. eapply opt_vector_spec; [exact byte_loop_spec | done | | done | apply Z.le_refl |]; [fb_arith|].
  intros pD b2 l2 HR2 G2 OD.
  eapply (table_shown b2 l2 3
    [AddInt8 0 (bool_number a) (bool_number false); AddOffset 1 pR 0; AddOffset 2 pD 0] 64);
    [done | fb_arith | done | adds_ok | done | | intros; eapply HQ; [done | fb_grows | eassumption]].
  intros os o t Hsub Hs' Ho. unfold reads_ConnectClientVerdict. split_and!.
  - eapply (acc_bool os o t _ 0 Hs' Ho); [lia | table_field].
  - intros enc. eapply (acc_text os o t _ 1 Hs' Ho); [lia | table_field | eauto with fbgrow].
  - eapply (acc_bytes os o t _ 2 _ _ Hs' Ho); [lia | table_field | eauto with fbgrow].
Qed.

Definition encodeConnectClientVerdict (accepted : bool) (reason : option text) (data : option (list Z)) (sp : bool) :
    stm Builder exn Uint8Array :=
  o ← buildConnectClientVerdict accepted reason data;
  (if sp then ConnectClientVerdict.finishSizePrefixedConnectClientVerdictBuffer o
   else ConnectClientVerdict.finishConnectClientVerdictBuffer o) ≫= fun _ =>
  asUint8Array.

Definition rootConnectClientVerdict (sp : bool) (b : ByteBuffer) : fbtable ByteBuffer :=
  if sp then ConnectClientVerdict.getSizePrefixedRootAsConnectClientVerdict b None
  else ConnectClientVerdict.getRootAsConnectClientVerdict b None.

(** ** [ConnectDestinationVerdict] *)
Definition reads_ConnectDestinationVerdict (t : fbtable ByteBuffer) (clientId : Z) (accepted : bool)
    (reason data : option (list Z)) : Prop :=
  ConnectDestinationVerdict.clientId t = Ret clientId /\
  ConnectDestinationVerdict.accepted t = Ret accepted /\
  (forall enc, ConnectDestinationVerdict.errorReason t enc = Ret (text_as enc <$> reason)) /\
  reads_bytes (ConnectDestinationVerdict.appDataLength t) (ConnectDestinationVerdict.appData t)
    (ConnectDestinationVerdict.appDataArray t) data.

Definition buildConnectDestinationVerdict (clientId : Z) (accepted : bool) (reason : option text)
    (data : option (list Z)) : stm Builder exn Z :=
  pR ← opt_string reason;
  pD ← opt_vector ConnectDestinationVerdict.createAppDataVector data;
  ConnectDestinationVerdict.createConnectDestinationVerdict clientId accepted pR pD.

Lemma buildConnectDestinationVerdict_spec b l id a reason data c Q :
  let rb := default [] (text_bytes <$> reason) in let db := default [] data in
  Rep b l -> ready l c -> is_uint32 id -> Forall is_byte rb -> Forall is_byte db -> zlen rb + zlen db + 96 <= c ->
  (forall o b' l', Rep b' l' -> grows l l' c ->
     shown l' o (fun t => reads_ConnectDestinationVerdict t id a (text_bytes <$> reason) data) -> Q o b') ->
  wp (buildConnectDestinationVerdict id a reason data) b Q.
Proof.
  cbv zeta. intros HR Hrd Hid Hs Hd Hc HQ. pose proof (zlen_nonneg (default [] data)).
  apply wp_bind. eapply opt_string_spec; [done | | done | apply Z.le_refl |]; [fb_arith|].
  intros pR b1 l1 HR1 G1 OR.
  apply wp_bind. eapply opt_vector_spec; [exact byte_loop_spec | done | | done | apply Z.le_refl |]; [fb_arith|].
  intros pD b2 l2 HR2 G2 OD.
  eapply (table_shown b2 l2 4
    [AddInt32 0 id 0; AddInt8 1 (bool_number a) (bool_number false); AddOffset 2 pR 0; AddOffset 3 pD 0] 64);
    [done | fb_arith | done | adds_ok | done | | intros; eapply HQ; [done | fb_grows | eassumption]].
  intros os o t Hsub Hs' Ho. unfold reads_ConnectDestinationVerdict. split_and!.
  - eapply (acc_uint32 os o t _ 0 Hs' Ho); [lia | table_field | done].
  - eapply (acc_bool os o t _ 1 Hs' Ho); [lia | table_field].
  - intros enc. eapply (acc_text os o t _ 2 Hs' Ho); [lia | table_field | eauto with fbgrow].
  - eapply (acc_bytes os o t _ 3 _ _ Hs' Ho); [lia | table_field | eauto with fbgrow].
Qed.

Definition encodeConnectDestinationVerdict (clientId : Z) (accepted : bool) (reason : option text)
    (data : option (list Z)) (sp : bool) : stm Builder exn Uint8Array :=
  o ← buildConnectDestinationVerdict clientId accepted reason data;
  (if sp then ConnectDestinationVerdict.finishSizePrefixedConnectDestinationVerdictBuffer o
   else ConnectDestinationVerdict.finishConnectDestinationVerdictBuffer o) ≫= fun _ =>
  asUint8Array.

Definition rootConnectDestinationVerdict (sp : bool) (b : ByteBuffer) : fbtable ByteBuffer :=
  if sp then ConnectDestinationVerdict.getSizePrefixedRootAsConnectDestinationVerdict b None
  else ConnectDestinationVerdict.getRootAsConnectDestinationVerdict b None.

(** A table whose only field is a client id. *)
Lemma client_id_table_spec (P : fbtable ByteBuffer -> Prop) b l id c Q :
  Rep b l -> ready l c -> is_uint32 id -> 21 <= c ->
  (forall t, (this_bb ← deref t;
              let offset := __offset this_bb (bb_pos t) 4 in
              Ret (if truthy offset then readUint32 this_bb (bb_pos t + offset) else 0)) = Ret id -> P t) ->
  (forall o b' l', Rep b' l' -> grows l l' c -> shown l' o P -> Q o b') ->
  wp (create_table 1 [AddInt32 0 id 0]) b Q.
Proof.
  intros HR Hrd Hid Hc HP HQ.
  eapply (table_shown b l 1 [AddInt32 0 id 0]); [done | exact Hrd | done | adds_ok | done | | exact HQ].
  intros os o t Hsub Hs Ho. apply HP. eapply (acc_uint32 os o t _ 0 Hs Ho); [lia | table_field | done].
Qed.

(** ** [DestinationMessage] and its union [InnerMsg] *)
Inductive dest_inner : Type :=
| DNone
| DProxy (clientId : Z)
| DVerdict (clientId : Z) (accepted : bool)
| DClose (clientId : Z) (reason : option text).

Definition dest_type (m : dest_inner) : InnerMsg.t :=
  match m with
  | DNone => InnerMsg.NONE
  | DProxy _ => InnerMsg.ProxyMessage
  | DVerdict _ _ => InnerMsg.ConnectionVerdict
  | DClose _ _ => InnerMsg.CloseConnection
  end.

Definition dest_text (m : dest_inner) : list Z :=
  match m with DClose _ (Some s) => text_bytes s | _ => [] end.

Definition dest_inner_ok (m : dest_inner) : Prop :=
  Forall is_byte (dest_text m) /\
  match m with DNone => True | DProxy id | DVerdict id _ | DClose id _ => is_uint32 id end.

Definition build_dest_inner (m : dest_inner) : stm Builder exn Z :=
  match m with
  | DNone => mret 0
  | DProxy id => ProxyMessage.createProxyMessage id
  | DVerdict id a => ConnectionVerdict.createConnectionVerdict id a
  | DClose id reason => pR ← opt_string reason; CloseConnection.createCloseConnection id pR
  end.

Definition reads_dest_inner (m : dest_inner) : option (fbtable ByteBuffer -> Prop) :=
  match m with
  | DNone => None
  | DProxy id => Some (fun t => ProxyMessage.clientId t = Ret id)
  | DVerdict id a => Some (fun t =>
      ConnectionVerdict.clientId t = Ret id /\ ConnectionVerdict.accepted t = Ret a /\
      (this_bb ← deref t;                       (* readers for which only the byte one is true *)
       let offset := __offset this_bb (bb_pos t) 6 in
       Ret (if truthy offset then readUint8 this_bb (bb_pos t + offset) =? 1 else false)) = Ret a)
  | DClose id reason => Some (fun t =>
      CloseConnection.clientId t = Ret id /\
      forall enc, CloseConnection.reason t enc = Ret (text_as enc <$> (text_bytes <$> reason)))
  end.

Lemma build_dest_inner_spec b l m c Q :
  Rep b l -> ready l c -> dest_inner_ok m -> zlen (dest_text m) + 64 <= c ->
  (forall o b' l', Rep b' l' -> grows l l' c -> member_off l' o (reads_dest_inner m) -> Q o b') ->
  wp (build_dest_inner m) b Q.
Proof.
  intros HR Hrd [Htext Hok] Hc HQ. pose proof (zlen_nonneg (dest_text m)).
  destruct m as [|id|id a|id reason]; cbn [build_dest_inner].
  - apply wp_ret. eapply HQ; [done | | done]. destruct Hrd as (? & ? & ?). apply grows_refl; auto. lia.
  - eapply client_id_table_spec; [done | exact Hrd | done | lia | | exact HQ]. auto.
  - eapply (table_shown b l 2 [AddInt32 0 id 0; AddInt8 1 (bool_number a) (bool_number false)]);
      [done | exact Hrd | done | adds_ok | unfold table_cost; autorewrite with zlen; lia | | exact HQ].
    intros os o t Hsub Hs Ho. split_and!.
    + eapply (acc_uint32 os o t _ 0 Hs Ho); [lia | table_field | done].
    + eapply (acc_bool os o t _ 1 Hs Ho); [lia | table_field].
    + eapply (acc_bool_byte os o t _ 1 Hs Ho); [lia | table_field].
  - apply wp_bind. eapply (opt_string_spec _ _ reason (zlen (dest_text (DClose id reason)) + 16));
      [done | fb_arith | by destruct reason | destruct reason; simpl; rewrite ?zlen_nil; lia |].
    intros pR b1 l1 HR1 G1 OR.
    eapply (table_shown b1 l1 2 [AddInt32 0 id 0; AddOffset 1 pR 0] 48);
      [done | fb_arith | done | adds_ok | done | | intros o b2 l2 HR2 G2 SO; eapply HQ; [exact HR2 | fb_grows | exact SO]].
    intros os o t Hsub Hs Ho. split.
    + eapply (acc_uint32 os o t _ 0 Hs Ho); [lia | table_field | done].
    + intros enc. eapply (acc_text os o t _ 1 Hs Ho); [lia | table_field | eauto with fbgrow].
Qed.

(** Following the union through its helper, as a reader of the message does:
    [msg] fills the object it is given. *)
Definition with_self (obj : InnerMsgUnion.object) (self : fbtable ByteBuffer) : InnerMsgUnion.object :=
  match obj with
  | InnerMsgUnion.AProxyMessage _ => InnerMsgUnion.AProxyMessage self
  | InnerMsgUnion.AConnectionVerdict _ => InnerMsgUnion.AConnectionVerdict self
  | InnerMsgUnion.ACloseConnection _ => InnerMsgUnion.ACloseConnection self
  end.

Definition dest_member (t : fbtable ByteBuffer) (obj : InnerMsgUnion.object) :
    outcome exn (option InnerMsgUnion.object) :=
  r ← DestinationMessage.msg t (InnerMsgUnion.self_of obj);
  Ret (option_map (with_self obj) r).

Definition dest_message (t : fbtable ByteBuffer) : outcome exn (option InnerMsgUnion.object) :=
  type ← DestinationMessage.msgType t;
  InnerMsgUnion.unionToInnerMsg type (dest_member t).

(** The member has the class its type names and shows its content. *)
Definition is_dest_inner (m : dest_inner) (r : option InnerMsgUnion.object) : Prop :=
  match m, r with
  | DNone, None => True
  | DProxy _, Some (InnerMsgUnion.AProxyMessage self)
  | DVerdict _ _, Some (InnerMsgUnion.AConnectionVerdict self)
  | DClose _ _, Some (InnerMsgUnion.ACloseConnection self) =>
      from_option (fun P => P self) False (reads_dest_inner m)
  | _, _ => False
  end.

Definition reads_DestinationMessage (t : fbtable ByteBuffer) (m : dest_inner) (data : option (list Z)) : Prop :=
  DestinationMessage.msgType t = Ret (InnerMsg.to_number (dest_type m)) /\
  (exists r, dest_message t = Ret r /\ is_dest_inner m r) /\
  reads_bytes (DestinationMessage.appDataLength t) (DestinationMessage.appData t)
    (DestinationMessage.appDataArray t) data.

Lemma dest_message_reads t m :
  DestinationMessage.msgType t = Ret (InnerMsg.to_number (dest_type m)) ->
  (forall t0, exists res, DestinationMessage.msg t t0 = Ret res /\
     match reads_dest_inner m with None => res = None | Some P => exists t', res = Some t' /\ P t' end) ->
  exists r, dest_message t = Ret r /\ is_dest_inner m r.
Proof.
  intros Htype Hmsg. unfold dest_message. rewrite Htype. destruct m; cbn -[DestinationMessage.msg].
  1: by exists None.
  all: unfold dest_member; cbn -[DestinationMessage.msg]; destruct (Hmsg (mkTable None 0)) as (res & Hres & Hr); simpl in Hr; destruct Hr as (t' & -> & HP);
    unfold ProxyMessage.new, ConnectionVerdict.new, CloseConnection.new; rewrite Hres; simpl;
    eexists; (split; [done|]); exact HP.
Qed.

Definition buildDestinationMessage (m : dest_inner) (data : option (list Z)) : stm Builder exn Z :=
  pM ← build_dest_inner m;
  pD ← opt_vector DestinationMessage.createAppDataVector data;
  DestinationMessage.createDestinationMessage (dest_type m) pM pD.

Lemma buildDestinationMessage_spec b l m data c Q :
  Rep b l -> ready l c -> dest_inner_ok m -> Forall is_byte (default [] data) ->
  zlen (dest_text m) + zlen (default [] data) + 160 <= c ->
  (forall o b' l', Rep b' l' -> grows l l' c ->
     shown l' o (fun t => reads_DestinationMessage t m data) -> Q o b') ->
  wp (buildDestinationMessage m data) b Q.
Proof.
  intros HR Hrd Hm Hd Hc HQ. pose proof (zlen_nonneg (default [] data)). pose proof (zlen_nonneg (dest_text m)).
  apply wp_bind. eapply build_dest_inner_spec; [done | | done | apply Z.le_refl |]; [fb_arith|].
  intros pM b1 l1 HR1 G1 OM.
  apply wp_bind. eapply opt_vector_spec; [exact byte_loop_spec | done | | done | apply Z.le_refl |]; [fb_arith|].
  intros pD b2 l2 HR2 G2 OD. apply (member_off_grows _ _ _ _ _ G2) in OM.
  eapply (table_shown b2 l2 3
    [AddInt8 0 (InnerMsg.to_number (dest_type m)) (InnerMsg.to_number InnerMsg.NONE);
     AddOffset 1 pM 0; AddOffset 2 pD 0] 64);
    [done | fb_arith | by destruct m | | done | | intros; eapply HQ; [done | fb_grows | eassumption]].
  { apply Forall_cons; [done|]. apply Forall_cons; [by eapply member_off_add_ok|]. adds_ok. }
  intros os o t Hsub Hs Ho.
  assert (DestinationMessage.msgType t = Ret (InnerMsg.to_number (dest_type m))) as Htype.
  { eapply (acc_uint8 os o t _ 0 Hs Ho); [lia | table_field | by destruct m]. }
  split_and!; [done | |].
  - apply dest_message_reads; [done|]. intros t0.
    eapply (acc_member os o t _ 1 _ _ _ _ Hs Ho); [lia | table_field | exact OM | done].
  - eapply (acc_bytes os o t _ 2 _ _ Hs Ho); [lia | table_field | eauto with fbgrow].
Qed.

Definition encodeDestinationMessage (m : dest_inner) (data : option (list Z)) (sp : bool) :
    stm Builder exn Uint8Array :=
  o ← buildDestinationMessage m data;
  (if sp then DestinationMessage.finishSizePrefixedDestinationMessageBuffer o
   else DestinationMessage.finishDestinationMessageBuffer o) ≫= fun _ =>
  asUint8Array.

Definition rootDestinationMessage (sp : bool) (b : ByteBuffer) : fbtable ByteBuffer :=
  if sp then DestinationMessage.getSizePrefixedRootAsDestinationMessage b None
  else DestinationMessage.getRootAsDestinationMessage b None.

(** ** [ProxyDestinationMessage] and its union [ProxyDestInnerMsg] *)
Inductive proxy_inner : Type :=
| PNone
| PConnectionRequest (clientId : Z)
| PClientMessage (clientId : Z)
| PCloseConnection (clientId : Z).

Definition proxy_type (m : proxy_inner) : ProxyDestInnerMsg.t :=
  match m with
  | PNone => ProxyDestInnerMsg.NONE
  | PConnectionRequest _ => ProxyDestInnerMsg.ProxyDestConnectionRequest
  | PClientMessage _ => ProxyDestInnerMsg.ProxyDestClientMessage
  | PCloseConnection _ => ProxyDestInnerMsg.ProxyDestCloseConnection
  end.

Definition proxy_inner_ok (m : proxy_inner) : Prop :=
  match m with
  | PNone => True
  | PConnectionRequest id | PClientMessage id | PCloseConnection id => is_uint32 id
  end.

Definition build_proxy_inner (m : proxy_inner) : stm Builder exn Z :=
  match m with
  | PNone => mret 0
  | PConnectionRequest id => ProxyDestConnectionRequest.createProxyDestConnectionRequest id
  | PClientMessage id => ProxyDestClientMessage.createProxyDestClientMessage id
  | PCloseConnection id => ProxyDestCloseConnection.createProxyDestCloseConnection id
  end.

Definition reads_proxy_inner (m : proxy_inner) : option (fbtable ByteBuffer -> Prop) :=
  match m with
  | PNone => None
  | PConnectionRequest id => Some (fun t => ProxyDestConnectionRequest.clientId t = Ret id)
  | PClientMessage id => Some (fun t => ProxyDestClientMessage.clientId t = Ret id)
  | PCloseConnection id => Some (fun t => ProxyDestCloseConnection.clientId t = Ret id)
  end.

Lemma build_proxy_inner_spec b l m c Q :
  Rep b l -> ready l c -> proxy_inner_ok m -> 64 <= c ->
  (forall o b' l', Rep b' l' -> grows l l' c -> member_off l' o (reads_proxy_inner m) -> Q o b') ->
  wp (build_proxy_inner m) b Q.
Proof.
  intros HR Hrd Hok Hc HQ. destruct m as [|id|id|id]; cbn [build_proxy_inner].
  1: apply wp_ret; eapply HQ; [done | | done]; destruct Hrd as (? & ? & ?); apply grows_refl; auto; lia.
  all: eapply client_id_table_spec; [done | exact Hrd | done | lia | | exact HQ]; auto.
Qed.

Definition proxy_with_self (obj : ProxyDestInnerMsgUnion.object) (self : fbtable ByteBuffer) :
    ProxyDestInnerMsgUnion.object :=
  match obj with
  | ProxyDestInnerMsgUnion.AProxyDestConnectionRequest _ => ProxyDestInnerMsgUnion.AProxyDestConnectionRequest self
  | ProxyDestInnerMsgUnion.AProxyDestClientMessage _ => ProxyDestInnerMsgUnion.AProxyDestClientMessage self
  | ProxyDestInnerMsgUnion.AProxyDestCloseConnection _ => ProxyDestInnerMsgUnion.AProxyDestCloseConnection self
  end.

Definition proxy_member (t : fbtable ByteBuffer) (obj : ProxyDestInnerMsgUnion.object) :
    outcome exn (option ProxyDestInnerMsgUnion.object) :=
  r ← ProxyDestinationMessage.innerMessage t (ProxyDestInnerMsgUnion.self_of obj);
  Ret (option_map (proxy_with_self obj) r).

Definition proxy_message (t : fbtable ByteBuffer) : outcome exn (option ProxyDestInnerMsgUnion.object) :=
  type ← ProxyDestinationMessage.innerMessageType t;
  ProxyDestInnerMsgUnion.unionToProxyDestInnerMsg type (proxy_member t).

Definition is_proxy_inner (m : proxy_inner) (r : option ProxyDestInnerMsgUnion.object) : Prop :=
  match m, r with
  | PNone, None => True
  | PConnectionRequest _, Some (ProxyDestInnerMsgUnion.AProxyDestConnectionRequest self)
  | PClientMessage _, Some (ProxyDestInnerMsgUnion.AProxyDestClientMessage self)
  | PCloseConnection _, Some (ProxyDestInnerMsgUnion.AProxyDestCloseConnection self) =>
      from_option (fun P => P self) False (reads_proxy_inner m)
  | _, _ => False
  end.

Definition reads_ProxyDestinationMessage (t : fbtable ByteBuffer) (m : proxy_inner) (data : option (list Z)) : Prop :=
  ProxyDestinationMessage.innerMessageType t = Ret (ProxyDestInnerMsg.to_number (proxy_type m)) /\
  (exists r, proxy_message t = Ret r /\ is_proxy_inner m r) /\
  reads_bytes (ProxyDestinationMessage.appDataLength t) (ProxyDestinationMessage.appData t)
    (ProxyDestinationMessage.appDataArray t) data.

Lemma proxy_message_reads t m :
  ProxyDestinationMessage.innerMessageType t = Ret (ProxyDestInnerMsg.to_number (proxy_type m)) ->
  (forall t0, exists res, ProxyDestinationMessage.innerMessage t t0 = Ret res /\
     match reads_proxy_inner m with None => res = None | Some P => exists t', res = Some t' /\ P t' end) ->
  exists r, proxy_message t = Ret r /\ is_proxy_inner m r.
Proof.
  intros Htype Hmsg. unfold proxy_message. rewrite Htype.
  destruct m; cbn -[ProxyDestinationMessage.innerMessage].
  1: by exists None.
  all: unfold proxy_member; cbn -[ProxyDestinationMessage.innerMessage];
    destruct (Hmsg (mkTable None 0)) as (res & Hres & Hr); simpl in Hr; destruct Hr as (t' & -> & HP);
    unfold ProxyDestConnectionRequest.new, ProxyDestClientMessage.new, ProxyDestCloseConnection.new;
    rewrite Hres; simpl; eexists; (split; [done|]); exact HP.
Qed.

Definition buildProxyDestinationMessage (m : proxy_inner) (data : option (list Z)) : stm Builder exn Z :=
  pM ← build_proxy_inner m;
  pD ← opt_vector ProxyDestinationMessage.createAppDataVector data;
  ProxyDestinationMessage.createProxyDestinationMessage (proxy_type m) pM pD.

Lemma buildProxyDestinationMessage_spec b l m data c Q :
  Rep b l -> ready l c -> proxy_inner_ok m -> Forall is_byte (default [] data) ->
  zlen (default [] data) + 160 <= c ->
  (forall o b' l', Rep b' l' -> grows l l' c ->
     shown l' o (fun t => reads_ProxyDestinationMessage t m data) -> Q o b') ->
  wp (buildProxyDestinationMessage m data) b Q.
Proof.
  intros HR Hrd Hm Hd Hc HQ. pose proof (zlen_nonneg (default [] data)).
  apply wp_bind. eapply build_proxy_inner_spec; [done | | done | apply Z.le_refl |]; [fb_arith|].
  intros pM b1 l1 HR1 G1 OM.
  apply wp_bind. eapply opt_vector_spec; [exact byte_loop_spec | done | | done | apply Z.le_refl |]; [fb_arith|].
  intros pD b2 l2 HR2 G2 OD. apply (member_off_grows _ _ _ _ _ G2) in OM.
  eapply (table_shown b2 l2 3
    [AddInt8 0 (ProxyDestInnerMsg.to_number (proxy_type m)) (ProxyDestInnerMsg.to_number ProxyDestInnerMsg.NONE);
     AddOffset 1 pM 0; AddOffset 2 pD 0] 64);
    [done | fb_arith | by destruct m | | done | | intros; eapply HQ; [done | fb_grows | eassumption]].
  { apply Forall_cons; [done|]. apply Forall_cons; [by eapply member_off_add_ok|]. adds_ok. }
  intros os o t Hsub Hs Ho.
  assert (ProxyDestinationMessage.innerMessageType t = Ret (ProxyDestInnerMsg.to_number (proxy_type m))) as Htype.
  { eapply (acc_uint8 os o t _ 0 Hs Ho); [lia | table_field | by destruct m]. }
  split_and!; [done | |].
  - apply proxy_message_reads; [done|]. intros t0.
    eapply (acc_member os o t _ 1 _ _ _ _ Hs Ho); [lia | table_field | exact OM | done].
  - eapply (acc_bytes os o t _ 2 _ _ Hs Ho); [lia | table_field | eauto with fbgrow].
Qed.

Definition encodeProxyDestinationMessage (m : proxy_inner) (data : option (list Z)) (sp : bool) :
    stm Builder exn Uint8Array :=
  o ← buildProxyDestinationMessage m data;
  (if sp then ProxyDestinationMessage.finishSizePrefixedProxyDestinationMessageBuffer o
   else ProxyDestinationMessage.finishProxyDestinationMessageBuffer o) ≫= fun _ =>
  asUint8Array.

Definition rootProxyDestinationMessage (sp : bool) (b : ByteBuffer) : fbtable ByteBuffer :=
  if sp then ProxyDestinationMessage.getSizePrefixedRootAsProxyDestinationMessage b None
  else ProxyDestinationMessage.getRootAsProxyDestinationMessage b None.

End codec.
