(* ===== verification/SpanreedTheorems.v ===== *)
(** * The proxy protocol's messages: theorems

    Round trips of every message of [SpanreedMessages] for any runtime library
    that satisfies the laws, the object API, and the misuse the library rejects.
    Each witness runs the theorem on the reference implementation. *)

From S2P Require Import Prelude JsPlatform FlatBuffers FbTables FbReference SpanreedMessages SpanreedCodec.

Section theorems.
#[local] Set Default Proof Using "Type*".
Context {FB : FlatBuffers} {FL : FlatBuffersLaws FB}.

(** A string that [text_ok] accepts (no lone surrogate, no byte order mark in front) comes back as the same UTF-16 string. *)
Definition unchanged (s : option text) (read : option Encoding -> outcome exn (option text)) : Prop :=
  forall v enc, s = Some (Str v) -> text_ok v = true -> enc <> Some UTF8_BYTES -> read enc = Ret s.

Lemma reads_unchanged s read : (forall enc, read enc = Ret (text_as enc <$> (text_bytes <$> s))) -> unchanged s read.
Proof using Type.
  intros Hread v enc -> Hok Henc. rewrite Hread. simpl.
  destruct enc as [[]|]; [done|..]; simpl; by rewrite text_roundtrip.
Qed.

Lemma dest_reason_unchanged t id reason data :
  reads_DestinationMessage t (DClose id reason) data ->
  exists self, dest_message t = Ret (Some (InnerMsgUnion.ACloseConnection self)) /\ unchanged reason (CloseConnection.reason self).
Proof using Type.
  intros (_ & (r & Hr & Hm) & _). destruct r as [[| |self]|]; simpl in Hm; try done.
  exists self. split; [done | exact (reads_unchanged _ _ (proj2 Hm))].
Qed.

(** C18: a [ConnectClientMessage] built with any (possibly absent) connection
    string and app data, finished with or without size prefix, is read back by
    the generated accessors: the app data are exactly the bytes written, through all
    three app-data accessors; the connection string is null when it was, a [Uint8Array]
    of UTF-8 bytes when that is asked for, and otherwise the decoding of the encoded
    string, which is the same string when it has no lone surrogate and no byte order
    mark in front (a leading U+FEFF is lost, a lone surrogate becomes U+FFFD). *)
Theorem connect_client_message_roundtrip n (s : option text) data sp :
  0 < n -> Forall is_byte (default [] (text_bytes <$> s)) -> Forall is_byte (default [] data) ->
  zlen (default [] (text_bytes <$> s)) + zlen (default [] data) + 200 <= fb_limit ->
  wp (encodeConnectClientMessage s data sp) (new_Builder n) (fun u _ =>
    u8_wf u /\
    decodes u (rootConnectClientMessage sp) (fun t =>
      reads_ConnectClientMessage t (text_bytes <$> s) data /\ unchanged s (ConnectClientMessage.connectionString t))).
Proof.
  intros Hn Hs Hd Hsz.
  assert (wp (encodeConnectClientMessage s data sp) (new_Builder n) (fun u _ =>
    u8_wf u /\ decodes u (rootConnectClientMessage sp) (fun t => reads_ConnectClientMessage t (text_bytes <$> s) data))) as H
    by (roundtrip buildConnectClientMessage_spec sp).
  eapply wp_mono; [exact H|]. intros u b [Hwf Hdec]. split; [done|]. intros u' Hwf' Hu. specialize (Hdec u' Hwf' Hu).
  split; [done | exact (reads_unchanged _ _ (proj1 Hdec))].
Qed.

(** A [ConnectClientVerdict] keeps its verdict, its error reason and its app data. *)
Theorem connect_client_verdict_roundtrip n accepted reason data sp :
  0 < n -> Forall is_byte (default [] (text_bytes <$> reason)) -> Forall is_byte (default [] data) ->
  zlen (default [] (text_bytes <$> reason)) + zlen (default [] data) + 200 <= fb_limit ->
  wp (encodeConnectClientVerdict accepted reason data sp) (new_Builder n) (fun u _ =>
    u8_wf u /\
    decodes u (rootConnectClientVerdict sp) (fun t =>
      reads_ConnectClientVerdict t accepted (text_bytes <$> reason) data)).
Proof. intros Hn Hr Hd Hsz. roundtrip buildConnectClientVerdict_spec sp. Qed.

(** A [ConnectDestinationVerdict] keeps its client id, its verdict, its error
    reason and its app data. *)
Theorem connect_destination_verdict_roundtrip n clientId accepted reason data sp :
  0 < n -> is_uint32 clientId ->
  Forall is_byte (default [] (text_bytes <$> reason)) -> Forall is_byte (default [] data) ->
  zlen (default [] (text_bytes <$> reason)) + zlen (default [] data) + 200 <= fb_limit ->
  wp (encodeConnectDestinationVerdict clientId accepted reason data sp) (new_Builder n) (fun u _ =>
    u8_wf u /\
    decodes u (rootConnectDestinationVerdict sp) (fun t =>
      reads_ConnectDestinationVerdict t clientId accepted (text_bytes <$> reason) data)).
Proof. intros Hn Hid Hr Hd Hsz. roundtrip buildConnectDestinationVerdict_spec sp. Qed.

(** C19: a [DestinationMessage] keeps the type of its inner message, and the union
    helper [unionToInnerMsg] finds an inner message of that class with the same
    client id and verdict; the app data is unchanged. The reason of a close message is
    null when it was, and otherwise the decoding of the encoded string: the same string
    when it has no lone surrogate and no byte order mark in front. *)
Theorem destination_message_roundtrip n m data sp :
  0 < n -> dest_inner_ok m -> Forall is_byte (default [] data) ->
  zlen (dest_text m) + zlen (default [] data) + 200 <= fb_limit ->
  wp (encodeDestinationMessage m data sp) (new_Builder n) (fun u _ =>
    u8_wf u /\
    decodes u (rootDestinationMessage sp) (fun t => reads_DestinationMessage t m data /\
      forall id reason, m = DClose id reason -> exists self,
        dest_message t = Ret (Some (InnerMsgUnion.ACloseConnection self)) /\ unchanged reason (CloseConnection.reason self))).
Proof.
  intros Hn Hm Hd Hsz.
  assert (wp (encodeDestinationMessage m data sp) (new_Builder n) (fun u _ =>
    u8_wf u /\ decodes u (rootDestinationMessage sp) (fun t => reads_DestinationMessage t m data))) as H
    by (roundtrip buildDestinationMessage_spec sp).
  eapply wp_mono; [exact H|]. intros u b [Hwf Hdec]. split; [done|]. intros u' Hwf' Hu. specialize (Hdec u' Hwf' Hu).
  split; [done|]. intros id reason ->. by eapply dest_reason_unchanged.
Qed.

(** C20: a [ProxyDestinationMessage] keeps the type of its inner message, the
    member [unionToProxyDestInnerMsg] finds has that class and the same client
    id, and the app data is unchanged. *)
Theorem proxy_destination_message_roundtrip n m data sp :
  0 < n -> proxy_inner_ok m -> Forall is_byte (default [] data) ->
  zlen (default [] data) + 200 <= fb_limit ->
  wp (encodeProxyDestinationMessage m data sp) (new_Builder n) (fun u _ =>
    u8_wf u /\
    decodes u (rootProxyDestinationMessage sp) (fun t => reads_ProxyDestinationMessage t m data)).
Proof. intros Hn Hm Hd Hsz. roundtrip buildProxyDestinationMessage_spec sp. Qed.

(** The whole trip through the object API. *)
Definition encodeConnectClientMessageT (o : ConnectClientMessageT.t) : stm Builder exn Uint8Array :=
  root ← ConnectClientMessage.pack o;
  ConnectClientMessage.finishConnectClientMessageBuffer root ≫= fun _ =>
  asUint8Array.

(** An object packed with [ConnectClientMessageT.pack] and sent is unpacked
    as the same object, by [unpack] and, whatever the target held before, by
    [unpackTo]: a null connection string stays null, a string comes back as the
    same UTF-16 string. *)
Theorem connect_client_message_pack_unpack n s data :
  0 < n -> from_option text_ok true s = true -> Forall is_byte data ->
  zlen (from_option text_encode [] s) + zlen data + 200 <= fb_limit ->
  let o := ConnectClientMessageT.mk (Str <$> s) data in
  wp (encodeConnectClientMessageT o) (new_Builder n) (fun u _ =>
    decodes u (fun b => ConnectClientMessage.getRootAsConnectClientMessage b None) (fun t =>
      ConnectClientMessage.unpack t = Ret o /\
      forall o', ConnectClientMessage.unpackTo t o' = (Ret tt, o))).
Proof.
  intros Hn Hs Hd Hsz. cbv zeta.
  pose proof (Rep_new n Hn) as HR. apply wp_bind.
  assert (default [] (text_bytes <$> (Str <$> s)) = from_option text_encode [] s) as Hb by by destruct s.
  apply (buildConnectClientMessage_spec _ lb_new (Str <$> s) (Some data)
    (zlen (from_option text_encode [] s) + zlen data + 96)); [done | fb_arith | | done | |].
  - rewrite Hb. destruct s; [by apply text_encode_byte, text_ok_wf | constructor].
  - rewrite Hb. simpl. lia.
  - intros root b l HR1 G SO. eapply wp_mono; [eapply (finish_roundtrip b l root false); [done | fb_arith | exact SO]|].
    intros u b' [_ Hdec] u' Hwf Hu. specialize (Hdec u' Hwf Hu). cbv beta in Hdec.
    apply unpack_reads in Hdec. destruct s as [s|]; [|exact Hdec].
    simpl in Hdec, Hs. by rewrite text_roundtrip in Hdec.
Qed.
Lemma nested_object_throws {A} b l n fs m (k : unit -> stm Builder exn A) :
  Rep b l -> cur l = InTable n fs -> exists b', (startObject m ≫= k) b = (Throw LibError, b').
Proof.
  intros HR Hc. destruct (law_startObject_nested b l n m fs HR Hc) as [b' Hb'].
  exists b'. unfold mbind, stm_bind. by rewrite Hb'.
Qed.

Lemma nested_vector_throws {A} b l n fs esz m al (k : unit -> stm Builder exn A) :
  Rep b l -> cur l = InTable n fs -> exists b', (startVector esz m al ≫= k) b = (Throw LibError, b').
Proof.
  intros HR Hc. destruct (law_startVector_nested b l n fs esz m al HR Hc) as [b' Hb'].
  exists b'. unfold mbind, stm_bind. by rewrite Hb'.
Qed.

(** Inner messages and vectors have to be built before the table that refers
    to them: creating one after [startDestinationMessage] throws, whatever fields
    the open table already has, for the inner messages and the app data alike. *)
Theorem destination_message_inner_first n type id data :
  0 < n ->
  forall create, create ∈ [ProxyMessage.createProxyMessage id;
                           ConnectionVerdict.createConnectionVerdict id true;
                           CloseConnection.createCloseConnection id 0;
                           DestinationMessage.createAppDataVector data] ->
  exists b, (DestinationMessage.startDestinationMessage ≫= fun _ =>
             DestinationMessage.addMsgType type ≫= fun _ => create) (new_Builder n) = (Throw LibError, b).
Proof.
  intros Hn create Hin.
  assert (wp (DestinationMessage.startDestinationMessage ≫= fun _ => DestinationMessage.addMsgType type)
    (new_Builder n) (fun _ b => exists l k fs, Rep b l /\ cur l = InTable k fs)) as (u & b & Hrun & l & k & fs & HR & Hc)%wp_run.
  { apply wp_bind. eapply law_startObject; [by apply Rep_new | done | done | lia |]. intros b1 HR1.
    eapply law_addFieldInt8; [exact HR1 | done | lia | apply lookup_empty | done |]. eauto. }
  assert (exists b', create b = (Throw LibError, b')) as [b' Hthrow].
  { repeat (apply elem_of_cons in Hin as [->|Hin]); [..|by apply not_elem_of_nil in Hin];
      first [eapply nested_object_throws; eassumption | eapply nested_vector_throws; eassumption]. }
  exists b'. unfold mbind, stm_bind in *.
  destruct (DestinationMessage.startDestinationMessage (new_Builder n)) as [[]]; [|done]. by rewrite Hrun.
Qed.
End theorems.

(** ** Witnesses: the theorems run on the reference implementation *)

Definition sample_address : jsstring := js "udp:127.0.0.1:30321".

Lemma connect_client_message_roundtrip_witness :
  wp (encodeConnectClientMessage (FB := FbRef) (Some (Str sample_address)) (Some [1; 0; 255]) true)
    (new_Builder 64) (fun u _ =>
    u8_wf u /\
    decodes u (rootConnectClientMessage true) (fun t =>
      reads_ConnectClientMessage t (text_bytes <$> Some (Str sample_address)) (Some [1; 0; 255]) /\
      ConnectClientMessage.connectionString t None = Ret (Some (Str sample_address)))).
Proof.
  eapply wp_mono; [apply (connect_client_message_roundtrip (FL := FbRefLaws) 64 (Some (Str sample_address)) (Some [1; 0; 255]) true);
    concrete|].
  intros u b [Hwf Hdec]. split; [exact Hwf|]. intros u' Hwf' Hu. destruct (Hdec u' Hwf' Hu) as [H1 H2].
  split; [exact H1|]. apply (H2 sample_address None); [reflexivity | vm_compute; reflexivity | discriminate].
Defined.

(** What happens to the strings that [text_ok] rejects: a leading byte order mark, a lone surrogate. *)
Example text_that_changes :
  text_decode (text_encode (65279 :: js "x")) = js "x" /\ text_decode (text_encode [55296]) = [65533].
Proof. split; vm_compute; reflexivity. Qed.

Lemma connect_client_verdict_roundtrip_witness :
  wp (encodeConnectClientVerdict (FB := FbRef) false (Some (Str (js "full"))) None false)
    (new_Builder 64) (fun u _ =>
    u8_wf u /\
    decodes u (rootConnectClientVerdict false) (fun t =>
      reads_ConnectClientVerdict t false (text_bytes <$> Some (Str (js "full"))) None)).
Proof.
  apply (connect_client_verdict_roundtrip (FL := FbRefLaws) 64 false (Some (Str (js "full"))) None false); concrete.
Defined.

Lemma connect_destination_verdict_roundtrip_witness :
  wp (encodeConnectDestinationVerdict (FB := FbRef) 4294967295 true None (Some [7]) true)
    (new_Builder 64) (fun u _ =>
    u8_wf u /\
    decodes u (rootConnectDestinationVerdict true) (fun t =>
      reads_ConnectDestinationVerdict t 4294967295 true (text_bytes <$> None) (Some [7]))).
Proof.
  apply (connect_destination_verdict_roundtrip (FL := FbRefLaws) 64 4294967295 true None (Some [7]) true); concrete.
Defined.

Lemma destination_message_roundtrip_witness :
  wp (encodeDestinationMessage (FB := FbRef) (DClose 12 (Some (Str (js "bye")))) (Some [1; 2]) false)
    (new_Builder 64) (fun u _ =>
    u8_wf u /\
    decodes u (rootDestinationMessage false) (fun t =>
      reads_DestinationMessage t (DClose 12 (Some (Str (js "bye")))) (Some [1; 2]) /\
      exists self, dest_message t = Ret (Some (InnerMsgUnion.ACloseConnection self)) /\
        CloseConnection.reason self None = Ret (Some (Str (js "bye"))))).
Proof.
  eapply wp_mono; [apply (destination_message_roundtrip (FL := FbRefLaws) 64 (DClose 12 (Some (Str (js "bye")))) (Some [1; 2]) false);
    [lia | split; [concrete | done] | concrete | concrete]|].
  intros u b [Hwf Hdec]. split; [exact Hwf|]. intros u' Hwf' Hu. destruct (Hdec u' Hwf' Hu) as [H1 H2].
  split; [exact H1|]. destruct (H2 12 (Some (Str (js "bye"))) eq_refl) as (self & Hm & Hr).
  exists self. split; [exact Hm|]. apply (Hr (js "bye") None); [reflexivity | vm_compute; reflexivity | discriminate].
Defined.

Lemma proxy_destination_message_roundtrip_witness :
  wp (encodeProxyDestinationMessage (FB := FbRef) (PClientMessage 12) (Some [9; 8]) false)
    (new_Builder 64) (fun u _ =>
    u8_wf u /\
    decodes u (rootProxyDestinationMessage false) (fun t =>
      reads_ProxyDestinationMessage t (PClientMessage 12) (Some [9; 8]))).
Proof.
  apply (proxy_destination_message_roundtrip (FL := FbRefLaws) 64 (PClientMessage 12) (Some [9; 8]) false);
    [lia | done | concrete | concrete].
Defined.

Lemma connect_client_message_pack_unpack_witness :
  let o := ConnectClientMessageT.mk (Some (Str sample_address)) [3; 4] in
  wp (encodeConnectClientMessageT (FB := FbRef) o) (new_Builder 64) (fun u _ =>
    decodes u (fun b => ConnectClientMessage.getRootAsConnectClientMessage b None) (fun t =>
      ConnectClientMessage.unpack t = Ret o /\
      forall o', ConnectClientMessage.unpackTo t o' = (Ret tt, o))).
Proof.
  apply (connect_client_message_pack_unpack (FL := FbRefLaws) 64 (Some sample_address) [3; 4]); concrete.
Defined.

Lemma destination_message_inner_first_witness :
  exists b, (DestinationMessage.startDestinationMessage (FB := FbRef) ≫= fun _ =>
             DestinationMessage.addMsgType InnerMsg.ProxyMessage ≫= fun _ =>
             ProxyMessage.createProxyMessage 5) (new_Builder 64) = (Throw LibError, b).
Proof.
  apply (destination_message_inner_first (FL := FbRefLaws) 64 InnerMsg.ProxyMessage 5 []); [lia|].
  by left.
Defined.
