(* ===== verification/HelloCodec.v ===== *)
(** * Building and reading the demo's messages

    As in [SpanreedCodec]: the content the accessors show, the generated calls
    that build it, and the lemmas that connect them. Floats are stored in 32
    bits, so what is read is what [fround] makes of what was written. *)

From S2P Require Import Prelude JsPlatform FlatBuffers FbTables HelloMessages.

(** ** Contents *)
Inductive user_message : Type :=
| UNone
| UConnect (name : option text)
| UClick (x y : number)
| UChat (text : option text)
| UPing.

Definition user_type (m : user_message) : UserMessage.t :=
  match m with
  | UNone => UserMessage.NONE
  | UConnect _ => UserMessage.UserConnectMessage
  | UClick _ _ => UserMessage.UserClickMessage
  | UChat _ => UserMessage.UserChatMessage
  | UPing => UserMessage.UserPingMessage
  end.

Definition user_text (m : user_message) : list Z :=
  match m with UConnect (Some s) | UChat (Some s) => text_bytes s | _ => [] end.

Record dot : Type := mkDot { dot_x : number; dot_y : number; dot_radius : number; dot_color : Z }.

Inductive server_message : Type :=
| SNone
| SChat (user text : option text)
| SGameState (dots : list dot).

Definition server_type (m : server_message) : Message.t :=
  match m with
  | SNone => Message.NONE
  | SChat _ _ => Message.ServerChatMessage
  | SGameState _ => Message.ServerGameStateMessage
  end.

Definition opt_bytes (s : option text) : list Z := default [] (text_bytes <$> s).

(** Bytes of variable length in a server message. *)
Definition server_size (m : server_message) : Z :=
  match m with
  | SNone => 0
  | SChat u t => zlen (opt_bytes u) + zlen (opt_bytes t)
  | SGameState ds => 16 * zlen ds
  end.

Definition is_sint8 (z : Z) : Prop := -128 <= z < 128.

Definition server_message_ok (m : server_message) : Prop :=
  match m with
  | SNone => True
  | SChat u t => Forall is_byte (opt_bytes u) /\ Forall is_byte (opt_bytes t)
  | SGameState ds => Forall (fun d => is_sint8 (dot_color d)) ds
  end.

(** The inline layout of a [Dot]: three floats, the color, padding. *)
Definition dot_bytes (d : dot) : list Z :=
  f32_bytes (dot_x d) ++ f32_bytes (dot_y d) ++ f32_bytes (dot_radius d) ++
  [to_uint 8 (dot_color d)] ++ zeros 3.

Lemma zlen_dot_bytes d : zlen (dot_bytes d) = 16.
Proof. done. Qed.

Lemma dot_bytes_byte d : Forall is_byte (dot_bytes d).
Proof.
  unfold dot_bytes. do 3 (apply Forall_app; split; [apply f32_bytes_byte|]).
  apply Forall_cons; [by apply Z.mod_pos_bound | by apply check_bytes].
Qed.

Lemma zlen_dots_bytes ds : zlen (concat (map dot_bytes ds)) = 16 * zlen ds.
Proof.
  induction ds as [|d ds IH]; [done|]. cbn [map concat].
  rewrite zlen_app, zlen_dot_bytes, IH, zlen_cons. lia.
Qed.

(** The bytes of dot [k] within the vector. *)
Lemma dots_split ds k d :
  ds !! k = Some d ->
  exists pre post, concat (map dot_bytes ds) = pre ++ dot_bytes d ++ post /\ zlen pre = 16 * Z.of_nat k.
Proof.
  revert k. induction ds as [|e ds IH]; intros k Hk; [done|]. destruct k as [|k]; simpl in Hk.
  - injection Hk as ->. exists [], (concat (map dot_bytes ds)). done.
  - destruct (IH k Hk) as (pre & post & Heq & Hlen). exists (dot_bytes e ++ pre), post. split.
    + cbn [map concat]. by rewrite Heq, <- app_assoc.
    + rewrite zlen_app, zlen_dot_bytes. lia.
Qed.

Section codec.
#[local] Set Default Proof Using "Type*".
Context {FB : FlatBuffers} {FL : FlatBuffersLaws FB}.

(** ** [ClientMessage] *)
Definition build_user_message (m : user_message) : stm Builder exn Z :=
  match m with
  | UNone => mret 0
  | UConnect name => p ← opt_string name; UserConnectMessage.createUserConnectMessage p
  | UClick x y => UserClickMessage.createUserClickMessage x y
  | UChat text => p ← opt_string text; UserChatMessage.createUserChatMessage p
  | UPing => UserPingMessage.createUserPingMessage
  end.

Definition reads_user_message (m : user_message) : option (fbtable ByteBuffer -> Prop) :=
  match m with
  | UNone => None
  | UConnect name => Some (fun t =>
      forall enc, UserConnectMessage.name t enc = Ret (text_as enc <$> (text_bytes <$> name)))
  | UClick x y => Some (fun t =>
      UserClickMessage.x t = Ret (float_field x) /\ UserClickMessage.y t = Ret (float_field y))
  | UChat text => Some (fun t =>
      forall enc, UserChatMessage.text t enc = Ret (text_as enc <$> (text_bytes <$> text)))
  | UPing => Some (fun _ => True)
  end.

(** A table whose only field is a string. *)
Lemma text_table_at_spec (P : fbtable ByteBuffer -> Prop) b l p mbs c Q :
  Rep b l -> ready l c -> off_is (objs l) p (OText <$> mbs) -> 32 <= c ->
  (forall t, (forall enc, (this_bb ← deref t;
              let offset := __offset this_bb (bb_pos t) 4 in
              Ret (if truthy offset then Some (__string this_bb (bb_pos t + offset) enc) else None)) =
              Ret (text_as enc <$> mbs)) -> P t) ->
  (forall o b' l', Rep b' l' -> grows l l' c -> shown l' o P -> Q o b') ->
  wp (create_table 1 [AddOffset 0 p 0]) b Q.
Proof.
  intros HR Hrd OS Hc HP HQ.
  eapply (table_shown b l 1 [AddOffset 0 p 0]);
    [done | exact Hrd | done | adds_ok | unfold table_cost; autorewrite with zlen; lia | | exact HQ].
  intros os o t Hsub Hs Ho. apply HP. intros enc.
  eapply (acc_text os o t _ 0 Hs Ho); [lia | table_field | eauto with fbgrow].
Qed.

Lemma text_table_spec (P : fbtable ByteBuffer -> Prop) b l s c Q :
  Rep b l -> ready l c -> Forall is_byte (opt_bytes s) -> zlen (opt_bytes s) + 48 <= c ->
  (forall t, (forall enc, (this_bb ← deref t;
              let offset := __offset this_bb (bb_pos t) 4 in
              Ret (if truthy offset then Some (__string this_bb (bb_pos t + offset) enc) else None)) =
              Ret (text_as enc <$> (text_bytes <$> s))) -> P t) ->
  (forall o b' l', Rep b' l' -> grows l l' c -> shown l' o P -> Q o b') ->
  wp (p ← opt_string s; create_table 1 [AddOffset 0 p 0]) b Q.
Proof.
  intros HR Hrd Hs Hc HP HQ. apply wp_bind. unfold opt_bytes in *.
  eapply opt_string_spec; [done | | done | apply Z.le_refl |]; [fb_arith|]. intros p b1 l1 HR1 G1 OS.
  eapply (text_table_at_spec P b1 l1 p (text_bytes <$> s) 32);
    [done | fb_arith | done | lia | done | intros; eapply HQ; [done | fb_grows | eassumption]].
Qed.

(** The two messages that carry a string, on a string written before. *)
Lemma string_user_message_spec b l s (k : text -> user_message) p Q :
  k = (fun s => UConnect (Some s)) \/ k = (fun s => UChat (Some s)) ->
  Rep b l -> ready l 32 -> off_is (objs l) p (Some (OText (text_bytes s))) ->
  (forall o b' l', Rep b' l' -> grows l l' 32 -> member_off l' o (reads_user_message (k s)) -> Q o b') ->
  wp (create_table 1 [AddOffset 0 p 0]) b Q.
Proof.
  intros Hk HR Hrd Hp HQ.
  destruct Hk as [-> | ->]; (eapply (text_table_at_spec _ b l p (Some (text_bytes s)));
    [done | exact Hrd | exact Hp | lia | | exact HQ]); intros t Ht; exact Ht.
Qed.

Lemma build_user_message_spec b l m c Q :
  Rep b l -> ready l c -> Forall is_byte (user_text m) -> zlen (user_text m) + 64 <= c ->
  (forall o b' l', Rep b' l' -> grows l l' c -> member_off l' o (reads_user_message m) -> Q o b') ->
  wp (build_user_message m) b Q.
Proof.
  intros HR Hrd Htext Hc HQ. pose proof (zlen_nonneg (user_text m)).
  destruct m as [|name|x y|s|]; cbn [build_user_message].
  - apply wp_ret. eapply HQ; [done | | done]. destruct Hrd as (? & ? & ?). apply grows_refl; auto. lia.
  - eapply (text_table_spec _ b l name); [done | exact Hrd | by destruct name | | | exact HQ]; [|auto].
    replace (opt_bytes name) with (user_text (UConnect name)) by by destruct name. lia.
  - eapply (table_shown b l 2 [AddFloat32 0 x num_zero; AddFloat32 1 y num_zero]);
      [done | exact Hrd | done | adds_ok | unfold table_cost; autorewrite with zlen; lia | | exact HQ].
    intros os o t Hsub Hs Ho. split.
    + eapply (acc_float32 os o t _ 0 Hs Ho); [lia | table_field].
    + eapply (acc_float32 os o t _ 1 Hs Ho); [lia | table_field].
  - eapply (text_table_spec _ b l s); [done | exact Hrd | by destruct s | | | exact HQ]; [|auto].
    replace (opt_bytes s) with (user_text (UChat s)) by by destruct s. lia.
  - eapply (table_shown b l 0 []); [done | exact Hrd | done | adds_ok | | | exact HQ]; [|done].
    unfold table_cost. autorewrite with zlen. lia.
Qed.

(** Following the union through its helper. *)
Definition user_with_self (obj : UserMessageUnion.object) (self : fbtable ByteBuffer) : UserMessageUnion.object :=
  match obj with
  | UserMessageUnion.AUserConnectMessage _ => UserMessageUnion.AUserConnectMessage self
  | UserMessageUnion.AUserClickMessage _ => UserMessageUnion.AUserClickMessage self
  | UserMessageUnion.AUserChatMessage _ => UserMessageUnion.AUserChatMessage self
  | UserMessageUnion.AUserPingMessage _ => UserMessageUnion.AUserPingMessage self
  end.

Definition user_member (t : fbtable ByteBuffer) (obj : UserMessageUnion.object) :
    outcome exn (option UserMessageUnion.object) :=
  r ← ClientMessage.userMessage t (UserMessageUnion.self_of obj);
  Ret (option_map (user_with_self obj) r).

Definition client_message (t : fbtable ByteBuffer) : outcome exn (option UserMessageUnion.object) :=
  type ← ClientMessage.userMessageType t;
  UserMessageUnion.unionToUserMessage type (user_member t).

Definition is_user_message (m : user_message) (r : option UserMessageUnion.object) : Prop :=
  match m, r with
  | UNone, None => True
  | UConnect _, Some (UserMessageUnion.AUserConnectMessage self)
  | UClick _ _, Some (UserMessageUnion.AUserClickMessage self)
  | UChat _, Some (UserMessageUnion.AUserChatMessage self)
  | UPing, Some (UserMessageUnion.AUserPingMessage self) =>
      from_option (fun P => P self) False (reads_user_message m)
  | _, _ => False
  end.

Definition reads_ClientMessage (t : fbtable ByteBuffer) (m : user_message) : Prop :=
  ClientMessage.userMessageType t = Ret (UserMessage.to_number (user_type m)) /\
  exists r, client_message t = Ret r /\ is_user_message m r.

Lemma client_message_reads t m :
  ClientMessage.userMessageType t = Ret (UserMessage.to_number (user_type m)) ->
  (forall t0, exists res, ClientMessage.userMessage t t0 = Ret res /\
     match reads_user_message m with None => res = None | Some P => exists t', res = Some t' /\ P t' end) ->
  exists r, client_message t = Ret r /\ is_user_message m r.
Proof.
  intros Htype Hmsg. unfold client_message. rewrite Htype. destruct m; cbn -[ClientMessage.userMessage].
  1: by exists None.
  all: unfold user_member; cbn -[ClientMessage.userMessage];
    destruct (Hmsg (mkTable None 0)) as (res & Hres & Hr); simpl in Hr; destruct Hr as (t' & -> & HP);
    unfold UserConnectMessage.new, UserClickMessage.new, UserChatMessage.new, UserPingMessage.new;
    rewrite Hres; simpl; eexists; (split; [done|]); exact HP.
Qed.

Lemma createClientMessage_spec b l m pM Q :
  Rep b l -> ready l 64 -> member_off l pM (reads_user_message m) ->
  (forall o b' l', Rep b' l' -> grows l l' 64 -> shown l' o (fun t => reads_ClientMessage t m) -> Q o b') ->
  wp (ClientMessage.createClientMessage (user_type m) pM) b Q.
Proof.
  intros HR Hrd OM HQ.
  eapply (table_shown b l 2
    [AddInt8 0 (UserMessage.to_number (user_type m)) (UserMessage.to_number UserMessage.NONE); AddOffset 1 pM 0]);
    [done | exact Hrd | by destruct m | | done | | exact HQ].
  { apply Forall_cons; [done|]. apply Forall_cons; [by eapply member_off_add_ok | apply Forall_nil]. }
  intros os o t Hsub Hs Ho.
  assert (ClientMessage.userMessageType t = Ret (UserMessage.to_number (user_type m))) as Htype.
  { eapply (acc_uint8 os o t _ 0 Hs Ho); [lia | table_field | by destruct m]. }
  split; [done|]. apply client_message_reads; [done|]. intros t0.
  eapply (acc_member os o t _ 1 _ _ _ _ Hs Ho); [lia | table_field | exact OM | done].
Qed.

Definition buildClientMessage (m : user_message) : stm Builder exn Z :=
  pM ← build_user_message m;
  ClientMessage.createClientMessage (user_type m) pM.

Lemma buildClientMessage_spec b l m c Q :
  Rep b l -> ready l c -> Forall is_byte (user_text m) -> zlen (user_text m) + 128 <= c ->
  (forall o b' l', Rep b' l' -> grows l l' c -> shown l' o (fun t => reads_ClientMessage t m) -> Q o b') ->
  wp (buildClientMessage m) b Q.
Proof.
  intros HR Hrd Hm Hc HQ. pose proof (zlen_nonneg (user_text m)).
  apply wp_bind. eapply build_user_message_spec; [done | | done | apply Z.le_refl |]; [fb_arith|].
  intros pM b1 l1 HR1 G1 OM.
  eapply createClientMessage_spec; [done | fb_arith | exact OM |].
  intros. eapply HQ; [done | fb_grows | eassumption].
Qed.

Definition encodeClientMessage (m : user_message) (sp : bool) : stm Builder exn Uint8Array :=
  o ← buildClientMessage m;
  (if sp then ClientMessage.finishSizePrefixedClientMessageBuffer o
   else ClientMessage.finishClientMessageBuffer o) ≫= fun _ =>
  asUint8Array.

Definition rootClientMessage (sp : bool) (b : ByteBuffer) : fbtable ByteBuffer :=
  if sp then ClientMessage.getSizePrefixedRootAsClientMessage b None
  else ClientMessage.getRootAsClientMessage b None.

(** ** Dots *)

(** The elements of a vector of structs are written last to first. *)
Definition build_dots (ds : list dot) : stm Builder exn Z :=
  ServerGameStateMessage.startDotsVector (zlen ds) ≫= fun _ =>
  for_each (rev ds) (fun d =>
    Dot.createDot (dot_x d) (dot_y d) (dot_radius d) (dot_color d) ≫= fun _ => mret tt) ≫= fun _ =>
  endVector.

(** The writes of one struct, last field first, and then [k]. *)
Lemma dot_writes_spec {A} b l n bs d (k : unit -> stm Builder exn A) Q :
  Rep b l -> cur l = InVec 16 n bs -> zlen bs + 16 <= 16 * n -> zlen bs mod 4 = 0 ->
  (forall b', Rep b' (lb_step l 0 (InVec 16 n (dot_bytes d ++ bs))) -> wp (k tt) b' Q) ->
  wp (prep 4 16 ≫= fun _ => pad 3 ≫= fun _ => writeInt8 (dot_color d) ≫= fun _ =>
      writeFloat32 (dot_radius d) ≫= fun _ => writeFloat32 (dot_y d) ≫= fun _ => writeFloat32 (dot_x d) ≫= k) b Q.
Proof.
  intros HR Hc Hlen Hmod HQ.
  apply wp_bind. eapply (law_prep _ _ 16 n bs 4 16); [done | done | auto | lia | lia | | done | done |].
  { rewrite Z.mul_comm. change 16 with (4 * 4). rewrite Z.mul_assoc. by apply Z.mod_mul. }
  intros b1 HR1. apply wp_bind. eapply (law_pad _ _ 16 n bs 3); [exact HR1 | done | lia | lia |].
  intros b2 HR2. apply wp_bind.
  eapply law_writeInt8; [exact HR2 | done | autorewrite with zlen; rewrite zlen_zeros; lia |].
  intros b3 HR3. apply wp_bind.
  eapply law_writeFloat32; [exact HR3 | done | autorewrite with zlen; rewrite zlen_zeros; lia |].
  intros b4 HR4. apply wp_bind.
  eapply law_writeFloat32; [exact HR4 | done | autorewrite with zlen; rewrite zlen_zeros; lia |].
  intros b5 HR5. apply wp_bind.
  eapply law_writeFloat32; [exact HR5 | done | autorewrite with zlen; rewrite zlen_zeros; lia |].
  intros b6 HR6. apply HQ.
  unfold lb_step, dot_bytes in *. cbn [objs cur used fin] in *.
  rewrite !Z.add_0_r in *. rewrite <- !app_assoc. exact HR6.
Qed.

(** A function that writes one struct. *)
Definition writes_dot (w : dot -> stm Builder exn unit) : Prop := forall b l n bs d Q,
  Rep b l -> cur l = InVec 16 n bs -> zlen bs + 16 <= 16 * n -> zlen bs mod 4 = 0 ->
  (forall b', Rep b' (lb_step l 0 (InVec 16 n (dot_bytes d ++ bs))) -> Q tt b') -> wp (w d) b Q.

Lemma createDot_writes : writes_dot (fun d =>
  Dot.createDot (dot_x d) (dot_y d) (dot_radius d) (dot_color d) ≫= fun _ => mret tt).
Proof.
  intros b l n bs d Q HR Hc Hlen Hmod HQ. apply wp_bind.
  eapply (dot_writes_spec b l n bs d (fun _ => offset)); [done | done | done | done |].
  intros b' HR'. eapply law_offset; [exact HR'|]. intros _. by apply wp_ret, HQ.
Qed.

Lemma write_dots_spec w b l n bs ds Q :
  writes_dot w -> Rep b l -> cur l = InVec 16 n bs -> zlen bs + 16 * zlen ds <= 16 * n -> zlen bs mod 4 = 0 ->
  (forall b', Rep b' (lb_step l 0 (InVec 16 n (concat (map dot_bytes ds) ++ bs))) -> Q tt b') ->
  wp (for_each (rev ds) w) b Q.
Proof.
  intros Hw. revert b l bs Q. induction ds as [|d ds IH] using rev_ind; intros b l bs Q HR Hc Hlen Hmod HQ.
  - apply wp_ret, HQ. unfold lb_step. simpl. rewrite Z.add_0_r, <- Hc. by destruct l.
  - rewrite rev_app_distr. cbn [rev app for_each]. apply wp_bind. autorewrite with zlen in Hlen.
    pose proof (zlen_nonneg ds).
    eapply (Hw _ _ n bs); [done | done | lia | done |]. intros b1 HR1.
    eapply (IH b1 _ (dot_bytes d ++ bs)); [exact HR1 | done | | |].
    + rewrite zlen_app, zlen_dot_bytes. lia.
    + rewrite zlen_app, zlen_dot_bytes, <- Z.add_mod_idemp_r, Hmod by lia. done.
    + intros b2 HR2. apply HQ. rewrite map_app, concat_app. cbn [map concat]. rewrite app_nil_r, <- app_assoc.
      unfold lb_step in *. simpl in *. by rewrite !Z.add_0_r in *.
Qed.

Definition ODots (ds : list dot) : object := OVec (zlen ds) (concat (map dot_bytes ds)).

Lemma dots_vector_spec w b l ds c Q :
  writes_dot w -> Rep b l -> ready l c -> 16 * zlen ds + 16 <= c ->
  (forall o b' l', Rep b' l' -> allocated l l' c o (ODots ds) -> Q o b') ->
  wp (startVector 16 (zlen ds) 4 ≫= fun _ => for_each (rev ds) w ≫= fun _ => endVector) b Q.
Proof.
  intros Hw HR (Hc & Hf & Hu) Hlen HQ. pose proof (zlen_nonneg ds). pose proof (Rep_used_nonneg _ _ HR).
  assert (fb_limit < 2 ^ 31) by done.
  apply wp_bind. eapply law_startVector; [done | done | done | lia | lia | auto | lia |].
  intros b1 HR1. apply wp_bind.
  eapply (write_dots_spec _ _ _ (zlen ds) []); [exact Hw | exact HR1 | done | rewrite zlen_nil; lia | done |].
  rewrite app_nil_r. intros b2 HR2.
  eapply (law_endVector _ _ 16 (zlen ds)); [exact HR2 | done | apply zlen_dots_bytes | lia | lb_simpl; lia |].
  intros o b3 Ho Hn HR3. eapply HQ; [exact HR3|]. unfold allocated. lb_simpl. split_and!; try done; lia.
Qed.

Lemma build_dots_spec b l ds c Q :
  Rep b l -> ready l c -> 16 * zlen ds + 16 <= c ->
  (forall o b' l', Rep b' l' -> allocated l l' c o (ODots ds) -> Q o b') ->
  wp (build_dots ds) b Q.
Proof. apply dots_vector_spec, createDot_writes. Qed.

(** What the accessors of a [Dot] show. *)
Definition reads_Dot (t : fbtable ByteBuffer) (d : dot) : Prop :=
  Dot.x t = Ret (fround (dot_x d)) /\ Dot.y t = Ret (fround (dot_y d)) /\
  Dot.radius t = Ret (fround (dot_radius d)) /\ Dot.color t = Ret (dot_color d).

Lemma region_sub b p pre bs post :
  region b p (pre ++ bs ++ post) -> region b (p + zlen pre) bs.
Proof.
  intros (Hp & Hlen & Hs). autorewrite with zlen in Hlen.
  pose proof (zlen_nonneg pre). pose proof (zlen_nonneg bs). pose proof (zlen_nonneg post).
  split_and!; [lia | lia |].
  rewrite <- (zslice_zslice _ p (zlen (pre ++ bs ++ post))) by (autorewrite with zlen; lia).
  rewrite Hs. replace (zlen pre) with (zlen pre + 0) by lia. rewrite zslice_app_r by lia.
  apply zslice_0_app.
Qed.

Lemma dot_region_reads b p d : region b p (dot_bytes d) -> is_sint8 (dot_color d) ->
  reads_Dot (mkTable (Some b) p) d.
Proof.
  intros Hr Hc. unfold dot_bytes in Hr.
  assert (forall q pre y post, f32_bytes (dot_x d) ++ f32_bytes (dot_y d) ++ f32_bytes (dot_radius d) ++
    [to_uint 8 (dot_color d)] ++ zeros 3 = pre ++ f32_bytes y ++ post -> q = p + zlen pre ->
    readFloat32 b q = fround y) as Hf.
  { intros q pre y post Heq ->. rewrite Heq in Hr. apply region_sub in Hr.
    rewrite (law_readFloat32 b _ _ Hr) by (apply f32_bytes_byte || done). apply f32_roundtrip. }
  unfold reads_Dot, Dot.x, Dot.y, Dot.radius, Dot.color, deref. simpl. split_and!; f_equal.
  - apply (Hf p [] _ _ eq_refl). rewrite zlen_nil. lia.
  - by apply (Hf (p + 4) (f32_bytes (dot_x d)) _ _ eq_refl).
  - apply (Hf (p + 8) (f32_bytes (dot_x d) ++ f32_bytes (dot_y d)) _ (to_uint 8 (dot_color d) :: zeros 3)); [|done].
    by rewrite <- app_assoc.
  - rewrite !app_assoc in Hr. rewrite <- (app_assoc _ [_]) in Hr. apply region_sub in Hr.
    erewrite law_readInt8; [|exact Hr|by apply Z.mod_pos_bound]. rewrite to_sint_uint by lia. by apply to_sint_small.
Qed.

Definition reads_ServerGameStateMessage (t : fbtable ByteBuffer) (ds : list dot) : Prop :=
  ServerGameStateMessage.dotsLength t = Ret (zlen ds) /\
  forall k d obj, ds !! k = Some d ->
    exists td, ServerGameStateMessage.dots t (Z.of_nat k) obj = Ret (Some td) /\ reads_Dot td d.

Lemma reads_ServerGameStateMessage_table os o t fs r ds :
  shows os o t -> os !! o = Some (OTable fs) -> fs !! 0 = stored (negb (r =? 0)) (FOff r) ->
  off_is os r (Some (ODots ds)) -> Forall (fun d => is_sint8 (dot_color d)) ds ->
  reads_ServerGameStateMessage t ds.
Proof.
  intros Hs Ho Hf Hr Hc. split.
  - apply (acc_vector_len os o t fs 0 Hs Ho (Z.le_refl 0) r (Some (zlen ds, concat (map dot_bytes ds))) Hf Hr).
  - intros k d obj Hk. destruct Hr as [Hne Hr]. apply Z.eqb_neq in Hne. rewrite Hne in Hf.
    edestruct (acc_present os o t fs 0 Hs Ho (Z.le_refl 0)
      (fun b p => Some (Dot.__init (__vector b p + Z.of_nat k * 16) b (default Dot.new obj))) None _
      (fun res => exists td, res = Some td /\ reads_Dot td d) Hf) as (res & Hres & td & -> & Htd); [|eauto].
    intros b addr p Hwf Hall (x & Hx & Hat). rewrite Hr in Hx. injection Hx as <-. destruct Hat as [_ Hreg].
    eexists. split; [done|]. destruct (dots_split ds k d Hk) as (pre & post & Heq & Hlen).
    rewrite Heq in Hreg. apply region_sub in Hreg. rewrite Hlen in Hreg.
    apply dot_region_reads.
    + by replace (Z.of_nat k * 16) with (16 * Z.of_nat k) by lia.
    + rewrite Forall_lookup in Hc. eauto.
Qed.

(** ** [ServerMessage] *)
Definition build_server_inner (m : server_message) : stm Builder exn Z :=
  match m with
  | SNone => mret 0
  | SChat user text =>
      pU ← opt_string user; pT ← opt_string text;
      ServerChatMessage.createServerChatMessage pU pT
  | SGameState ds => pD ← build_dots ds; ServerGameStateMessage.createServerGameStateMessage pD
  end.

Definition reads_server_inner (m : server_message) : option (fbtable ByteBuffer -> Prop) :=
  match m with
  | SNone => None
  | SChat user text => Some (fun t => forall enc,
      ServerChatMessage.user t enc = Ret (text_as enc <$> (text_bytes <$> user)) /\
      ServerChatMessage.text t enc = Ret (text_as enc <$> (text_bytes <$> text)))
  | SGameState ds => Some (fun t => reads_ServerGameStateMessage t ds)
  end.

Lemma dots_table_spec b l pD ds Q :
  Rep b l -> ready l 40 -> off_is (objs l) pD (Some (ODots ds)) -> Forall (fun d => is_sint8 (dot_color d)) ds ->
  (forall o b' l', Rep b' l' -> grows l l' 40 -> shown l' o (fun t => reads_ServerGameStateMessage t ds) -> Q o b') ->
  wp (create_table 1 [AddOffset 0 pD 0]) b Q.
Proof.
  intros HR Hrd OD Hok HQ.
  eapply (table_shown b l 1 [AddOffset 0 pD 0] 40); [done | done | done | adds_ok | done | | exact HQ].
  intros os o t Hsub Hs Ho.
  eapply (reads_ServerGameStateMessage_table os o t _ pD ds Hs Ho); [table_field | eauto with fbgrow | done].
Qed.

Lemma build_server_inner_spec b l m c Q :
  Rep b l -> ready l c -> server_message_ok m -> server_size m + 96 <= c ->
  (forall o b' l', Rep b' l' -> grows l l' c -> member_off l' o (reads_server_inner m) -> Q o b') ->
  wp (build_server_inner m) b Q.
Proof.
  intros HR Hrd Hok Hc HQ. destruct m as [|user text|ds]; cbn [build_server_inner server_size server_message_ok] in *.
  - apply wp_ret. eapply HQ; [done | | done]. destruct Hrd as (? & ? & ?). apply grows_refl; auto. lia.
  - destruct Hok as [Hbu Hbt]. pose proof (zlen_nonneg (opt_bytes user)). pose proof (zlen_nonneg (opt_bytes text)).
    apply wp_bind. eapply (opt_string_spec b l user); [done | | done | apply Z.le_refl |].
    { fold (opt_bytes user). fb_arith. }
    intros pU b1 l1 HR1 G1 OU. fold (opt_bytes user) in G1.
    apply wp_bind. eapply (opt_string_spec b1 l1 text); [done | | done | apply Z.le_refl |].
    { fold (opt_bytes text). fb_arith. }
    intros pT b2 l2 HR2 G2 OT. fold (opt_bytes text) in G2.
    eapply (table_shown b2 l2 2 [AddOffset 0 pU 0; AddOffset 1 pT 0] 40);
      [done | fb_arith | done | adds_ok | done | |
       intros o b3 l3 HR3 G3 SO; eapply HQ; [exact HR3 | fb_grows | exact SO]].
    intros os o t Hsub Hs Ho enc. split.
    + eapply (acc_text os o t _ 0 Hs Ho); [lia | table_field | eauto with fbgrow].
    + eapply (acc_text os o t _ 1 Hs Ho); [lia | table_field | eauto with fbgrow].
  - pose proof (zlen_nonneg ds). apply wp_bind.
    eapply build_dots_spec; [done | | apply Z.le_refl |]; [fb_arith|]. intros pD b1 l1 HR1 Hal.
    pose proof (allocated_grows _ _ _ _ _ Hal) as G1. pose proof (allocated_off_is _ _ _ _ _ Hal) as OD.
    eapply (dots_table_spec b1 l1 pD ds); [done | fb_arith | exact OD | done |].
    intros o b3 l3 HR3 G3 SO; eapply HQ; [exact HR3 | fb_grows | exact SO].
Qed.

Definition server_with_self (obj : MessageUnion.object) (self : fbtable ByteBuffer) : MessageUnion.object :=
  match obj with
  | MessageUnion.AServerChatMessage _ => MessageUnion.AServerChatMessage self
  | MessageUnion.AServerGameStateMessage _ => MessageUnion.AServerGameStateMessage self
  end.

Definition server_member (t : fbtable ByteBuffer) (obj : MessageUnion.object) :
    outcome exn (option MessageUnion.object) :=
  r ← ServerMessage.message t (MessageUnion.self_of obj);
  Ret (option_map (server_with_self obj) r).

Definition server_union (t : fbtable ByteBuffer) : outcome exn (option MessageUnion.object) :=
  type ← ServerMessage.messageType t;
  MessageUnion.unionToMessage type (server_member t).

Definition is_server_message (m : server_message) (r : option MessageUnion.object) : Prop :=
  match m, r with
  | SNone, None => True
  | SChat _ _, Some (MessageUnion.AServerChatMessage self)
  | SGameState _, Some (MessageUnion.AServerGameStateMessage self) =>
      from_option (fun P => P self) False (reads_server_inner m)
  | _, _ => False
  end.

(** The member as [message] fills the object it is given. *)
Definition member_reads (t : fbtable ByteBuffer) (m : server_message) : Prop :=
  forall t0, exists res, ServerMessage.message t t0 = Ret res /\
    match reads_server_inner m with None => res = None | Some P => exists t', res = Some t' /\ P t' end.

Definition reads_ServerMessage (t : fbtable ByteBuffer) (m : server_message) : Prop :=
  ServerMessage.messageType t = Ret (Message.to_number (server_type m)) /\
  (exists r, server_union t = Ret r /\ is_server_message m r) /\
  member_reads t m.

Lemma server_union_reads t m :
  ServerMessage.messageType t = Ret (Message.to_number (server_type m)) -> member_reads t m ->
  exists r, server_union t = Ret r /\ is_server_message m r.
Proof.
  intros Htype Hmsg. unfold server_union. rewrite Htype. destruct m; cbn -[ServerMessage.message].
  1: by exists None.
  all: unfold server_member; cbn -[ServerMessage.message];
    destruct (Hmsg (mkTable None 0)) as (res & Hres & Hr); simpl in Hr; destruct Hr as (t' & -> & HP);
    unfold ServerChatMessage.new, ServerGameStateMessage.new;
    rewrite Hres; simpl; eexists; (split; [done|]); exact HP.
Qed.

Definition buildServerMessage (m : server_message) : stm Builder exn Z :=
  pM ← build_server_inner m;
  ServerMessage.createServerMessage (server_type m) pM.

Lemma server_size_nonneg m : 0 <= server_size m.
Proof.
  destruct m as [|u t|ds]; simpl; [done | |].
  - pose proof (zlen_nonneg (opt_bytes u)). pose proof (zlen_nonneg (opt_bytes t)). lia.
  - pose proof (zlen_nonneg ds). lia.
Qed.

Lemma buildServerMessage_spec b l m c Q :
  Rep b l -> ready l c -> server_message_ok m -> server_size m + 160 <= c ->
  (forall o b' l', Rep b' l' -> grows l l' c -> shown l' o (fun t => reads_ServerMessage t m) -> Q o b') ->
  wp (buildServerMessage m) b Q.
Proof.
  intros HR Hrd Hok Hc HQ. pose proof (server_size_nonneg m).
  apply wp_bind. eapply build_server_inner_spec; [done | | done | apply Z.le_refl |]; [fb_arith|].
  intros pM b1 l1 HR1 G1 OM.
  eapply (table_shown b1 l1 2
    [AddInt8 0 (Message.to_number (server_type m)) (Message.to_number Message.NONE); AddOffset 1 pM 0] 64);
    [done | fb_arith | by destruct m | | done | | intros; eapply HQ; [done | fb_grows | eassumption]].
  { apply Forall_cons; [done|]. apply Forall_cons; [by eapply member_off_add_ok | apply Forall_nil]. }
  intros os o t Hsub Hs Ho.
  assert (ServerMessage.messageType t = Ret (Message.to_number (server_type m))) as Htype.
  { eapply (acc_uint8 os o t _ 0 Hs Ho); [lia | table_field | by destruct m]. }
  assert (member_reads t m) as Hm.
  { intros t0. eapply (acc_member os o t _ 1 _ _ _ _ Hs Ho); [lia | table_field | exact OM | done]. }
  split_and!; [done | by apply server_union_reads | done].
Qed.

Definition encodeServerMessage (m : server_message) (sp : bool) : stm Builder exn Uint8Array :=
  o ← buildServerMessage m;
  (if sp then ServerMessage.finishSizePrefixedServerMessageBuffer o
   else ServerMessage.finishServerMessageBuffer o) ≫= fun _ =>
  asUint8Array.

Definition rootServerMessage (sp : bool) (b : ByteBuffer) : fbtable ByteBuffer :=
  if sp then ServerMessage.getSizePrefixedRootAsServerMessage b None
  else ServerMessage.getRootAsServerMessage b None.
End codec.
