(* ===== verification/HelloTheorems.v ===== *)
(** * The demo's messages: theorems

    Round trips of [ClientMessage] and [ServerMessage] with every member of
    their unions, and the vector of inline [Dot] structs. *)

From S2P Require Import Prelude JsPlatform FlatBuffers FbTables FbReference HelloMessages HelloCodec.

Section theorems.
#[local] Set Default Proof Using "Type*".
Context {FB : FlatBuffers} {FL : FlatBuffersLaws FB}.

(** A [ClientMessage] with any user message (connect, click, chat, ping or
    none) is decoded with the same type, and the union helper
    [unionToUserMessage] finds a member of that class whose strings are the
    ones written and whose coordinates are the written numbers rounded to 32
    bits. *)
Theorem client_message_roundtrip n m sp :
  0 < n -> Forall is_byte (user_text m) -> zlen (user_text m) + 200 <= fb_limit ->
  wp (encodeClientMessage m sp) (new_Builder n) (fun u _ =>
    u8_wf u /\ decodes u (rootClientMessage sp) (fun t => reads_ClientMessage t m)).
Proof. intros Hn Hm Hsz. roundtrip buildClientMessage_spec sp. Qed.

(** A [ServerMessage] with a chat message or a game state is decoded with the
    same type and content: both strings of a chat, and for a game state the
    number of dots and every dot in its place, positions and radius rounded to
    32 bits and the color kept, although the dots are written last to first. *)
Theorem server_message_roundtrip n m sp :
  0 < n -> server_message_ok m -> server_size m + 300 <= fb_limit ->
  wp (encodeServerMessage m sp) (new_Builder n) (fun u _ =>
    u8_wf u /\ decodes u (rootServerMessage sp) (fun t => reads_ServerMessage t m)).
Proof.
  intros Hn Hm Hsz. pose proof (server_size_nonneg m). roundtrip buildServerMessage_spec sp.
Qed.
End theorems.

Lemma client_message_roundtrip_witness :
  wp (encodeClientMessage (FB := FbRef) (UChat (Some (Str (js "hello")))) false) (new_Builder 64) (fun u _ =>
    u8_wf u /\ decodes u (rootClientMessage false) (fun t =>
      reads_ClientMessage t (UChat (Some (Str (js "hello")))))).
Proof.
  apply (client_message_roundtrip (FL := FbRefLaws) 64 (UChat (Some (Str (js "hello")))) false); concrete.
Defined.

Definition sample_dots : list dot :=
  [mkDot (num_of_Z 3) (num_of_Z (-4)) (num_of_Z 5) 4; mkDot (num_of_Z 10) num_zero (num_of_Z 1) (-1)].

Lemma server_message_roundtrip_witness :
  wp (encodeServerMessage (FB := FbRef) (SGameState sample_dots) true) (new_Builder 64) (fun u _ =>
    u8_wf u /\ decodes u (rootServerMessage true) (fun t => reads_ServerMessage t (SGameState sample_dots))).
Proof.
  apply (server_message_roundtrip (FL := FbRefLaws) 64 (SGameState sample_dots) true);
    [concrete | repeat constructor; done | concrete].
Defined.
