(* ===== verification/Log.v ===== *)
(** * Logging ([examples/hello-spanreed/client/src/log.ts])

    A log callback runs for its effect on some world; the console is an
    interface of that world. *)

From S2P Require Import Prelude JsPlatform.
From stdpp Require Import pretty.
#[local] Open Scope Z_scope.

Inductive LogLevel : Type := Debug | Info | Warning | Error | UserChat.
#[global] Instance LogLevel_eq_dec : EqDecision LogLevel.
Proof. solve_decision. Defined.

(** A callback gets the message and the level, which the caller may leave out. *)
Definition LogCb (W : Type) : Type := jsstring -> option LogLevel -> W -> W.

Definition WrapLogFn {W} (name : jsstring) (logCb : LogCb W) : LogCb W := fun msg level =>
  logCb (js "[" ++ name ++ js "] " ++ msg) level.

Inductive console_call : Type :=
| console_log (msg : jsstring)
| console_warn (msg : jsstring)
| console_error (msg : jsstring).

Class Console (W : Type) := console : console_call -> W -> W.

(** A chat line is not printed: the switch has no case for it. *)
Definition DefaultLogCb `{Console W} : LogCb W := fun msg level =>
  match default Info level with
  | Debug | Info => console (console_log msg)
  | Warning => console (console_warn msg)
  | Error => console (console_error msg)
  | UserChat => fun w => w
  end.

(** A number in a template string (the sources only print non-negative integers). *)
Definition show_int (z : Z) : jsstring := js (pretty z).

Example show_int_1234 : show_int 1234 = js "1234".
Proof. reflexivity. Qed.
