(* ===== verification/Connection.v ===== *)
(** * Opening a connection through the proxy
      ([examples/hello-spanreed/client/src/Connection.ts])

    [connectWebsocket] and [connectWebtransport] are asynchronous functions:
    each is a machine whose states are the [await]s of the source and whose
    inputs are the events of the transport object. A step runs the code from
    one [await] to the next, with the calls it makes on the transport and on
    the log callback as outputs. *)

From S2P Require Import Prelude JsPlatform FlatBuffers FbTables HelloMessages ClientGen Log.

(** Values a promise is rejected with. *)
Inductive jsval : Type :=
| VError (message : jsstring)        (** an [Error] object *)
| VString (s : jsstring)
| VExn (e : exn)                     (** thrown by the library or the platform *)
| VOther (id : Z).                   (** an event object, or anything else *)

(** The two variants of the exported type; [id] stands for the transport object. *)
Inductive Connection : Type :=
| WebsocketConnection (id : Z) (userName : jsstring)
| WebtransportConnection (id : Z) (userName : jsstring).

(** Calls made while connecting. *)
Inductive action : Type :=
| ALog (msg : jsstring) (level : option LogLevel)
| ASend (payload : list Z)            (** [ws.send] or [writer.write] *)
| AClose.                            (** [ws.close()] *)

Definition log_action : LogCb (list action) := fun msg level w => w ++ [ALog msg level].

Section payload.
Context `{FB : FlatBuffers}.

(** ** The handshake payload *)

(** The demo's own message: the user name. *)
Definition connect_app_data (userName : jsstring) : stm Builder exn Uint8Array :=
  pUserNameString ← createString (Str userName);
  pUserConnectMessage ← UserConnectMessage.createUserConnectMessage pUserNameString;
  pClientMessage ← ClientMessage.createClientMessage UserMessage.UserConnectMessage pUserConnectMessage;
  ClientMessage.finishClientMessageBuffer pClientMessage ≫= fun _ =>
  asUint8Array.

(** The proxy's message around it. *)
Definition connect_message (backendAddress : jsstring) (appData : Uint8Array) : stm Builder exn Uint8Array :=
  pBackendAddress ← createString (Str backendAddress);
  pAppData ← createByteVector (u8_bytes appData);
  pConnectClientMessage ← SpanreedMessage.ConnectClientMessage.createConnectClientMessage pBackendAddress pAppData;
  SpanreedMessage.ConnectClientMessage.finishConnectClientMessageBuffer pConnectClientMessage ≫= fun _ =>
  asUint8Array.

Definition connect_payload (backendAddress userName : jsstring) : outcome exn Uint8Array :=
  appData ← fst (connect_app_data userName (new_Builder 64));
  fst (connect_message backendAddress appData (new_Builder 64)).

(** ** Verdicts *)

(** [verdict.errorReason() ?? '<unknown reason>'] in a template string: without
    an encoding argument the accessor gives a string. *)
Definition reason_text (r : option text) : jsstring :=
  match r with
  | Some (Str s) => s
  | Some (Utf8 bs) => text_decode bs
  | None => js "<unknown reason>"
  end.

(** Reads a verdict: [None] when accepted, else the text for the rejection. *)
Definition read_verdict (data : Uint8Array) : outcome exn (option jsstring) :=
  let verdict := SpanreedMessage.ConnectClientVerdict.getRootAsConnectClientVerdict (new_ByteBuffer data) None in
  accepted ← SpanreedMessage.ConnectClientVerdict.accepted verdict;
  if accepted : bool then Ret None
  else
    r ← SpanreedMessage.ConnectClientVerdict.errorReason verdict None;
    Ret (Some (reason_text r)).

End payload.

(** ** [connectWebsocket] *)
Module Ws.
(** Events of the [WebSocket] object. *)
Inductive event : Type :=
| Open
| ErrorEvent (e : jsval) (targetClosed : bool)
| Message (data : list Z)
| Close (e : jsval).

Inductive phase : Type :=
| AwaitOpen
| AwaitVerdict
| Resolved (c : Connection)
| Rejected (e : jsval).

(** The handlers of the socket: which promise callback each property holds. *)
Record state : Type := mkState {
  ph : phase;
  onopen : bool;
  onerror : bool;
  onmessage : bool;
  onclose : bool
}.

Section machine.
Context `{FB : FlatBuffers}.
Context (spanreedAddress backendAddress userName : jsstring) (id : Z).
(** Whether the [WebSocket] constructor accepts an address; it throws otherwise. *)
Context (ws_url_ok : jsstring -> bool).

Definition log : LogCb (list action) := WrapLogFn (js "connectWebsocket") log_action.

(** From the call to the first [await]. *)
Definition start : state * list action :=
  if ws_url_ok spanreedAddress then
    (mkState AwaitOpen true true false false,
     log (js "Attempting to open WebSocket connection on " ++ spanreedAddress ++ js " for userName=" ++
          userName ++ js "...") (Some Debug) [])
  else (mkState (Rejected (VExn LibError)) false false false false, []).

(** After the socket has opened: from the first [await] to the second. *)
Definition after_open (s : state) : state * list action :=
  match connect_payload backendAddress userName with
  | Throw e => (mkState (Rejected (VExn e)) (onopen s) false false (onclose s), [])
  | Ret connectClientPayload =>
      (mkState AwaitVerdict (onopen s) false true true,
       log (js "Connection opened! Attempting to authorize (payload size=" ++
            show_int (u8_length connectClientPayload) ++ js ")...") (Some Debug) [] ++
       [ASend (u8_bytes connectClientPayload)])
  end.

(** After an accepted verdict: to the [return]. *)
Definition after_verdict (s : state) : state * list action :=
  (mkState (Resolved (WebsocketConnection id userName)) (onopen s) (onerror s) false false,
   log (js "Connection opened successfully! Messages may now be forwarded to the destination server through this WebSocket connection.")
     (Some Debug) []).

(** The [catch] of the second promise. *)
Definition reject_verdict (s : state) (e : jsval) : state * list action :=
  (mkState (Rejected e) (onopen s) (onerror s) (onmessage s) (onclose s), [AClose]).

(** An event runs the handler that is set, and then the code that waited for the
    promise the handler settles; settling a promise again has no effect. *)
Definition step (s : state) (ev : event) : state * list action :=
  match ev with
  | Open =>
      if onopen s then match ph s with AwaitOpen => after_open s | _ => (s, []) end else (s, [])
  | ErrorEvent e targetClosed =>
      if onerror s then
        match ph s with
        | AwaitOpen =>
            let e' := if targetClosed then VError (js "Failed to connect to proxy") else e in
            (mkState (Rejected e') (onopen s) (onerror s) (onmessage s) (onclose s), [])
        | _ => (s, [])
        end
      else (s, [])
  | Message data =>
      if onmessage s then
        match read_verdict (u8_of_buffer data), ph s with
        | Ret None, AwaitVerdict => after_verdict s
        | Ret (Some reason), AwaitVerdict =>
            reject_verdict s (VString (js "destination rejected connection: " ++ reason))
        | _, _ => (s, [])
        end
      else (s, [])
  | Close e =>
      if onclose s then match ph s with AwaitVerdict => reject_verdict s e | _ => (s, []) end
      else (s, [])
  end.

Fixpoint run (s : state) (evs : list event) : state * list action :=
  match evs with
  | [] => (s, [])
  | ev :: rest =>
      let '(s', out) := step s ev in
      let '(s'', out') := run s' rest in
      (s'', out ++ out')
  end.

(** The whole call, for the events the socket delivers. *)
Definition connectWebsocket (evs : list event) : state * list action :=
  let '(s0, out0) := start in
  let '(s, out) := run s0 evs in
  (s, out0 ++ out).
End machine.
End Ws.

(** ** [connectWebtransport] *)
Module Wt.
(** What the promises of the [WebTransport] object settle with. *)
Inductive event : Type :=
| Ready                              (** [ready] is fulfilled *)
| ReadyFailed (e : jsval)            (** [ready] is rejected *)
| Closed                             (** [closed] is fulfilled *)
| ClosedWith (e : jsval)             (** [closed] is rejected *)
| ReadDone                           (** [read] says the stream has ended *)
| ReadBytes (value : Uint8Array)     (** [read] gives a datagram *)
| ReadOther                          (** [read] gives something else *)
| ReadFailed (e : jsval).            (** [read] is rejected *)

Inductive phase : Type :=
| AwaitReady
| AwaitRead
| Resolved (c : Connection)
| Rejected (e : jsval).

Section machine.
Context `{FB : FlatBuffers}.
Context (spanreedAddress backendAddress userName : jsstring) (id : Z).
(** Whether the [WebTransport] constructor accepts an address; it throws otherwise. *)
Context (wt_url_ok : jsstring -> bool).
(** How an error value prints in a template string. *)
Context (show_jsval : jsval -> jsstring).

Definition log : LogCb (list action) := WrapLogFn (js "connectWebtransport") log_action.

(** After [Promise.race]: to the [await] of the first datagram. *)
Definition after_ready : phase * list action :=
  match connect_payload backendAddress userName with
  | Throw e => (Rejected (VExn e), [])
  | Ret connectClientPayload =>
      (AwaitRead,
       log (js "Connection opened! Attempting to authorize (payload size=" ++
            show_int (u8_length connectClientPayload) ++ js ")") (Some Debug) [] ++
       [ASend (u8_bytes connectClientPayload)])
  end.

Definition success : phase * list action :=
  (Resolved (WebtransportConnection id userName),
   log (js "Connection opened successfully! Message may now be forwarded to the destination server through this WebTransport connection")
     (Some Debug) []).

(** The first datagram; only a [Uint8Array] is examined. *)
Definition after_read (ev : event) : phase * list action :=
  match ev with
  | ReadDone => (Rejected (VError (js "Failed to read from reader, closed")), [])
  | ReadFailed e => (Rejected e, [])
  | ReadBytes value =>
      match read_verdict value with
      | Throw e => (Rejected (VExn e), [])
      | Ret None => success
      | Ret (Some reason) => (Rejected (VError (js "Destination rejected connection: " ++ reason)), [])
      end
  | _ => success
  end.

Definition step (p : phase) (ev : event) : phase * list action :=
  match ev with
  | Ready | Closed =>
      match p with AwaitReady => after_ready | _ => (p, []) end
  | ReadyFailed e =>
      match p with AwaitReady => (Rejected e, []) | _ => (p, []) end
  | ClosedWith e =>
      (* the [catch] on [closed] runs whether or not the race is over *)
      let out := log_action (js "WebTransport unexpectedly closed! " ++ show_jsval e) (Some Error) [] in
      match p with AwaitReady => (Rejected e, out) | _ => (p, out) end
  | ReadDone | ReadBytes _ | ReadOther | ReadFailed _ =>
      match p with AwaitRead => after_read ev | _ => (p, []) end
  end.

Fixpoint run (p : phase) (evs : list event) : phase * list action :=
  match evs with
  | [] => (p, [])
  | ev :: rest =>
      let '(p', out) := step p ev in
      let '(p'', out') := run p' rest in
      (p'', out ++ out')
  end.

Definition connectWebtransport (evs : list event) : phase * list action :=
  if wt_url_ok spanreedAddress then run AwaitReady evs else (Rejected (VExn LibError), []).
End machine.
End Wt.
