(* ===== verification/ConnectionTheorems.v ===== *)
(** * Opening a connection: theorems

    What the handshake puts on the wire, which event sequences let a
    connection open, and what a socket is left with. *)

From S2P Require Import Prelude JsPlatform FlatBuffers FbTables FbReference SpanreedMessages HelloMessages.
From S2P Require Import SpanreedCodec HelloCodec Log Connection.

Section payload.
#[local] Set Default Proof Using "Type*".
Context {FB : FlatBuffers} {FL : FlatBuffersLaws FB}.

(** A string the handshake can carry. *)
Definition sendable (s : jsstring) : Prop := text_ok s = true /\ zlen (text_encode s) <= 2 ^ 20.

Lemma sendable_bytes s : sendable s -> Forall is_byte (text_encode s).
Proof. intros [Hok _]. by apply text_encode_byte, text_ok_wf. Qed.

Lemma connect_app_data_spec userName :
  sendable userName ->
  wp (connect_app_data userName) (new_Builder 64) (fun u _ =>
    u8_wf u /\ u8_length u <= 2 ^ 20 + 200 /\
    decodes u (fun b => ClientMessage.getRootAsClientMessage b None)
      (fun t => reads_ClientMessage t (UConnect (Some (Str userName))))).
Proof.
  intros Hs. pose proof (Rep_new 64 eq_refl) as HR. pose proof (sendable_bytes _ Hs) as Hb.
  destruct Hs as [_ Hlen]. pose proof (zlen_nonneg (text_encode userName)).
  assert (2 ^ 20 + 300 <= fb_limit) as Hlim by (vm_compute; discriminate).
  apply wp_bind. eapply (opt_string_spec _ lb_new (Some (Str userName)) (2 ^ 20 + 16));
    [done | fb_arith | exact Hb | simpl; lia |].
  intros pS b1 l1 HR1 G1 OS.
  apply wp_bind. eapply (string_user_message_spec b1 l1 (Str userName) (fun s => UConnect (Some s)));
    [by left | done | fb_arith | exact OS |].
  intros pU b2 l2 HR2 G2 OU.
  apply wp_bind. eapply (createClientMessage_spec b2 l2 (UConnect (Some (Str userName)))); [done | fb_arith | exact OU |].
  intros o b3 l3 HR3 G3 SO. eapply wp_mono; [eapply (finish_shown b3 l3 o false _ HR3); [fb_arith | exact SO]|].
  intros u b4 (Hwf & Hlen' & Hdec). split_and!; [done | | exact Hdec]. fb_arith.
Qed.

(** What the proxy and the backend find in the payload: the backend address for
    the proxy, and app data that is a user-connect message for the backend. *)
Definition handshake (backendAddress userName : jsstring) (payload : Uint8Array) : Prop :=
  decodes payload (fun b => ConnectClientMessage.getRootAsConnectClientMessage b None) (fun t =>
    ConnectClientMessage.connectionString t None = Ret (Some (Str backendAddress)) /\
    exists appData,
      ConnectClientMessage.appDataArray t = Ret (Some appData) /\
      decodes appData (fun b => ClientMessage.getRootAsClientMessage b None) (fun m =>
        ClientMessage.userMessageType m = Ret (UserMessage.to_number UserMessage.UserConnectMessage) /\
        exists c, client_message m = Ret (Some (UserMessageUnion.AUserConnectMessage c)) /\
          UserConnectMessage.name c None = Ret (Some (Str userName)))).

Lemma connect_message_spec backendAddress appData Q :
  sendable backendAddress -> u8_wf appData -> u8_length appData <= 2 ^ 20 + 200 ->
  (forall u b, u8_wf u ->
     decodes u (fun b => ConnectClientMessage.getRootAsConnectClientMessage b None) (fun t =>
       reads_ConnectClientMessage t (Some (text_encode backendAddress)) (Some (u8_bytes appData))) ->
     Q u b) ->
  wp (connect_message backendAddress appData) (new_Builder 64) Q.
Proof.
  intros Hs (Ho & Hl & Hle & Hbytes) Hlen HQ. pose proof (Rep_new 64 eq_refl) as HR.
  pose proof (sendable_bytes _ Hs) as Hb. destruct Hs as [_ Hslen].
  assert (zlen (u8_bytes appData) = u8_length appData) as Hz by (apply zlen_zslice; lia).
  assert (2 ^ 20 + 2 ^ 20 + 1000 <= fb_limit) as Hlim by (vm_compute; discriminate).
  apply wp_bind. eapply (opt_string_spec _ lb_new (Some (Str backendAddress)) (2 ^ 20 + 16));
    [done | fb_arith | exact Hb | simpl; lia |].
  intros pS b1 l1 HR1 G1 OS.
  apply wp_bind. eapply (createByteVector_spec b1 l1 (u8_bytes appData) (2 ^ 20 + 216));
    [done | fb_arith | by apply Forall_take, Forall_drop | lia |].
  intros pD b2 l2 HR2 Hal.
  pose proof (allocated_grows _ _ _ _ _ Hal) as G2. pose proof (allocated_off_is _ _ _ _ _ Hal) as OD.
  apply wp_bind.
  eapply (createConnectClientMessage_spec b2 l2 pS pD (Some (text_encode backendAddress)) (Some (u8_bytes appData)));
    [done | fb_arith | eapply off_is_grows; [exact G2 | exact OS] | exact OD |].
  intros o b3 l3 HR3 G3 SO. eapply wp_mono; [eapply (finish_roundtrip b3 l3 o false _ HR3); [fb_arith | exact SO]|].
  intros u b4 [Hwf Hdec]. eauto.
Qed.

(** The payload as the accessors read it, down to the bytes. *)
Lemma connect_payload_reads backendAddress userName :
  sendable backendAddress -> sendable userName ->
  exists u app, connect_payload backendAddress userName = Ret u /\ u8_wf u /\ u8_wf app /\
    zlen (u8_bytes app) <= 2 ^ 20 + 200 /\
    decodes u (fun b => ConnectClientMessage.getRootAsConnectClientMessage b None) (fun t =>
      reads_ConnectClientMessage t (Some (text_encode backendAddress)) (Some (u8_bytes app))) /\
    decodes app (fun b => ClientMessage.getRootAsClientMessage b None)
      (fun t => reads_ClientMessage t (UConnect (Some (Str userName)))).
Proof.
  intros Hb Hu.
  pose proof (connect_app_data_spec userName Hu) as (app & b1 & Hrun & Hwf & Hlen & Happ)%wp_run.
  assert (wp (connect_message backendAddress app) (new_Builder 64) (fun u _ => u8_wf u /\
    decodes u (fun b => ConnectClientMessage.getRootAsConnectClientMessage b None) (fun t =>
      reads_ConnectClientMessage t (Some (text_encode backendAddress)) (Some (u8_bytes app)))))
    as (u & b2 & Hrun2 & Hwf2 & Hdec)%wp_run by (apply connect_message_spec; auto).
  exists u, app. split_and!; try done.
  - unfold connect_payload. rewrite Hrun. simpl. by rewrite Hrun2.
  - destruct Hwf as (? & ? & ? & _). unfold u8_bytes. rewrite zlen_zslice by lia. done.
Qed.

Lemma reads_connect_name m userName :
  sendable userName -> reads_ClientMessage m (UConnect (Some (Str userName))) ->
  ClientMessage.userMessageType m = Ret (UserMessage.to_number UserMessage.UserConnectMessage) /\
  exists c, client_message m = Ret (Some (UserMessageUnion.AUserConnectMessage c)) /\
    UserConnectMessage.name c None = Ret (Some (Str userName)).
Proof.
  intros Hu [Htype (r & Hm & Hmm)]. split; [exact Htype|]. destruct r as [[c|c|c|c]|]; try done.
  exists c. split; [done|]. simpl in Hmm. rewrite Hmm. simpl. by rewrite text_roundtrip by apply Hu.
Qed.

Lemma connect_payload_spec backendAddress userName :
  sendable backendAddress -> sendable userName ->
  exists u, connect_payload backendAddress userName = Ret u /\ u8_wf u /\ handshake backendAddress userName u.
Proof.
  intros Hb Hu. destruct (connect_payload_reads _ _ Hb Hu) as (u & app & Hrun & Hwf & _ & _ & Hdec & Happ).
  exists u. split_and!; [done | done |].
  intros u' Hwf' Hbytes. destruct (Hdec u' Hwf' Hbytes) as [HS (_ & _ & r & Hr & Hrb & Hrwf)]. split.
  - rewrite HS. simpl. by rewrite text_roundtrip by apply Hb.
  - destruct r as [app'|]; [|done]. injection Hrb as Hrb. exists app'. split; [done|].
    intros app2 Hwf2 Hb2. apply reads_connect_name; [done|]. apply (Happ app2 Hwf2 (eq_trans Hb2 Hrb)).
Qed.
End payload.

(** ** What a sequence of events means *)

(** The state of the call, without its bookkeeping. *)
Inductive progress : Type :=
| NotOpen                            (** nothing has been sent *)
| Unanswered                         (** the handshake has been sent *)
| Accepted
| Refused (sent : bool) (e : jsval). (** whether the handshake had been sent *)

(** The calls on the transport, in order. *)
Definition transport_calls (out : list action) : list action :=
  List.filter (fun a => match a with ALog _ _ => false | _ => true end) out.

Lemma in_transport_calls a out :
  match a with ALog _ _ => False | _ => True end -> a ∈ out <-> a ∈ transport_calls out.
Proof.
  intros Ha. rewrite !list_elem_of_In. unfold transport_calls. rewrite List.filter_In.
  destruct a; tauto.
Qed.

Lemma transport_calls_app a b : transport_calls (a ++ b) = transport_calls a ++ transport_calls b.
Proof. apply List.filter_app. Qed.

Section websocket.
#[local] Set Default Proof Using "Type*".
Context {FB : FlatBuffers}.

(** The first readable verdict or the end of the socket decides. *)
Fixpoint ws_verdict (evs : list Ws.event) : progress :=
  match evs with
  | [] => Unanswered
  | Ws.Message data :: rest =>
      match read_verdict (u8_of_buffer data) with
      | Ret None => Accepted
      | Ret (Some reason) => Refused true (VString (js "destination rejected connection: " ++ reason))
      | Throw _ => ws_verdict rest
      end
  | Ws.Close e :: _ => Refused true e
  | (Ws.Open | Ws.ErrorEvent _ _) :: rest => ws_verdict rest
  end.

(** The socket opens or fails. *)
Fixpoint ws_progress (evs : list Ws.event) : progress :=
  match evs with
  | [] => NotOpen
  | Ws.Open :: rest => ws_verdict rest
  | Ws.ErrorEvent e closed :: _ =>
      Refused false (if closed then VError (js "Failed to connect to proxy") else e)
  | (Ws.Message _ | Ws.Close _) :: rest => ws_progress rest
  end.

Context (spanreedAddress backendAddress userName : jsstring) (id : Z) (ws_url_ok : jsstring -> bool).
#[local] Abbreviation step := (Ws.step backendAddress userName id).
#[local] Abbreviation run := (Ws.run backendAddress userName id).

Definition sent_calls (p : progress) (payload : list Z) : list action :=
  match p with
  | NotOpen | Refused false _ => []
  | Unanswered | Accepted => [ASend payload]
  | Refused true _ => [ASend payload; AClose]
  end.

Definition phase_of (p : progress) : Ws.phase :=
  match p with
  | NotOpen => Ws.AwaitOpen
  | Unanswered => Ws.AwaitVerdict
  | Accepted => Ws.Resolved (WebsocketConnection id userName)
  | Refused _ e => Ws.Rejected e
  end.

(** Handlers the socket is left with. *)
Definition handlers_of (p : progress) : bool * bool * bool * bool :=
  match p with
  | NotOpen | Refused false _ => (true, true, false, false)
  | Unanswered | Refused true _ => (true, false, true, true)
  | Accepted => (true, false, false, false)
  end.

Definition ws_state (p : progress) : Ws.state :=
  let '(o, e, m, c) := handlers_of p in Ws.mkState (phase_of p) o e m c.

Lemma run_step s ev evs s' out :
  step s ev = (s', out) -> run s (ev :: evs) = (fst (run s' evs), out ++ snd (run s' evs)).
Proof. intros H. cbn [Ws.run]. rewrite H. by destruct (run s' evs). Qed.

(** Once settled, nothing that happens on the socket matters. *)
Lemma run_settled p evs :
  match p with Accepted | Refused _ _ => True | _ => False end ->
  run (ws_state p) evs = (ws_state p, []).
Proof.
  intros Hp. induction evs as [|ev evs IH]; [done|].
  rewrite (run_step _ _ _ (ws_state p) []); [by rewrite IH|].
  destruct p as [| | |[] e]; try done; destruct ev as [| |data|]; cbn -[read_verdict]; try done;
    by destruct (read_verdict (u8_of_buffer data)) as [[]|].
Qed.

(** After opening, the handshake has been sent. *)
Lemma ws_verdict_sent evs :
  match ws_verdict evs with NotOpen | Refused false _ => False | _ => True end.
Proof.
  induction evs as [|[|e c|data|e] evs IH]; cbn -[read_verdict]; try done.
  by destruct (read_verdict (u8_of_buffer data)) as [[]|].
Qed.

(** One event while the verdict is awaited. *)
Lemma step_unanswered ev :
  exists out, step (ws_state Unanswered) ev = (ws_state (ws_verdict [ev]), out) /\
    transport_calls out = match ws_verdict [ev] with Refused true _ => [AClose] | _ => [] end.
Proof.
  destruct ev as [|e c|data|e]; cbn -[read_verdict]; try by eexists.
  destruct (read_verdict (u8_of_buffer data)) as [[reason|]|]; cbn -[read_verdict]; by eexists.
Qed.

Lemma ws_verdict_cons ev evs :
  ws_verdict (ev :: evs) = match ws_verdict [ev] with Unanswered => ws_verdict evs | p => p end.
Proof.
  destruct ev as [|e c|data|e]; cbn -[read_verdict]; try done.
  by destruct (read_verdict (u8_of_buffer data)) as [[reason|]|].
Qed.

Lemma run_unanswered evs :
  exists out, run (ws_state Unanswered) evs = (ws_state (ws_verdict evs), out) /\
    transport_calls out = match ws_verdict evs with Refused true _ => [AClose] | _ => [] end.
Proof.
  induction evs as [|ev evs (out & Hrun & Hout)]; [by exists []|].
  destruct (step_unanswered ev) as (out1 & Hstep & Hout1). rewrite ws_verdict_cons, (run_step _ _ _ _ _ Hstep).
  destruct (ws_verdict [ev]) as [| | |sent e] eqn:E; [by pose proof (ws_verdict_sent [ev]) as HE; rewrite E in HE| | |].
  - rewrite Hrun. eexists. split; [done|]. by rewrite transport_calls_app, Hout1.
  - rewrite run_settled by done. eexists. split; [done|]. by rewrite transport_calls_app, Hout1.
  - rewrite run_settled by done. eexists. split; [done|]. rewrite transport_calls_app, Hout1. apply app_nil_r.
Qed.

Lemma run_not_open payload evs :
  connect_payload backendAddress userName = Ret payload ->
  exists out, run (ws_state NotOpen) evs = (ws_state (ws_progress evs), out) /\
    transport_calls out = sent_calls (ws_progress evs) (u8_bytes payload).
Proof.
  intros Hpay. induction evs as [|ev evs (out & Hrun & Hout)]; [by exists []|].
  destruct ev as [|e c|data|e].
  - destruct (run_unanswered evs) as (out' & Hrun' & Hout').
    erewrite run_step; [|cbn -[connect_payload]; unfold Ws.after_open; rewrite Hpay; reflexivity].
    change (Ws.mkState Ws.AwaitVerdict _ false true true) with (ws_state Unanswered). rewrite Hrun'. cbn [fst snd].
    eexists. split; [done|]. rewrite transport_calls_app, Hout'. cbn [ws_progress].
    pose proof (ws_verdict_sent evs). by destruct (ws_verdict evs) as [| | |[] ?].
  - rewrite (run_step _ _ _ (ws_state (ws_progress [Ws.ErrorEvent e c])) []) by done.
    rewrite run_settled by done. by eexists.
  - rewrite (run_step _ _ _ (ws_state NotOpen) []) by done. rewrite Hrun. by exists out.
  - rewrite (run_step _ _ _ (ws_state NotOpen) []) by done. rewrite Hrun. by exists out.
Qed.
End websocket.

Section webtransport.
#[local] Set Default Proof Using "Type*".
Context {FB : FlatBuffers}.

(** The first result of [read] decides; only bytes are looked at. *)
Fixpoint wt_answer (evs : list Wt.event) : progress :=
  match evs with
  | [] => Unanswered
  | Wt.ReadBytes value :: _ =>
      match read_verdict value with
      | Ret None => Accepted
      | Ret (Some reason) => Refused true (VError (js "Destination rejected connection: " ++ reason))
      | Throw e => Refused true (VExn e)
      end
  | Wt.ReadOther :: _ => Accepted
  | Wt.ReadDone :: _ => Refused true (VError (js "Failed to read from reader, closed"))
  | Wt.ReadFailed e :: _ => Refused true e
  | (Wt.Ready | Wt.ReadyFailed _ | Wt.Closed | Wt.ClosedWith _) :: rest => wt_answer rest
  end.

(** The session is ready, or ends; a clean end counts as ready. *)
Fixpoint wt_progress (evs : list Wt.event) : progress :=
  match evs with
  | [] => NotOpen
  | (Wt.Ready | Wt.Closed) :: rest => wt_answer rest
  | (Wt.ReadyFailed e | Wt.ClosedWith e) :: _ => Refused false e
  | (Wt.ReadDone | Wt.ReadBytes _ | Wt.ReadOther | Wt.ReadFailed _) :: rest => wt_progress rest
  end.

Context (spanreedAddress backendAddress userName : jsstring) (id : Z) (wt_url_ok : jsstring -> bool).
Context (show_jsval : jsval -> jsstring).
#[local] Abbreviation step := (Wt.step backendAddress userName id show_jsval).
#[local] Abbreviation run := (Wt.run backendAddress userName id show_jsval).

Definition wt_phase_of (p : progress) : Wt.phase :=
  match p with
  | NotOpen => Wt.AwaitReady
  | Unanswered => Wt.AwaitRead
  | Accepted => Wt.Resolved (WebtransportConnection id userName)
  | Refused _ e => Wt.Rejected e
  end.

(** The session is never closed by the client. *)
Definition wt_sent_calls (p : progress) (payload : list Z) : list action :=
  match p with NotOpen | Refused false _ => [] | _ => [ASend payload] end.

Lemma wt_run_step p ev evs p' out :
  step p ev = (p', out) -> run p (ev :: evs) = (fst (run p' evs), out ++ snd (run p' evs)).
Proof. intros H. cbn [Wt.run]. rewrite H. by destruct (run p' evs). Qed.

Lemma wt_run_settled p evs :
  match p with Accepted | Refused _ _ => True | _ => False end ->
  exists out, run (wt_phase_of p) evs = (wt_phase_of p, out) /\ transport_calls out = [].
Proof.
  intros Hp. induction evs as [|ev evs (out & Hrun & Hout)]; [by exists []|].
  assert (exists out1, step (wt_phase_of p) ev = (wt_phase_of p, out1) /\ transport_calls out1 = [])
    as (out1 & Hstep & Hout1) by (destruct p as [| | |[] e]; try done; destruct ev; by eexists).
  rewrite (wt_run_step _ _ _ _ _ Hstep), Hrun. eexists. split; [done|].
  by rewrite transport_calls_app, Hout1.
Qed.

Lemma wt_step_unanswered ev :
  exists out, step Wt.AwaitRead ev = (wt_phase_of (wt_answer [ev]), out) /\ transport_calls out = [].
Proof.
  destruct ev as [| | | | |value| |]; cbn -[read_verdict]; try by eexists.
  destruct (read_verdict value) as [[reason|]|]; cbn -[read_verdict]; by eexists.
Qed.

Lemma wt_answer_cons ev evs :
  wt_answer (ev :: evs) = match wt_answer [ev] with Unanswered => wt_answer evs | p => p end.
Proof.
  destruct ev as [| | | | |value| |]; cbn -[read_verdict]; try done.
  by destruct (read_verdict value) as [[reason|]|].
Qed.

Lemma wt_answer_sent evs :
  match wt_answer evs with NotOpen | Refused false _ => False | _ => True end.
Proof.
  induction evs as [|[| | | | |value| |] evs IH]; cbn -[read_verdict]; try done.
  by destruct (read_verdict value) as [[]|].
Qed.

Lemma wt_run_unanswered evs :
  exists out, run Wt.AwaitRead evs = (wt_phase_of (wt_answer evs), out) /\ transport_calls out = [].
Proof.
  induction evs as [|ev evs (out & Hrun & Hout)]; [by exists []|].
  destruct (wt_step_unanswered ev) as (out1 & Hstep & Hout1).
  rewrite wt_answer_cons, (wt_run_step _ _ _ _ _ Hstep).
  destruct (wt_answer [ev]) as [| | |sent e] eqn:E; [by pose proof (wt_answer_sent [ev]) as HE; rewrite E in HE| | |].
  - cbn [wt_phase_of]. rewrite Hrun. eexists. split; [done|]. by rewrite transport_calls_app, Hout1.
  - destruct (wt_run_settled Accepted evs) as (out2 & -> & Hout2); [done|]. eexists. split; [done|].
    by rewrite transport_calls_app, Hout1.
  - destruct (wt_run_settled (Refused sent e) evs) as (out2 & -> & Hout2); [done|]. eexists. split; [done|].
    by rewrite transport_calls_app, Hout1.
Qed.

Lemma wt_run_not_open payload evs :
  connect_payload backendAddress userName = Ret payload ->
  exists out, run Wt.AwaitReady evs = (wt_phase_of (wt_progress evs), out) /\
    transport_calls out = wt_sent_calls (wt_progress evs) (u8_bytes payload).
Proof.
  intros Hpay. induction evs as [|ev evs (out & Hrun & Hout)]; [by exists []|].
  assert (forall out1, step Wt.AwaitReady ev = (Wt.AwaitRead, out1) ->
    transport_calls out1 = [ASend (u8_bytes payload)] -> wt_progress (ev :: evs) = wt_answer evs ->
    exists out, run Wt.AwaitReady (ev :: evs) = (wt_phase_of (wt_progress (ev :: evs)), out) /\
      transport_calls out = wt_sent_calls (wt_progress (ev :: evs)) (u8_bytes payload)) as Hready.
  { intros out1 Hstep Hout1 ->. rewrite (wt_run_step _ _ _ _ _ Hstep).
    destruct (wt_run_unanswered evs) as (out' & -> & Hout'). eexists. split; [done|].
    rewrite transport_calls_app, Hout1. cbn [fst snd]. rewrite Hout'.
    pose proof (wt_answer_sent evs). by destruct (wt_answer evs) as [| | |[] ?]. }
  destruct ev as [|e| |e| |value| |e].
  1, 3: eapply Hready; [cbn -[connect_payload]; unfold Wt.after_ready; rewrite Hpay; reflexivity | done | done].
  1, 2: erewrite wt_run_step by reflexivity;
    destruct (wt_run_settled (Refused false e) evs) as (out2 & Hrun2 & Hout2); [done|];
    cbn [wt_phase_of] in Hrun2; rewrite Hrun2; eexists; (split; [done|]); by rewrite transport_calls_app.
  all: erewrite wt_run_step by reflexivity; rewrite Hrun; by exists out.
Qed.
End webtransport.

(** ** Theorems *)
Section theorems.
#[local] Set Default Proof Using "Type*".
Context {FB : FlatBuffers} {FL : FlatBuffersLaws FB}.

Lemma ws_start_run spanreedAddress backendAddress userName id ws_url_ok evs :
  ws_url_ok spanreedAddress = true ->
  Ws.connectWebsocket spanreedAddress backendAddress userName id ws_url_ok evs =
  (fst (Ws.run backendAddress userName id (ws_state userName id NotOpen) evs),
   snd (Ws.start spanreedAddress userName ws_url_ok) ++
   snd (Ws.run backendAddress userName id (ws_state userName id NotOpen) evs)).
Proof.
  intros Hok. unfold Ws.connectWebsocket, Ws.start. rewrite Hok.
  change (Ws.mkState Ws.AwaitOpen true true false false) with (ws_state userName id NotOpen).
  by destruct (Ws.run _ _ _ _ evs).
Qed.

(** C6: for every sequence of socket events, [connectWebsocket] is in the state
    the specification [ws_progress] gives: it waits until the socket opens, then
    sends exactly one handshake, whose decoding gives the proxy the backend
    address and the backend the user name; the first readable verdict or the
    close of the socket settles it, and the socket is closed exactly when it is
    refused after the handshake. *)
Theorem connectWebsocket_refines spanreedAddress backendAddress userName id ws_url_ok :
  ws_url_ok spanreedAddress = true -> sendable backendAddress -> sendable userName ->
  exists payload, handshake backendAddress userName payload /\
    forall evs,
      let '(s, out) := Ws.connectWebsocket spanreedAddress backendAddress userName id ws_url_ok evs in
      s = ws_state userName id (ws_progress evs) /\
      transport_calls out = sent_calls (ws_progress evs) (u8_bytes payload).
Proof.
  intros Hok Hb Hu. destruct (connect_payload_spec _ _ Hb Hu) as (payload & Hpay & _ & Hh).
  exists payload. split; [done|]. intros evs. rewrite ws_start_run by done.
  destruct (run_not_open backendAddress userName id payload evs Hpay) as (out & -> & Hout).
  split; [done|]. rewrite transport_calls_app. unfold Ws.start. by rewrite Hok.
Qed.

(** C13: the same for [connectWebtransport]: one handshake once the session is
    ready (or has ended cleanly), and the first result of [read] settles it. No
    sequence of events makes it close the session, not even a refusal. *)
Theorem connectWebtransport_refines spanreedAddress backendAddress userName id wt_url_ok show_jsval :
  wt_url_ok spanreedAddress = true -> sendable backendAddress -> sendable userName ->
  exists payload, handshake backendAddress userName payload /\
    forall evs,
      let '(p, out) := Wt.connectWebtransport spanreedAddress backendAddress userName id wt_url_ok show_jsval evs in
      p = wt_phase_of userName id (wt_progress evs) /\
      transport_calls out = wt_sent_calls (wt_progress evs) (u8_bytes payload).
Proof.
  intros Hok Hb Hu. destruct (connect_payload_spec _ _ Hb Hu) as (payload & Hpay & _ & Hh).
  exists payload. split; [done|]. intros evs. unfold Wt.connectWebtransport. rewrite Hok.
  destruct (wt_run_not_open backendAddress userName id show_jsval payload evs Hpay) as (out & -> & Hout). done.
Qed.

Lemma ws_phase_resolved userName id p c :
  Ws.ph (ws_state userName id p) = Ws.Resolved c -> p = Accepted /\ c = WebsocketConnection id userName.
Proof. destruct p as [| | |[] e]; cbn; try done. by intros [= <-]. Qed.

(** A resolved WebSocket connection is handed over clean: none of the
    handlers of the handshake that could act is left on the socket, and no later
    event makes the handshake do anything, so the page may install its own. *)
Theorem connectWebsocket_resolved_inert spanreedAddress backendAddress userName id ws_url_ok evs c :
  ws_url_ok spanreedAddress = true -> sendable backendAddress -> sendable userName ->
  let r := Ws.connectWebsocket spanreedAddress backendAddress userName id ws_url_ok evs in
  Ws.ph (fst r) = Ws.Resolved c ->
  c = WebsocketConnection id userName /\
  Ws.onmessage (fst r) = false /\ Ws.onclose (fst r) = false /\ Ws.onerror (fst r) = false /\
  forall evs', Ws.run backendAddress userName id (fst r) evs' = (fst r, []).
Proof.
  intros Hok Hb Hu. cbv zeta. rewrite ws_start_run by done.
  destruct (connect_payload_spec _ _ Hb Hu) as (payload & Hpay & _ & _).
  destruct (run_not_open backendAddress userName id payload evs Hpay) as (out & -> & _).
  cbn [fst]. intros [Hp ->]%ws_phase_resolved. rewrite Hp. split_and!; try done.
  intros evs'. by apply run_settled.
Qed.

Lemma read_verdict_reads data a reason d :
  reads_ConnectClientVerdict
    (ConnectClientVerdict.getRootAsConnectClientVerdict (new_ByteBuffer data) None) a reason d ->
  read_verdict data = Ret (if a then None else Some (from_option text_decode (js "<unknown reason>") reason)).
Proof.
  intros (Ha & Hr & _). change (read_verdict data) with (
    let verdict := ConnectClientVerdict.getRootAsConnectClientVerdict (new_ByteBuffer data) None in
    accepted ← ConnectClientVerdict.accepted verdict;
    if accepted : bool then Ret None else r ← ConnectClientVerdict.errorReason verdict None; Ret (Some (reason_text r))).
  cbn zeta. rewrite Ha. destruct a; [done|].
  cbn -[ConnectClientVerdict.errorReason ConnectClientVerdict.getRootAsConnectClientVerdict].
  rewrite (Hr None). by destruct reason.
Qed.

(** An encoded verdict is read as what it says. *)
Lemma encoded_verdict_read n accepted reason data :
  0 < n -> from_option text_ok true reason = true -> Forall is_byte (default [] data) ->
  zlen (from_option text_encode [] reason) + zlen (default [] data) + 200 <= fb_limit ->
  wp (encodeConnectClientVerdict accepted (Str <$> reason) data false) (new_Builder n) (fun u _ =>
    read_verdict (u8_of_buffer (u8_bytes u)) =
      Ret (if accepted then None else Some (default (js "<unknown reason>") reason))).
Proof.
  intros Hn Hr Hd Hsz. pose proof (Rep_new n Hn) as HR. apply wp_bind.
  assert (default [] (text_bytes <$> (Str <$> reason)) = from_option text_encode [] reason) as Hbs
    by by destruct reason.
  eapply (buildConnectClientVerdict_spec _ lb_new accepted (Str <$> reason) data
    (zlen (from_option text_encode [] reason) + zlen (default [] data) + 96)); [done | fb_arith | | done | |].
  { rewrite Hbs. destruct reason; [by apply text_encode_byte, text_ok_wf | constructor]. }
  { rewrite Hbs. lia. }
  intros o b l HR1 G SO. eapply wp_mono; [eapply (finish_roundtrip b l o false _ HR1); [fb_arith | exact SO]|].
  intros u b' [Hwf Hdec]. erewrite read_verdict_reads; [|apply (Hdec (u8_of_buffer (u8_bytes u)))].
  - destruct accepted; [done|]. destruct reason as [r|]; [|done]. simpl in Hr |- *. by rewrite text_roundtrip.
  - apply u8_of_buffer_wf. by apply Forall_take, Forall_drop, Hwf.
  - apply u8_of_buffer_bytes.
Qed.

Lemma ws_progress_early early evs : ws_progress (map Ws.Message early ++ Ws.Open :: evs) = ws_verdict evs.
Proof. by induction early. Qed.

(** C12: a verdict the proxy encodes decides the connection: accepted, the call
    resolves with the connection over this socket under this user name; refused,
    it rejects with the reason of the verdict, or with a placeholder when the
    verdict has none, and closes the socket. Messages that arrive before the
    socket opens do not count. *)
Theorem websocket_verdict_decides n spanreedAddress backendAddress userName id ws_url_ok early
    accepted reason data :
  0 < n -> ws_url_ok spanreedAddress = true -> sendable backendAddress -> sendable userName ->
  from_option text_ok true reason = true -> Forall is_byte (default [] data) ->
  zlen (from_option text_encode [] reason) + zlen (default [] data) + 200 <= fb_limit ->
  wp (encodeConnectClientVerdict accepted (Str <$> reason) data false) (new_Builder n) (fun u _ =>
    let '(s, out) := Ws.connectWebsocket spanreedAddress backendAddress userName id ws_url_ok
                       (map Ws.Message early ++ [Ws.Open; Ws.Message (u8_bytes u)]) in
    Ws.ph s = (if accepted then Ws.Resolved (WebsocketConnection id userName)
               else Ws.Rejected (VString (js "destination rejected connection: " ++
                                          default (js "<unknown reason>") reason))) /\
    (AClose ∈ out <-> accepted = false)).
Proof.
  intros Hn Hok Hb Hu Hr Hd Hsz.
  eapply wp_mono; [by apply encoded_verdict_read|]. intros u b' Hv. cbv beta in Hv.
  rewrite ws_start_run by done. destruct (connect_payload_spec _ _ Hb Hu) as (payload & Hpay & _ & _).
  destruct (run_not_open backendAddress userName id payload
    (map Ws.Message early ++ [Ws.Open; Ws.Message (u8_bytes u)]) Hpay) as (out & -> & Hout).
  rewrite ws_progress_early in *. cbn [ws_verdict] in *. rewrite Hv in *.
  split; [by destruct accepted|]. cbn [snd].
  rewrite (in_transport_calls AClose), transport_calls_app, Hout by done.
  unfold Ws.start. rewrite Hok. rewrite list_elem_of_In. destruct accepted; cbn; intuition discriminate.
Qed.
End theorems.

(** ** Witnesses *)
Definition any_url (_ : jsstring) : bool := true.
Definition sample_backend : jsstring := js "udp:localhost:30001".
Definition sample_user : jsstring := js "Sessamekesh".

Lemma sample_sendable : sendable sample_backend /\ sendable sample_user.
Proof. split; (split; [vm_compute; reflexivity | vm_compute; discriminate]). Qed.

Lemma connectWebsocket_refines_witness :
  exists payload, handshake (FB := FbRef) sample_backend sample_user payload /\
    forall evs,
      let '(s, out) := Ws.connectWebsocket (js "ws://localhost:3000/ws") sample_backend sample_user 1 any_url evs in
      s = ws_state sample_user 1 (ws_progress evs) /\
      transport_calls out = sent_calls (ws_progress evs) (u8_bytes payload).
Proof.
  apply (connectWebsocket_refines (FL := FbRefLaws)); [reflexivity | apply sample_sendable | apply sample_sendable].
Defined.

Lemma connectWebtransport_refines_witness :
  exists payload, handshake (FB := FbRef) sample_backend sample_user payload /\
    forall evs,
      let '(p, out) := Wt.connectWebtransport (js "https://localhost:3000/wt") sample_backend sample_user 1
                         any_url (fun _ => []) evs in
      p = wt_phase_of sample_user 1 (wt_progress evs) /\
      transport_calls out = wt_sent_calls (wt_progress evs) (u8_bytes payload).
Proof.
  apply (connectWebtransport_refines (FL := FbRefLaws)); [reflexivity | apply sample_sendable | apply sample_sendable].
Defined.

(** The bytes of an accepting verdict, from the reference implementation. *)
Definition sample_verdict : list Z :=
  match encodeConnectClientVerdict (FB := FbRef) true None None false (new_Builder 64) with
  | (Ret u, _) => u8_bytes u
  | _ => []
  end.

Lemma connectWebsocket_resolved_inert_witness :
  let r := Ws.connectWebsocket (FB := FbRef) (js "ws://localhost:3000/ws") sample_backend sample_user 1 any_url
             [Ws.Open; Ws.Message sample_verdict] in
  Ws.onmessage (fst r) = false /\
  forall evs', Ws.run (FB := FbRef) sample_backend sample_user 1 (fst r) evs' = (fst r, []).
Proof.
  destruct (connectWebsocket_resolved_inert (FL := FbRefLaws) (js "ws://localhost:3000/ws") sample_backend
    sample_user 1 any_url [Ws.Open; Ws.Message sample_verdict] (WebsocketConnection 1 sample_user))
    as (_ & Hm & _ & _ & Hrun);
    [reflexivity | apply sample_sendable | apply sample_sendable | vm_compute; reflexivity | exact (conj Hm Hrun)].
Defined.

Lemma websocket_verdict_decides_witness :
  wp (encodeConnectClientVerdict (FB := FbRef) false (Str <$> Some (js "full")) None false) (new_Builder 64)
  (fun u _ =>
    let '(s, out) := Ws.connectWebsocket (js "ws://localhost:3000/ws") sample_backend sample_user 1 any_url
                       (map Ws.Message [[1; 2]] ++ [Ws.Open; Ws.Message (u8_bytes u)]) in
    Ws.ph s = Ws.Rejected (VString (js "destination rejected connection: " ++ js "full")) /\
    (AClose ∈ out <-> false = false)).
Proof.
  apply (websocket_verdict_decides (FL := FbRefLaws) 64 (js "ws://localhost:3000/ws") sample_backend sample_user 1
    any_url [[1; 2]] false (Some (js "full")) None);
    [concrete | reflexivity | apply sample_sendable | apply sample_sendable | concrete | concrete | concrete].
Defined.
