(* ===== verification/Renderer.v ===== *)
(** * The renderer of the demo client

    [geomtry.ts], [glutils.ts], [solid.shader.ts], [DemoRenderer.ts] and
    [colors.ts]. The WebGL context is not code of the repository: the calls
    made on it are recorded as commands, and what it answers is the interface
    [GL], any function of the commands so far. *)

From S2P Require Import Prelude JsPlatform Log.

(** ** Typed-array views used to fill the instance buffer *)

(** [new Float32Array(buffer, byteOffset)] and [new Uint8Array(buffer, byteOffset)]:
    a view is its offset and its number of elements. *)
Definition f32_view (buf : list Z) (off : Z) : outcome exn (Z * Z) :=
  if (off mod 4 =? 0) && (zlen buf mod 4 =? 0) && (0 <=? off) && (off <=? zlen buf)
  then Ret (off, (zlen buf - off) / 4) else Throw RangeError.

Definition u8_tail (buf : list Z) (off : Z) : outcome exn (Z * Z) :=
  if (0 <=? off) && (off <=? zlen buf) then Ret (off, zlen buf - off) else Throw RangeError.

Definition splice (buf : list Z) (off : Z) (bs : list Z) : list Z :=
  take (Z.to_nat off) buf ++ bs ++ drop (Z.to_nat (off + zlen bs)) buf.

(** Assignment to an element outside the view does nothing. *)
Definition f32_set (view : Z * Z) (k : Z) (v : number) (buf : list Z) : list Z :=
  if k <? snd view then splice buf (fst view + 4 * k) (f32_bytes v) else buf.

Definition u8_set (view : Z * Z) (k v : Z) (buf : list Z) : list Z :=
  if k <? snd view then splice buf (fst view + k) [to_uint 8 v] else buf.

(** ** [colors.ts] *)
Module COLORS.
Definition Red : list Z := [229; 47; 15].
Definition Green : list Z := [168; 224; 157].
Definition Blue : list Z := [70; 194; 219].
Definition Indigo : list Z := [167; 83; 255].
Definition FireOrange : list Z := [246; 206; 29].
End COLORS.

(** ** [geomtry.ts] *)
Section geometry.
Context (cos sin : number -> number) (PI : number).

Definition segment_angle (i segmentCount : Z) : number :=
  num_div (num_mul (num_mul (num_of_Z i) PI) (num_of_Z 2)) (num_of_Z segmentCount).

(** One iteration of the loop: the center and two points of the circle. *)
Definition circle_segment (segmentCount i : Z) : list number :=
  let vertex1Angle := segment_angle i segmentCount in
  let vertex2Angle := segment_angle (i + 1) segmentCount in
  [num_zero; num_zero;
   cos vertex1Angle; sin vertex1Angle;
   cos vertex2Angle; sin vertex2Angle].

(** The contents of the [Float32Array]. *)
Definition buildCircleVertexBufferData (segmentCount : Z) : list number :=
  map fround (concat (map (fun i => circle_segment segmentCount (Z.of_nat i)) (seq 0 (Z.to_nat segmentCount)))).
End geometry.

(** ** WebGL: commands and answers *)
Inductive gl_type : Type := GL_FLOAT | GL_UNSIGNED_BYTE.
Inductive gl_shader_kind : Type := VERTEX_SHADER | FRAGMENT_SHADER.
Inductive gl_data : Type :=
| DataFloats (fs : list number)      (** contents of a [Float32Array] *)
| DataSize (n : Z).                  (** storage without contents *)

Inductive gl_cmd : Type :=
| CreateBuffer
| BindBuffer (b : option Z)
| BufferData (d : gl_data) (dynamic : bool)
| BufferSubData (off : Z) (bs : list Z)
| CreateShader (k : gl_shader_kind)
| CreateProgram
| ShaderSource (sh : Z) (src : string)
| CompileShader (sh : Z)
| AttachShader (p sh : Z)
| LinkProgram (p : Z)
| CreateVertexArray
| BindVertexArray (v : option Z)
| EnableVertexAttribArray (loc : Z)
| VertexAttribPointer (loc size : Z) (t : gl_type) (normalized : bool) (stride off : Z)
| VertexAttribDivisor (loc d : Z)
| UseProgram (p : option Z)
| Uniform2f (loc : Z) (x y : Z)
| DrawArraysInstanced (first count instances : Z)
| SetCanvasSize (width height : number)          (** [gl.canvas.width = ...; gl.canvas.height = ...] *)
| ClearColor (r g b a : number)
| Clear                                          (** color and depth *)
| ViewportCanvas.                                (** from (0, 0), the size the canvas now has *)

(** What the context answers, given the commands so far. *)
Class GL := {
  gl_createBuffer : list gl_cmd -> option Z;
  gl_createShader : list gl_cmd -> gl_shader_kind -> option Z;
  gl_createProgram : list gl_cmd -> option Z;
  gl_compileStatus : list gl_cmd -> Z -> bool;
  gl_shaderInfoLog : list gl_cmd -> Z -> jsstring;
  gl_linkStatus : list gl_cmd -> Z -> bool;
  gl_programInfoLog : list gl_cmd -> Z -> jsstring;
  gl_getAttribLocation : list gl_cmd -> Z -> string -> Z;
  gl_getUniformLocation : list gl_cmd -> Z -> string -> option Z;
  gl_createVertexArray : list gl_cmd -> option Z;
}.

(** The world the rendering code acts on. *)
Record world : Type := mkWorld {
  cmds : list gl_cmd;
  logged : list (jsstring * option LogLevel);   (** calls of the page's log callback *)
  printed : list console_call
}.

#[global] Instance world_console : Console world := fun c w =>
  mkWorld (cmds w) (logged w) (printed w ++ [c]).

Definition page_log : LogCb world := fun msg level w =>
  mkWorld (cmds w) (logged w ++ [(msg, level)]) (printed w).

(** The code does not throw: actions are plain state transformers. *)
Definition act (A : Type) : Type := world -> A * world.
#[global] Instance act_ret : MRet act := fun _ a w => (a, w).
#[global] Instance act_bind : MBind act := fun _ _ f m w => let '(a, w') := m w in f a w'.

Definition gl (c : gl_cmd) : act unit := fun w => (tt, mkWorld (cmds w ++ [c]) (logged w) (printed w)).
Definition ask {A} (q : list gl_cmd -> A) : act A := fun w => (q (cmds w), w).
Definition say (cb : LogCb world) (msg : jsstring) (level : LogLevel) : act unit :=
  fun w => (tt, cb msg (Some level) w).

Section glutils.
Context `{G : GL}.

(** A [create...] call of the context. *)
Definition create {A} (c : gl_cmd) (answer : list gl_cmd -> option A) : act (option A) :=
  r ← ask answer; gl c ≫= fun _ => mret r.

Definition createStaticVertexBuffer (data : list number) : act (option Z) :=
  buffer ← create CreateBuffer gl_createBuffer;
  match buffer with
  | None => mret None
  | Some b =>
      gl (BindBuffer (Some b)) ≫= fun _ =>
      gl (BufferData (DataFloats data) false) ≫= fun _ =>
      gl (BindBuffer None) ≫= fun _ =>
      mret (Some b)
  end.

(** Without a null check: a failed allocation binds null. *)
Definition createDynamicVertexBuffer (size : Z) : act (option Z) :=
  buffer ← create CreateBuffer gl_createBuffer;
  gl (BindBuffer buffer) ≫= fun _ =>
  gl (BufferData (DataSize size) true) ≫= fun _ =>
  gl (BindBuffer None) ≫= fun _ =>
  mret buffer.

Definition show_bool (b : bool) : jsstring := if b then js "true" else js "false".
Definition is_some {A} (x : option A) : bool := match x with Some _ => true | None => false end.

(** Source, compile and check one shader. *)
Definition compile (sh : Z) (src : string) (name : jsstring) (log : LogCb world) : act bool :=
  gl (ShaderSource sh src) ≫= fun _ =>
  gl (CompileShader sh) ≫= fun _ =>
  ok ← ask (fun h => gl_compileStatus h sh);
  if ok : bool then mret true
  else
    errorMessage ← ask (fun h => gl_shaderInfoLog h sh);
    say log (js "Failed to compile " ++ name ++ js " shader: " ++ errorMessage) Error ≫= fun _ =>
    mret false.

Definition createProgram (vertexShaderSource fragmentShaderSource : string) (log : LogCb world) : act (option Z) :=
  vertexShader ← create (CreateShader VERTEX_SHADER) (fun h => gl_createShader h VERTEX_SHADER);
  fragmentShader ← create (CreateShader FRAGMENT_SHADER) (fun h => gl_createShader h FRAGMENT_SHADER);
  program ← create CreateProgram gl_createProgram;
  match vertexShader, fragmentShader, program with
  | Some vs, Some fs, Some p =>
      vsOk ← compile vs vertexShaderSource (js "vertex") log;
      if negb vsOk then mret None else
      fsOk ← compile fs fragmentShaderSource (js "fragment") log;
      if negb fsOk then mret None else
      gl (AttachShader p vs) ≫= fun _ =>
      gl (AttachShader p fs) ≫= fun _ =>
      gl (LinkProgram p) ≫= fun _ =>
      ok ← ask (fun h => gl_linkStatus h p);
      if ok : bool then mret (Some p)
      else
        errorMessage ← ask (fun h => gl_programInfoLog h p);
        say log (js "Failed to link GPU program: " ++ errorMessage) Error ≫= fun _ =>
        mret None
  | _, _, _ =>
      say log (js "Failed to allocate GL objects (" ++
               js "vs=" ++ show_bool (is_some vertexShader) ++ js ", " ++
               js "fs=" ++ show_bool (is_some fragmentShader) ++ js ", " ++
               js "program=" ++ show_bool (is_some program) ++ js ")") Error ≫= fun _ =>
      mret None
  end.
End glutils.

(** ** [solid.shader.ts] *)
Definition vsSrc : string := "#version 300 es
precision mediump float;

in vec2 vertexPosition;
in vec2 shapeLocation;
in float shapeRadius;
in vec3 shapeColor;

out vec3 fragmentColor;

uniform vec2 canvasSize;

void main() {
  fragmentColor = shapeColor;

  vec2 logicalPosition = vertexPosition * shapeRadius + shapeLocation;
  gl_Position = vec4((logicalPosition / canvasSize) * 2. - 1., 0., 1.);
}"%string.

Definition fsSrc : string := "#version 300 es
precision mediump float;

in vec3 fragmentColor;
out vec4 outColor;

void main() {
  outColor = vec4(fragmentColor, 1.);
}"%string.

Record Attrib : Type := mkAttrib {
  VertexPosition : Z; ShapeLocation : Z; ShapeRadius : Z; ShapeColor : Z
}.

Module SolidShader.
Record t : Type := mk { program : Z; attribs : Attrib; CanvasSize : Z }.

Section with_gl.
Context `{G : GL}.

Definition Create (log : LogCb world) : act (option t) :=
  program ← createProgram vsSrc fsSrc log;
  match program with
  | None => mret None
  | Some p =>
      vertexPosition ← ask (fun h => gl_getAttribLocation h p "vertexPosition");
      shapeLocation ← ask (fun h => gl_getAttribLocation h p "shapeLocation");
      shapeRadius ← ask (fun h => gl_getAttribLocation h p "shapeRadius");
      shapeColor ← ask (fun h => gl_getAttribLocation h p "shapeColor");
      canvasSize ← ask (fun h => gl_getUniformLocation h p "canvasSize");
      match canvasSize with
      | None =>
          say log (js "SolidShader - failed to find CanvasSize uniform") Error ≫= fun _ => mret None
      | Some u => mret (Some (mk p (mkAttrib vertexPosition shapeLocation shapeRadius shapeColor) u))
      end
  end.

Definition createVao (this : t) (geoBuffer instanceBuffer : Z) (log : LogCb world) : act (option Z) :=
  vao ← create CreateVertexArray gl_createVertexArray;
  match vao with
  | None => say log (js "Failed to allocate VAO for SolidShader") Error ≫= fun _ => mret None
  | Some v =>
      let a := attribs this in
      gl (BindVertexArray (Some v)) ≫= fun _ =>
      gl (EnableVertexAttribArray (VertexPosition a)) ≫= fun _ =>
      gl (EnableVertexAttribArray (ShapeColor a)) ≫= fun _ =>
      gl (EnableVertexAttribArray (ShapeLocation a)) ≫= fun _ =>
      gl (EnableVertexAttribArray (ShapeRadius a)) ≫= fun _ =>
      gl (BindBuffer (Some geoBuffer)) ≫= fun _ =>
      gl (VertexAttribPointer (VertexPosition a) 2 GL_FLOAT false 0 0) ≫= fun _ =>
      gl (BindBuffer (Some instanceBuffer)) ≫= fun _ =>
      gl (VertexAttribPointer (ShapeLocation a) 2 GL_FLOAT false 16 0) ≫= fun _ =>
      gl (VertexAttribPointer (ShapeRadius a) 1 GL_FLOAT false 16 8) ≫= fun _ =>
      gl (VertexAttribPointer (ShapeColor a) 3 GL_UNSIGNED_BYTE true 16 12) ≫= fun _ =>
      gl (VertexAttribDivisor (ShapeLocation a) 1) ≫= fun _ =>
      gl (VertexAttribDivisor (ShapeRadius a) 1) ≫= fun _ =>
      gl (VertexAttribDivisor (ShapeColor a) 1) ≫= fun _ =>
      gl (BindVertexArray None) ≫= fun _ =>
      mret (Some v)
  end.

Definition draw (this : t) (vao vertexCount instanceCount canvasWidth canvasHeight : Z) : act unit :=
  gl (UseProgram (Some (program this))) ≫= fun _ =>
  gl (BindVertexArray (Some vao)) ≫= fun _ =>
  gl (Uniform2f (CanvasSize this) canvasWidth canvasHeight) ≫= fun _ =>
  gl (DrawArraysInstanced 0 vertexCount instanceCount) ≫= fun _ =>
  gl (BindVertexArray None) ≫= fun _ =>
  gl (UseProgram None).
End with_gl.
End SolidShader.

(** ** [DemoRenderer.ts] *)
Module DemoRenderer.
Definition CIRCLE_SEGMENT_COUNT : Z := 20.
Definition MAX_INSTANCE_COUNT : Z := 200.

(** An element of the argument of [setInstances]. *)
Record instance : Type := mkInstance {
  ix : number; iy : number; iradius : number; icolor : list Z
}.

Record t : Type := mk {
  solidShader : SolidShader.t;
  vao : Z;
  gpuInstanceBuffer : Z;
  cpuInstanceBuffer : list Z;
  instanceCt : Z;
  raf : option Z
}.

Section with_gl.
Context `{G : GL}.
Context (cos sin : number -> number) (PI : number).

(** [createVao] is called without a log callback, so its message goes to the console. *)
Definition Create (logFn : LogCb world) : act (option t) :=
  let log := WrapLogFn (js "DemoRenderer") logFn in
  let circleGeo := buildCircleVertexBufferData cos sin PI CIRCLE_SEGMENT_COUNT in
  solidShader ← SolidShader.Create log;
  match solidShader with
  | None => say log (js "Failed to create solid shader, cannot create DemoRenderer") Error ≫= fun _ => mret None
  | Some sh =>
      circleBuffer ← createStaticVertexBuffer circleGeo;
      match circleBuffer with
      | None => say log (js "Failed to create dot vertex buffer, cannot create DemoRenderer") Error ≫= fun _ => mret None
      | Some cb =>
          instanceBuffer ← createDynamicVertexBuffer (16 * MAX_INSTANCE_COUNT);
          match instanceBuffer with
          | None => say log (js "Failed to create instance buffer, cannot create DemoRenderer") Error ≫= fun _ => mret None
          | Some ib =>
              vao ← SolidShader.createVao sh cb ib DefaultLogCb;
              match vao with
              | None => say log (js "Failed to create dot VAO, cannot create DemoRenderer") Error ≫= fun _ => mret None
              | Some v => mret (Some (mk sh v ib (zeros (16 * MAX_INSTANCE_COUNT)) 0 None))
              end
          end
      end
  end.
End with_gl.

(** *** [setInstances] *)

(** The body of the loop: the views are made first at [16 * i], then at [16 * i + 12]. *)
Definition write_instance (i : Z) (inst : instance) : stm (list Z) exn unit := fun buf =>
  match f32_view buf (16 * i) with
  | Throw e => (Throw e, buf)
  | Ret f32 =>
      let buf := f32_set f32 0 (ix inst) buf in
      let buf := f32_set f32 1 (num_sub (num_of_Z 400) (iy inst)) buf in
      let buf := f32_set f32 2 (iradius inst) buf in
      match u8_tail buf (16 * i + 12) with
      | Throw e => (Throw e, buf)
      | Ret u8 =>
          let component k := default 0 (icolor inst !! k) in
          let buf := u8_set u8 0 (component 0%nat) buf in
          let buf := u8_set u8 1 (component 1%nat) buf in
          let buf := u8_set u8 2 (component 2%nat) buf in
          (Ret tt, buf)
      end
  end.

(** [for (let i = 0; i < instances.length; i++)] *)
Fixpoint write_instances (i : Z) (instances : list instance) : stm (list Z) exn unit :=
  match instances with
  | [] => mret tt
  | inst :: rest => write_instance i inst ≫= fun _ => write_instances (i + 1) rest
  end.

(** The loop runs over all the instances, not over [toUse]. *)
Definition setInstances (this : t) (instances : list instance) (w : world) : outcome exn unit * (t * world) :=
  let toUse := take (Z.to_nat MAX_INSTANCE_COUNT) instances in
  let '(r, buf) := write_instances 0 instances (cpuInstanceBuffer this) in
  let this := mk (solidShader this) (vao this) (gpuInstanceBuffer this) buf (instanceCt this) (raf this) in
  match r with
  | Throw e => (Throw e, (this, w))
  | Ret _ =>
      let '(_, w) := (gl (BindBuffer (Some (gpuInstanceBuffer this))) ≫= fun _ =>
                      gl (BufferSubData 0 (cpuInstanceBuffer this)) ≫= fun _ =>
                      gl (BindBuffer None)) w in
      (Ret tt, (mk (solidShader this) (vao this) (gpuInstanceBuffer this) (cpuInstanceBuffer this)
                  (zlen toUse) (raf this), w))
  end.

(** *** The animation loop *)

(** Frame callbacks the browser has been asked to run, by handle. *)
Record frames : Type := mkFrames { pending : list Z; next_handle : Z }.

Definition set_raf (this : t) (h : option Z) : t :=
  mk (solidShader this) (vao this) (gpuInstanceBuffer this) (cpuInstanceBuffer this) (instanceCt this) h.

Definition requestAnimationFrame (fr : frames) : Z * frames :=
  (next_handle fr, mkFrames (next_handle fr :: pending fr) (next_handle fr + 1)).

Definition cancelAnimationFrame (h : Z) (fr : frames) : frames :=
  mkFrames (List.filter (fun h' => negb (h' =? h)) (pending fr)) (next_handle fr).

(** The drawing done by [frame]; [canvas] has the client size of the canvas
    element, and is [None] for a canvas that is not one. *)
Section drawing.
Context (canvas : option (number * number)) (devicePixelRatio : number).

Definition decimal (n d : Z) : number := num_div (num_of_Z n) (num_of_Z d).

Definition draw_frame (this : t) : act unit :=
  match canvas with
  | Some (clientWidth, clientHeight) =>
      gl (SetCanvasSize (num_mul clientWidth devicePixelRatio) (num_mul clientHeight devicePixelRatio))
  | None => gl (SetCanvasSize (num_of_Z 400) (num_of_Z 400))
  end ≫= fun _ =>
  gl (ClearColor (decimal 2 10) (decimal 333 1000) (decimal 4666 10000) (num_of_Z 1)) ≫= fun _ =>
  gl Clear ≫= fun _ =>
  gl ViewportCanvas ≫= fun _ =>
  if 0 <? instanceCt this
  then SolidShader.draw (solidShader this) (vao this) (CIRCLE_SEGMENT_COUNT * 3) (instanceCt this) 400 400
  else mret tt.

(** The callback: draw, then ask for the next frame. The browser runs a callback
    once, and only if it is pending. *)
Definition frame (h : Z) (s : t * frames * world) : t * frames * world :=
  let '(this, fr, w) := s in
  if bool_decide (h ∈ pending fr) then
    let fr := cancelAnimationFrame h fr in
    let '(_, w) := draw_frame this w in
    let '(h', fr) := requestAnimationFrame fr in
    (set_raf this (Some h'), fr, w)
  else s.
End drawing.

Definition start (s : t * frames * world) : t * frames * world :=
  let '(this, fr, w) := s in
  let '(h, fr) := requestAnimationFrame fr in
  (set_raf this (Some h), fr, w).

Definition destroy (s : t * frames * world) : t * frames * world :=
  let '(this, fr, w) := s in
  match raf this with
  | Some h => (this, cancelAnimationFrame h fr, w)
  | None => s
  end.
End DemoRenderer.
