(* ===== verification/RendererTheorems.v ===== *)
(** * The renderer: theorems

    The layout of the instance buffer against the vertex attributes that read
    it, what happens beyond its capacity, the circle geometry, the error paths
    of the set-up and the animation loop. *)

From S2P Require Import Prelude JsPlatform Log Renderer.
Import DemoRenderer.

(** ** Splicing *)
Lemma zlen_splice buf off bs :
  0 <= off -> off + zlen bs <= zlen buf -> zlen (splice buf off bs) = zlen buf.
Proof.
  intros Ho Hle. unfold splice, zlen in *. rewrite !length_app, length_take, length_drop. lia.
Qed.

Lemma zslice_splice_same buf off bs :
  0 <= off -> off + zlen bs <= zlen buf -> zslice (splice buf off bs) off (zlen bs) = bs.
Proof.
  intros Ho Hle. unfold splice. pose proof (zlen_nonneg bs).
  assert (zlen (take (Z.to_nat off) buf) = off) as Ht.
  { unfold zlen in *. rewrite length_take. lia. }
  rewrite <- Ht at 3. replace (zlen (take (Z.to_nat off) buf)) with (zlen (take (Z.to_nat off) buf) + 0) by lia.
  rewrite zslice_app_r by lia. apply zslice_0_app.
Qed.

Lemma zslice_splice_before buf off bs i n :
  0 <= i -> 0 <= n -> i + n <= off -> off <= zlen buf ->
  zslice (splice buf off bs) i n = zslice buf i n.
Proof.
  intros Hi Hn Hle Ho. unfold splice.
  assert (zlen (take (Z.to_nat off) buf) = off) as Ht.
  { unfold zlen in *. rewrite length_take. lia. }
  rewrite zslice_app_l by lia.
  rewrite <- (take_drop (Z.to_nat off) buf) at 2. by rewrite zslice_app_l by lia.
Qed.

Lemma zslice_splice_after buf off bs i n :
  0 <= off -> off + zlen bs <= i -> off + zlen bs <= zlen buf ->
  zslice (splice buf off bs) i n = zslice buf i n.
Proof.
  intros Ho Hi Hle. unfold splice. pose proof (zlen_nonneg bs).
  assert (zlen (take (Z.to_nat off) buf ++ bs) = off + zlen bs) as Ht.
  { rewrite zlen_app. unfold zlen in *. rewrite length_take. lia. }
  rewrite app_assoc. replace i with (zlen (take (Z.to_nat off) buf ++ bs) + (i - (off + zlen bs))) at 1 by lia.
  rewrite zslice_app_r by lia. unfold zslice. rewrite drop_drop. do 2 f_equal. lia.
Qed.

(** Writing adjacent pieces is writing them at once. *)
Lemma splice_splice buf off a b :
  0 <= off -> off + zlen a + zlen b <= zlen buf ->
  splice (splice buf off a) (off + zlen a) b = splice buf off (a ++ b).
Proof.
  intros Ho Hle. unfold splice. pose proof (zlen_nonneg a). pose proof (zlen_nonneg b).
  assert (length (take (Z.to_nat off) buf ++ a) = Z.to_nat (off + zlen a)) as Hl.
  { rewrite length_app, length_take. unfold zlen in *. lia. }
  rewrite (app_assoc (take _ buf) a), take_app_length' by done.
  rewrite <- !app_assoc. do 3 f_equal.
  rewrite app_assoc, drop_app_ge, drop_drop by lia. f_equal. rewrite zlen_app. lia.
Qed.

(** ** The instance buffer *)

(** The fifteen bytes written for an instance; the sixteenth is padding. *)
Definition component (inst : instance) (k : nat) : Z := to_uint 8 (default 0 (icolor inst !! k)).

Definition instance_bytes (inst : instance) : list Z :=
  f32_bytes (ix inst) ++ f32_bytes (num_sub (num_of_Z 400) (iy inst)) ++ f32_bytes (iradius inst) ++
  [component inst 0; component inst 1; component inst 2].

Lemma zlen_instance_bytes inst : zlen (instance_bytes inst) = 15.
Proof. done. Qed.

Lemma f32_set_splice off n k v buf : k < n -> f32_set (off, n) k v buf = splice buf (off + 4 * k) (f32_bytes v).
Proof. intros. unfold f32_set. simpl. by destruct (Z.ltb_spec k n); [|lia]. Qed.

Lemma u8_set_splice off n k v buf : k < n -> u8_set (off, n) k v buf = splice buf (off + k) [to_uint 8 v].
Proof. intros. unfold u8_set. simpl. by destruct (Z.ltb_spec k n); [|lia]. Qed.

(** Within the buffer, an instance is written as one piece. *)
Lemma write_instance_ok i inst buf :
  0 <= i -> zlen buf mod 4 = 0 -> 16 * i + 16 <= zlen buf ->
  write_instance i inst buf = (Ret tt, splice buf (16 * i) (instance_bytes inst)).
Proof.
  intros Hi Hmod Hle. unfold write_instance, f32_view.
  assert ((16 * i) mod 4 = 0) as Hm by (replace (16 * i) with (4 * i * 4) by lia; by apply Z.mod_mul).
  rewrite Hm, Hmod. replace (0 <=? 16 * i) with true by lia. replace (16 * i <=? zlen buf) with true by lia.
  cbn -[f32_set u8_set u8_tail Z.mul Z.add Z.div instance_bytes splice].
  assert (4 <= (zlen buf - 16 * i) / 4) as Hn by (apply Z.div_le_lower_bound; lia).
  rewrite !f32_set_splice by lia. rewrite Z.mul_0_r, Z.add_0_r.
  rewrite (splice_splice buf (16 * i) (f32_bytes (ix inst))) by (autorewrite with zlen; lia).
  replace (16 * i + 4 * 2) with
    (16 * i + zlen (f32_bytes (ix inst) ++ f32_bytes (num_sub (num_of_Z 400) (iy inst))))
    by (autorewrite with zlen; lia).
  rewrite splice_splice by (autorewrite with zlen; lia).
  set (fs := (_ ++ _) ++ _). assert (zlen fs = 12) as Hfs by done.
  unfold u8_tail. rewrite zlen_splice by lia.
  replace (0 <=? 16 * i + 12) with true by lia. replace (16 * i + 12 <=? zlen buf) with true by lia.
  cbn -[u8_set Z.mul Z.add Z.div instance_bytes splice]. rewrite !u8_set_splice by lia.
  rewrite Z.add_0_r. change (16 * i + 12) with (16 * i + zlen fs).
  rewrite (splice_splice buf (16 * i) fs) by (autorewrite with zlen; lia).
  replace (16 * i + zlen fs + 1) with (16 * i + zlen (fs ++ [component inst 0])) by (autorewrite with zlen; lia).
  rewrite splice_splice by (autorewrite with zlen; lia).
  replace (16 * i + zlen fs + 2) with (16 * i + zlen ((fs ++ [component inst 0]) ++ [component inst 1]))
    by (autorewrite with zlen; lia).
  rewrite splice_splice by (autorewrite with zlen; lia). do 2 f_equal.
Qed.

(** Every instance ends up at its place, and nothing else changes. *)
Lemma write_instances_ok instances : forall i buf,
  0 <= i -> zlen buf mod 4 = 0 -> 16 * (i + zlen instances) <= zlen buf ->
  exists buf', write_instances i instances buf = (Ret tt, buf') /\ zlen buf' = zlen buf /\
    (forall k inst, instances !! k = Some inst ->
       zslice buf' (16 * (i + Z.of_nat k)) 15 = instance_bytes inst) /\
    (forall p n, 0 <= p -> 0 <= n -> p + n <= 16 * i -> zslice buf' p n = zslice buf p n) /\
    (forall p n, 16 * (i + zlen instances) <= p -> zslice buf' p n = zslice buf p n).
Proof.
  induction instances as [|inst rest IH]; intros i buf Hi Hmod Hle.
  { exists buf. split_and!; try done. }
  rewrite zlen_cons in Hle. pose proof (zlen_nonneg rest).
  cbn [write_instances]. unfold mbind, stm_bind. rewrite write_instance_ok by lia.
  set (buf1 := splice buf (16 * i) (instance_bytes inst)).
  assert (zlen buf1 = zlen buf) as Hlen by (apply zlen_splice; rewrite ?zlen_instance_bytes; lia).
  destruct (IH (i + 1) buf1) as (buf' & Hrun & Hlen' & Hat & Hbefore & Hafter); [lia | by rewrite Hlen | rewrite Hlen; lia |].
  exists buf'. split_and!; [done | lia | | |].
  - intros [|k] x Hx; simpl in Hx.
    + injection Hx as ->. rewrite Z.add_0_r, Hbefore by lia.
      apply (zslice_splice_same buf (16 * i) (instance_bytes x)); rewrite ?zlen_instance_bytes; lia.
    + replace (i + Z.of_nat (S k)) with (i + 1 + Z.of_nat k) by lia. by apply Hat.
  - intros p n Hp Hn Hpn. rewrite Hbefore by lia. apply zslice_splice_before; lia.
  - intros p n Hp. rewrite zlen_cons in Hp. rewrite Hafter by lia.
    apply zslice_splice_after; rewrite ?zlen_instance_bytes; lia.
Qed.

Lemma write_instances_app l1 l2 i buf :
  write_instances i (l1 ++ l2) buf =
  match write_instances i l1 buf with
  | (Ret _, buf') => write_instances (i + zlen l1) l2 buf'
  | (Throw e, buf') => (Throw e, buf')
  end.
Proof.
  revert i buf. induction l1 as [|x l1 IH]; intros i buf; [cbn; by rewrite Z.add_0_r|].
  cbn [app write_instances]. unfold mbind, stm_bind. destruct (write_instance i x buf) as [[[]|e] buf1]; [|done].
  rewrite IH, zlen_cons, Z.add_assoc. done.
Qed.

(** One instance past the end: the second view cannot be made. *)
Lemma write_instance_past i inst buf :
  zlen buf mod 4 = 0 -> zlen buf = 16 * i -> 0 <= i -> write_instance i inst buf = (Throw RangeError, buf).
Proof.
  intros Hmod Hlen Hi. unfold write_instance, f32_view. rewrite <- Hlen, Hmod.
  replace (0 <=? zlen buf) with true by lia. rewrite Z.leb_refl, Z.sub_diag.
  cbn -[u8_tail]. unfold f32_set, u8_tail. simpl.
  replace (zlen buf + 12 <=? zlen buf) with false by lia. by rewrite andb_false_r.
Qed.

(** ** What the vertex attributes read *)

(** [vertexAttribPointer(loc, size, type, normalized, stride, offset)] with
    divisor 1: the components the pipeline fetches for instance [k]. *)
Inductive fetched : Type := Floats (fs : list number) | Bytes (bs : list Z).

Definition fetch (c : gl_cmd) (buf : list Z) (k : Z) : option (Z * fetched) :=
  match c with
  | VertexAttribPointer loc size GL_FLOAT _ stride off =>
      Some (loc, Floats (map (fun j => f32_value (zslice buf (stride * k + off + 4 * Z.of_nat j) 4))
                          (seq 0 (Z.to_nat size))))
  | VertexAttribPointer loc size GL_UNSIGNED_BYTE _ stride off =>
      Some (loc, Bytes (zslice buf (stride * k + off) size))
  | _ => None
  end.

(** The pointers [createVao] sets while the instance buffer is bound. *)
Definition instance_pointers (a : Attrib) : list gl_cmd :=
  [VertexAttribPointer (ShapeLocation a) 2 GL_FLOAT false 16 0;
   VertexAttribPointer (ShapeRadius a) 1 GL_FLOAT false 16 8;
   VertexAttribPointer (ShapeColor a) 3 GL_UNSIGNED_BYTE true 16 12].

Lemma instance_fetch a buf k inst :
  0 <= k -> 16 * k + 16 <= zlen buf -> zslice buf (16 * k) 15 = instance_bytes inst ->
  map (fun c => fetch c buf k) (instance_pointers a) =
    [Some (ShapeLocation a, Floats [fround (ix inst); fround (num_sub (num_of_Z 400) (iy inst))]);
     Some (ShapeRadius a, Floats [fround (iradius inst)]);
     Some (ShapeColor a, Bytes [component inst 0; component inst 1; component inst 2])].
Proof.
  intros Hk Hlen Hs.
  assert (forall off n, 0 <= off -> 0 <= n -> off + n <= 15 ->
    zslice buf (16 * k + off) n = zslice (instance_bytes inst) off n) as Hsub.
  { intros. rewrite <- Hs. by rewrite zslice_zslice by lia. }
  unfold instance_pointers, fetch. cbn [map].
  change (Z.to_nat 2) with 2%nat. change (Z.to_nat 1) with 1%nat. cbn [map seq].
  rewrite <- !Z.add_assoc, !Hsub by lia. rewrite <- !f32_roundtrip. reflexivity.
Qed.

(** ** Set-up *)

(** The vertex attribute pointers set by a command sequence, each with the buffer
    bound when it was set. *)
Fixpoint pointers (bound : option Z) (cs : list gl_cmd) : list (option Z * gl_cmd) :=
  match cs with
  | [] => []
  | BindBuffer b :: rest => pointers b rest
  | VertexAttribPointer a b c d e f :: rest => (bound, VertexAttribPointer a b c d e f) :: pointers bound rest
  | _ :: rest => pointers bound rest
  end.

(** Messages of an error path. *)
Definition all_errors (msgs : list (jsstring * option LogLevel)) : Prop :=
  Forall (fun m => snd m = Some Error) msgs.

(** Run from any world, [m] ends with a result and the messages [P] describes. *)
Definition logs {A} (m : act A) (P : A -> list (jsstring * option LogLevel) -> Prop) : Prop :=
  forall w, exists msgs, logged (snd (m w)) = logged w ++ msgs /\ P (fst (m w)) msgs.

Lemma logs_ret {A} (a : A) (P : A -> list (jsstring * option LogLevel) -> Prop) :
  P a [] -> logs (mret a) P.
Proof. intros H w. exists []. by rewrite app_nil_r. Qed.

Lemma logs_bind {A B} (m : act A) (f : A -> act B) (P : B -> list (jsstring * option LogLevel) -> Prop) :
  logs m (fun a ms => logs (f a) (fun b ms' => P b (ms ++ ms'))) -> logs (m ≫= f) P.
Proof.
  intros H w. destruct (H w) as (ms & Hm & Hf). unfold mbind, act_bind. destruct (m w) as [a w'] eqn:E.
  destruct (Hf w') as (ms' & Hf' & HP). cbn in *. exists (ms ++ ms'). by rewrite Hf', Hm, app_assoc.
Qed.

Lemma logs_gl c (P : unit -> list (jsstring * option LogLevel) -> Prop) : P tt [] -> logs (gl c) P.
Proof. intros H w. exists []. by rewrite app_nil_r. Qed.

Lemma logs_ask {A} (q : list gl_cmd -> A) (P : A -> list (jsstring * option LogLevel) -> Prop) :
  (forall a, P a []) -> logs (ask q) P.
Proof. intros H w. exists []. by rewrite app_nil_r. Qed.

Lemma logs_say_page name msg lv (P : unit -> list (jsstring * option LogLevel) -> Prop) :
  P tt [(js "[" ++ name ++ js "] " ++ msg, Some lv)] -> logs (say (WrapLogFn name page_log) msg lv) P.
Proof. intros H w. by eexists. Qed.

(** The console is not the page's log. *)
Lemma logs_say_console msg lv (P : unit -> list (jsstring * option LogLevel) -> Prop) :
  P tt [] -> logs (say DefaultLogCb msg lv) P.
Proof. intros H w. exists []. rewrite app_nil_r. split; [by destruct lv | done]. Qed.

(** Failures are reported in the page's log, as errors; successes say nothing. *)
Definition reported {A} (r : option A) (msgs : list (jsstring * option LogLevel)) : Prop :=
  match r with Some _ => msgs = [] | None => msgs <> [] /\ all_errors msgs end.

(** Walk through the code, splitting on its conditions. *)
Ltac log_step :=
  lazymatch goal with
  | |- logs (mret _) _ => apply logs_ret
  | |- logs (_ ≫= _) _ => apply logs_bind
  | |- logs (gl _) _ => apply logs_gl
  | |- logs (ask _) _ => apply logs_ask; intros ?
  | |- logs (say DefaultLogCb _ _) _ => apply logs_say_console
  | |- logs (say _ _ _) _ => apply logs_say_page
  | |- logs (match ?x with _ => _ end) _ => destruct x
  end.

Ltac log_walk := repeat (log_step; cbn [app negb]); try first [done | split; [done | by repeat constructor]].

Section setup.
Context `{G : GL}.

Lemma createProgram_reported vs fs name :
  logs (createProgram vs fs (WrapLogFn name page_log)) reported.
Proof. unfold createProgram, create, compile. log_walk. Qed.

(** The shader set-up on its own name and without it (in the messages of
    [createProgram] the callback is the one of the renderer). *)
Lemma SolidShader_Create_reported name : logs (SolidShader.Create (WrapLogFn name page_log)) reported.
Proof.
  unfold SolidShader.Create. apply logs_bind. intros w.
  destruct (createProgram_reported vsSrc fsSrc name w) as (msgs & Hm & Hr). exists msgs. split; [done|].
  destruct (fst _) as [p|]; cbn in Hr.
  - subst msgs. cbn [app]. log_walk.
  - log_walk. by rewrite app_nil_r.
Qed.

Lemma all_errors_snoc msgs m : all_errors msgs -> snd m = Some Error -> all_errors (msgs ++ [m]).
Proof. intros H Hm. apply Forall_app. split; [done | by constructor]. Qed.

(** A renderer is created silently and empty, or errors are reported. *)
Definition created (r : option t) (msgs : list (jsstring * option LogLevel)) : Prop :=
  match r with
  | Some r => msgs = [] /\ instanceCt r = 0 /\ raf r = None /\
              cpuInstanceBuffer r = zeros (16 * MAX_INSTANCE_COUNT)
  | None => msgs <> [] /\ all_errors msgs
  end.

Lemma Create_created cos sin PI : logs (DemoRenderer.Create cos sin PI page_log) created.
Proof.
  unfold DemoRenderer.Create. cbv zeta. apply logs_bind. intros w0.
  destruct (SolidShader_Create_reported (js "DemoRenderer") w0) as (msgs & Hm & Hr). exists msgs. split; [done|].
  destruct (fst _) as [sh|]; cbn in Hr.
  - subst msgs. unfold createStaticVertexBuffer, createDynamicVertexBuffer, SolidShader.createVao, create. log_walk.
  - apply logs_bind, logs_say_page, logs_ret. rewrite app_nil_r. split; [by destruct msgs|].
    apply all_errors_snoc; [apply Hr | done].
Qed.

(** Setting up the renderer either succeeds silently, with an empty scene and
    a zeroed buffer of the capacity it was sized for and no frame requested, or
    reports at least one error, and only errors, in the page's log, whichever of
    the GL allocations, compilations, look-ups or links failed. *)
Theorem DemoRenderer_Create_reports cos sin PI w :
  let '(r, w') := DemoRenderer.Create cos sin PI page_log w in
  exists msgs, logged w' = logged w ++ msgs /\ created r msgs.
Proof.
  destruct (Create_created cos sin PI w) as (msgs & Hm & Hr).
  destruct (DemoRenderer.Create cos sin PI page_log w). by exists msgs.
Qed.

(** [createVao] points the three instance attributes at the instance buffer
    and the vertex position at the geometry buffer, whatever was bound before;
    without a vertex array it sets nothing and reports to its log. *)
Theorem createVao_pointers this geoBuffer instanceBuffer log w :
  let '(v, w') := SolidShader.createVao this geoBuffer instanceBuffer log w in
  match v with
  | Some _ => exists cs, cmds w' = cmds w ++ cs /\ forall bound, pointers bound cs =
      (Some geoBuffer, VertexAttribPointer (VertexPosition (SolidShader.attribs this)) 2 GL_FLOAT false 0 0) ::
      map (fun c => (Some instanceBuffer, c)) (instance_pointers (SolidShader.attribs this))
  | None => w' = log (js "Failed to allocate VAO for SolidShader") (Some Error)
                   (mkWorld (cmds w ++ [CreateVertexArray]) (logged w) (printed w))
  end.
Proof.
  unfold SolidShader.createVao, create, ask, mbind, act_bind. cbn -[app].
  destruct (gl_createVertexArray (cmds w)) as [v|]; cbn -[app]; [|done].
  rewrite <- !app_assoc. eexists. split; [done|]. intros bound. done.
Qed.
End setup.

(** The bytes in which the instance attributes fetch the instances. *)
Definition holds_instances (instances : list instance) (buf : list Z) : Prop :=
  zlen buf = 16 * MAX_INSTANCE_COUNT /\
  forall k inst a, instances !! k = Some inst ->
    map (fun c => fetch c buf (Z.of_nat k)) (instance_pointers a) =
      [Some (ShapeLocation a, Floats [fround (ix inst); fround (num_sub (num_of_Z 400) (iy inst))]);
       Some (ShapeRadius a, Floats [fround (iradius inst)]);
       Some (ShapeColor a, Bytes [component inst 0; component inst 1; component inst 2])].

(** The effect of a successful [setInstances]. *)
Definition uploaded (this : t) (instances : list instance) (buf : list Z) (w : world) : t * world :=
  (mk (solidShader this) (vao this) (gpuInstanceBuffer this) buf (zlen instances) (raf this),
   mkWorld (cmds w ++ [BindBuffer (Some (gpuInstanceBuffer this)); BufferSubData 0 buf; BindBuffer None])
     (logged w) (printed w)).

Lemma setInstances_spec this instances w :
  zlen (cpuInstanceBuffer this) = 16 * MAX_INSTANCE_COUNT -> zlen instances <= MAX_INSTANCE_COUNT ->
  exists buf, setInstances this instances w = (Ret tt, uploaded this instances buf w) /\
    holds_instances instances buf.
Proof.
  intros Hlen Hn. unfold MAX_INSTANCE_COUNT in *.
  destruct (write_instances_ok instances 0 (cpuInstanceBuffer this)) as (buf & Hrun & Hl & Hat & _ & _);
    [done | by rewrite Hlen | rewrite Hlen; lia |].
  exists buf. split; [|split; [by rewrite Hl, Hlen|]].
  - unfold setInstances. rewrite Hrun, take_ge by (unfold zlen, MAX_INSTANCE_COUNT in *; lia).
    unfold gl, mbind, act_bind, uploaded. cbn [cmds logged printed]. by rewrite <- !app_assoc.
  - intros k inst a Hk. apply instance_fetch.
    + lia.
    + apply lookup_lt_Some in Hk. unfold zlen in *. lia.
    + by apply (Hat k).
Qed.

(** C35: up to 200 instances, [setInstances] succeeds, records their number and
    uploads one buffer to the instance buffer in which, for every instance, the
    attribute pointers of [createVao] fetch its position (with the vertical axis
    flipped) and radius rounded to 32 bits, and its color bytes; calling it again
    with other instances then does the same for those. *)
Theorem setInstances_uploads this instances instances' w :
  zlen (cpuInstanceBuffer this) = 16 * MAX_INSTANCE_COUNT ->
  zlen instances <= MAX_INSTANCE_COUNT -> zlen instances' <= MAX_INSTANCE_COUNT ->
  exists buf buf',
    setInstances this instances w = (Ret tt, uploaded this instances buf w) /\ holds_instances instances buf /\
    let '(this1, w1) := uploaded this instances buf w in
    setInstances this1 instances' w1 = (Ret tt, uploaded this1 instances' buf' w1) /\
    holds_instances instances' buf'.
Proof.
  intros Hlen Hn Hn'. destruct (setInstances_spec this instances w Hlen Hn) as (buf & Hrun & Hh). cbn [uploaded].
  destruct (setInstances_spec (fst (uploaded this instances buf w)) instances' (snd (uploaded this instances buf w)))
    as (buf' & Hrun' & Hh'); [apply Hh | done |]. exists buf, buf'. done.
Qed.

(** C36: with more than 200 instances [setInstances] throws a RangeError after
    filling the CPU buffer: nothing is uploaded and the number of instances to
    draw stays what it was, so the scene on screen is not updated. *)
Theorem setInstances_overflow this instances w :
  zlen (cpuInstanceBuffer this) = 16 * MAX_INSTANCE_COUNT -> MAX_INSTANCE_COUNT < zlen instances ->
  exists this',
    setInstances this instances w = (Throw RangeError, (this', w)) /\ instanceCt this' = instanceCt this.
Proof.
  intros Hlen Hn. unfold MAX_INSTANCE_COUNT in *.
  assert (exists pre inst post, instances = pre ++ inst :: post /\ zlen pre = 200) as (pre & inst & post & -> & Hpre).
  { destruct (instances !! 200%nat) as [inst|] eqn:E; [|apply lookup_ge_None in E; unfold zlen in Hn; lia].
    exists (take 200 instances), inst, (drop 201 instances). split; [by apply (eq_sym (take_drop_middle _ _ _ E))|].
    apply lookup_lt_Some in E. unfold zlen. rewrite length_take. lia. }
  destruct (write_instances_ok pre 0 (cpuInstanceBuffer this)) as (buf & Hrun & Hl & _);
    [done | by rewrite Hlen | rewrite Hlen; lia |].
  eexists. unfold setInstances. rewrite write_instances_app, Hrun. cbn [write_instances].
  unfold mbind, stm_bind. rewrite write_instance_past; [done | by rewrite Hl, Hlen | lia | lia].
Qed.

(** ** The circle *)
Section circle.
Context (cos sin : number -> number) (PI : number).

(** Triangle [i] of the fan, after rounding to 32 bits. *)
Definition triangle (n i : Z) : list number := map fround (circle_segment cos sin PI n i).

Lemma circle_triangles n :
  buildCircleVertexBufferData cos sin PI n =
  concat (map (fun i => triangle n (Z.of_nat i)) (seq 0 (Z.to_nat n))).
Proof. unfold buildCircleVertexBufferData. by rewrite concat_map, map_map. Qed.

Lemma zlen_concat {A} (f : nat -> list A) len m :
  (forall x, zlen (f x) = len) -> zlen (concat (map f (seq 0 m))) = len * Z.of_nat m.
Proof.
  intros Hlen. induction m as [|m IH]; [by rewrite Z.mul_0_r|].
  rewrite seq_S, map_app, concat_app, zlen_app, IH. cbn [map concat]. rewrite app_nil_r, Hlen. lia.
Qed.

Lemma zslice_concat {A} (f : nat -> list A) len m i j k :
  (forall x, zlen (f x) = len) -> (i < m)%nat -> 0 <= j -> 0 <= k -> j + k <= len ->
  zslice (concat (map f (seq 0 m))) (len * Z.of_nat i + j) k = zslice (f i) j k.
Proof.
  intros Hlen Hi Hj Hk Hle. replace m with (i + S (m - i - 1))%nat by lia.
  rewrite seq_app, map_app, concat_app. cbn [seq map concat plus].
  pose proof (zlen_concat f len i Hlen) as Hz.
  rewrite <- Hz, zslice_app_r by lia. apply zslice_app_l; [lia | lia | by rewrite Hlen].
Qed.

(** The circle buffer holds one triangle per segment, every triangle starts
    at the center, and each triangle ends at exactly the point where the next one
    begins, so the fan has no cracks; with the segment count of the renderer the
    buffer has exactly the number of vertices a frame draws. *)
Theorem circle_fan n :
  0 <= n ->
  let data := buildCircleVertexBufferData cos sin PI n in
  zlen data = 2 * (n * 3) /\
  forall i, 0 <= i < n ->
    zslice data (6 * i) 2 = [num_zero; num_zero] /\
    (i + 1 < n -> zslice data (6 * i + 4) 2 = zslice data (6 * (i + 1) + 2) 2).
Proof.
  intros Hn. cbv zeta. rewrite circle_triangles.
  assert (forall x, zlen (triangle n x) = 6) as Ht by done.
  split.
  - rewrite (zlen_concat (fun i => triangle n (Z.of_nat i)) 6) by done. lia.
  - intros i Hi. set (f := fun x => triangle n (Z.of_nat x)).
    assert (forall j k x, 0 <= x < n -> 0 <= j -> 0 <= k -> j + k <= 6 ->
      zslice (concat (map f (seq 0 (Z.to_nat n)))) (6 * x + j) k = zslice (triangle n x) j k) as Hz.
    { intros j k x Hx Hj Hk Hle. rewrite <- (Z2Nat.id x) at 1 by lia.
      rewrite (zslice_concat f 6); [|done|lia|lia|lia|lia]. unfold f. by rewrite Z2Nat.id by lia. }
    split.
    + rewrite <- (Z.add_0_r (6 * i)), Hz by lia. done.
    + intros Hi1. rewrite !Hz by lia. done.
Qed.
End circle.

(** ** The animation loop *)
Section loop.
Context (canvas : option (number * number)) (devicePixelRatio : number).
#[local] Abbreviation frame := (frame canvas devicePixelRatio).

(** What the browser does with the loop, and the page with the renderer. *)
Inductive loop_step : t * frames * world -> t * frames * world -> Prop :=
| step_frame h s : loop_step s (frame h s)
| step_instances this fr w instances r this' w' :
    setInstances this instances w = (r, (this', w')) -> loop_step (this, fr, w) (this', fr, w').

Inductive loop_steps : t * frames * world -> t * frames * world -> Prop :=
| steps_refl s : loop_steps s s
| steps_cons s1 s2 s3 : loop_steps s1 s2 -> loop_step s2 s3 -> loop_steps s1 s3.

(** The renderer holds the handle of the one pending callback. *)
Definition running (s : t * frames * world) : Prop :=
  let '(this, fr, _) := s in exists h, pending fr = [h] /\ raf this = Some h /\ h < next_handle fr.

Definition stopped (s : t * frames * world) : Prop := let '(_, fr, _) := s in pending fr = [].

Lemma setInstances_raf this instances w r this' w' :
  setInstances this instances w = (r, (this', w')) -> raf this' = raf this.
Proof.
  unfold setInstances. destruct (write_instances _ _ _) as [[u|e] buf]; intros H; by injection H as _ <- _.
Qed.

Lemma running_step s s' : running s -> loop_step s s' -> running s'.
Proof.
  intros Hr Hstep. destruct Hstep as [h [[this fr] w]|this fr w instances r this' w' H].
  - destruct Hr as (h0 & Hp & Hraf & Hlt). unfold DemoRenderer.frame. case_bool_decide as Hin; [|by exists h0].
    rewrite Hp, list_elem_of_singleton in Hin. subst h.
    unfold cancelAnimationFrame, requestAnimationFrame. rewrite Hp. cbn. rewrite Z.eqb_refl. cbn.
    destruct (draw_frame canvas devicePixelRatio this w) as [[] w'].
    exists (next_handle fr). cbn. split_and!; [done | done | lia].
  - destruct Hr as (h0 & Hp & Hraf & Hlt). exists h0. by rewrite (setInstances_raf _ _ _ _ _ _ H).
Qed.

Lemma running_steps s s' : loop_steps s s' -> running s -> running s'.
Proof. induction 1; eauto using running_step. Qed.

Lemma destroy_stops s : running s -> stopped (destroy s).
Proof.
  destruct s as [[this fr] w]. intros (h & Hp & Hraf & _). unfold destroy. rewrite Hraf.
  unfold stopped, cancelAnimationFrame. rewrite Hp. cbn. by rewrite Z.eqb_refl.
Qed.

(** C37: once started, the renderer always has exactly one frame pending, the one
    whose handle it holds, whatever frames run and whatever instances are set,
    even when setting them throws; destroying it cancels that frame, and from
    then on no frame is drawn. *)
Theorem animation_loop_single this n w s :
  loop_steps (start (this, mkFrames [] n, w)) s ->
  running s /\ stopped (destroy s) /\ forall h, frame h (destroy s) = destroy s.
Proof.
  intros Hs. assert (running s) as Hr.
  { eapply running_steps; [done|]. exists n. cbn. split_and!; [done | done | lia]. }
  pose proof (destroy_stops s Hr) as Hd. split_and!; [done | done |].
  intros h. destruct (destroy s) as [[this' fr'] w']. unfold stopped in Hd.
  unfold DemoRenderer.frame. rewrite Hd. by rewrite bool_decide_eq_false_2 by apply not_elem_of_nil.
Qed.
End loop.

(** A frame draws nothing for an empty scene and otherwise issues one
    instanced draw of the whole circle for every instance recorded, on the
    renderer's program and vertex array, and leaves neither bound. *)
Theorem draw_frame_draws canvas devicePixelRatio this w :
  exists pre, cmds (snd (draw_frame canvas devicePixelRatio this w)) = cmds w ++ pre ++
    if 0 <? instanceCt this then
      [UseProgram (Some (SolidShader.program (solidShader this))); BindVertexArray (Some (vao this));
       Uniform2f (SolidShader.CanvasSize (solidShader this)) 400 400;
       DrawArraysInstanced 0 (CIRCLE_SEGMENT_COUNT * 3) (instanceCt this);
       BindVertexArray None; UseProgram None]
    else [] .
Proof.
  unfold draw_frame. destruct canvas as [[cw ch]|], (0 <? instanceCt this);
    unfold SolidShader.draw, mbind, act_bind, mret, act_ret, gl; cbn [snd fst cmds logged printed];
    rewrite <- !app_assoc; eexists [_; _; _; _]; reflexivity.
Qed.

(** ** Witnesses *)
Definition sample_shader : SolidShader.t := SolidShader.mk 1 (mkAttrib 0 1 2 3) 7.
Definition sample_renderer : t :=
  mk sample_shader 4 5 (zeros (16 * MAX_INSTANCE_COUNT)) 0 None.
Definition sample_instance : instance := mkInstance (num_of_Z 80) (num_of_Z 200) (num_of_Z 20) COLORS.Red.

Lemma setInstances_uploads_witness :
  exists buf buf',
    setInstances sample_renderer [sample_instance; sample_instance] (mkWorld [] [] []) =
      (Ret tt, uploaded sample_renderer [sample_instance; sample_instance] buf (mkWorld [] [] [])) /\
    holds_instances [sample_instance; sample_instance] buf /\
    let '(this1, w1) := uploaded sample_renderer [sample_instance; sample_instance] buf (mkWorld [] [] []) in
    setInstances this1 [sample_instance] w1 = (Ret tt, uploaded this1 [sample_instance] buf' w1) /\
    holds_instances [sample_instance] buf'.
Proof.
  apply (setInstances_uploads sample_renderer [sample_instance; sample_instance] [sample_instance] (mkWorld [] [] []));
    [reflexivity | vm_compute; discriminate | vm_compute; discriminate].
Defined.

Lemma setInstances_overflow_witness :
  exists this',
    setInstances sample_renderer (replicate 201 sample_instance) (mkWorld [] [] []) =
      (Throw RangeError, (this', mkWorld [] [] [])) /\ instanceCt this' = 0.
Proof.
  apply (setInstances_overflow sample_renderer (replicate 201 sample_instance) (mkWorld [] [] []));
    [reflexivity | vm_compute; reflexivity].
Defined.

Lemma circle_fan_witness :
  zlen (buildCircleVertexBufferData (fun x => x) (fun x => x) (num_of_Z 3) CIRCLE_SEGMENT_COUNT) =
    2 * (CIRCLE_SEGMENT_COUNT * 3).
Proof. apply (circle_fan (fun x => x) (fun x => x) (num_of_Z 3) CIRCLE_SEGMENT_COUNT). discriminate. Defined.

Lemma animation_loop_single_witness :
  stopped (destroy (start (sample_renderer, mkFrames [] 1, mkWorld [] [] []))).
Proof.
  apply (animation_loop_single None (num_of_Z 1) sample_renderer 1 (mkWorld [] [] [])). constructor.
Defined.
