(* ===== verification/DemoCanvas.v ===== *)
(** * The canvas component ([DemoCanvas.tsx])

    Its two pieces of React state, the GL context and the renderer, and the
    effects that create the renderer and hand it the dots of the page. *)

From S2P Require Import Prelude JsPlatform Log Renderer RendererTheorems.
Import DemoRenderer.

Definition DEFAULT_DOT_STATE : list instance :=
  [mkInstance (num_of_Z 80) (num_of_Z 200) (num_of_Z 20) COLORS.Red;
   mkInstance (num_of_Z 140) (num_of_Z 200) (num_of_Z 20) COLORS.Green;
   mkInstance (num_of_Z 200) (num_of_Z 200) (num_of_Z 20) COLORS.Blue;
   mkInstance (num_of_Z 260) (num_of_Z 200) (num_of_Z 20) COLORS.Indigo;
   mkInstance (num_of_Z 320) (num_of_Z 200) (num_of_Z 20) COLORS.FireOrange].

(** [onClick] of the canvas element: client coordinates to the 400 by 400 scene. *)
Record rect : Type := mkRect { left : number; top : number; width : number; height : number }.

Definition canvas_click (r : rect) (clientX clientY : number) : number * number :=
  (num_mul (num_div (num_sub clientX (left r)) (width r)) (num_of_Z 400),
   num_mul (num_div (num_sub clientY (top r)) (height r)) (num_of_Z 400)).

Module DemoCanvas.
Record t : Type := mk { has_gl : bool; renderer : option DemoRenderer.t }.
Definition state : Type := t * frames * world.

Definition init (fr : frames) (w : world) : state := (mk false None, fr, w).

(** The effect on the canvas element: [context] is what [getContext] returned. *)
Definition gl_effect (context : bool) (s : state) : state :=
  let '(c, fr, w) := s in if context then (mk true (renderer c), fr, w) else s.

Section with_gl.
Context `{G : GL} (cos sin : number -> number) (PI : number) (logFn : LogCb world).

Definition log : LogCb world := WrapLogFn (js "DemoCanvas") logFn.

(** The effect on the context: create a renderer, start it, show the default scene. *)
Definition create_effect (s : state) : outcome exn unit * state :=
  let '(c, fr, w) := s in
  if has_gl c then
    let w := log (js "Creating new renderer!") None w in
    match DemoRenderer.Create cos sin PI logFn w with
    | (None, w) => (Ret tt, (c, fr, w))
    | (Some r, w) =>
        let '(r, fr, w) := start (r, fr, w) in
        match setInstances r DEFAULT_DOT_STATE w with
        | (Ret _, (r, w)) => (Ret tt, (mk (has_gl c) (Some r), fr, w))
        | (Throw e, (_, w)) => (Throw e, (c, fr, w))
        end
    end
  else (Ret tt, s).

(** Its clean-up. *)
Definition destroy_effect (r : DemoRenderer.t) (s : state) : state :=
  let '(c, fr, w) := s in let '(_, fr, w) := destroy (r, fr, w) in (c, fr, w).
End with_gl.

(** The effect on the dots: [dots ?? DEFAULT_DOT_STATE]. *)
Definition dots_effect (dots : option (list instance)) (s : state) : outcome exn unit * state :=
  let '(c, fr, w) := s in
  match has_gl c, renderer c with
  | true, Some r =>
      let '(o, (r, w)) := setInstances r (default DEFAULT_DOT_STATE dots) w in
      (o, (mk (has_gl c) (Some r), fr, w))
  | _, _ => (Ret tt, s)
  end.
End DemoCanvas.

(** ** Theorems *)

(** The renderer of the canvas shows a scene: it is recorded and its buffer is
    the last one uploaded. *)
Definition shows_scene (scene : list instance) (s : DemoCanvas.state) : Prop :=
  let '(c, fr, w) := s in
  exists r pre, DemoCanvas.renderer c = Some r /\ instanceCt r = zlen scene /\
    cmds w = pre ++ [BindBuffer (Some (gpuInstanceBuffer r)); BufferSubData 0 (cpuInstanceBuffer r); BindBuffer None] /\
    holds_instances scene (cpuInstanceBuffer r).

Lemma dots_effect_shows dots c fr w r :
  DemoCanvas.has_gl c = true -> DemoCanvas.renderer c = Some r ->
  zlen (cpuInstanceBuffer r) = 16 * MAX_INSTANCE_COUNT -> zlen (default DEFAULT_DOT_STATE dots) <= MAX_INSTANCE_COUNT ->
  exists s', DemoCanvas.dots_effect dots (c, fr, w) = (Ret tt, s') /\ shows_scene (default DEFAULT_DOT_STATE dots) s'.
Proof.
  intros Hgl Hr Hlen Hn. destruct (setInstances_spec r (default DEFAULT_DOT_STATE dots) w Hlen Hn) as (buf & Hrun & Hh).
  unfold DemoCanvas.dots_effect. rewrite Hgl, Hr, Hrun. eexists. split; [done|].
  eexists _, _. split_and!; [done | done | done | exact Hh].
Qed.

Lemma create_effect_shows `{G : GL} cos sin PI fr w s :
  DemoCanvas.create_effect cos sin PI page_log (DemoCanvas.gl_effect true (DemoCanvas.init fr w)) = (Ret tt, s) ->
  DemoCanvas.renderer (fst (fst s)) <> None ->
  DemoCanvas.has_gl (fst (fst s)) = true /\ shows_scene DEFAULT_DOT_STATE s /\
  pending (snd (fst s)) = next_handle fr :: pending fr.
Proof.
  unfold DemoCanvas.create_effect, DemoCanvas.gl_effect, DemoCanvas.init. cbn [DemoCanvas.has_gl DemoCanvas.renderer].
  set (w1 := DemoCanvas.log page_log _ None w). destruct (Create_created cos sin PI w1) as (msgs & _ & Hc).
  destruct (DemoRenderer.Create cos sin PI page_log w1) as [[r|] w2]; [|by intros [= <-]].
  destruct Hc as (_ & _ & _ & Hbuf). cbn [start requestAnimationFrame].
  destruct (setInstances_spec (set_raf r (Some (next_handle fr))) DEFAULT_DOT_STATE w2) as (buf & Hrun & Hh);
    [cbn [cpuInstanceBuffer set_raf]; by rewrite Hbuf | vm_compute; discriminate |].
  rewrite Hrun. intros [= <-] _. split_and!; [done | | done]. eexists _, _. split_and!; [done | done | done | exact Hh].
Qed.

(** Once the context exists and the renderer could be created, the canvas
    shows the default scene with one more frame pending; each time the dots of
    the page change it shows those dots, up to 200 of them, and the default scene
    again when there are none. *)
Theorem canvas_shows_dots `{G : GL} cos sin PI fr w s :
  DemoCanvas.create_effect cos sin PI page_log (DemoCanvas.gl_effect true (DemoCanvas.init fr w)) = (Ret tt, s) ->
  DemoCanvas.renderer (fst (fst s)) <> None ->
  shows_scene DEFAULT_DOT_STATE s /\ pending (snd (fst s)) = next_handle fr :: pending fr /\
  forall dots, zlen (default DEFAULT_DOT_STATE dots) <= MAX_INSTANCE_COUNT ->
    exists s', DemoCanvas.dots_effect dots s = (Ret tt, s') /\
      shows_scene (default DEFAULT_DOT_STATE dots) s'.
Proof.
  intros Hrun Hr. destruct (create_effect_shows cos sin PI fr w s Hrun Hr) as (Hgl & Hs & Hp).
  split_and!; [done | done |]. intros dots Hn. destruct s as [[c fr'] w'].
  pose proof Hs as (r & pre & Hc & _ & _ & Hlen & _). by apply (dots_effect_shows dots c fr' w' r).
Qed.

(** ** Witness *)

(** A context that answers every request. *)
Definition sample_gl : GL :=
  Build_GL (fun h => Some (zlen h)) (fun h _ => Some (zlen h)) (fun h => Some (zlen h)) (fun _ _ => true)
    (fun _ _ => []) (fun _ _ => true) (fun _ _ => []) (fun _ _ _ => 0) (fun _ _ _ => Some 0) (fun h => Some (zlen h)).

Definition sample_canvas : DemoCanvas.state :=
  snd (DemoCanvas.create_effect (G := sample_gl) (fun x => x) (fun x => x) (num_of_Z 3) page_log
         (DemoCanvas.gl_effect true (DemoCanvas.init (mkFrames [] 1) (mkWorld [] [] [])))).

Lemma canvas_shows_dots_witness : shows_scene DEFAULT_DOT_STATE sample_canvas.
Proof.
  refine (proj1 (canvas_shows_dots (G := sample_gl) (fun x => x) (fun x => x) (num_of_Z 3) (mkFrames [] 1)
    (mkWorld [] [] []) sample_canvas _ _)).
  - vm_compute. reflexivity.
  - vm_compute. discriminate.
Defined.
