(* ===== verification/DemoPage.v ===== *)
(** * The page of the demo client

    [DemoPage.tsx] with [ChatBox.tsx], [common/Button.tsx] and the connection
    form of [ConnectionStateComponent.tsx]. The state of the page is what its
    React state and effects hold: the log lines, the current connection, the
    dots, the sockets whose handlers the page has installed and the ping timer.
    Events of the user, of the sockets and of the timer are steps on it. *)

From S2P Require Import Prelude JsPlatform FlatBuffers HelloMessages Log Connection Renderer.

(** ** [mapColor] *)
Definition mapColor (color : Z) : list Z :=
  match Color.of_number color with
  | Some Color.Blue => COLORS.Blue
  | Some Color.FireOrange => COLORS.FireOrange
  | Some Color.Green => COLORS.Green
  | Some Color.Indigo => COLORS.Indigo
  | Some Color.Red | None => COLORS.Red
  end.

(** ** Reading a server message *)

(** A possibly null string in a template string. *)
Definition show_text (t : option text) : jsstring :=
  match t with
  | Some (Str s) => s
  | Some (Utf8 bs) => text_decode bs
  | None => js "null"
  end.

(** What the page does with a message. *)
Inductive reaction : Type :=
| ChatLine (msg : jsstring)
| GameDots (dots : list DemoRenderer.instance)
| Unexpected.

Section messages.
Context `{FB : FlatBuffers}.

(** [serverMessage.message(new X()) as X]: a member that is null is used as an
    [X] all the same, and throws when it is. *)
Definition member (r : option (fbtable ByteBuffer)) : fbtable ByteBuffer := default (mkTable None 0) r.

(** One turn of the loop over the dots. *)
Definition read_dot (gameState : fbtable ByteBuffer) (dotIdx : Z) : outcome exn (list DemoRenderer.instance) :=
  dot ← ServerGameStateMessage.dots gameState dotIdx None;
  match dot with
  | None => Ret []
  | Some d =>
      c ← Dot.color d; r ← Dot.radius d; x ← Dot.x d; y ← Dot.y d;
      Ret [DemoRenderer.mkInstance x y r (mapColor c)]
  end.

Fixpoint read_dots (gameState : fbtable ByteBuffer) (dotIdx : Z) (count : nat) :
    outcome exn (list DemoRenderer.instance) :=
  match count with
  | O => Ret []
  | S k =>
      d ← read_dot gameState dotIdx;
      ds ← read_dots gameState (dotIdx + 1) k;
      Ret (d ++ ds)
  end.

(** The body of both receive paths (a WebSocket message, a WebTransport datagram). *)
Definition read_message (data : Uint8Array) : outcome exn reaction :=
  let serverMessage := ServerMessage.getRootAsServerMessage (new_ByteBuffer data) None in
  type ← ServerMessage.messageType serverMessage;
  match Message.of_number type with
  | Some Message.ServerChatMessage =>
      gameMessage ← ServerMessage.message serverMessage ServerChatMessage.new;
      user ← ServerChatMessage.user (member gameMessage) None;
      text ← ServerChatMessage.text (member gameMessage) None;
      Ret (ChatLine (js "[" ++ show_text user ++ js "]: " ++ show_text text))
  | Some Message.ServerGameStateMessage =>
      gameState ← ServerMessage.message serverMessage ServerGameStateMessage.new;
      dotsCt ← ServerGameStateMessage.dotsLength (member gameState);
      ds ← read_dots (member gameState) 0 (Z.to_nat dotsCt);
      Ret (GameDots ds)
  | _ => Ret Unexpected
  end.

(** ** Writing client messages *)
Definition click_message (x y : number) : stm Builder exn Uint8Array :=
  pClickMessage ← UserClickMessage.createUserClickMessage x y;
  pClientMessage ← ClientMessage.createClientMessage UserMessage.UserClickMessage pClickMessage;
  ClientMessage.finishClientMessageBuffer pClientMessage ≫= fun _ =>
  asUint8Array.

Definition chat_message (chat : jsstring) : stm Builder exn Uint8Array :=
  pChatString ← createString (Str chat);
  pChatMessage ← UserChatMessage.createUserChatMessage pChatString;
  pClientMessage ← ClientMessage.createClientMessage UserMessage.UserChatMessage pChatMessage;
  ClientMessage.finishClientMessageBuffer pClientMessage ≫= fun _ =>
  asUint8Array.

Definition ping_message : stm Builder exn Uint8Array :=
  pPingMessage ← UserPingMessage.createUserPingMessage;
  pClientMessage ← ClientMessage.createClientMessage UserMessage.UserPingMessage pPingMessage;
  ClientMessage.finishClientMessageBuffer pClientMessage ≫= fun _ =>
  asUint8Array.
End messages.

(** ** The page *)
(** The transport object: WebSocket or WebTransport, and which one. *)
Inductive transport : Type := Socket (id : Z) | Session (id : Z).
#[global] Instance transport_eq_dec : EqDecision transport.
Proof. solve_decision. Defined.

Definition conn_transport (c : Connection) : transport :=
  match c with WebsocketConnection id _ => Socket id | WebtransportConnection id _ => Session id end.

#[global] Instance Connection_eq_dec : EqDecision Connection.
Proof. solve_decision. Defined.

(** Calls on the transports. *)
Inductive call : Type :=
| CSend (tr : transport) (payload : list Z)   (** [ws.send] or [writer.write] *)
| CClose (tr : transport)                     (** [close] of the transport *)
| CAbort (tr : transport).                    (** [writer.abort] *)

Record page : Type := mkPage {
  lines : list (jsstring * LogLevel);
  console_calls : list console_call;
  connection : option Connection;
  dots : option (list DemoRenderer.instance);
  hooked : list transport;             (** transports whose handlers the page has set *)
  reading : list transport;            (** sessions whose read loop is running *)
  timer : option Connection;           (** the connection the ping interval sends on *)
  calls : list call
}.

#[global] Instance page_console : Console page := fun c p =>
  mkPage (lines p) (console_calls p ++ [c]) (connection p) (dots p) (hooked p) (reading p) (timer p) (calls p).

Definition page0 : page := mkPage [] [] None None [] [] None [].

Definition LogFn : LogCb page := fun msg level p =>
  let logLevel := default Info level in
  let p := DefaultLogCb msg (Some logLevel) p in
  let p := console (console_log msg) p in
  mkPage (lines p ++ [(msg, logLevel)]) (console_calls p) (connection p) (dots p) (hooked p) (reading p) (timer p) (calls p).

Definition log : LogCb page := WrapLogFn (js "DemoPage") LogFn.

Definition setDots (d : option (list DemoRenderer.instance)) (p : page) : page :=
  mkPage (lines p) (console_calls p) (connection p) d (hooked p) (reading p) (timer p) (calls p).

Definition emit (c : call) (p : page) : page :=
  mkPage (lines p) (console_calls p) (connection p) (dots p) (hooked p) (reading p) (timer p) (calls p ++ [c]).

Definition stop_reading (tr : transport) (p : page) : page :=
  mkPage (lines p) (console_calls p) (connection p) (dots p) (hooked p)
    (List.filter (fun tr' => negb (bool_decide (tr' = tr))) (reading p)) (timer p) (calls p).

(** The clean-up functions of the two effects that depend on the connection. *)
Definition cleanup (p : page) : page :=
  match connection p with
  | None => p
  | Some c =>
      let p := emit (CClose (conn_transport c)) (setDots None p) in
      mkPage (lines p) (console_calls p) (connection p) (dots p) (hooked p) (reading p) None (calls p)
  end.

(** The effects themselves: install the handlers, start the ping interval. *)
Definition run_effects (p : page) : page :=
  match connection p with
  | None => p
  | Some c =>
      let tr := conn_transport c in
      mkPage (lines p) (console_calls p) (connection p) (dots p) (tr :: hooked p)
        (match tr with Session _ => tr :: reading p | Socket _ => reading p end) (Some c) (calls p)
  end.

(** [setConnection]: when the state changes, the page renders again, the effects
    of the old connection are cleaned up and those of the new one are run. *)
Definition setConnection (c : option Connection) (p : page) : page :=
  if decide (c = connection p) then p
  else
    let p := cleanup p in
    run_effects (mkPage (lines p) (console_calls p) c (dots p) (hooked p) (reading p) (timer p) (calls p)).

Section page.
Context `{FB : FlatBuffers}.
Context (show_jsval : jsval -> jsstring).

Definition react (r : reaction) (p : page) : page :=
  match r with
  | ChatLine msg => LogFn msg (Some UserChat) p
  | GameDots ds => setDots (Some ds) p
  | Unexpected => log (js "Unexpected server message type, cannot process") (Some Warning) p
  end.

(** The message handler of a WebSocket: an exception leaves the page as it is. *)
Definition ws_receive (data : Uint8Array) (p : page) : page :=
  match read_message data with Ret r => react r p | Throw _ => p end.

(** One turn of the read loop of a WebTransport session: an exception ends it. *)
Definition wt_receive (tr : transport) (data : Uint8Array) (p : page) : page :=
  match read_message data with Ret r => react r p | Throw _ => stop_reading tr p end.

(** Build a message in a fresh builder and send it on a connection. *)
Definition send_on (c : Connection) (m : stm Builder exn Uint8Array) (p : page) : page :=
  match fst (m (new_Builder 64)) with
  | Ret payload => emit (CSend (conn_transport c) (u8_bytes payload)) p
  | Throw _ => p
  end.

Definition onClickCanvas (x y : number) (p : page) : page :=
  match connection p with None => p | Some c => send_on c (click_message x y) p end.

Definition onSubmitChat (chat : jsstring) (p : page) : page :=
  match connection p with None => p | Some c => send_on c (chat_message chat) p end.

Definition ping (p : page) : page :=
  match timer p with None => p | Some c => send_on c ping_message p end.

(** ** Events *)
Inductive event : Type :=
| SetConnection (c : option Connection)       (** the connection form *)
| Click (x y : number)
| Chat (msg : jsstring)
| Ping                                        (** the interval fires *)
| WsMessage (id : Z) (data : list Z)          (** an ArrayBuffer arrives *)
| WsOther (id : Z)                            (** a message that is not one *)
| WsClosed (id : Z)
| WtRead (id : Z) (value : Uint8Array)
| WtReadEnd (id : Z)                          (** the stream is done *)
| WtAbortFailed (id : Z) (e : jsval)
| WtClosed (id : Z)
| WtClosedWith (id : Z) (e : jsval).

(** The handlers of transports the page has never used do not exist. *)
Definition handled (tr : transport) (f : page -> page) (p : page) : page :=
  if bool_decide (tr ∈ hooked p) then f p else p.

(** The read loop acts only while it runs. *)
Definition looping (tr : transport) (f : page -> page) (p : page) : page :=
  if bool_decide (tr ∈ reading p) then f p else p.

Definition step (ev : event) (p : page) : page :=
  match ev with
  | SetConnection c => setConnection c p
  | Click x y => onClickCanvas x y p
  | Chat msg => onSubmitChat msg p
  | Ping => ping p
  | WsMessage id data => handled (Socket id) (ws_receive (u8_of_buffer data)) p
  | WsOther id => handled (Socket id) (log (js "Non-ArrayBuffer for websocket message!") (Some Warning)) p
  | WsClosed id =>
      handled (Socket id) (fun p =>
        setConnection None (log (js "Spanreed connection is closing!") (Some Info) p)) p
  | WtRead id value => looping (Session id) (wt_receive (Session id) value) p
  | WtReadEnd id => looping (Session id) (fun p => emit (CAbort (Session id)) (stop_reading (Session id) p)) p
  | WtAbortFailed id e =>
      handled (Session id) (log (js "Writable stream abort error: " ++ show_jsval e) (Some Error)) p
  | WtClosed id =>
      handled (Session id) (fun p =>
        setConnection None (log (js "Spanreed connection is closing naturally") (Some Info) p)) p
  | WtClosedWith id e =>
      handled (Session id) (fun p => setConnection None
        (log (js "Spanreed connection closed with error: " ++ show_jsval e) (Some Error) p)) p
  end.

Definition run (evs : list event) (p : page) : page := fold_left (fun p ev => step ev p) evs p.
End page.

(** ** [ChatBox.tsx] and [Button.tsx] *)

(** [onClick={() => !disabled && onClick?.()}] *)
Definition Button_click {S} (disabled : bool) (onClick : option (S -> S)) (s : S) : S :=
  if disabled then s else match onClick with Some f => f s | None => s end.

Module ChatBox.
(** The text typed so far, and the messages handed to [onSubmit]. *)
Record t : Type := mk { chatMsg : jsstring; submitted : list jsstring }.

Definition onChange (value : jsstring) (b : t) : t := mk value (submitted b).
Definition submit (b : t) : t := mk [] (submitted b ++ [chatMsg b]).
Definition onKeyDown (key : jsstring) (b : t) : t := if bool_decide (key = js "Enter") then submit b else b.
Definition onClick (b : t) : t := Button_click (zlen (chatMsg b) =? 0) (Some submit) b.
End ChatBox.

(** ** [ConnectionStateComponent.tsx]: the form *)
Module Setup.
Record t : Type := mk {
  loading : bool;
  leftSelected : bool;
  userName : jsstring;
  spanUrl : jsstring;
  destUrl : jsstring
}.

Definition init : t :=
  mk false true (js "Sessamekesh") (js "ws://localhost:3000/ws") (js "udp:localhost:30001").

(** Inputs keep their value while a connection is being made. *)
Definition onChangeUserName (v : jsstring) (s : t) : t :=
  mk (loading s) (leftSelected s) (if loading s then userName s else v) (spanUrl s) (destUrl s).
Definition onChangeSpanUrl (v : jsstring) (s : t) : t :=
  mk (loading s) (leftSelected s) (userName s) (if loading s then spanUrl s else v) (destUrl s).
Definition onChangeDestUrl (v : jsstring) (s : t) : t :=
  mk (loading s) (leftSelected s) (userName s) (spanUrl s) (if loading s then destUrl s else v).
Definition onToggle (s : t) : t :=
  mk (loading s) (negb (leftSelected s)) (userName s) (spanUrl s) (destUrl s).

Definition setLoading (b : bool) (s : t) : t :=
  mk b (leftSelected s) (userName s) (spanUrl s) (destUrl s).

Definition log : LogCb page := WrapLogFn (js "SetupConnectionComponent") LogFn.

(** The call [onClickConnect] makes: which transport, and its arguments. *)
Inductive attempt : Type :=
| TryWebsocket (spanUrl destUrl userName : jsstring)
| TryWebtransport (spanUrl destUrl userName : jsstring).

(** What an attempt logs: it is given the page's [LogFn] as its [logCb]. *)
Definition hear (out : list action) (p : page) : page :=
  fold_left (fun p a => match a with ALog msg level => LogFn msg level p | ASend _ | AClose => p end) out p.

(** [onClickConnect], up to the [await], with the first part of [connectWebsocket] (that of [connectWebtransport]
    logs nothing); the button is disabled while loading. [ws_url_ok] is that of the [WebSocket] constructor. *)
Definition onClickConnect (ws_url_ok : jsstring -> bool) (s : t * page) : option attempt * (t * page) :=
  let '(f, p) := s in
  if loading f then (None, s)
  else
    let p := log (js "Attempting to connect...") None p in
    if leftSelected f
    then (Some (TryWebsocket (spanUrl f) (destUrl f) (userName f)),
          (setLoading true f, hear (snd (Ws.start (spanUrl f) (userName f) ws_url_ok)) p))
    else (Some (TryWebtransport (spanUrl f) (destUrl f) (userName f)), (setLoading true f, p)).

(** [e instanceof Error ? e.message : typeof e === 'string' ? e : '<unknown>'];
    exceptions of the platform and of the library are [Error]s, with a message of
    their own. *)
Definition error_text (exn_message : exn -> jsstring) (e : jsval) : jsstring :=
  match e with
  | VError m => m
  | VExn x => exn_message x
  | VString m => m
  | VOther _ => js "<unknown>"
  end.

(** After the [await]: the promise was fulfilled or rejected. *)
Definition settled (exn_message : exn -> jsstring) (a : attempt) (r : sum Connection jsval) (s : t * page) : t * page :=
  let '(f, p) := s in
  match r, a with
  | inl (WebsocketConnection id u), TryWebsocket _ _ _ =>
      (setLoading false f, setConnection (Some (WebsocketConnection id u)) p)
  | inl (WebtransportConnection id u), TryWebtransport _ _ _ =>
      (setLoading false f, setConnection (Some (WebtransportConnection id u)) p)
  | inl _, TryWebsocket _ _ _ => (f, log (js "Not a WebSocket connection!") (Some Warning) p)
  | inl _, TryWebtransport _ _ _ => (f, log (js "Not a WebTransport connection!") (Some Warning) p)
  | inr e, TryWebsocket _ _ _ =>
      (setLoading false f,
       log (js "Error connecting to WebSocket! " ++ error_text exn_message e) (Some Error) p)
  | inr e, TryWebtransport _ _ _ =>
      (setLoading false f,
       log (js "Error connecting to WebTransport! " ++ error_text exn_message e) (Some Error) p)
  end.

(** The status line's button. *)
Definition onClickClose (p : page) : page := setConnection None p.
End Setup.
