(* ===== verification/DemoPageTheorems.v ===== *)
(** * The page of the demo client: theorems

    What the page shows for the messages a server sends, what it sends for what
    the user does, how it keeps its connections, and the connection form. *)

From S2P Require Import Prelude JsPlatform FlatBuffers FbTables FbReference HelloMessages HelloCodec.
From S2P Require Import Log Connection ConnectionTheorems Renderer DemoPage.

(** ** Reading *)

(** The string a text field shows in a template string. *)
Definition shown_text (s : option text) : jsstring := show_text (text_as None <$> (text_bytes <$> s)).

Definition dot_instance (d : dot) : DemoRenderer.instance :=
  DemoRenderer.mkInstance (fround (dot_x d)) (fround (dot_y d)) (fround (dot_radius d)) (mapColor (dot_color d)).

Definition reaction_of (m : server_message) : reaction :=
  match m with
  | SNone => Unexpected
  | SChat user text => ChatLine (js "[" ++ shown_text user ++ js "]: " ++ shown_text text)
  | SGameState ds => GameDots (map dot_instance ds)
  end.

Section reading.
#[local] Set Default Proof Using "Type*".
Context {FB : FlatBuffers}.

Lemma read_dot_reads t i d :
  (exists td, ServerGameStateMessage.dots t i None = Ret (Some td) /\ reads_Dot td d) ->
  read_dot t i = Ret [dot_instance d].
Proof.
  intros (td & Hd & Hx & Hy & Hr & Hc). unfold read_dot. rewrite Hd. cbn -[Dot.color Dot.radius Dot.x Dot.y].
  rewrite Hc. cbn -[Dot.radius Dot.x Dot.y]. rewrite Hr. cbn -[Dot.x Dot.y]. rewrite Hx. cbn -[Dot.y].
  by rewrite Hy.
Qed.

Lemma read_dots_reads t ds : forall i,
  (forall k d, ds !! k = Some d ->
     exists td, ServerGameStateMessage.dots t (i + Z.of_nat k) None = Ret (Some td) /\ reads_Dot td d) ->
  read_dots t i (length ds) = Ret (map dot_instance ds).
Proof.
  induction ds as [|d ds IH]; intros i H; [done|]. cbn [read_dots length map].
  rewrite (read_dot_reads t i d) by (rewrite <- (Z.add_0_r i); by apply (H 0%nat)).
  cbn [mbind outcome_bind]. rewrite IH; [done|]. intros k e Hk.
  replace (i + 1 + Z.of_nat k) with (i + Z.of_nat (S k)) by lia. by apply H.
Qed.

Lemma read_message_reads data m :
  reads_ServerMessage (ServerMessage.getRootAsServerMessage (new_ByteBuffer data) None) m ->
  read_message data = Ret (reaction_of m).
Proof.
  set (t := ServerMessage.getRootAsServerMessage _ _). intros (Htype & _ & Hmember).
  unfold read_message. fold t. rewrite Htype. destruct m as [|user text|ds]; [done| |].
  - destruct (Hmember ServerChatMessage.new) as (res & Hres & t' & -> & Hread).
    cbn -[ServerMessage.message ServerChatMessage.user ServerChatMessage.text t]. rewrite Hres.
    destruct (Hread None) as [Hu Ht]. cbn -[ServerChatMessage.user ServerChatMessage.text].
    rewrite Hu. cbn -[ServerChatMessage.text]. by rewrite Ht.
  - destruct (Hmember ServerGameStateMessage.new) as (res & Hres & t' & -> & Hlen & Hdots).
    cbn -[ServerMessage.message ServerGameStateMessage.dotsLength read_dots t]. rewrite Hres.
    cbn -[ServerGameStateMessage.dotsLength read_dots]. rewrite Hlen. cbn -[read_dots].
    unfold zlen. rewrite Nat2Z.id, read_dots_reads; [done|]. intros k d Hk. by apply Hdots.
Qed.
End reading.

(** ** Connections *)

(** Nothing is sent on a transport after it has been closed. *)
Definition orderly (l : list call) : Prop :=
  forall a tr x b, l = a ++ CSend tr x :: b -> CClose tr ∉ a.

Lemma orderly_snoc l c :
  orderly l -> match c with CSend tr _ => CClose tr ∉ l | _ => True end -> orderly (l ++ [c]).
Proof.
  intros Hl Hc a tr x b Heq. destruct b as [|y b _] using rev_ind.
  - apply app_inj_tail in Heq as [-> ->]. exact Hc.
  - change (a ++ CSend tr x :: b ++ [y]) with (a ++ (CSend tr x :: b) ++ [y]) in Heq.
    rewrite app_assoc in Heq. apply app_inj_tail in Heq as [-> _]. by eapply Hl.
Qed.

(** The part of the page that concerns transports. *)
Definition core (p : page) : option Connection * list transport * option Connection * list call :=
  (connection p, hooked p, timer p, calls p).

(** The ping timer follows the connection; the current transport is set up and
    open; every other transport the page has used has been closed. *)
Definition tidy (p : page) : Prop :=
  timer p = connection p /\
  (forall c, connection p = Some c -> conn_transport c ∈ hooked p /\ CClose (conn_transport c) ∉ calls p) /\
  (forall tr, tr ∈ hooked p -> conn_transport <$> connection p = Some tr \/ CClose tr ∈ calls p) /\
  (forall tr, CClose tr ∈ calls p -> tr ∈ hooked p) /\
  orderly (calls p).

Lemma tidy_core p p' : core p = core p' -> tidy p -> tidy p'.
Proof. unfold core, tidy. intros [= -> -> -> ->]. done. Qed.

Lemma core_LogFn msg level p : core (LogFn msg level p) = core p.
Proof. unfold LogFn, DefaultLogCb. by destruct (default Info level). Qed.

Lemma core_log msg level p : core (log msg level p) = core p.
Proof. apply core_LogFn. Qed.

Lemma tidy_cleanup p c :
  tidy p -> c <> connection p ->
  let q := cleanup p in
  let q := mkPage (lines q) (console_calls q) None (dots q) (hooked q) (reading q) (timer q) (calls q) in
  tidy q /\ hooked q = hooked p.
Proof.
  intros (Ht & Hcur & Hall & Hcl & Hord) Hne. unfold cleanup. destruct (connection p) as [old|] eqn:E; cbn in *.
  - destruct (Hcur old eq_refl) as [Hin Hnot]. split; [|done]. unfold tidy. cbn. split_and!.
    + done.
    + done.
    + intros tr Htr. right. rewrite elem_of_app, list_elem_of_singleton.
      destruct (Hall tr Htr) as [[= ->]|Hc]; [by right | by left].
    + intros tr Hc. rewrite elem_of_app, list_elem_of_singleton in Hc. destruct Hc as [Hc|[= ->]]; [by apply Hcl | done].
    + by apply orderly_snoc.
  - split; [|done]. unfold tidy. cbn. split_and!; try done.
Qed.

(** A connection the form hands over is a new one. *)
Definition fresh_for (ev : event) (p : page) : Prop :=
  match ev with SetConnection (Some c) => conn_transport c ∉ hooked p | _ => True end.

Lemma tidy_setConnection c p :
  tidy p -> (forall c', c = Some c' -> conn_transport c' ∉ hooked p) -> tidy (setConnection c p).
Proof.
  intros Hp Hfresh. unfold setConnection. case_decide as Hd; [done|].
  destruct (tidy_cleanup p c Hp Hd) as [(_ & _ & Hall & Hcl & Hord) Hh]. cbn in *.
  destruct c as [c|]; unfold run_effects; cbn.
  - specialize (Hfresh c eq_refl). unfold tidy. cbn. rewrite Hh in *. split_and!.
    + done.
    + intros c' [= <-]. split; [by left|]. intros Hc. by apply Hfresh, Hcl.
    + intros tr Htr. apply elem_of_cons in Htr as [->|Htr]; [by left|].
      destruct (Hall tr Htr); [done | by right].
    + intros tr Hc. right. by apply Hcl.
    + done.
  - unfold tidy. cbn. split_and!; try done. unfold cleanup. destruct (connection p) eqn:E; [done|].
    cbn. by destruct Hp as [-> _].
Qed.

Section connections.
#[local] Set Default Proof Using "Type*".
Context `{FB : FlatBuffers} (show_jsval : jsval -> jsstring).

Lemma tidy_emit p c :
  tidy p -> (match c with CSend tr _ => conn_transport <$> connection p = Some tr | CClose _ => False | CAbort _ => True end) ->
  tidy (emit c p).
Proof.
  intros (Ht & Hcur & Hall & Hcl & Hord) Hc. unfold tidy. cbn. split_and!; try done.
  - intros c' Hc'. destruct (Hcur c' Hc') as [Hin Hnot]. split; [done|].
    rewrite elem_of_app, list_elem_of_singleton. intros [?|<-]; done.
  - intros tr Htr. destruct (Hall tr Htr) as [?|?]; [by left | right]. apply elem_of_app. by left.
  - intros tr Htr. rewrite elem_of_app, list_elem_of_singleton in Htr. destruct Htr as [?|<-]; [by apply Hcl | done].
  - apply orderly_snoc; [done|]. destruct c as [tr x|tr|tr]; try done.
    destruct (connection p) as [c'|] eqn:E; [|done]. injection Hc as <-. by apply Hcur.
Qed.

Lemma tidy_send_on p c m : tidy p -> connection p = Some c -> tidy (send_on c m p).
Proof.
  intros Hp Hc. unfold send_on. destruct (fst _); [|done]. apply tidy_emit; [done|]. by rewrite Hc.
Qed.

Lemma tidy_react r p : tidy p -> tidy (react r p).
Proof. apply tidy_core. by destruct r; cbn [react]; rewrite ?core_LogFn, ?core_log. Qed.

Lemma tidy_step ev p : tidy p -> fresh_for ev p -> tidy (step show_jsval ev p).
Proof.
  intros Hp Hf.
  assert (forall tr f, (forall q, tidy q -> tidy (f q)) -> tidy (handled tr f p)) as Hh.
  { intros tr f H. unfold handled. case_bool_decide; auto. }
  assert (forall tr f, (forall q, tidy q -> tidy (f q)) -> tidy (looping tr f p)) as Hlp.
  { intros tr f H. unfold looping. case_bool_decide; auto. }
  assert (forall q, tidy q -> tidy (setConnection None q)) as Hnone.
  { intros q Hq. by apply tidy_setConnection. }
  assert (forall msg level q, tidy q -> tidy (log msg level q)) as Hlog.
  { intros msg level q. apply tidy_core. by rewrite core_log. }
  destruct ev; cbn [step].
  - apply tidy_setConnection; [done|]. by intros c' ->.
  - unfold onClickCanvas. destruct (connection p) eqn:E; [by apply tidy_send_on | done].
  - unfold onSubmitChat. destruct (connection p) eqn:E; [by apply tidy_send_on | done].
  - unfold ping. destruct Hp as [Ht Hp]. destruct (timer p) as [c|] eqn:E; [|split; congruence].
    apply tidy_send_on; [by split; [congruence|]|congruence].
  - apply Hh. intros q Hq. unfold ws_receive. destruct (read_message _); [by apply tidy_react | done].
  - apply Hh. auto.
  - apply Hh. auto.
  - apply Hlp. intros q Hq. unfold wt_receive. destruct (read_message _); [by apply tidy_react | by eapply tidy_core].
  - apply Hlp. intros q Hq. apply tidy_emit; [by eapply tidy_core | done].
  - apply Hh. auto.
  - apply Hh. auto.
  - apply Hh. auto.
Qed.

(** The states the page can get into. *)
Inductive reachable : page -> Prop :=
| reach_init : reachable page0
| reach_step p ev : reachable p -> fresh_for ev p -> reachable (step show_jsval ev p).

(** C8: in every state the page can reach, whatever the user, the transports and
    the timer do: the ping timer belongs to the current connection, the current
    transport is set up and has not been closed, every other transport the page
    has used has been closed, and nothing was ever sent on a transport after it
    was closed. *)
Theorem page_connections_tidy p : reachable p -> tidy p.
Proof.
  induction 1 as [|p ev _ IH Hf]; [|by apply tidy_step].
  unfold tidy, page0. cbn. split_and!; try done; try (intros tr Htr; by apply elem_of_nil in Htr).
  intros a tr x b Heq. by destruct a.
Qed.

(** A page whose user closed connection 1 and opened connection 2 loses
    connection 2 when the close event of the first socket arrives: the handler
    was not removed, and it clears whatever connection is current. The new
    transport is closed although nothing happened to it. *)
Theorem stale_close_drops_connection id1 id2 u1 u2 :
  id1 <> id2 ->
  let p := run show_jsval [SetConnection (Some (WebsocketConnection id1 u1)); SetConnection None;
                           SetConnection (Some (WebsocketConnection id2 u2))] page0 in
  connection p = Some (WebsocketConnection id2 u2) /\
  connection (step show_jsval (WsClosed id1) p) = None /\
  CClose (Socket id2) ∈ calls (step show_jsval (WsClosed id1) p).
Proof.
  intros Hne p. assert (p = mkPage [] [] (Some (WebsocketConnection id2 u2)) None [Socket id2; Socket id1] []
    (Some (WebsocketConnection id2 u2)) [CClose (Socket id1)]) as ->.
  { subst p. unfold run, fold_left, step, setConnection. by repeat (case_decide; cbn in *; try done). }
  unfold step, handled. rewrite bool_decide_eq_true_2 by (right; left). cbn. split_and!; try done.
  apply elem_of_app. right. by left.
Qed.
End connections.

(** ** Messages *)
Section messages.
#[local] Set Default Proof Using "Type*".
Context {FB : FlatBuffers} {FL : FlatBuffersLaws FB} (show_jsval : jsval -> jsstring).

(** What a server message changes on the page. *)
Definition page_after (m : server_message) (p p' : page) : Prop :=
  core p' = core p /\ reading p' = reading p /\
  match m with
  | SNone => lines p' = lines p ++ [(js "[DemoPage] Unexpected server message type, cannot process", Warning)] /\
             dots p' = dots p
  | SChat user text =>
      lines p' = lines p ++ [(js "[" ++ shown_text user ++ js "]: " ++ shown_text text, UserChat)] /\
      dots p' = dots p
  | SGameState ds => lines p' = lines p /\ dots p' = Some (map dot_instance ds)
  end.

Lemma react_page_after m p : page_after m p (react (reaction_of m) p).
Proof. by destruct m. Qed.

Lemma encoded_message_read n m :
  0 < n -> server_message_ok m -> server_size m + 300 <= fb_limit ->
  wp (encodeServerMessage m false) (new_Builder n) (fun u _ =>
    u8_wf u /\ forall u', u8_wf u' -> u8_bytes u' = u8_bytes u -> read_message u' = Ret (reaction_of m)).
Proof.
  intros Hn Hok Hsz. pose proof (Rep_new n Hn) as HR. pose proof (server_size_nonneg m). apply wp_bind.
  eapply buildServerMessage_spec; [done | | done | apply Z.le_refl |]; [fb_arith|].
  intros o b l HR1 G SO. eapply wp_mono; [eapply (finish_roundtrip b l o false _ HR1); [fb_arith | exact SO]|].
  intros u b' [Hwf Hdec]. split; [done|]. intros u' Hwf' Hb. apply read_message_reads. exact (Hdec u' Hwf' Hb).
Qed.

(** C23: when the bytes of a server message arrive on a transport the page uses,
    over a WebSocket or as a datagram of a running WebTransport read loop, a chat
    message adds exactly one chat line with its user and text, a game state
    replaces the dots by those of the message, in order, with mapped colors, and
    any other type adds a warning; nothing else changes. *)
Theorem page_shows_server_message n m p id :
  0 < n -> server_message_ok m -> server_size m + 300 <= fb_limit ->
  wp (encodeServerMessage m false) (new_Builder n) (fun u _ =>
    (Socket id ∈ hooked p -> page_after m p (step show_jsval (WsMessage id (u8_bytes u)) p)) /\
    (Session id ∈ reading p -> page_after m p (step show_jsval (WtRead id u) p))).
Proof.
  intros Hn Hok Hsz. eapply wp_mono; [by apply encoded_message_read|].
  intros u b' [Hwf Hread]. split; intros Hin; cbn [step]; unfold handled, looping;
    rewrite bool_decide_eq_true_2 by done; unfold ws_receive, wt_receive.
  - rewrite Hread; [apply react_page_after | | apply u8_of_buffer_bytes].
    apply u8_of_buffer_wf. by apply Forall_take, Forall_drop, Hwf.
  - rewrite Hread by done. apply react_page_after.
Qed.

(** [payload] is a [ClientMessage] with content [m]. *)
Definition carries (m : user_message) (payload : list Z) : Prop :=
  Forall is_byte payload /\
  forall u, u8_wf u -> u8_bytes u = payload ->
    reads_ClientMessage (ClientMessage.getRootAsClientMessage (new_ByteBuffer u) None) m.

Definition sends (build : stm Builder exn Uint8Array) (m : user_message) : Prop :=
  exists payload, carries m payload /\ zlen payload <= zlen (user_text m) + 200 /\
    (exists u, fst (build (new_Builder 64)) = Ret u /\ u8_bytes u = payload) /\
    forall c p, send_on c build p = emit (CSend (conn_transport c) payload) p.

(** From the offset of the member to the finished buffer. *)
Lemma member_sends b l m pM :
  Rep b l -> ready l 100 -> used l <= zlen (user_text m) + 100 -> member_off l pM (reads_user_message m) ->
  wp (o ← ClientMessage.createClientMessage (user_type m) pM;
      ClientMessage.finishClientMessageBuffer o ≫= fun _ => asUint8Array) b
    (fun u _ => carries m (u8_bytes u) /\ zlen (u8_bytes u) <= zlen (user_text m) + 200).
Proof.
  intros HR Hrd Hmax OM. apply wp_bind.
  eapply (createClientMessage_spec b l m); [done | fb_arith | done |].
  intros o b1 l1 HR1 G SO. eapply wp_mono; [eapply (finish_shown b1 l1 o false _ HR1); [fb_arith | exact SO]|].
  intros u b2 (Hwf & Hlen & Hdec). split; [split|].
  - by apply Forall_take, Forall_drop, Hwf.
  - intros u' Hwf' Hb. exact (Hdec u' Hwf' Hb).
  - destruct Hwf as (? & ? & ? & _), G as (_ & _ & _ & ?). unfold u8_bytes. rewrite zlen_zslice; lia.
Qed.

Lemma sends_wp build m :
  wp build (new_Builder 64) (fun u _ => carries m (u8_bytes u) /\
    zlen (u8_bytes u) <= zlen (user_text m) + 200) -> sends build m.
Proof.
  intros (u & b & Hrun & Hc & Hl)%wp_run. exists (u8_bytes u). split_and!; [done | done | exists u; by rewrite Hrun |].
  intros c p. unfold send_on. by rewrite Hrun.
Qed.

(** The bound on what has been written. *)
Ltac payload_bound := cbn [user_text from_option text_bytes]; rewrite ?zlen_nil; used_bound.

Lemma click_sends x y : sends (click_message x y) (UClick x y).
Proof.
  apply sends_wp. pose proof (Rep_new 64 eq_refl) as HR. assert (1000 <= fb_limit) by (vm_compute; discriminate).
  apply wp_bind. eapply (build_user_message_spec _ lb_new (UClick x y) 64);
    [done | fb_arith | constructor | done |].
  intros pM b l HR1 G OM. by apply (member_sends b l (UClick x y)); [done | fb_arith | payload_bound | done].
Qed.

Lemma ping_sends : sends ping_message UPing.
Proof.
  apply sends_wp. pose proof (Rep_new 64 eq_refl) as HR. assert (1000 <= fb_limit) by (vm_compute; discriminate).
  apply wp_bind. eapply (build_user_message_spec _ lb_new UPing 64); [done | fb_arith | constructor | done |].
  intros pM b l HR1 G OM. by apply (member_sends b l UPing); [done | fb_arith | payload_bound | done].
Qed.

Lemma chat_sends chat : sendable chat -> sends (chat_message chat) (UChat (Some (Str chat))).
Proof.
  intros Hs. pose proof (sendable_bytes _ Hs) as Hb. destruct Hs as [_ Hlen].
  apply sends_wp. pose proof (Rep_new 64 eq_refl) as HR.
  assert (2 ^ 20 + 1000 <= fb_limit) by (vm_compute; discriminate).
  apply wp_bind. eapply (opt_string_spec _ lb_new (Some (Str chat)) (zlen (text_encode chat) + 16));
    [done | fb_arith | exact Hb | simpl; lia |].
  intros pS b1 l1 HR1 G1 OS.
  apply wp_bind. eapply (string_user_message_spec b1 l1 (Str chat) (fun s => UChat (Some s)));
    [by right | done | fb_arith | exact OS |].
  intros pM b2 l2 HR2 G2 OM. by apply (member_sends b2 l2 (UChat (Some (Str chat)))); [done | fb_arith | payload_bound | done].
Qed.

(** With a connection, a click on the canvas, a chat message and a turn of the
    ping timer each send exactly one payload on the transport of that connection
    and change nothing else, and the payload decodes to the click's coordinates,
    the chat text or a ping; without a connection nothing is sent. *)
Theorem page_sends_user_message p c ev m :
  connection p = Some c -> timer p = Some c ->
  (exists x y, ev = Click x y /\ m = UClick x y) \/
  (exists msg, ev = Chat msg /\ m = UChat (Some (Str msg)) /\ sendable msg) \/
  (ev = Ping /\ m = UPing) ->
  exists payload, carries m payload /\
    step show_jsval ev p = emit (CSend (conn_transport c) payload) p /\
    forall q, connection q = None -> timer q = None -> step show_jsval ev q = q.
Proof.
  intros Hc Ht Hev.
  assert (exists build, sends build m /\ step show_jsval ev p = send_on c build p /\
    forall q, connection q = None -> timer q = None -> step show_jsval ev q = q)
    as (build & (payload & Hcar & _ & _ & Hsend) & Hstep & Hnone).
  { destruct Hev as [(x & y & -> & ->)|[(msg & -> & -> & Hs)|[-> ->]]]; eexists; (split; [|split]).
    - apply (click_sends x y).
    - cbn [step]. unfold onClickCanvas. by rewrite Hc.
    - intros q Hq _. cbn [step]. unfold onClickCanvas. by rewrite Hq.
    - by apply (chat_sends msg).
    - cbn [step]. unfold onSubmitChat. by rewrite Hc.
    - intros q Hq _. cbn [step]. unfold onSubmitChat. by rewrite Hq.
    - apply ping_sends.
    - cbn [step]. unfold ping. by rewrite Ht.
    - intros q _ Hq. cbn [step]. unfold ping. by rewrite Hq. }
  exists payload. split_and!; [done | by rewrite Hstep | done].
Qed.
End messages.

(** ** The connection form *)
Section form.
#[local] Set Default Proof Using "Type*".
Context {FB : FlatBuffers} {FL : FlatBuffersLaws FB}.
Context (exn_message : exn -> jsstring) (ws_url_ok : jsstring -> bool) (id : Z).

(** How the promise of [connectWebsocket] is settled, if it is. *)
Definition ws_settled (s : Ws.state) : option (sum Connection jsval) :=
  match Ws.ph s with
  | Ws.Resolved c => Some (inl c)
  | Ws.Rejected e => Some (inr e)
  | _ => None
  end.

(** The lines an attempt adds to the page. *)
Definition logged (out : list action) : list (jsstring * LogLevel) :=
  flat_map (fun a => match a with ALog msg level => [(msg, default Info level)] | _ => [] end) out.

Lemma LogFn_lines msg level p :
  LogFn msg level p = mkPage (lines p ++ [(msg, default Info level)]) (console_calls (LogFn msg level p)) (connection p) (dots p)
    (hooked p) (reading p) (timer p) (calls p).
Proof using Type. unfold LogFn, DefaultLogCb. cbn. by destruct level as [[]|]. Qed.

Lemma hear_lines out p : lines (Setup.hear out p) = lines p ++ logged out /\ connection (Setup.hear out p) = connection p.
Proof using Type.
  unfold Setup.hear. revert p. induction out as [|[msg level|payload|] out IH]; intros p; [by rewrite app_nil_r|..]; cbn [fold_left].
  - destruct (IH (LogFn msg level p)) as [-> ->]. rewrite LogFn_lines. cbn. by rewrite <- app_assoc.
  - apply IH.
  - apply IH.
Qed.

Lemma hear_app out out' p : Setup.hear (out ++ out') p = Setup.hear out' (Setup.hear out p).
Proof using Type. apply fold_left_app. Qed.

(** What [connectWebsocket] logs on the way. *)
Definition opening_line (spanUrl userName : jsstring) : jsstring * LogLevel :=
  (js "[connectWebsocket] " ++ js "Attempting to open WebSocket connection on " ++ spanUrl ++ js " for userName=" ++
   userName ++ js "...", Debug).
Definition authorizing_line (payload : Uint8Array) : jsstring * LogLevel :=
  (js "[connectWebsocket] " ++ js "Connection opened! Attempting to authorize (payload size=" ++
   show_int (u8_length payload) ++ js ")...", Debug).
Definition success_line : jsstring * LogLevel :=
  (js "[connectWebsocket] Connection opened successfully! Messages may now be forwarded to the destination server through this WebSocket connection.",
   Debug).

Definition progress_lines (payload : Uint8Array) (pr : progress) : list (jsstring * LogLevel) :=
  match pr with
  | NotOpen | Refused false _ => []
  | Unanswered | Refused true _ => [authorizing_line payload]
  | Accepted => [authorizing_line payload; success_line]
  end.

Lemma logged_app out out' : logged (out ++ out') = logged out ++ logged out'.
Proof using Type. apply flat_map_app. Qed.

Section run_logs.
Context (dest user : jsstring).
Abbreviation run := (Ws.run dest user id).

Lemma logged_settled pr evs :
  match pr with Accepted | Refused _ _ => True | _ => False end ->
  logged (snd (run (ws_state user id pr) evs)) = [].
Proof. intros H. by rewrite run_settled. Qed.

Lemma logged_unanswered evs :
  logged (snd (run (ws_state user id Unanswered) evs)) =
  match ws_verdict evs with Accepted => [success_line] | _ => [] end.
Proof.
  induction evs as [|ev evs IH]; [done|]. rewrite ws_verdict_cons.
  destruct (step_unanswered dest user id ev) as (out & Hstep & _). rewrite (run_step _ _ _ _ _ _ _ _ Hstep). cbn [snd].
  rewrite logged_app.
  assert (logged out = match ws_verdict [ev] with Accepted => [success_line] | _ => [] end) as ->.
  { clear IH. destruct ev as [|e c|data|e]; cbn -[read_verdict js] in Hstep |- *;
      [| |destruct (read_verdict (u8_of_buffer data)) as [[reason|]|]|]; unfold Ws.reject_verdict, Ws.after_verdict in Hstep;
      apply (f_equal snd) in Hstep; cbn [snd] in Hstep; subst out; reflexivity. }
  destruct (ws_verdict [ev]) as [| | |sent e] eqn:E.
  - pose proof (ws_verdict_sent [ev]) as HE. by rewrite E in HE.
  - exact IH.
  - rewrite logged_settled by done. done.
  - rewrite logged_settled by done. done.
Qed.

Lemma logged_run payload evs :
  connect_payload dest user = Ret payload ->
  logged (snd (run (ws_state user id NotOpen) evs)) = progress_lines payload (ws_progress evs).
Proof.
  intros Hpay. induction evs as [|ev evs IH]; [done|]. destruct ev as [|e c|data|e].
  - erewrite run_step; [|cbn -[connect_payload]; unfold Ws.after_open; rewrite Hpay; reflexivity].
    change (Ws.mkState Ws.AwaitVerdict _ false true true) with (ws_state user id Unanswered).
    cbn [snd]. rewrite logged_app, logged_unanswered. cbn [ws_progress].
    pose proof (ws_verdict_sent evs). by destruct (ws_verdict evs) as [| | |[] ?].
  - rewrite (run_step _ _ _ _ _ _ (ws_state user id (ws_progress [Ws.ErrorEvent e c])) []) by done.
    cbn [snd app]. by rewrite logged_settled.
  - by rewrite (run_step _ _ _ _ _ _ (ws_state user id NotOpen) []) by done.
  - by rewrite (run_step _ _ _ _ _ _ (ws_state user id NotOpen) []) by done.
Qed.
End run_logs.

(** C33: the whole way from the button to a connection, with everything the page's console gets: the click starts one
    WebSocket attempt with the addresses and the name the form shows, blocks the form, and logs the attempt and, from
    inside the attempt, which gets the page's log function, the address it opens; when the socket opens the attempt logs
    that it authorizes, and it stays open exactly as long as the events do not decide it; when the verdict accepts, it
    logs the success and the page has the new connection, its handlers and its ping timer; when the attempt is
    refused, the page gets one error line with the reason and keeps having no connection. In both cases the form is
    usable again, and no other line is added. *)
Theorem form_connects f p :
  Setup.loading f = false -> Setup.leftSelected f = true -> connection p = None ->
  ws_url_ok (Setup.spanUrl f) = true -> sendable (Setup.destUrl f) -> sendable (Setup.userName f) ->
  exists payload, connect_payload (Setup.destUrl f) (Setup.userName f) = Ret payload /\
  let '(a, (f1, p1)) := Setup.onClickConnect ws_url_ok (f, p) in
  let attempt := Setup.TryWebsocket (Setup.spanUrl f) (Setup.destUrl f) (Setup.userName f) in
  a = Some attempt /\ Setup.loading f1 = true /\ connection p1 = None /\
  lines p1 = lines p ++ [(js "[SetupConnectionComponent] Attempting to connect...", Info);
                         opening_line (Setup.spanUrl f) (Setup.userName f)] /\
  forall evs,
    let '(ws, out) := Ws.run (Setup.destUrl f) (Setup.userName f) id
                        (fst (Ws.start (Setup.spanUrl f) (Setup.userName f) ws_url_ok)) evs in
    let p2 := Setup.hear out p1 in
    match ws_settled ws with
    | None => (ws_progress evs = NotOpen /\ lines p2 = lines p1) \/
              (ws_progress evs = Unanswered /\ lines p2 = lines p1 ++ [authorizing_line payload])
    | Some r =>
        let '(f', p') := Setup.settled exn_message attempt r (f1, p2) in
        Setup.loading f' = false /\ Setup.userName f' = Setup.userName f /\
        match ws_progress evs with
        | Accepted =>
            let c := WebsocketConnection id (Setup.userName f) in
            connection p' = Some c /\ timer p' = Some c /\ Socket id ∈ hooked p' /\
            lines p' = lines p1 ++ [authorizing_line payload; success_line]
        | Refused sent e =>
            connection p' = None /\
            lines p' = lines p1 ++ (if sent then [authorizing_line payload] else []) ++
              [(js "[SetupConnectionComponent] Error connecting to WebSocket! " ++ Setup.error_text exn_message e, Error)]
        | _ => False
        end
    end.
Proof.
  intros Hl Hleft Hc Hok Hd Hu. destruct (connect_payload_spec _ _ Hd Hu) as (payload & Hpay & _ & _).
  exists payload. split; [done|]. unfold Setup.onClickConnect. rewrite Hl, Hleft. cbv zeta.
  unfold Ws.start. rewrite Hok. cbn [fst snd].
  change (Ws.mkState Ws.AwaitOpen true true false false) with (ws_state (Setup.userName f) id NotOpen).
  set (p1 := Setup.hear _ _).
  assert (Hp1 : lines p1 = lines p ++ [(js "[SetupConnectionComponent] Attempting to connect...", Info);
      opening_line (Setup.spanUrl f) (Setup.userName f)] /\ connection p1 = None).
  { subst p1. destruct (hear_lines (Ws.log (js "Attempting to open WebSocket connection on " ++ Setup.spanUrl f ++
      js " for userName=" ++ Setup.userName f ++ js "...") (Some Debug) []) (Setup.log (js "Attempting to connect...") None p)) as [-> ->].
    cbn -[js]. rewrite <- app_assoc. done. }
  destruct Hp1 as [Hlines Hconn]. clearbody p1. split_and!; [done | done | done | done |]. intros evs.
  destruct (run_not_open (Setup.destUrl f) (Setup.userName f) id payload evs Hpay) as (out & Hrun & _).
  pose proof (logged_run _ _ _ evs Hpay) as Hlog. rewrite Hrun in Hlog |- *. cbn [snd] in Hlog.
  destruct (hear_lines out p1) as [Hl2 Hc2]. rewrite Hlog in Hl2. rewrite Hconn in Hc2.
  destruct (ws_progress evs) as [| | |sent e] eqn:E; cbn [progress_lines] in Hl2.
  - left. by rewrite app_nil_r in Hl2.
  - by right.
  - cbn -[Setup.hear js]. unfold setConnection. cbn -[Setup.hear js]. rewrite Hc2. cbn -[Setup.hear js].
    split_and!; try done; [by left|]. unfold cleanup. rewrite Hc2. exact Hl2.
  - assert (ws_settled (ws_state (Setup.userName f) id (Refused sent e)) = Some (inr e)) as -> by by destruct sent.
    cbn -[Setup.hear js]. rewrite Hc2, Hl2, <- app_assoc. by destruct sent.
Qed.

(** While an attempt is running the form keeps the name and the addresses it
    was started with, whatever is typed, and the button starts no second one;
    otherwise an input shows what is typed. *)
Theorem form_inputs_blocked f v p :
  (Setup.loading f = true ->
     Setup.onChangeUserName v f = f /\ Setup.onChangeSpanUrl v f = f /\ Setup.onChangeDestUrl v f = f /\
     Setup.onClickConnect ws_url_ok (f, p) = (None, (f, p))) /\
  (Setup.loading f = false ->
     Setup.userName (Setup.onChangeUserName v f) = v /\ Setup.spanUrl (Setup.onChangeSpanUrl v f) = v /\
     Setup.destUrl (Setup.onChangeDestUrl v f) = v).
Proof.
  split; intros Hl; destruct f; cbn in *; subst; done.
Qed.
End form.

(** The two ways to submit a chat message differ on an empty one: the button
    hands over the text only when there is one, the Enter key always does, so an
    empty chat message can be sent; both clear the input. *)
Theorem chat_box_submits b :
  ChatBox.submitted (ChatBox.onClick b) =
    ChatBox.submitted b ++ match ChatBox.chatMsg b with [] => [] | m => [m] end /\
  ChatBox.submitted (ChatBox.onKeyDown (js "Enter") b) = ChatBox.submitted b ++ [ChatBox.chatMsg b] /\
  ChatBox.chatMsg (ChatBox.onClick b) = [] /\ ChatBox.chatMsg (ChatBox.onKeyDown (js "Enter") b) = [].
Proof.
  destruct b as [[|u m] sub].
  - cbn. by rewrite app_nil_r.
  - unfold ChatBox.onClick, Button_click. cbn [ChatBox.chatMsg]. rewrite zlen_cons.
    replace (1 + zlen m =? 0) with false by (pose proof (zlen_nonneg m); lia). done.
Qed.

(** ** Witnesses *)
Lemma page_connections_tidy_witness :
  tidy (step (FB := FbRef) (fun _ => []) (SetConnection (Some (WebsocketConnection 1 sample_user))) page0).
Proof.
  apply (page_connections_tidy (FB := FbRef) (fun _ => [])). apply reach_step; [apply reach_init|].
  intros H. by apply elem_of_nil in H.
Defined.

Lemma stale_close_drops_connection_witness :
  connection (step (FB := FbRef) (fun _ => []) (WsClosed 1)
    (run (FB := FbRef) (fun _ => [])
      [SetConnection (Some (WebsocketConnection 1 sample_user)); SetConnection None;
       SetConnection (Some (WebsocketConnection 2 sample_user))] page0)) = None.
Proof.
  apply (stale_close_drops_connection (FB := FbRef) (fun _ => []) 1 2 sample_user sample_user). discriminate.
Defined.

Definition sample_page : page :=
  mkPage [] [] (Some (WebsocketConnection 1 sample_user)) None [Socket 1] []
    (Some (WebsocketConnection 1 sample_user)) [].

Lemma page_shows_server_message_witness :
  wp (encodeServerMessage (FB := FbRef) (SChat (Some (Str sample_user)) (Some (Str (js "hi")))) false)
    (new_Builder 64) (fun u _ =>
      (Socket 1 ∈ hooked sample_page ->
       page_after (SChat (Some (Str sample_user)) (Some (Str (js "hi")))) sample_page
         (step (fun _ => []) (WsMessage 1 (u8_bytes u)) sample_page)) /\
      (Session 1 ∈ reading sample_page ->
       page_after (SChat (Some (Str sample_user)) (Some (Str (js "hi")))) sample_page
         (step (fun _ => []) (WtRead 1 u) sample_page))).
Proof.
  apply (page_shows_server_message (FL := FbRefLaws) (fun _ => []) 64
    (SChat (Some (Str sample_user)) (Some (Str (js "hi")))) sample_page 1);
    [reflexivity | split; concrete | concrete].
Defined.

Lemma page_sends_user_message_witness :
  exists payload, carries (FB := FbRef) (UChat (Some (Str (js "hi")))) payload /\
    step (fun _ => []) (Chat (js "hi")) sample_page = emit (CSend (Socket 1) payload) sample_page.
Proof.
  destruct (page_sends_user_message (FL := FbRefLaws) (fun _ => []) sample_page (WebsocketConnection 1 sample_user)
    (Chat (js "hi")) (UChat (Some (Str (js "hi"))))) as (payload & Hc & Hs & _);
    [reflexivity | reflexivity | | exact (ex_intro _ payload (conj Hc Hs))].
  right. left. exists (js "hi"). split; [reflexivity|]. split; [reflexivity|].
  split; [vm_compute; reflexivity | vm_compute; discriminate].
Defined.

Definition init_attempt : Setup.attempt :=
  Setup.TryWebsocket (Setup.spanUrl Setup.init) (Setup.destUrl Setup.init) (Setup.userName Setup.init).

(** How the attempt that the first click starts ends for these events. *)
Definition init_ends (evs : list Ws.event) (f1 : Setup.t) (p1 : page) (P : page -> Prop) : Prop :=
  exists ws out r f' p',
    Ws.run (FB := FbRef) (Setup.destUrl Setup.init) (Setup.userName Setup.init) 1
      (fst (Ws.start (Setup.spanUrl Setup.init) (Setup.userName Setup.init) any_url)) evs = (ws, out) /\
    ws_settled ws = Some r /\ Setup.settled (fun _ => []) init_attempt r (f1, Setup.hear out p1) = (f', p') /\
    Setup.loading f' = false /\ P p'.

Lemma form_connects_witness : exists payload f1 p1,
  Setup.onClickConnect any_url (Setup.init, page0) = (Some init_attempt, (f1, p1)) /\
  lines p1 = [(js "[SetupConnectionComponent] Attempting to connect...", Info);
              opening_line (Setup.spanUrl Setup.init) (Setup.userName Setup.init)] /\
  init_ends [Ws.Open; Ws.Message sample_verdict] f1 p1 (fun p' =>
    connection p' = Some (WebsocketConnection 1 (Setup.userName Setup.init)) /\
    lines p' = lines p1 ++ [authorizing_line payload; success_line]) /\
  init_ends [Ws.ErrorEvent (VOther 0) true] f1 p1 (fun p' => connection p' = None /\
    lines p' = lines p1 ++ [(js "[SetupConnectionComponent] Error connecting to WebSocket! " ++ js "Failed to connect to proxy", Error)]).
Proof.
  destruct (form_connects (FL := FbRefLaws) (fun _ => []) any_url 1 Setup.init page0) as (payload & _ & H);
    [reflexivity | reflexivity | reflexivity | reflexivity | apply sample_sendable | apply sample_sendable|].
  destruct (Setup.onClickConnect any_url (Setup.init, page0)) as [a [f1 p1]]. destruct H as (-> & _ & _ & Hl & H).
  exists payload, f1, p1. split; [reflexivity|]. split; [exact Hl|].
  assert (ws_progress (FB := FbRef) [Ws.Open; Ws.Message sample_verdict] = Accepted) as E1 by (vm_compute; reflexivity).
  pose proof (H [Ws.Open; Ws.Message sample_verdict]) as H1. pose proof (H [Ws.ErrorEvent (VOther 0) true]) as H2. clear H.
  rewrite E1 in H1. change (ws_progress (FB := FbRef) [Ws.ErrorEvent (VOther 0) true])
    with (Refused false (VError (js "Failed to connect to proxy"))) in H2. unfold init_ends. split.
  - destruct (Ws.run _ _ _ _ [Ws.Open; Ws.Message sample_verdict]) as [ws out]. exists ws, out.
    cbv zeta in H1. destruct (ws_settled ws) as [r|]; [|destruct H1 as [[H1 _]|[H1 _]]; discriminate H1]. exists r.
    change (Setup.TryWebsocket _ _ _) with init_attempt in H1.
    destruct (Setup.settled _ init_attempt r _) as [f' p']. exists f', p'.
    destruct H1 as (Hf & _ & Hc & _ & _ & Hp). split_and!; [reflexivity | reflexivity | reflexivity | exact Hf | exact Hc | exact Hp].
  - destruct (Ws.run _ _ _ _ [Ws.ErrorEvent (VOther 0) true]) as [ws out]. exists ws, out.
    cbv zeta in H2. destruct (ws_settled ws) as [r|]; [|destruct H2 as [[H2 _]|[H2 _]]; discriminate H2]. exists r.
    change (Setup.TryWebsocket _ _ _) with init_attempt in H2.
    destruct (Setup.settled _ init_attempt r _) as [f' p']. exists f', p'.
    destruct H2 as (Hf & _ & Hc & Hp). split_and!; [reflexivity | reflexivity | reflexivity | exact Hf | exact Hc | exact Hp].
Defined.
