(* ===== verification/Markup.v ===== *)
(** * Rendered elements

    What a React component returns: a tree of host elements with attributes, an
    inline style and event handlers. A handler gives the action it stands for, or
    none; [bubble] collects the actions of an event that happens at a node. *)

From S2P Require Import Prelude JsPlatform DemoCanvas.

(** ** Attributes and styles: object literals with spreads *)
Inductive value : Type := VStr (s : jsstring) | VNum (n : Z) | VRef.
#[global] Instance value_eq_dec : EqDecision value.
Proof. solve_decision. Defined.

Definition props : Type := list (string * value).

Definition s_ (s : string) : value := VStr (js s).

(** Assigning a key that is there replaces its value in place. *)
Fixpoint set_prop (k : string) (v : value) (o : props) : props :=
  match o with
  | [] => [(k, v)]
  | (k', v') :: o => if bool_decide (k' = k) then (k, v) :: o else (k', v') :: set_prop k v o
  end.

(** [{...a, ...b}] *)
Definition spread (a b : props) : props := fold_left (fun o kv => set_prop (fst kv) (snd kv) o) b a.

(** [...(c && b)]: spreading [false] adds nothing. *)
Definition when (c : bool) (b : props) : props := if c then b else [].

Fixpoint get_prop (k : string) (o : props) : option value :=
  match o with
  | [] => None
  | (k', v) :: o => if bool_decide (k' = k) then Some v else get_prop k o
  end.

(** ** Events *)
Inductive dom_event : Type :=
| DomClick (clientX clientY : number) (r : rect)
| DomChange (targetValue : jsstring)
| DomKeyDown (key : jsstring)
| DomMouseEnter
| DomMouseLeave.

Definition handler_name (ev : dom_event) : string :=
  match ev with
  | DomClick _ _ _ => "onClick" | DomChange _ => "onChange" | DomKeyDown _ => "onKeyDown"
  | DomMouseEnter => "onMouseEnter" | DomMouseLeave => "onMouseLeave"
  end.

(** The mouse-enter and mouse-leave events concern their target only. *)
Definition bubbles (ev : dom_event) : bool :=
  match ev with DomMouseEnter | DomMouseLeave => false | _ => true end.

Section node.
Context {A : Type}.

Definition handlers : Type := list (string * (dom_event -> option A)).

#[warnings="-register-all"]
Inductive node : Type :=
| Text (s : jsstring)
| Element (tag : string) (attrs style : props) (on : handlers) (children : list node).

Fixpoint handle (on : handlers) (ev : dom_event) : list A :=
  match on with
  | [] => []
  | (k, h) :: on =>
      if bool_decide (k = handler_name ev) then match h ev with Some a => [a] | None => [] end else handle on ev
  end.

(** The actions of an event whose target is the node at the end of a path: the
    target's handler first, then those of its ancestors. A path into a text ends
    at the element around it. *)
Fixpoint bubble (ev : dom_event) (path : list nat) (n : node) : list A :=
  match n with
  | Text _ => []
  | Element _ _ _ on children =>
      match path with
      | [] => handle on ev
      | i :: path =>
          match children !! i with
          | Some (Text _) => handle on ev
          | Some c => bubble ev path c ++ (if bubbles ev then handle on ev else [])
          | None => []
          end
      end
  end.

(** The elements of a tree, outermost first. *)
Fixpoint elements (n : node) : list node :=
  match n with
  | Text _ => []
  | Element _ _ _ _ children => n :: flat_map elements children
  end.

Definition attr (k : string) (n : node) : option value :=
  match n with Text _ => None | Element _ attrs _ _ _ => get_prop k attrs end.

Definition style_of (k : string) (n : node) : option value :=
  match n with Text _ => None | Element _ _ style _ _ => get_prop k style end.

(** The text a reader sees. *)
Fixpoint text_content (n : node) : jsstring :=
  match n with
  | Text s => s
  | Element _ _ _ _ children => flat_map text_content children
  end.

(** The values of an attribute all over a tree. *)
Definition all_attr (k : string) (n : node) : list value := omap (attr k) (elements n).

(** The subtree at a path. *)
Fixpoint node_at (path : list nat) (n : node) : option node :=
  match path with
  | [] => Some n
  | i :: path =>
      match n with
      | Text _ => None
      | Element _ _ _ _ children => match children !! i with Some c => node_at path c | None => None end
      end
  end.
End node.
Arguments node : clear implicits.
Arguments handlers : clear implicits.

(** ** Lemmas *)
Section lemmas.
Context {A : Type}.

Lemma all_attr_element k tag attrs style on (children : list (node A)) :
  all_attr k (Element tag attrs style on children) =
  match get_prop k attrs with Some v => [v] | None => [] end ++ flat_map (all_attr k) children.
Proof.
  unfold all_attr. cbn [elements]. cbn [omap list_omap attr].
  assert (H : omap (attr k) (flat_map elements children) = flat_map (fun n => omap (attr k) (elements n)) children).
  { induction children as [|c children IH]; [done|]. cbn [flat_map]. by rewrite omap_app, IH. }
  destruct (get_prop k attrs); cbn; by rewrite <- H.
Qed.

End lemmas.
