(* ===== verification/View.v ===== *)
(** * What the demo client shows, and what the user can do there

    The components of [examples/hello-spanreed/client/src/] as functions from
    their state to the elements they render ([Button.tsx], [ChatBox.tsx],
    [ConnectionStateComponent.tsx], [Console.tsx], [DemoCanvas.tsx],
    [DemoPage.tsx], [App.tsx]), and the application as a machine: an event on a
    node of the rendered tree runs the handlers it bubbles through, which are the
    operations of [DemoPage]; components are mounted with their initial state and
    lose it when they are unmounted. *)

From S2P Require Import Prelude JsPlatform FlatBuffers Log Connection Renderer DemoCanvas DemoPage Markup.
#[local] Open Scope Z_scope.

(** ** Actions: what the handlers of the elements call *)
Inductive button : Type := ConnectButton | CloseButton | SubmitButton.

Inductive action : Type :=
| SetHover (b : button) (hover : bool)
| ToggleTransport                        (** [setLeftSelected(!leftSelected)] *)
| ChangeUserName (v : jsstring)
| ChangeSpanUrl (v : jsstring)
| ChangeDestUrl (v : jsstring)
| ClickConnect                           (** [onClickConnect] *)
| ClickClose                             (** [onOpenConnection?.(undefined)] *)
| ClickCanvas (x y : number)
| ChangeChat (v : jsstring)
| KeyChat (key : jsstring)
| SubmitChat.

(** ** [Button.tsx] *)
Definition Button (b : button) (hover disabled : bool) (onClick : action) (children : list (node action)) : node action :=
  Element "div" []
    (spread (spread
      [("marginLeft", s_ "auto"); ("backgroundColor", s_ "#4538e5"); ("padding", s_ "8px 28px");
       ("border", s_ "1px solid #eee"); ("borderRadius", s_ "8px"); ("fontWeight", s_ "700");
       ("fontSize", s_ "14pt"); ("cursor", s_ "pointer"); ("userSelect", s_ "none")]
      (when hover [("backgroundColor", s_ "#1C09EE"); ("border", s_ "1px solid #1C09EE"); ("color", s_ "#fff")]))
      (when disabled [("backgroundColor", s_ "#333"); ("color", s_ "#aaa"); ("cursor", s_ "not-allowed")]))
    [("onMouseEnter", fun _ => Some (SetHover b true));
     ("onMouseLeave", fun _ => Some (SetHover b false));
     ("onClick", fun _ => if disabled then None else Some onClick)]
    children.

(** ** [ChatBox.tsx] *)
Definition onChange (f : jsstring -> action) : string * (dom_event -> option action) :=
  ("onChange", fun ev => match ev with DomChange v => Some (f v) | _ => None end).

Definition ChatBoxView (Nickname chatMsg : jsstring) (hover : bool) : node action :=
  Element "div" []
    [("display", s_ "flex"); ("flexDirection", s_ "column"); ("padding", s_ "8px 12px"); ("border", s_ "2px solid #ccc")] []
    [Element "p" [] [("margin", VNum 0); ("fontSize", s_ "14pt"); ("fontWeight", VNum 700); ("color", s_ "#ccc")] []
       [Text (js "Send chat as: "); Text Nickname];
     Element "div" [] [("display", s_ "flex"); ("flexDirection", s_ "row")] []
       [Element "input" [("type", s_ "text"); ("value", VStr chatMsg)]
          [("border", s_ "2px solid #88cc88"); ("backgroundColor", s_ "#3E4544"); ("color", s_ "#eee");
           ("resize", s_ "none"); ("minWidth", s_ "250px"); ("borderRadius", s_ "4px"); ("padding", s_ "4px 8px");
           ("margin", s_ "8px 12px 8px 0"); ("flexGrow", VNum 1)]
          [onChange ChangeChat;
           ("onKeyDown", fun ev => match ev with DomKeyDown key => Some (KeyChat key) | _ => None end)] [];
        Button SubmitButton hover (zlen chatMsg =? 0) SubmitChat [Text (js "Submit!")]]].

(** ** [ConnectionStateComponent.tsx] *)
Definition DiagBtnCommonStyle : props :=
  [("position", s_ "absolute"); ("float", s_ "left"); ("width", s_ "130px"); ("height", s_ "0");
   ("cursor", s_ "pointer"); ("userSelect", s_ "none")].

Definition UrlInputStyle : props :=
  [("minWidth", s_ "250px"); ("borderRadius", s_ "4px"); ("border", s_ "2px solid #88cc88");
   ("backgroundColor", s_ "#3E4544"); ("color", s_ "#eee"); ("padding", s_ "4px 8px")].

(** The two labels of the transport switch. *)
Definition switch_label (top label : string) : node action :=
  Element "span" [] [("position", s_ "relative"); ("float", s_ "left"); ("width", s_ "100%"); ("height", s_ "auto");
                     ("margin", VNum 0); ("padding", VNum 0); ("top", s_ top)] [] [Text (js label)].

Definition switch_left (leftSelected : bool) : node action :=
  Element "div" []
    (spread (spread DiagBtnCommonStyle
      [("left", VNum 0); ("borderTop", s_ "30px solid black"); ("borderRight", s_ "20px solid transparent");
       ("zIndex", VNum 1); ("color", s_ "#888")])
      (when leftSelected [("borderTop", s_ "30px solid #4538e5"); ("color", s_ "#fff")]))
    [] [switch_label "-27px" "WebSocket"].

Definition switch_bar : node action :=
  Element "div" [] [("borderRight", s_ "2px solid #fff"); ("height", s_ "36px"); ("top", s_ "-3px");
    ("position", s_ "absolute"); ("right", s_ "50%"); ("transform", s_ "rotate(34deg) translateZ(0px)");
    ("zIndex", VNum 1)] [] [].

Definition switch_right (leftSelected : bool) : node action :=
  Element "div" []
    (spread (spread DiagBtnCommonStyle
      [("right", VNum 0); ("zIndex", VNum 2); ("borderLeft", s_ "20px solid transparent");
       ("borderBottom", s_ "30px solid black"); ("color", s_ "#888")])
      (when (negb leftSelected) [("borderBottom", s_ "30px solid #4538e5"); ("color", s_ "#fff")]))
    [] [switch_label "3px" "WebTransport"].

Definition setup_header (leftSelected : bool) : node action :=
  Element "div" [] [("display", s_ "flex"); ("flexDirection", s_ "row"); ("justifyContent", s_ "space-between");
                    ("width", s_ "100%"); ("alignItems", s_ "center")] []
    [Element "p" [] [("margin", VNum 0); ("fontSize", s_ "14pt"); ("fontWeight", VNum 700); ("color", s_ "#ccc")] []
       [Text (js "Open Connection")];
     Element "div" [] [("marginLeft", s_ "20px"); ("position", s_ "relative"); ("width", s_ "280px");
                       ("border", s_ "2px solid #fff"); ("height", s_ "30px"); ("textAlign", s_ "center")]
       [("onClick", fun _ => Some ToggleTransport)]
       [switch_left leftSelected; switch_bar; switch_right leftSelected]].

Definition label (htmlFor text : string) : node action :=
  Element "label" [("htmlFor", s_ htmlFor)] [] [] [Text (js text)].

Definition setup_form (f : Setup.t) : node action :=
  Element "form" [] [("marginBottom", s_ "24px"); ("marginTop", s_ "12px"); ("display", s_ "grid");
                     ("gridTemplateColumns", s_ "2fr 5fr"); ("gap", s_ "10px")] []
    [label "tb-username" "Spanreed Proxy Address:";
     Element "input" [("type", s_ "text"); ("id", s_ "tb-username"); ("placeholder", s_ "Sessamekesh");
                      ("value", VStr (Setup.userName f))]
       (spread [] UrlInputStyle) [onChange ChangeUserName] [];
     label "tb-spanreed-url" "Spanreed Proxy Address:";
     Element "input" [("type", s_ "url"); ("id", s_ "tb-spanreed-url");
                      ("pattern", s_ (if Setup.leftSelected f then "wss?://.*" else "https://.*"));
                      ("placeholder", s_ (if Setup.leftSelected f then "ws://spanreed.example.com/ws"
                                          else "https://spanreed.example.com/wt"));
                      ("value", VStr (Setup.spanUrl f))]
       (spread [] UrlInputStyle) [onChange ChangeSpanUrl] [];
     label "tb-backend-url" "Demo Server Address:";
     Element "input" [("id", s_ "tb-backend-url"); ("type", s_ "text"); ("placeholder", s_ "URL or IP address");
                      ("value", VStr (Setup.destUrl f))]
       (spread [] UrlInputStyle) [onChange ChangeDestUrl] []].

Definition SetupConnectionComponent (f : Setup.t) (hover : bool) : node action :=
  Element "div" [] [("display", s_ "flex"); ("flexDirection", s_ "column"); ("padding", s_ "16px 12px");
                    ("margin", s_ "4px 12px"); ("borderRadius", s_ "4px"); ("border", s_ "1px solid #eee")] []
    [setup_header (Setup.leftSelected f);
     setup_form f;
     Button ConnectButton hover (Setup.loading f) ClickConnect [Element "span" [] [] [] [Text (js "Connect!")]]].

Definition connection_status (c : Connection) (hover : bool) : node action :=
  Element "div" [] [("display", s_ "flex"); ("flexDirection", s_ "row"); ("justifyContent", s_ "space-between");
                    ("alignItems", s_ "center"); ("padding", s_ "8px 20px")] []
    [Element "p" [] [("fontWeight", VNum 700); ("fontSize", s_ "18pt"); ("margin", VNum 0)] []
       [Text (js (match c with WebsocketConnection _ _ => "Websocket" | WebtransportConnection _ _ => "WebTransport" end));
        Text (js " "); Text (js "connection status: open")];
     Button CloseButton hover false ClickClose [Text (js "Close")]].

Definition ConnectionStateComponent (c : option Connection) (f : Setup.t) (hover : bool) : node action :=
  match c with
  | None => SetupConnectionComponent f hover
  | Some c => connection_status c hover
  end.

(** ** [Console.tsx] *)
Definition CONSOLE_WARN : props := [("color", s_ "#eed202")].
Definition CONSOLE_ERROR : props := [("color", s_ "#cc3300")].
Definition CONSOLE_INFO : props := [("color", s_ "#40a6ce")].
Definition CONSOLE_USER_CHAT : props := [("color", s_ "#2ced0e")].

Definition MsgCssExtra (l : LogLevel) : props :=
  match l with
  | Warning => CONSOLE_WARN | Error => CONSOLE_ERROR | Info => CONSOLE_INFO | UserChat => CONSOLE_USER_CHAT
  | Debug => []
  end.

Definition console_line (idx : Z) (line : jsstring * LogLevel) : node action :=
  Element "span" [("key", VStr (js "msgidx-" ++ show_int idx))] [] []
    [Element "span" [] [("color", s_ "#aaa"); ("borderRight", s_ "1px solid #eee"); ("marginRight", s_ "1ch");
                        ("paddingRight", s_ "0.25ch"); ("marginLeft", s_ "0.5ch")] []
       [Text (show_int (idx + 1))];
     Element "span" [("id", VStr (js "msg-" ++ show_int idx))] (spread [] (MsgCssExtra (snd line))) [] [Text (fst line)];
     Element "br" [] [] [] []].

Fixpoint console_lines (idx : Z) (lines : list (jsstring * LogLevel)) : list (node action) :=
  match lines with [] => [] | l :: lines => console_line idx l :: console_lines (idx + 1) lines end.

Definition ConsoleView (lines : list (jsstring * LogLevel)) : node action :=
  Element "div" [] [("height", s_ "200px"); ("resize", s_ "both"); ("width", s_ "80ch"); ("maxWidth", s_ "200ch");
    ("backgroundColor", s_ "#282A36"); ("borderRadius", s_ "4px"); ("border", s_ "1px solid #aaa");
    ("fontFamily", s_ "'Courier New', Courier, monospace"); ("padding", s_ "4px"); ("margin", s_ "8px");
    ("overflow", s_ "scroll"); ("textOverflow", s_ "ellipsis"); ("whiteSpace", s_ "nowrap")] []
    (console_lines 0 lines ++ [Element "div" [("ref", VRef)] [] [] []]).

(** ** [DemoCanvas.tsx]: the element *)
Definition DemoCanvasView : node action :=
  Element "canvas" [("ref", VRef)]
    [("backgroundColor", s_ "#357"); ("width", s_ "400px"); ("height", s_ "400px"); ("margin", s_ "12px");
     ("alignSelf", s_ "center")]
    [("onClick", fun ev => match ev with
      | DomClick clientX clientY r => let '(x, y) := canvas_click r clientX clientY in Some (ClickCanvas x y)
      | _ => None end)]
    [Text (js "HTML5 Canvas not supported!")].

(** ** [DemoPage.tsx]: the page *)

(** The state of the mounted components. *)
Record ui : Type := mkApp {
  the_page : page;
  form : option Setup.t;               (** [SetupConnectionComponent], when mounted *)
  chat : option jsstring;              (** [ChatBox], when mounted: the text typed so far *)
  hovers : button -> bool
}.

Definition OuterContainer (children : list (node action)) : node action :=
  Element "div" [] [("border", s_ "4px solid #fff"); ("borderRadius", s_ "8px"); ("display", s_ "flex");
                    ("flexDirection", s_ "column"); ("maxWidth", s_ "800px"); ("marginLeft", s_ "auto");
                    ("marginRight", s_ "auto")] [] children.

Definition connection_user (c : Connection) : jsstring :=
  match c with WebsocketConnection _ u | WebtransportConnection _ u => u end.

Definition DemoPageView (s : ui) : node action :=
  OuterContainer
    ([Element "span" [] [("alignSelf", s_ "center"); ("fontSize", s_ "24pt"); ("fontWeight", VNum 700); ("marginTop", s_ "4px")] []
        [Text (js "Hello Spanreed Client")];
      DemoCanvasView;
      ConnectionStateComponent (connection (the_page s)) (default Setup.init (form s))
        (hovers s (match connection (the_page s) with None => ConnectButton | Some _ => CloseButton end))] ++
     match connection (the_page s) with
     | Some c => [ChatBoxView (connection_user c) (default [] (chat s)) (hovers s SubmitButton)]
     | None => []
     end ++
     [ConsoleView (lines (the_page s))]).

(** The first rendering: no connection, the form with its initial state. *)
Definition app0 : ui := mkApp page0 (Some Setup.init) None (fun _ => false).

(** ** [App.tsx] *)
Definition bootstrapApp (container : bool) : option (node action) :=
  if container then Some (DemoPageView app0) else None.

(** ** Mounting *)

(** Rendering the page again after its state has changed to [p]: the form is mounted exactly while there is
    no connection, the chat box and the status line exactly while there is one; a component that stays
    mounted keeps its state, one that is mounted anew gets its initial state. *)
Definition unhover (bs : button -> bool) (b b' : button) : bool :=
  match b, b' with
  | ConnectButton, ConnectButton | CloseButton, CloseButton | SubmitButton, SubmitButton => false
  | _, _ => bs b'
  end.

Definition render (p : page) (s : ui) : ui :=
  match connection p with
  | None => mkApp p (Some (default Setup.init (form s))) None (unhover (unhover (hovers s) CloseButton) SubmitButton)
  | Some _ => mkApp p None (Some (default [] (chat s))) (unhover (hovers s) ConnectButton)
  end.

Section with_fb.
Context `{FB : FlatBuffers} (show_jsval : jsval -> jsstring) (exn_message : exn -> jsstring).
Context (ws_url_ok : jsstring -> bool).

(** The text goes to [onSubmitChat] of the page. *)
Definition with_chat (f : ChatBox.t -> ChatBox.t) (s : ui) : ui :=
  match chat s with
  | None => s
  | Some text =>
      let b := f (ChatBox.mk text []) in
      let s := mkApp (the_page s) (form s) (Some (ChatBox.chatMsg b)) (hovers s) in
      render (fold_left (fun p m => onSubmitChat m p) (ChatBox.submitted b) (the_page s)) s
  end.

Definition with_form (f : Setup.t -> Setup.t) (s : ui) : ui :=
  mkApp (the_page s) (f <$> form s) (chat s) (hovers s).

(** An action of a handler; [ClickConnect] may begin an attempt to connect. *)
Definition act (a : action) (s : ui) : option Setup.attempt * ui :=
  match a with
  | SetHover b h => (None, mkApp (the_page s) (form s) (chat s) (fun b' => if unhover (fun _ => true) b b' then hovers s b' else h))
  | ToggleTransport => (None, with_form Setup.onToggle s)
  | ChangeUserName v => (None, with_form (Setup.onChangeUserName v) s)
  | ChangeSpanUrl v => (None, with_form (Setup.onChangeSpanUrl v) s)
  | ChangeDestUrl v => (None, with_form (Setup.onChangeDestUrl v) s)
  | ClickConnect =>
      match form s with
      | None => (None, s)
      | Some f =>
          let '(a, (f, p)) := Setup.onClickConnect ws_url_ok (f, the_page s) in
          (a, render p (mkApp (the_page s) (Some f) (chat s) (hovers s)))
      end
  | ClickClose => (None, render (Setup.onClickClose (the_page s)) s)
  | ClickCanvas x y => (None, render (onClickCanvas x y (the_page s)) s)
  | ChangeChat v => (None, with_chat (ChatBox.onChange v) s)
  | KeyChat key => (None, with_chat (ChatBox.onKeyDown key) s)
  | SubmitChat => (None, with_chat ChatBox.submit s)
  end.

(** The handlers an event bubbles through run one after the other. *)
Fixpoint acts (l : list action) (s : ui) : list Setup.attempt * ui :=
  match l with
  | [] => ([], s)
  | a :: l =>
      let '(t, s) := act a s in
      let '(ts, s) := acts l s in
      (match t with Some t => [t] | None => [] end ++ ts, s)
  end.

(** ** The application's events *)
Inductive app_event : Type :=
| User (path : list nat) (ev : dom_event)        (** on a node of what is shown *)
| OnPage (ev : DemoPage.event)                   (** of the transports and the timer *)
| Progress (out : list Connection.action)         (** what a running attempt did up to its next [await] *)
| Settled (a : Setup.attempt) (r : sum Connection jsval).   (** an attempt to connect has ended *)

Definition app_step (ev : app_event) (s : ui) : list Setup.attempt * ui :=
  match ev with
  | User path ev => acts (bubble ev path (DemoPageView s)) s
  | OnPage ev => ([], render (DemoPage.step show_jsval ev (the_page s)) s)
  | Progress out => ([], render (Setup.hear out (the_page s)) s)
  | Settled a r =>
      let '(f, p) := Setup.settled exn_message a r (default Setup.init (form s), the_page s) in
      ([], render p (mkApp (the_page s) (match form s with Some _ => Some f | None => None end) (chat s) (hovers s)))
  end.

Definition app_run (evs : list app_event) (s : ui) : ui := fold_left (fun s ev => snd (app_step ev s)) evs s.
End with_fb.
