(* ===== verification/ViewTheorems.v ===== *)
(** * The demo client's user interface: theorems

    Which components are mounted, that inputs show what is typed, that connecting
    uses what is shown, that chats are sent, that ids and keys are unique, and what the console shows. *)

From S2P Require Import Prelude JsPlatform FlatBuffers FbReference Log Connection ConnectionTheorems Renderer DemoCanvas DemoPage Markup View.
#[local] Open Scope Z_scope.

(** ** Which components are mounted *)
Record mounted (s : ui) : Prop := {
  mounted_form : is_Some (form s) <-> connection (the_page s) = None;
  mounted_chat : is_Some (chat s) <-> is_Some (connection (the_page s))
}.

Lemma render_mounted p s : mounted (render p s).
Proof.
  unfold render. destruct (connection p) eqn:E; split; cbn; rewrite E; split; intros H; try done; try by destruct H.
Qed.

Lemma render_page p s : the_page (render p s) = p.
Proof. unfold render. by destruct (connection p). Qed.

Section with_fb.
Context `{FB : FlatBuffers} (show_jsval : jsval -> jsstring) (exn_message : exn -> jsstring) (ws_url_ok : jsstring -> bool).

Lemma act_mounted a s : mounted s -> mounted (snd (act ws_url_ok a s)).
Proof.
  intros [Hf Hc].
  assert (HF : forall f, mounted (with_form f s)).
  { intros f. split; cbn; [|exact Hc]. by rewrite fmap_is_Some. }
  assert (HC : forall f, mounted (with_chat f s)).
  { intros f. unfold with_chat. destruct (chat s) eqn:E; [apply render_mounted|]. split; [done|by rewrite E]. }
  destruct a; cbn [act snd]; auto using render_mounted; try by split.
  destruct (form s) as [f|] eqn:E; [|by split; cbn; rewrite ?E].
  destruct (Setup.onClickConnect ws_url_ok (f, the_page s)) as [t [f' p]]. apply render_mounted.
Qed.

Lemma acts_mounted l s : mounted s -> mounted (snd (acts ws_url_ok l s)).
Proof.
  revert s. induction l as [|a l IH]; intros s H; [done|]. cbn [acts].
  pose proof (act_mounted a s H) as H'. destruct (act ws_url_ok a s) as [t s']. specialize (IH s' H').
  by destruct (acts ws_url_ok l s').
Qed.

(** Whatever the user does on the elements shown and whatever the transports do, from the first rendering on:
    the connection form is there exactly while there is no connection, and the chat box exactly while there is
    one. In particular no event runs a handler of a component that is not there. *)
Theorem components_follow_connection evs : mounted (app_run show_jsval exn_message ws_url_ok evs app0).
Proof.
  unfold app_run. assert (H : mounted app0) by (split; cbn; split; intros H; try done; by destruct H). revert H. generalize app0.
  induction evs as [|ev evs IH]; intros s H; [done|]. cbn [fold_left]. apply IH.
  destruct ev as [path ev|ev|out|a r]; cbn [app_step snd]; [by apply acts_mounted|apply render_mounted..|].
  destruct (Setup.settled _ _ _ _) as [f p]. apply render_mounted.
Qed.
End with_fb.

(** ** What is rendered *)
Definition title : node action :=
  Element "span" [] [("alignSelf", s_ "center"); ("fontSize", s_ "24pt"); ("fontWeight", VNum 700); ("marginTop", s_ "4px")] []
    [Text (js "Hello Spanreed Client")].

Lemma view_disconnected s f :
  connection (the_page s) = None -> form s = Some f ->
  DemoPageView s = OuterContainer [title; DemoCanvasView; SetupConnectionComponent f (hovers s ConnectButton);
                                   ConsoleView (lines (the_page s))].
Proof. intros Hc Hf. unfold DemoPageView. by rewrite Hc, Hf. Qed.

Lemma view_connected s c t :
  connection (the_page s) = Some c -> chat s = Some t ->
  DemoPageView s = OuterContainer [title; DemoCanvasView; connection_status c (hovers s CloseButton);
                                   ChatBoxView (connection_user c) t (hovers s SubmitButton);
                                   ConsoleView (lines (the_page s))].
Proof. intros Hc Ht. unfold DemoPageView. by rewrite Hc, Ht. Qed.

(** ** The form *)

(** Where the three inputs of the form and its button are. *)
Definition path_userName : list nat := [2; 1; 1]%nat.
Definition path_spanUrl : list nat := [2; 1; 3]%nat.
Definition path_destUrl : list nat := [2; 1; 5]%nat.
Definition path_connect : list nat := [2; 2]%nat.

(** What an input shows. *)
Definition shown (path : list nat) (s : ui) : option value :=
  match node_at path (DemoPageView s) with Some n => attr "value" n | None => None end.

Definition element_id (path : list nat) (s : ui) : option value :=
  match node_at path (DemoPageView s) with Some n => attr "id" n | None => None end.

Section form.
Context `{FB : FlatBuffers} (show_jsval : jsval -> jsstring) (exn_message : exn -> jsstring) (ws_url_ok : jsstring -> bool).

(** The inputs of the form are what their ids say, and show what is typed into them: after a change event with
    a text, the input shows that text and the other inputs what they showed before; while an attempt to connect
    is running all three keep showing what they showed. *)
Theorem form_inputs_show_what_is_typed s f v :
  connection (the_page s) = None -> form s = Some f ->
  let after path := snd (app_step show_jsval exn_message ws_url_ok (User path (DomChange v)) s) in
  let v' old := if Setup.loading f then VStr old else VStr v in
  element_id path_userName s = Some (s_ "tb-username") /\
  element_id path_spanUrl s = Some (s_ "tb-spanreed-url") /\
  element_id path_destUrl s = Some (s_ "tb-backend-url") /\
  shown path_userName (after path_userName) = Some (v' (Setup.userName f)) /\
  shown path_spanUrl (after path_userName) = shown path_spanUrl s /\
  shown path_destUrl (after path_userName) = shown path_destUrl s /\
  shown path_spanUrl (after path_spanUrl) = Some (v' (Setup.spanUrl f)) /\
  shown path_userName (after path_spanUrl) = shown path_userName s /\
  shown path_destUrl (after path_spanUrl) = shown path_destUrl s /\
  shown path_destUrl (after path_destUrl) = Some (v' (Setup.destUrl f)) /\
  shown path_userName (after path_destUrl) = shown path_userName s /\
  shown path_spanUrl (after path_destUrl) = shown path_spanUrl s.
Proof.
  intros Hc Hf after v'. subst after. cbn [app_step]. unfold shown, element_id.
  rewrite (view_disconnected s f Hc Hf). cbn [bubble acts act snd app handle].
  destruct s as [p fm ch hov], f as [ld lf u sp d]. cbn in Hc, Hf. subst fm.
  cbn -[DemoPageView]. unfold with_form. cbn -[DemoPageView].
  erewrite !view_disconnected by (cbn; done). subst v'. cbn. by destruct ld.
Qed.
Lemma hear_connection out p : connection (Setup.hear out p) = connection p.
Proof. unfold Setup.hear. revert p. induction out as [|[] out IH]; intros p; [done|..]; cbn [fold_left]; rewrite IH; [by destruct level as [[]|] | done..]. Qed.

(** Which side of the switch is lit. *)
Definition lit (path : list nat) (s : ui) : bool :=
  match node_at path (DemoPageView s) with
  | Some n => bool_decide (style_of "color" n = Some (s_ "#fff"))
  | None => false
  end.
Definition path_left : list nat := [2; 0; 1; 0]%nat.
Definition path_right : list nat := [2; 0; 1; 2]%nat.

(** C34: pressing the connect button, wherever on it, starts exactly one attempt to connect, over the transport
    that is lit in the switch and with the addresses and the name that the inputs show; exactly one side of
    the switch is lit, and a click on the switch lights the other. While an attempt runs, pressing the button
    does nothing. *)
Theorem connect_uses_what_is_shown s f rest x y r :
  connection (the_page s) = None -> form s = Some f ->
  is_Some (node_at (path_connect ++ rest) (DemoPageView s)) ->
  let '(attempts, s') := app_step show_jsval exn_message ws_url_ok (User (path_connect ++ rest) (DomClick x y r)) s in
  let toggled := snd (app_step show_jsval exn_message ws_url_ok (User path_left (DomClick x y r)) s) in
  lit path_left s = negb (lit path_right s) /\ lit path_left toggled = lit path_right s /\
  if Setup.loading f then attempts = [] /\ s' = s
  else
    (exists u sp d,
       shown path_userName s = Some (VStr u) /\ shown path_spanUrl s = Some (VStr sp) /\
       shown path_destUrl s = Some (VStr d) /\
       attempts = [if lit path_left s then Setup.TryWebsocket sp d u else Setup.TryWebtransport sp d u]) /\
    Setup.loading <$> form s' = Some true.
Proof.
  intros Hc Hf Hn.
  assert (Hb : bubble (DomClick x y r) (path_connect ++ rest) (DemoPageView s) =
               if Setup.loading f then [] else [ClickConnect]).
  { revert Hn. rewrite (view_disconnected s f Hc Hf). cbn.
    destruct rest as [|[|i] rest]; [by destruct (Setup.loading f)| |by intros []]. cbn.
    destruct rest as [|[|j] rest]; [by destruct (Setup.loading f)..|by intros []]. }
  assert (Ht : bubble (DomClick x y r) path_left (DemoPageView s) = [ToggleTransport])
    by (by rewrite (view_disconnected s f Hc Hf)).
  cbn [app_step]. rewrite Hb, Ht. cbn [acts act snd]. unfold lit, shown.
  destruct s as [p fm ch hov], f as [ld lf u sp d]. cbn [form the_page chat hovers] in *. subst fm.
  rewrite !(view_disconnected (mkApp p (Some (Setup.mk ld lf u sp d)) ch hov) _ Hc eq_refl). cbn [Setup.loading].
  unfold with_form. cbn [form the_page chat hovers fmap option_fmap option_map].
  rewrite (view_disconnected _ (Setup.onToggle (Setup.mk ld lf u sp d))) by done.
  destruct ld; cbn [acts act].
  - by destruct lf.
  - cbn [form the_page Setup.onClickConnect Setup.loading Setup.leftSelected]. unfold render.
    destruct lf; rewrite ?hear_connection; cbn -[node_at Setup.hear]; rewrite Hc; cbn -[Setup.hear];
      split_and!; try done; by exists u, sp, d.
Qed.
End form.

(** ** The chat box *)
Section chat.
Context `{FB : FlatBuffers} (show_jsval : jsval -> jsstring) (exn_message : exn -> jsstring) (ws_url_ok : jsstring -> bool).

Definition path_nickname : list nat := [3; 0]%nat.
Definition path_chat : list nat := [3; 1; 0]%nat.
Definition path_submit : list nat := [3; 1; 1]%nat.

Lemma onSubmitChat_connection m p : connection (onSubmitChat m p) = connection p.
Proof.
  unfold onSubmitChat, send_on. destruct (connection p) eqn:E; [|by rewrite E]. by destruct (fst _); cbn; rewrite E.
Qed.

Lemma chat_after f p c t hov :
  connection p = Some c ->
  let s' := with_chat f (mkApp p None (Some t) hov) in
  let b := f (ChatBox.mk t []) in
  the_page s' = fold_left (fun p m => onSubmitChat m p) (ChatBox.submitted b) p /\
  chat s' = Some (ChatBox.chatMsg b) /\ connection (the_page s') = Some c.
Proof.
  intros Hc. unfold with_chat. cbn [chat the_page form hovers]. cbv zeta. rewrite render_page.
  assert (Hk : connection (fold_left (fun p m => onSubmitChat m p) (ChatBox.submitted (f (ChatBox.mk t []))) p) = Some c).
  { revert p Hc. induction (ChatBox.submitted _) as [|m l IH]; intros p Hc; [done|]. cbn. apply IH.
    by rewrite onSubmitChat_connection. }
  split_and!; [done| |done]. unfold render. by rewrite Hk.
Qed.

(** While connected, the chat box names the user of the connection; its input shows what is typed; the Enter
    key hands the text shown to the page as one chat message, and so does the button unless the text is empty;
    after either the input is empty. *)
Theorem chat_box_sends_what_is_shown s c t v x y r :
  connection (the_page s) = Some c -> chat s = Some t -> form s = None ->
  let after path ev := app_step show_jsval exn_message ws_url_ok (User path ev) s in
  text_content <$> node_at path_nickname (DemoPageView s) = Some (js "Send chat as: " ++ connection_user c) /\
  shown path_chat s = Some (VStr t) /\
  shown path_chat (snd (after path_chat (DomChange v))) = Some (VStr v) /\
  the_page (snd (after path_chat (DomKeyDown (js "Enter")))) = onSubmitChat t (the_page s) /\
  shown path_chat (snd (after path_chat (DomKeyDown (js "Enter")))) = Some (VStr []) /\
  snd (after path_submit (DomClick x y r)) =
    (if bool_decide (t = []) then s else snd (after path_chat (DomKeyDown (js "Enter")))).
Proof.
  intros Hc Ht Hf after. destruct s as [p fm ch hov]. cbn [the_page chat form] in *. subst fm ch.
  set (s0 := mkApp p None (Some t) hov) in *.
  assert (V : DemoPageView s0 = _) by exact (view_connected s0 c t Hc eq_refl).
  assert (E1 : after path_chat (DomChange v) = ([], with_chat (ChatBox.onChange v) s0))
    by (subst after; cbn [app_step]; by rewrite V).
  assert (E2 : after path_chat (DomKeyDown (js "Enter")) = ([], with_chat (ChatBox.onKeyDown (js "Enter")) s0))
    by (subst after; cbn [app_step]; by rewrite V).
  assert (E3 : after path_submit (DomClick x y r) = acts ws_url_ok (if zlen t =? 0 then [] else [SubmitChat]) s0)
    by (subst after; cbn [app_step]; rewrite V; cbn; by destruct (zlen t =? 0)).
  pose proof (chat_after (ChatBox.onChange v) p c t hov Hc) as (P1 & C1 & K1).
  pose proof (chat_after (ChatBox.onKeyDown (js "Enter")) p c t hov Hc) as (P2 & C2 & K2).
  fold s0 in P1, C1, K1, P2, C2, K2. rewrite E1, E2, E3. cbn [snd]. unfold shown.
  rewrite V, (view_connected _ c v K1 C1), (view_connected _ c [] K2 C2).
  split_and!; [cbn; by rewrite app_nil_r|done|done|exact P2|done|].
  destruct t as [|a t]; [done|]. rewrite zlen_cons.
  by replace (1 + zlen t =? 0) with false by (pose proof (zlen_nonneg t); lia).
Qed.
End chat.

(** ** Ids and keys *)
Lemma js_inj s1 s2 : js s1 = js s2 -> s1 = s2.
Proof.
  unfold js. intros H. rewrite <- (String.string_of_list_ascii_of_string s1), <- (String.string_of_list_ascii_of_string s2).
  f_equal. revert H. generalize (String.list_ascii_of_string s1) (String.list_ascii_of_string s2).
  induction l as [|a l IH]; intros [|b l2]; cbn; try done. intros [= Hab Hl].
  apply N2Z.inj in Hab. rewrite (IH _ Hl). f_equal.
  by rewrite <- (Ascii.ascii_N_embedding a), <- (Ascii.ascii_N_embedding b), Hab.
Qed.

Lemma show_int_inj a b : show_int a = show_int b -> a = b.
Proof. intros H%js_inj. by apply (inj pretty.pretty). Qed.

(** An attribute whose value is a prefix and the line's number. *)
Lemma console_attrs k pre idx ls :
  (forall i l, all_attr k (console_line i l) = [VStr (pre ++ show_int i)]) ->
  flat_map (all_attr k) (console_lines idx ls) = map (fun i => VStr (pre ++ show_int i)) (seqZ idx (zlen ls)).
Proof.
  intros H. revert idx. induction ls as [|l ls IH]; intros idx; [done|].
  rewrite zlen_cons, seqZ_cons by (pose proof (zlen_nonneg ls); lia).
  cbn [console_lines flat_map map]. rewrite H, IH. cbn [app]. f_equal. f_equal. f_equal; lia.
Qed.

Lemma line_ids i l : all_attr "id" (console_line i l) = [VStr (js "msg-" ++ show_int i)].
Proof. reflexivity. Qed.

Lemma line_keys i l : all_attr "key" (console_line i l) = [VStr (js "msgidx-" ++ show_int i)].
Proof. reflexivity. Qed.

Lemma numbered_NoDup pre n : NoDup (map (fun i => VStr (pre ++ show_int i)) (seqZ 0 n)).
Proof.
  assert (Inj eq eq (fun i => VStr (pre ++ show_int i))) by (intros i j [= H%app_inv_head]; by apply show_int_inj).
  apply (NoDup_fmap_2 (fun i => VStr (pre ++ show_int i))), NoDup_seqZ.
Qed.

Lemma console_all k pre ls :
  (forall i l, all_attr k (console_line i l) = [VStr (pre ++ show_int i)]) -> get_prop k [("ref", VRef)] = None ->
  all_attr k (ConsoleView ls) = map (fun i => VStr (pre ++ show_int i)) (seqZ 0 (zlen ls)).
Proof.
  intros H Hr. unfold ConsoleView. rewrite all_attr_element, flat_map_app, (console_attrs k pre) by done.
  cbn [get_prop flat_map app]. rewrite all_attr_element, Hr. cbn. by rewrite app_nil_r.
Qed.

Definition form_ids : list value := [s_ "tb-username"; s_ "tb-spanreed-url"; s_ "tb-backend-url"].

Lemma page_attrs k s :
  all_attr k (DemoPageView s) =
  all_attr k DemoCanvasView ++
  match connection (the_page s) with
  | None => all_attr k (SetupConnectionComponent (default Setup.init (form s)) (hovers s ConnectButton))
  | Some c => all_attr k (connection_status c (hovers s CloseButton)) ++
              all_attr k (ChatBoxView (connection_user c) (default [] (chat s)) (hovers s SubmitButton))
  end ++ all_attr k (ConsoleView (lines (the_page s))).
Proof.
  unfold DemoPageView, OuterContainer. rewrite all_attr_element. cbn [get_prop].
  destruct (connection (the_page s)); cbn [app flat_map ConnectionStateComponent]; rewrite app_nil_r;
    change (all_attr k (Element "span" [] _ [] [Text _])) with (@nil value); by rewrite <- ?app_assoc.
Qed.

(** In every state, no two elements of the page have the same id and no two console lines the same key, and
    every label of the form belongs to an input that is there. *)
Theorem page_ids_unique s :
  NoDup (all_attr "id" (DemoPageView s)) /\ NoDup (all_attr "key" (DemoPageView s)) /\
  Forall (fun v => v ∈ all_attr "id" (DemoPageView s)) (all_attr "htmlFor" (DemoPageView s)).
Proof.
  rewrite !page_attrs.
  rewrite (console_all "id" (js "msg-") _ line_ids eq_refl), (console_all "key" (js "msgidx-") _ line_keys eq_refl).
  assert (HF : all_attr "htmlFor" (ConsoleView (lines (the_page s))) = []).
  { unfold ConsoleView. rewrite all_attr_element, flat_map_app. cbn [get_prop app].
    generalize 0. induction (lines (the_page s)) as [|l ls IH]; intros i; [done|]. apply IH. }
  rewrite HF. destruct (connection (the_page s)) as [c|].
  - split; [|split]; [apply numbered_NoDup..|constructor].
  - split; [|split]; [|apply numbered_NoDup|].
    + change (NoDup (form_ids ++ map (fun i => VStr (js "msg-" ++ show_int i)) (seqZ 0 (zlen (lines (the_page s)))))).
      apply list.NoDup_app. split_and!; [by apply (bool_decide_unpack (NoDup form_ids))| |apply numbered_NoDup].
      intros v Hv (i & <- & _)%list_elem_of_In%in_map_iff. apply list_elem_of_In in Hv. by destruct Hv as [|[|[|[]]]].
    + change (Forall (fun v => v ∈ form_ids ++ map (fun i => VStr (js "msg-" ++ show_int i))
        (seqZ 0 (zlen (lines (the_page s))))) form_ids).
      apply Forall_forall. intros v Hv. apply elem_of_app. left. by apply list_elem_of_In.
Qed.

(** ** The console *)
Definition level_color (l : LogLevel) : option value :=
  match l with
  | Warning => Some (s_ "#eed202") | Error => Some (s_ "#cc3300") | Info => Some (s_ "#40a6ce")
  | UserChat => Some (s_ "#2ced0e") | Debug => None
  end.

Lemma console_lines_lookup idx ls i :
  console_lines idx ls !! i = (fun l => console_line (idx + Z.of_nat i) l) <$> ls !! i.
Proof.
  revert idx i. induction ls as [|l ls IH]; intros idx [|i]; cbn [console_lines]; try done.
  - cbn. by rewrite Z.add_0_r.
  - cbn [lookup list_lookup]. rewrite IH. replace (idx + 1 + Z.of_nat i) with (idx + Z.of_nat (S i)) by lia. done.
Qed.

Lemma console_lines_length idx ls : length (console_lines idx ls) = length ls.
Proof. revert idx. induction ls as [|l ls IH]; intros idx; [done|]. cbn [console_lines length]. by rewrite IH. Qed.

(** The console shows the log: for each logged line, in order, an element with the number of the line, counted
    from one, followed by its text in the colour of its level; after the lines there is only the marker that is scrolled to. *)
Theorem console_shows_the_log s : exists k,
  (forall i (m : jsstring) l, lines (the_page s) !! i = Some (m, l) ->
     text_content <$> node_at [k; i] (DemoPageView s) = Some (show_int (Z.of_nat i + 1) ++ m) /\
     (n ← node_at [k; i; 1%nat] (DemoPageView s); style_of "color" n) = level_color l) /\
  node_at [k; length (lines (the_page s))] (DemoPageView s) = Some (Element "div" [("ref", VRef)] [] [] []) /\
  node_at [k; S (length (lines (the_page s)))] (DemoPageView s) = None.
Proof.
  assert (HV : exists k, forall path, node_at (k :: path) (DemoPageView s) = node_at path (ConsoleView (lines (the_page s)))).
  { unfold DemoPageView. destruct (connection (the_page s)); [by exists 4%nat|by exists 3%nat]. }
  destruct HV as [k HV]. exists k. rewrite !HV.
  pose proof (console_lines_length 0 (lines (the_page s))) as Hl.
  split_and!.
  - intros i m l E. rewrite !HV. cbn [node_at ConsoleView].
    rewrite lookup_app_l by (rewrite Hl; by eapply lookup_lt_Some).
    rewrite console_lines_lookup, E. cbn [fmap option_fmap option_map]. rewrite Z.add_0_l. split.
    + cbn -[show_int]. by rewrite !app_nil_r.
    + by destruct l.
  - cbn [node_at ConsoleView]. by rewrite lookup_app_r, Hl, Nat.sub_diag by lia.
  - cbn [node_at ConsoleView]. rewrite lookup_app_r, Hl by lia.
    by replace (S (length (lines (the_page s))) - length (lines (the_page s)))%nat with 1%nat by lia.
Qed.

(** ** Witnesses *)
Definition no_text : jsval -> jsstring := fun _ => [].
Definition no_message : exn -> jsstring := fun _ => [].

Lemma form_inputs_show_what_is_typed_witness :
  shown path_userName (snd (app_step (FB := FbRef) no_text no_message any_url (User path_userName (DomChange (js "Kal"))) app0)) =
    Some (VStr (js "Kal")).
Proof.
  destruct (form_inputs_show_what_is_typed (FB := FbRef) no_text no_message any_url app0 Setup.init (js "Kal") eq_refl eq_refl)
    as (_ & _ & _ & H & _). exact H.
Defined.

Definition origin_click : dom_event := DomClick (num_of_Z 0) (num_of_Z 0) (mkRect (num_of_Z 0) (num_of_Z 0) (num_of_Z 1) (num_of_Z 1)).

Lemma connect_uses_what_is_shown_witness :
  fst (app_step (FB := FbRef) no_text no_message any_url (User [2; 2; 0; 0]%nat origin_click) app0) =
    [Setup.TryWebsocket (js "ws://localhost:3000/ws") (js "udp:localhost:30001") (js "Sessamekesh")].
Proof.
  pose proof (connect_uses_what_is_shown (FB := FbRef) no_text no_message any_url app0 Setup.init [0; 0]%nat
    (num_of_Z 0) (num_of_Z 0) (mkRect (num_of_Z 0) (num_of_Z 0) (num_of_Z 1) (num_of_Z 1)) eq_refl eq_refl
    (ex_intro _ (Text (js "Connect!")) eq_refl)) as H.
  change (path_connect ++ [0; 0]%nat) with [2; 2; 0; 0]%nat in H. fold origin_click in H.
  destruct (app_step _ _ _ _ app0) as [ts s']. destruct H as (_ & _ & (u & sp & d & Hu & Hs & Hd & ->) & _).
  cbn in Hu, Hs, Hd. injection Hu as <-. injection Hs as <-. injection Hd as <-. reflexivity.
Defined.

Definition connected_ui : ui :=
  mkApp (mkPage [] [] (Some (WebsocketConnection 1 (js "Kal"))) None [Socket 1] [] None []) None (Some (js "hi")) (fun _ => false).

Lemma chat_box_sends_what_is_shown_witness :
  the_page (snd (app_step (FB := FbRef) no_text no_message any_url (User path_chat (DomKeyDown (js "Enter"))) connected_ui)) =
    onSubmitChat (FB := FbRef) (js "hi") (the_page connected_ui).
Proof.
  destruct (chat_box_sends_what_is_shown (FB := FbRef) no_text no_message any_url connected_ui (WebsocketConnection 1 (js "Kal"))
    (js "hi") [] (num_of_Z 0) (num_of_Z 0) (mkRect (num_of_Z 0) (num_of_Z 0) (num_of_Z 1) (num_of_Z 1))
    eq_refl eq_refl eq_refl) as (_ & _ & _ & H & _). exact H.
Defined.
