(* ===== verification/ClientStore.v ===== *)
(** * The proxy's client store ([internal/client_store.go])

    A map from client ids to connection metadata behind a counter of ids. Every
    method holds the store's mutex (and the metadata's) for its whole body, so
    each is one atomic function on the store; errors are values. *)

From S2P Require Import Prelude JsPlatform.

(** The error types the proxy's own code returns. *)
Inductive error : Type :=
| DuplicateClientIdError (id : Z)
| MissingClientIdError (id : Z)
| TooManyClientsError
| MissingDestinationHandler (name : string)
| MissingClientHandler (name : string)
| NoMatchingHandlerForConnectionString (connectionString : string)
| NameCollision (context name : string)
| AuthTimeout
| ConnectionTimeout
| OtherError (msg : string).

Record ClientConnectionMetadata : Type := mkMeta {
  meta_IsConnected : bool;
  ClientHandlerName : string;
  DestinationHandlerName : string;
  CreatedTime : Z;
  LastClientMsgTime : Z;
  LastDestinationMsgTime : Z
}.

Record ClientStore : Type := mkStore {
  MaxConnections : Z;
  nextClientId : Z;
  clientConnections : gmap Z ClientConnectionMetadata
}.

Definition CreateClientStore (maxConnections : Z) : ClientStore := mkStore maxConnections 0 ∅.

Definition with_clients (s : ClientStore) (m : gmap Z ClientConnectionMetadata) : ClientStore :=
  mkStore (MaxConnections s) (nextClientId s) m.

(** [atomic.Uint32.Add(1)] wraps around and returns the new value. *)
Definition GetNewClientId (s : ClientStore) : Z * ClientStore :=
  let id := to_uint 32 (nextClientId s + 1) in
  (id, mkStore (MaxConnections s) id (clientConnections s)).

Definition HasClient (s : ClientStore) (clientId : Z) : bool :=
  match clientConnections s !! clientId with Some _ => true | None => false end.

Definition CreateClient (clientId : Z) (clientHandlerName : string) (timestamp : Z) (s : ClientStore) :
    option error * ClientStore :=
  match clientConnections s !! clientId with
  | Some _ => (Some (DuplicateClientIdError clientId), s)
  | None =>
      if MaxConnections s <=? Z.of_nat (size (clientConnections s)) then (Some TooManyClientsError, s)
      else (None, with_clients s (<[clientId :=
              mkMeta false clientHandlerName EmptyString timestamp timestamp timestamp]> (clientConnections s)))
  end.

Definition RemoveClient (clientId : Z) (s : ClientStore) : ClientStore :=
  with_clients s (delete clientId (clientConnections s)).

(** The methods that change one record in place. *)
Definition update (clientId : Z) (f : ClientConnectionMetadata -> ClientConnectionMetadata) (s : ClientStore) :
    option error * ClientStore :=
  match clientConnections s !! clientId with
  | None => (Some (MissingClientIdError clientId), s)
  | Some c => (None, with_clients s (<[clientId := f c]> (clientConnections s)))
  end.

Definition Connect (clientId : Z) : ClientStore -> option error * ClientStore :=
  update clientId (fun c => mkMeta true (ClientHandlerName c) (DestinationHandlerName c)
    (CreatedTime c) (LastClientMsgTime c) (LastDestinationMsgTime c)).

(** The flag of the record is not looked at. *)
Definition IsConnected (s : ClientStore) (clientId : Z) : bool :=
  match clientConnections s !! clientId with None => false | Some _ => true end.

Definition SetDestinationHandlerName (clientId : Z) (name : string) : ClientStore -> option error * ClientStore :=
  update clientId (fun c => mkMeta (meta_IsConnected c) (ClientHandlerName c) name
    (CreatedTime c) (LastClientMsgTime c) (LastDestinationMsgTime c)).

Definition GetDestinationHandlerName (s : ClientStore) (clientId : Z) : sum error string :=
  match clientConnections s !! clientId with
  | None => inl (MissingClientIdError clientId)
  | Some c => inr (DestinationHandlerName c)
  end.

Definition GetClientHandlerName (s : ClientStore) (clientId : Z) : sum error string :=
  match clientConnections s !! clientId with
  | None => inl (MissingClientIdError clientId)
  | Some c => inr (ClientHandlerName c)
  end.

Definition SetClientRecvTimestamp (clientId timestamp : Z) : ClientStore -> option error * ClientStore :=
  update clientId (fun c => mkMeta (meta_IsConnected c) (ClientHandlerName c) (DestinationHandlerName c)
    (CreatedTime c) timestamp (LastDestinationMsgTime c)).

Definition SetDestinationRecvTimestamp (clientId timestamp : Z) : ClientStore -> option error * ClientStore :=
  update clientId (fun c => mkMeta (meta_IsConnected c) (ClientHandlerName c) (DestinationHandlerName c)
    (CreatedTime c) (LastClientMsgTime c) timestamp).

(** The range loops visit the map in an unspecified order: the lists are meant as
    sets of ids. *)
Definition GetTimeoutClientList (clientMsgDeadline destinationMsgDeadline connectionDeadline : Z)
    (s : ClientStore) : list Z :=
  map fst (List.filter (fun kc =>
    let c := snd kc in
    (CreatedTime c <? connectionDeadline) || (LastClientMsgTime c <? clientMsgDeadline) ||
    (LastDestinationMsgTime c <? destinationMsgDeadline))
    (map_to_list (clientConnections s))).

Definition GetAuthTimeoutClientList (connectDeadline : Z) (s : ClientStore) : list Z :=
  map fst (List.filter (fun kc =>
    let c := snd kc in negb (meta_IsConnected c) && (CreatedTime c <? connectDeadline))
    (map_to_list (clientConnections s))).

(** [KickAllClients]: the callback acts on some state [W] and may stop the loop. *)
Section kick_all.
Context {W : Type} (cb : Z -> ClientConnectionMetadata -> W -> option error * W).

Fixpoint kick_loop (todo : list (Z * ClientConnectionMetadata)) (s : ClientStore) (w : W) :
    option error * (ClientStore * W) :=
  match todo with
  | [] => (None, (s, w))
  | (clientId, clientRecord) :: rest =>
      match cb clientId clientRecord w with
      | (Some e, w') => (Some e, (s, w'))
      | (None, w') => kick_loop rest (RemoveClient clientId s) w'
      end
  end.

Definition KickAllClients (s : ClientStore) (w : W) : option error * (ClientStore * W) :=
  kick_loop (map_to_list (clientConnections s)) s w.
End kick_all.
