(* ===== verification/Proxy.v ===== *)
(** * The proxy hub ([pkg/proxy/proxy.go])

    The proxy routes between registered client handlers and destination
    handlers. Its goroutines take one message at a time and run one of the
    functions below; what a function sends on the handlers' channels is appended
    to [sent], in order (a full channel makes the sender wait, which changes
    when, not what, is sent). Readings of the clock are arguments. The functions
    are what a turn does when no other goroutine acts meanwhile; [ProxyInvariant]
    cuts them into the actions that the locks make atomic and interleaves those. *)

From S2P Require Import Prelude JsPlatform ClientStore.
From stdpp Require Import gmap.
#[local] Open Scope Z_scope.

(** ** Messages ([pkg/handlers/proxy_messages.go]) *)
(** A [[]byte]: nil, or bytes. *)
Definition slice : Type := option (list Z).

Record OpenClientConnectionCommand : Type := mkOpen {
  open_ClientId : Z; open_RecvTimestamp : Z; open_RouteTimestamp : Z;
  ConnectionString : string; open_AppData : slice
}.

Record OpenClientConnectionVerdict : Type := mkVerdict {
  verdict_ClientId : Z; Verdict : bool; verdict_Error : option error; verdict_AppData : slice
}.

(** [ClientMessage] and [DestinationMessage] have the same fields. *)
Record routed : Type := mkRouted {
  msg_ClientId : Z; RecvTimestamp : Z; RouteTimestamp : Z; Data : slice
}.

(** ** State *)

(** What is put on a channel of a handler; and that the match function of a handler panicked, which ends the process:
    nothing that a run of the model does after that happens. *)
Inductive send : Type :=
| ClientMsg (handler : string) (m : routed)
| ClientVerdict (handler : string) (v : OpenClientConnectionVerdict)
| ClientClose (handler : string) (clientId : Z) (reason : option error)
| DestMsg (handler : string) (m : routed)
| DestOpen (handler : string) (c : OpenClientConnectionCommand)
| DestClose (handler : string) (clientId : Z) (reason : option error)
| MatchPanics (handler : string).

(** Durations in nanoseconds. *)
Record timeouts : Type := mkTimeouts {
  clientMessageTimeout : Z; clientAuthTimeout : Z; destinationMessageTimeout : Z;
  maxConnectionLength : Z; connectionKickLoopTime : Z
}.

Record proxy : Type := mkProxy {
  clientStore : ClientStore;
  clientHandlers : gset string;                          (** keys of [outgoingClientMessageChannels] *)
  destinationHandlers : gset string;                     (** keys of [outgoingDestinationMessageSendChannels] *)
  connectedDestinationHandlers : list (string * (string -> option bool));   (** [None]: the function panics *)
  limits : timeouts;
  sent : list send
}.

Definition with_store (p : proxy) (s : ClientStore) : proxy :=
  mkProxy s (clientHandlers p) (destinationHandlers p) (connectedDestinationHandlers p) (limits p) (sent p).

Definition put_send (x : send) (p : proxy) : proxy :=
  mkProxy (clientStore p) (clientHandlers p) (destinationHandlers p) (connectedDestinationHandlers p) (limits p)
    (sent p ++ [x]).

(** ** [CreateProxy] *)
Record ProxyConfig : Type := mkConfig {
  MaxConcurrentConnections : Z;
  ClientMessageTimeoutMilliseconds : Z;
  ClientAuthTimeoutMilliseconds : Z;
  DestinationMessageTimeoutMilliseconds : Z;
  MaxConnectionLengthMilliseconds : Z;
  ConnectionKickLoopMilliseconds : Z
}.

(** [time.Millisecond * time.Duration(n)] in 64 bits. *)
Definition milliseconds (n : Z) : Z := to_sint 64 (1000000 * n).
Definition seconds (n : Z) : Z := 1000000000 * n.
Definition microseconds_of (d : Z) : Z := Z.quot d 1000.

Definition or_default (ms dflt : Z) : Z := if 0 <? ms then milliseconds ms else dflt.

Definition CreateProxy (c : ProxyConfig) : proxy :=
  let maxConcurrentConnections := if 0 <? MaxConcurrentConnections c then MaxConcurrentConnections c else 512 in
  mkProxy (CreateClientStore maxConcurrentConnections) ∅ ∅ []
    (mkTimeouts (or_default (ClientMessageTimeoutMilliseconds c) (seconds 60))
       (or_default (ClientAuthTimeoutMilliseconds c) (seconds 10))
       (or_default (DestinationMessageTimeoutMilliseconds c) (seconds 15))
       (or_default (MaxConnectionLengthMilliseconds c) (seconds (6 * 3600)))
       (or_default (ConnectionKickLoopMilliseconds c) (seconds 3)))
    [].

(** ** Registration *)
Definition CreateClientMessageHandler (name : string) (p : proxy) : option error * proxy :=
  if bool_decide (name ∈ clientHandlers p)
  then (Some (NameCollision "CreateClientMessageHandler" name), p)
  else (None, mkProxy (clientStore p) ({[name]} ∪ clientHandlers p) (destinationHandlers p)
                (connectedDestinationHandlers p) (limits p) (sent p)).

Definition CreateDestinationMessageHandler (name : string) (matchConnectionStringFn : string -> option bool) (p : proxy) :
    option error * proxy :=
  if bool_decide (name ∈ destinationHandlers p)
  then (Some (NameCollision "CreateDestinationMessageHandler" name), p)
  else (None, mkProxy (clientStore p) (clientHandlers p) ({[name]} ∪ destinationHandlers p)
                (connectedDestinationHandlers p ++ [(name, matchConnectionStringFn)]) (limits p) (sent p)).

(** [GetNextClientId] of a client handler. *)
Definition getClientIdCbForMessageHandler (name : string) (now : Z) (p : proxy) : sum error Z * proxy :=
  let '(clientId, s) := GetNewClientId (clientStore p) in
  match CreateClient clientId name now s with
  | (Some e, s) => (inl e, with_store p s)
  | (None, s) => (inr clientId, with_store p s)
  end.

(** ** Forwarding *)
Definition forwardClientMessage (deqTime : Z) (msg : routed) (p : proxy) : option error * proxy :=
  match GetDestinationHandlerName (clientStore p) (msg_ClientId msg) with
  | inl e => (Some e, p)
  | inr destHandlerName =>
      if bool_decide (destHandlerName ∈ destinationHandlers p)
      then (None, put_send (DestMsg destHandlerName
                    (mkRouted (msg_ClientId msg) (RecvTimestamp msg) deqTime (Data msg))) p)
      else (Some (MissingDestinationHandler destHandlerName), p)
  end.

Definition forwardDestinationMessage (deqTime : Z) (msg : routed) (p : proxy) : option error * proxy :=
  match GetClientHandlerName (clientStore p) (msg_ClientId msg) with
  | inl e => (Some e, p)
  | inr clientHandlerName =>
      if bool_decide (clientHandlerName ∈ clientHandlers p)
      then (None, put_send (ClientMsg clientHandlerName
                    (mkRouted (msg_ClientId msg) (RecvTimestamp msg) deqTime (Data msg))) p)
      else (Some (MissingClientHandler clientHandlerName), p)
  end.

(** ** Disconnecting *)
Definition sendClientDisconnect (clientId : Z) (name : string) (reason : option error) (p : proxy) : proxy :=
  if bool_decide (name = EmptyString) then p
  else if bool_decide (name ∈ clientHandlers p) then put_send (ClientClose name clientId reason) p
  else p.

Definition sendDestinationDisconnect (clientId : Z) (name : string) (reason : option error) (p : proxy) : proxy :=
  if bool_decide (name = EmptyString) then p
  else if bool_decide (name ∈ destinationHandlers p) then put_send (DestClose name clientId reason) p
  else p.

(** A missing client leaves both names empty. *)
Definition name_or_empty (r : sum error string) : string := match r with inl _ => EmptyString | inr n => n end.

Definition kickClient (clientId : Z) (reason : option error) (p : proxy) : proxy :=
  let clientHandlerName := name_or_empty (GetClientHandlerName (clientStore p) clientId) in
  let destinationHandlerName := name_or_empty (GetDestinationHandlerName (clientStore p) clientId) in
  let p := sendClientDisconnect clientId clientHandlerName reason p in
  let p := sendDestinationDisconnect clientId destinationHandlerName reason p in
  with_store p (RemoveClient clientId (clientStore p)).

(** ** Opening *)

(** The handlers are tried in the order of their registration. *)
Fixpoint attach (dequeTimestamp : Z) (incomingMsg : OpenClientConnectionCommand)
    (hs : list (string * (string -> option bool))) (p : proxy) : option error * proxy :=
  match hs with
  | [] => (Some (NoMatchingHandlerForConnectionString (ConnectionString incomingMsg)), p)
  | (name, MatchConnectionString) :: rest =>
      match MatchConnectionString (ConnectionString incomingMsg) with
      | None => (None, put_send (MatchPanics name) p)
      | Some false => attach dequeTimestamp incomingMsg rest p
      | Some true =>
          if bool_decide (name ∈ destinationHandlers p) then
            match SetDestinationHandlerName (open_ClientId incomingMsg) name (clientStore p) with
            | (Some e, _) => (Some e, p)
            | (None, s) =>
                (None, put_send (DestOpen name (mkOpen (open_ClientId incomingMsg) (open_RecvTimestamp incomingMsg)
                          dequeTimestamp (ConnectionString incomingMsg) (open_AppData incomingMsg))) (with_store p s))
            end
          else (Some (MissingDestinationHandler name), p)
      end
  end.

Definition handleClientConnectionRequestMessage (dequeTimestamp : Z) (incomingMsg : OpenClientConnectionCommand)
    (p : proxy) : option error * proxy :=
  match GetDestinationHandlerName (clientStore p) (open_ClientId incomingMsg) with
  | inl e => (Some e, p)
  | inr rsl =>
      if bool_decide (rsl <> EmptyString) then (None, p)
      else
        match attach dequeTimestamp incomingMsg (connectedDestinationHandlers p) p with
        | (Some e, p) => (Some e, kickClient (open_ClientId incomingMsg) (Some e) p)
        | (None, p) => (None, p)
        end
  end.

(** The client is marked as connected whatever the verdict. *)
Definition forwardDestinationVerdict (msg : OpenClientConnectionVerdict) (p : proxy) : option error * proxy :=
  match GetClientHandlerName (clientStore p) (verdict_ClientId msg) with
  | inl e => (Some e, p)
  | inr clientName =>
      if bool_decide (clientName ∈ clientHandlers p) then
        let p := with_store p (snd (Connect (verdict_ClientId msg) (clientStore p))) in
        (None, put_send (ClientVerdict clientName msg) p)
      else (Some (MissingClientHandler clientName), p)
  end.

(** ** Timeouts *)
Definition kick_all (ids : list Z) (reason : error) (p : proxy) : proxy :=
  fold_left (fun p clientId => kickClient clientId (Some reason) p) ids p.

Definition kickOldClients (now1 now2 now3 : Z) (p : proxy) : proxy :=
  let clientMsgDeadline := now1 - microseconds_of (clientMessageTimeout (limits p)) in
  let destinationMsgDeadline := now2 - microseconds_of (destinationMessageTimeout (limits p)) in
  let connectionDeadline := now3 - microseconds_of (maxConnectionLength (limits p)) in
  kick_all (GetTimeoutClientList clientMsgDeadline destinationMsgDeadline connectionDeadline (clientStore p))
    ConnectionTimeout p.

Definition checkForAuthTimeouts (now : Z) (p : proxy) : proxy :=
  let authDeadline := now - microseconds_of (clientAuthTimeout (limits p)) in
  kick_all (GetAuthTimeoutClientList authDeadline (clientStore p)) AuthTimeout p.

(** ** [Start]: one turn of a goroutine *)
Inductive event : Type :=
| RegisterClientHandler (name : string)
| RegisterDestinationHandler (name : string) (matches : string -> option bool)
| NewClient (name : string) (now : Z)
| FromClient (m : routed) (deqTime now : Z)
| OpenRequest (c : OpenClientConnectionCommand) (now : Z)
| CloseRequest (clientId : Z) (reason : option error)     (** from a client or from a destination *)
| FromDestination (m : routed) (deqTime now : Z)
| FromVerdict (v : OpenClientConnectionVerdict)
| Tick (now1 now2 now3 now4 : Z).

Definition step (ev : event) (p : proxy) : proxy :=
  match ev with
  | RegisterClientHandler name => snd (CreateClientMessageHandler name p)
  | RegisterDestinationHandler name matches => snd (CreateDestinationMessageHandler name matches p)
  | NewClient name now => snd (getClientIdCbForMessageHandler name now p)
  | FromClient m deqTime now =>
      match forwardClientMessage deqTime m p with
      | (None, p) => with_store p (snd (SetClientRecvTimestamp (msg_ClientId m) now (clientStore p)))
      | (Some _, p) => p
      end
  | OpenRequest c now => snd (handleClientConnectionRequestMessage now c p)
  | CloseRequest clientId reason => kickClient clientId reason p
  | FromDestination m deqTime now =>
      match forwardDestinationMessage deqTime m p with
      | (None, p) => with_store p (snd (SetDestinationRecvTimestamp (msg_ClientId m) now (clientStore p)))
      | (Some _, p) => p
      end
  | FromVerdict v => snd (forwardDestinationVerdict v p)
  | Tick now1 now2 now3 now4 => checkForAuthTimeouts now4 (kickOldClients now1 now2 now3 p)
  end.

(** The end of [Start]: every client is told and forgotten. *)
Definition shutdown (p : proxy) : proxy :=
  let dcErr := Some (OtherError "disconnecting due to proxy shutdown request") in
  let '(_, (s, p)) := KickAllClients (fun clientId meta p =>
      (None, sendDestinationDisconnect clientId (DestinationHandlerName meta) dcErr
               (sendClientDisconnect clientId (ClientHandlerName meta) dcErr p))) (clientStore p) p in
  with_store p s.

(** [NoMatchingHandlerForConnectionString.Error]: slicing past the end of a string panics. *)
Definition no_matching_handler_text (connectionString : string) : option string :=
  if 32 <=? Z.of_nat (String.length connectionString)
  then Some ("No destination handler can match connection string " +:+ String.substring 0 32 connectionString)
  else None.
