(* ===== verification/ProxyInvariant.v ===== *)
(** * What the proxy hub keeps true, under every interleaving of its goroutines

    A turn of a goroutine is not atomic: between two calls into the client store,
    or between a call and a send, another goroutine may run. [prog] cuts every turn
    of [pkg/proxy/proxy.go] into the actions that the locks make atomic;
    [schedule] runs any number of turns at once, in any order. [proxy_ok] is the
    invariant of the hub; [safe] is the rely-guarantee argument that carries it
    through every schedule; [run] is a turn without interference, which is the
    function of [Proxy]. *)

From S2P Require Import Prelude JsPlatform ClientStore Proxy.
From stdpp Require Import gmap.
#[local] Open Scope Z_scope.

Create HintDb proxy.

(** ** The turns, cut into atomic actions *)
#[warnings="-register-all"]
Inductive prog : Type :=
| Done
| Act (f : proxy -> proxy * prog).

(** A turn that nothing interrupts. *)
Fixpoint run (g : prog) (p : proxy) : proxy :=
  match g with
  | Done => p
  | Act f => match f p with (p', k) => run k p' end
  end.

Lemma prog_induction (P : prog -> Prop) :
  P Done -> (forall f, (forall p, P (snd (f p))) -> P (Act f)) -> forall g, P g.
Proof.
  intros HD HA. fix IH 1. intros [|f]; [exact HD|]. apply HA. intros p. destruct (f p) as [q k]. exact (IH k).
Qed.

(** [kickClient], continued by [k]: two readings of the store, two sends and the removal. *)
Definition kickClient_prog (clientId : Z) (reason : option error) (k : prog) : prog :=
  Act (fun p => (p, let clientHandlerName := name_or_empty (GetClientHandlerName (clientStore p) clientId) in
  Act (fun p => (p, let destinationHandlerName := name_or_empty (GetDestinationHandlerName (clientStore p) clientId) in
  Act (fun p => (sendClientDisconnect clientId clientHandlerName reason p,
  Act (fun p => (sendDestinationDisconnect clientId destinationHandlerName reason p,
  Act (fun p => (with_store p (RemoveClient clientId (clientStore p)), k)))))))))).

Definition kick_all_prog (ids : list Z) (reason : error) (k : prog) : prog :=
  fold_right (fun clientId k => kickClient_prog clientId (Some reason) k) k ids.

(** The list of the clients to kick is read at once; the clock and the limits are not shared. *)
Definition tick_prog (now1 now2 now3 now4 : Z) : prog :=
  Act (fun p => (p,
    kick_all_prog (GetTimeoutClientList (now1 - microseconds_of (clientMessageTimeout (limits p)))
      (now2 - microseconds_of (destinationMessageTimeout (limits p)))
      (now3 - microseconds_of (maxConnectionLength (limits p))) (clientStore p)) ConnectionTimeout
  (Act (fun p => (p,
    kick_all_prog (GetAuthTimeoutClientList (now4 - microseconds_of (clientAuthTimeout (limits p))) (clientStore p))
      AuthTimeout Done))))).

(** The destination is named by the store; then its channel is looked up and fed under the
    read lock of the handlers; then the time is noted. *)
Definition forwardClientMessage_prog (deqTime now : Z) (msg : routed) : prog :=
  Act (fun p => (p,
    match GetDestinationHandlerName (clientStore p) (msg_ClientId msg) with
    | inl _ => Done
    | inr name =>
        Act (fun p =>
          if bool_decide (name ∈ destinationHandlers p)
          then (put_send (DestMsg name (mkRouted (msg_ClientId msg) (RecvTimestamp msg) deqTime (Data msg))) p,
                Act (fun p => (with_store p (snd (SetClientRecvTimestamp (msg_ClientId msg) now (clientStore p))), Done)))
          else (p, Done))
    end)).

Definition forwardDestinationMessage_prog (deqTime now : Z) (msg : routed) : prog :=
  Act (fun p => (p,
    match GetClientHandlerName (clientStore p) (msg_ClientId msg) with
    | inl _ => Done
    | inr name =>
        Act (fun p =>
          if bool_decide (name ∈ clientHandlers p)
          then (put_send (ClientMsg name (mkRouted (msg_ClientId msg) (RecvTimestamp msg) deqTime (Data msg))) p,
                Act (fun p => (with_store p (snd (SetDestinationRecvTimestamp (msg_ClientId msg) now (clientStore p))), Done)))
          else (p, Done))
    end)).

(** The loop over the handlers runs under their read locks: the choice of the handler and the
    naming in the store are one action, the send another. *)
Fixpoint attach_prog (dequeTimestamp : Z) (incomingMsg : OpenClientConnectionCommand)
    (hs : list (string * (string -> option bool))) (p : proxy) : proxy * prog :=
  match hs with
  | [] => (p, kickClient_prog (open_ClientId incomingMsg)
                (Some (NoMatchingHandlerForConnectionString (ConnectionString incomingMsg))) Done)
  | (name, MatchConnectionString) :: rest =>
      match MatchConnectionString (ConnectionString incomingMsg) with
      | None => (put_send (MatchPanics name) p, Done)
      | Some false => attach_prog dequeTimestamp incomingMsg rest p
      | Some true =>
          if bool_decide (name ∈ destinationHandlers p) then
            match SetDestinationHandlerName (open_ClientId incomingMsg) name (clientStore p) with
            | (Some e, _) => (p, kickClient_prog (open_ClientId incomingMsg) (Some e) Done)
            | (None, s) =>
                (with_store p s, Act (fun p =>
                  (put_send (DestOpen name (mkOpen (open_ClientId incomingMsg) (open_RecvTimestamp incomingMsg)
                     dequeTimestamp (ConnectionString incomingMsg) (open_AppData incomingMsg))) p, Done)))
            end
          else (p, kickClient_prog (open_ClientId incomingMsg) (Some (MissingDestinationHandler name)) Done)
      end
  end.

Definition open_prog (dequeTimestamp : Z) (incomingMsg : OpenClientConnectionCommand) : prog :=
  Act (fun p => (p,
    match GetDestinationHandlerName (clientStore p) (open_ClientId incomingMsg) with
    | inl _ => Done
    | inr rsl =>
        if bool_decide (rsl <> EmptyString) then Done
        else Act (fun p => attach_prog dequeTimestamp incomingMsg (connectedDestinationHandlers p) p)
    end)).

Definition verdict_prog (msg : OpenClientConnectionVerdict) : prog :=
  Act (fun p => (p,
    match GetClientHandlerName (clientStore p) (verdict_ClientId msg) with
    | inl _ => Done
    | inr name =>
        Act (fun p =>
          if bool_decide (name ∈ clientHandlers p)
          then (with_store p (snd (Connect (verdict_ClientId msg) (clientStore p))),
                Act (fun p => (put_send (ClientVerdict name msg) p, Done)))
          else (p, Done))
    end)).

Definition new_client_prog (name : string) (now : Z) : prog :=
  Act (fun p => let '(clientId, s) := GetNewClientId (clientStore p) in
    (with_store p s, Act (fun p => (with_store p (snd (CreateClient clientId name now (clientStore p))), Done)))).

(** What each event makes a goroutine do. *)
Definition prog_of (ev : event) : prog :=
  match ev with
  | RegisterClientHandler name => Act (fun p => (snd (CreateClientMessageHandler name p), Done))
  | RegisterDestinationHandler name matches =>
      Act (fun p => (snd (CreateDestinationMessageHandler name matches p), Done))
  | NewClient name now => new_client_prog name now
  | FromClient m deqTime now => forwardClientMessage_prog deqTime now m
  | OpenRequest c now => open_prog now c
  | CloseRequest clientId reason => kickClient_prog clientId reason Done
  | FromDestination m deqTime now => forwardDestinationMessage_prog deqTime now m
  | FromVerdict v => verdict_prog v
  | Tick now1 now2 now3 now4 => tick_prog now1 now2 now3 now4
  end.

(** [GetNextClientId] is a method of a handler that was registered. *)
Definition allowed (ev : event) (p : proxy) : bool :=
  match ev with NewClient name _ => bool_decide (name ∈ clientHandlers p) | _ => true end.

(** ** Schedules *)

(** A scheduler begins turns at any time and lets any of those under way take its next action. *)
Inductive pick : Type := Begin (ev : event) | Go (i : nat).

Definition advance (c : pick) (st : proxy * list prog) : option (proxy * list prog) :=
  let '(p, gs) := st in
  match c with
  | Begin ev => if allowed ev p then Some (p, gs ++ [prog_of ev]) else None
  | Go i => match gs !! i with
            | Some (Act f) => match f p with (p', k) => Some (p', <[i := k]> gs) end
            | _ => None
            end
  end.

Fixpoint schedule (cs : list pick) (st : proxy * list prog) : option (proxy * list prog) :=
  match cs with
  | [] => Some st
  | c :: cs => match advance c st with Some st => schedule cs st | None => None end
  end.

(** Turns one after the other. *)
Fixpoint runs (es : list event) (p : proxy) : option proxy :=
  match es with
  | [] => Some p
  | ev :: es => if allowed ev p then runs es (step ev p) else None
  end.

(** ** The invariant *)

(** Who a send is addressed to is registered. *)
Definition addressed (ch dh : gset string) (x : send) : Prop :=
  match x with
  | ClientMsg n _ | ClientVerdict n _ | ClientClose n _ _ => n ∈ ch
  | DestMsg n _ | DestOpen n _ | DestClose n _ _ => n ∈ dh
  | MatchPanics _ => True
  end.

Definition client_ok (ch dh : gset string) (c : ClientConnectionMetadata) : Prop :=
  ClientHandlerName c ∈ ch /\ (DestinationHandlerName c = EmptyString \/ DestinationHandlerName c ∈ dh).

Record proxy_ok (p : proxy) : Prop := {
  ok_room : Z.of_nat (size (clientConnections (clientStore p))) <= MaxConnections (clientStore p);
  ok_clients : map_Forall (fun _ => client_ok (clientHandlers p) (destinationHandlers p))
                 (clientConnections (clientStore p));
  ok_names : NoDup (map fst (connectedDestinationHandlers p));
  ok_handlers : forall n, n ∈ map fst (connectedDestinationHandlers p) <-> n ∈ destinationHandlers p;
  ok_sent : Forall (addressed (clientHandlers p) (destinationHandlers p)) (sent p)
}.

(** What one goroutine may rely on from the others: handlers are never taken away. *)
Record grows (p q : proxy) : Prop := {
  grows_clients : clientHandlers p ⊆ clientHandlers q;
  grows_destinations : destinationHandlers p ⊆ destinationHandlers q
}.

#[export] Instance grows_preorder : PreOrder grows.
Proof. split; [done|]. intros p q r [] []. split; set_solver. Qed.

(** An action's guarantee. *)
Definition keeps (p q : proxy) : Prop := proxy_ok q /\ grows p q.

Lemma addressed_mono ch dh ch' dh' x : ch ⊆ ch' -> dh ⊆ dh' -> addressed ch dh x -> addressed ch' dh' x.
Proof. destruct x; set_solver. Qed.

Lemma client_ok_mono ch dh ch' dh' c : ch ⊆ ch' -> dh ⊆ dh' -> client_ok ch dh c -> client_ok ch' dh' c.
Proof. unfold client_ok. set_solver. Qed.

Lemma CreateProxy_ok c : proxy_ok (CreateProxy c).
Proof.
  unfold CreateProxy. split; cbn.
  - rewrite map_size_empty. destruct (Z.ltb_spec 0 (MaxConcurrentConnections c)); lia.
  - apply map_Forall_empty.
  - constructor.
  - set_solver.
  - constructor.
Qed.

(** *** Each atomic action keeps the invariant *)
Lemma keeps_refl p : proxy_ok p -> keeps p p.
Proof. by split. Qed.

Lemma keeps_send x p : proxy_ok p -> addressed (clientHandlers p) (destinationHandlers p) x ->
  keeps p (put_send x p).
Proof. intros [] Hx. split; split; cbn; try done. apply Forall_app. by repeat constructor. Qed.

Lemma keeps_clients p n m :
  proxy_ok p -> Z.of_nat (size m) <= MaxConnections (clientStore p) ->
  map_Forall (fun _ => client_ok (clientHandlers p) (destinationHandlers p)) m ->
  keeps p (with_store p (mkStore (MaxConnections (clientStore p)) n m)).
Proof. intros [] ??. by split; split. Qed.

Lemma keeps_remove id p : proxy_ok p -> keeps p (with_store p (RemoveClient id (clientStore p))).
Proof.
  intros Hp. apply keeps_clients; [done| |].
  - pose proof (ok_room _ Hp).
    assert (size (delete id (clientConnections (clientStore p))) <= size (clientConnections (clientStore p)))%nat
      by (apply map_subseteq_size, delete_subseteq). lia.
  - apply map_Forall_delete, ok_clients, Hp.
Qed.

Lemma keeps_update id f p :
  proxy_ok p ->
  (forall c, client_ok (clientHandlers p) (destinationHandlers p) c ->
             client_ok (clientHandlers p) (destinationHandlers p) (f c)) ->
  keeps p (with_store p (snd (update id f (clientStore p)))).
Proof.
  intros Hp Hf. unfold update. destruct (_ !! id) as [c|] eqn:E; cbn.
  - apply keeps_clients; [done| |].
    + rewrite map_size_insert_Some by eauto. apply Hp.
    + apply map_Forall_insert_2; [apply Hf; exact (ok_clients _ Hp _ _ E)|apply Hp].
  - destruct p, Hp. by split; split.
Qed.

Lemma keeps_create id name now p :
  proxy_ok p -> name ∈ clientHandlers p ->
  keeps p (with_store p (snd (CreateClient id name now (clientStore p)))).
Proof.
  intros Hp Hn. unfold CreateClient. destruct (_ !! id) eqn:E; [destruct p, Hp; by split; split|].
  destruct (Z.leb_spec (MaxConnections (clientStore p)) (Z.of_nat (size (clientConnections (clientStore p)))));
    [destruct p, Hp; by split; split|].
  apply keeps_clients; [done| |].
  - rewrite map_size_insert_None by done. lia.
  - apply map_Forall_insert_2; [|apply Hp]. split; cbn; auto.
Qed.

Lemma keeps_client_handler name p : proxy_ok p -> keeps p (snd (CreateClientMessageHandler name p)).
Proof.
  intros Hp. unfold CreateClientMessageHandler. case_bool_decide; [by apply keeps_refl|]. cbn.
  destruct Hp. split; split; cbn; try done; try set_solver.
  - eapply map_Forall_impl; [eassumption|]. intros ?? [??]. split; [set_solver|done].
  - eapply Forall_impl; [eassumption|]. intros x. apply addressed_mono; set_solver.
Qed.

Lemma keeps_destination_handler name f p :
  proxy_ok p -> keeps p (snd (CreateDestinationMessageHandler name f p)).
Proof.
  intros Hp. unfold CreateDestinationMessageHandler. case_bool_decide as Hn; [by apply keeps_refl|]. cbn.
  destruct Hp as [Hr Hc Hnd Hh Hs]. split; split; cbn; try done; try set_solver.
  - eapply map_Forall_impl; [exact Hc|]. intros ??. apply client_ok_mono; set_solver.
  - rewrite map_app. cbn. apply NoDup_app. repeat split; [done| |apply NoDup_singleton].
    intros x Hx ->%list_elem_of_singleton. by apply Hn, Hh.
  - intros n. rewrite map_app, elem_of_app, Hh. set_solver.
  - eapply Forall_impl; [exact Hs|]. intros x. apply addressed_mono; set_solver.
Qed.

Lemma keeps_client_close id name r p : proxy_ok p -> keeps p (sendClientDisconnect id name r p).
Proof.
  intros Hp. unfold sendClientDisconnect. repeat case_bool_decide; [by apply keeps_refl| |by apply keeps_refl].
  by apply keeps_send.
Qed.

Lemma keeps_destination_close id name r p : proxy_ok p -> keeps p (sendDestinationDisconnect id name r p).
Proof.
  intros Hp. unfold sendDestinationDisconnect. repeat case_bool_decide; [by apply keeps_refl| |by apply keeps_refl].
  by apply keeps_send.
Qed.

#[export] Hint Resolve keeps_refl keeps_remove keeps_create keeps_client_handler keeps_destination_handler
  keeps_client_close keeps_destination_close : proxy.

(** ** Rely-guarantee *)

(** From [p0] on, whatever the others do meanwhile, every action of the turn keeps the invariant. *)
Inductive safe : proxy -> prog -> Prop :=
| safe_done p0 : safe p0 Done
| safe_act p0 f :
    (forall p, grows p0 p -> proxy_ok p -> keeps p (fst (f p))) ->
    (forall p, grows p0 p -> proxy_ok p -> safe (fst (f p)) (snd (f p))) ->
    safe p0 (Act f).

Lemma safe_mono p q g : safe p g -> grows p q -> safe q g.
Proof.
  destruct 1 as [|p f Hk Hs]; intros Hpq; constructor; intros r Hr Hok.
  - apply Hk; [by etrans|done].
  - apply Hs; [by etrans|done].
Qed.

Lemma safe_run p g : safe p g -> proxy_ok p -> keeps p (run g p).
Proof.
  induction 1 as [|p f Hk Hs IH]; intros Hok; cbn; [by apply keeps_refl|].
  destruct (Hk p ltac:(done) Hok) as [Hok' Hg]. specialize (IH p ltac:(done) Hok Hok').
  destruct (f p) as [p' k]. cbn in *. destruct IH. split; [done|by etrans].
Qed.

(** One action whose continuation needs nothing but what held before it. *)
Lemma safe_step p0 f :
  (forall p, grows p0 p -> proxy_ok p -> keeps p (fst (f p)) /\ safe (fst (f p)) (snd (f p))) -> safe p0 (Act f).
Proof. intros H. constructor; intros; by apply H. Qed.

(** Takes one action and discharges its guarantee with the hints. *)
Ltac take_action p G OK :=
  apply safe_step; intros p G OK; cbn [fst snd]; split; [solve [auto with proxy]|].

Lemma safe_kickClient id r k p0 : (forall p, grows p0 p -> safe p k) -> safe p0 (kickClient_prog id r k).
Proof.
  intros Hk. unfold kickClient_prog.
  take_action p1 G1 O1.
  take_action p2 G2 O2.
  take_action p3 G3 O3.
  take_action p4 G4 O4.
  take_action p5 G5 O5.
  apply Hk. repeat (etrans; [eassumption|]).
  destruct (keeps_client_close id (name_or_empty (GetClientHandlerName (clientStore p1) id)) r p3 O3) as [_ G].
  etrans; [exact G|]. etrans; [exact G4|].
  destruct (keeps_destination_close id (name_or_empty (GetDestinationHandlerName (clientStore p2) id)) r p4 O4) as [_ G'].
  etrans; [exact G'|]. etrans; [exact G5|]. apply keeps_remove, O5.
Qed.

Lemma safe_kick_all ids e k p0 : (forall p, grows p0 p -> safe p k) -> safe p0 (kick_all_prog ids e k).
Proof.
  revert p0. induction ids as [|id ids IH]; intros p0 Hk; cbn; [by apply Hk|].
  apply safe_kickClient. intros p Hp. apply IH. intros q Hq. apply Hk. by etrans.
Qed.

Lemma safe_tick a b c d p0 : safe p0 (tick_prog a b c d).
Proof.
  take_action p G OK. apply safe_kick_all. intros q _.
  take_action r G1 OK1. apply safe_kick_all. constructor.
Qed.

Lemma safe_forwardClient d now m p0 : safe p0 (forwardClientMessage_prog d now m).
Proof.
  take_action p G OK. cbn.
  destruct (GetDestinationHandlerName _ _) as [|name]; [constructor|].
  apply safe_step; intros q G' O'. case_bool_decide; cbn; [|split; [auto with proxy|constructor]].
  split; [by apply keeps_send|].
  apply safe_step; intros r G'' O''. split; [|constructor]. by apply keeps_update.
Qed.

Lemma safe_forwardDestination d now m p0 : safe p0 (forwardDestinationMessage_prog d now m).
Proof.
  take_action p G OK. cbn.
  destruct (GetClientHandlerName _ _) as [|name]; [constructor|].
  apply safe_step; intros q G' O'. case_bool_decide; cbn; [|split; [auto with proxy|constructor]].
  split; [by apply keeps_send|].
  apply safe_step; intros r G'' O''. split; [|constructor]. by apply keeps_update.
Qed.

Lemma safe_verdict v p0 : safe p0 (verdict_prog v).
Proof.
  take_action p G OK. cbn.
  destruct (GetClientHandlerName _ _) as [|name]; [constructor|].
  apply safe_step; intros q G' O'. case_bool_decide as Hn; cbn; [|split; [auto with proxy|constructor]].
  split; [by apply keeps_update|].
  apply safe_step; intros r [Gc _] O''. split; [|constructor]. apply keeps_send; [done|]. by apply Gc.
Qed.

Lemma safe_attach now c hs p :
  proxy_ok p -> keeps p (fst (attach_prog now c hs p)) /\ safe (fst (attach_prog now c hs p)) (snd (attach_prog now c hs p)).
Proof.
  intros O. induction hs as [|[name f] hs IH]; cbn [attach_prog].
  { split; [auto with proxy|]. apply safe_kickClient. constructor. }
  destruct (f _) as [[]|]; [clear IH | exact IH | split; [by apply keeps_send | constructor]].
  case_bool_decide as Hn; [|split; [auto with proxy|]; apply safe_kickClient; constructor].
  pose proof (keeps_update (open_ClientId c) (fun c => mkMeta (meta_IsConnected c) (ClientHandlerName c) name
    (CreatedTime c) (LastClientMsgTime c) (LastDestinationMsgTime c)) p O) as Hk.
  unfold SetDestinationHandlerName in *.
  destruct (update _ _ _) as [[e|] s]; cbn [fst snd] in *.
  - split; [auto with proxy|]. apply safe_kickClient. constructor.
  - split; [apply Hk; unfold client_ok; naive_solver|].
    apply safe_step; intros q [_ Gd] O'. split; [|constructor]. apply keeps_send; [done|]. by apply Gd.
Qed.

Lemma safe_open now c p0 : safe p0 (open_prog now c).
Proof.
  take_action p G OK. cbn.
  destruct (GetDestinationHandlerName _ _) as [|name]; [constructor|]. case_bool_decide; [constructor|].
  apply safe_step; intros q _ O'. by apply safe_attach.
Qed.

Lemma safe_new_client name now p0 : name ∈ clientHandlers p0 -> safe p0 (new_client_prog name now).
Proof.
  intros Hn. apply safe_step; intros p [Gc _] O. split.
  - apply keeps_clients; [done|apply O|apply O].
  - apply safe_step; intros q [Gc' _] O'. split; [|constructor].
    apply keeps_create; [done|]. by apply Gc', Gc.
Qed.

(** Every turn that can begin is safe. *)
Lemma safe_prog_of ev p : allowed ev p = true -> safe p (prog_of ev).
Proof.
  destruct ev; cbn; intros Ha;
    auto using safe_tick, safe_forwardClient, safe_forwardDestination, safe_verdict, safe_open;
    try (take_action q G OK; apply safe_done).
  - apply safe_new_client. by case_bool_decide.
  - apply safe_kickClient. constructor.
Qed.

(** ** A turn without interference *)
Lemma run_kickClient id r k p : run (kickClient_prog id r k) p = run k (kickClient id r p).
Proof. reflexivity. Qed.

Lemma run_kick_all ids e k p : run (kick_all_prog ids e k) p = run k (kick_all ids e p).
Proof.
  revert p. induction ids as [|id ids IH]; intros p; [done|].
  cbn [kick_all_prog fold_right]. rewrite run_kickClient. apply IH.
Qed.

Lemma run_attach now c hs p :
  (let '(p', k) := attach_prog now c hs p in run k p') =
  match attach now c hs p with (Some e, p) => kickClient (open_ClientId c) (Some e) p | (None, p) => p end.
Proof.
  induction hs as [|[name f] hs IH]; [done|]. cbn [attach_prog attach].
  destruct (f _) as [[]|]; [|exact IH|done]. case_bool_decide; [|done].
  by destruct (SetDestinationHandlerName _ _ _) as [[e|] s].
Qed.

Lemma run_prog_of ev p : run (prog_of ev) p = step ev p.
Proof.
  destruct ev; cbn [prog_of step]; try done.
  - cbn. unfold getClientIdCbForMessageHandler. cbn. by destruct (CreateClient _ _ _ _) as [[] ?].
  - cbn. unfold forwardClientMessage. destruct (GetDestinationHandlerName _ _); [done|]. cbn.
    by case_bool_decide.
  - cbn. unfold handleClientConnectionRequestMessage.
    destruct (GetDestinationHandlerName _ _); [done|]. case_bool_decide; [done|]. cbn [run].
    rewrite run_attach. by destruct (attach _ _ _ _) as [[] ?].
  - cbn. unfold forwardDestinationMessage. destruct (GetClientHandlerName _ _); [done|]. cbn.
    by case_bool_decide.
  - cbn. unfold forwardDestinationVerdict. destruct (GetClientHandlerName _ _); [done|]. cbn.
    by case_bool_decide.
  - cbn [tick_prog run]. rewrite run_kick_all. cbn [run]. by rewrite run_kick_all.
Qed.

Lemma step_keeps ev p : proxy_ok p -> allowed ev p = true -> keeps p (step ev p).
Proof. intros O A. rewrite <- run_prog_of. apply safe_run; [by apply safe_prog_of|done]. Qed.

Lemma runs_ok es p q : proxy_ok p -> runs es p = Some q -> proxy_ok q.
Proof.
  revert p. induction es as [|ev es IH]; intros p O; cbn; [by intros [= <-]|].
  destruct (allowed ev p) eqn:A; [|done]. apply IH. by apply step_keeps.
Qed.
