(* ===== verification/ProxyTheorems.v ===== *)
(** * The proxy hub routes, admits, times out and shuts down as it should

    Theorems about [Proxy] and [ClientStore]: the invariant in every schedule, what a
    turn does when it is left alone, the routing of messages between a client and its
    destination, admission and identifiers, kicking, timeouts and shutdown; and two
    behaviours that the code does not intend. *)

From S2P Require Import Prelude JsPlatform ClientStore Proxy ProxyInvariant.
From stdpp Require Import gmap.
#[local] Open Scope Z_scope.

Abbreviation clients p := (clientConnections (clientStore p)).

(** States the hub can be in, in the middle of any turns. *)
Definition reachable (c : ProxyConfig) (p : proxy) : Prop :=
  exists cs gs, schedule cs (CreateProxy c, []) = Some (p, gs).

(** The close commands that a client's record calls for. *)
Definition closes (clientId : Z) (c : ClientConnectionMetadata) (reason : option error) : list send :=
  (if bool_decide (ClientHandlerName c = EmptyString) then [] else [ClientClose (ClientHandlerName c) clientId reason]) ++
  (if bool_decide (DestinationHandlerName c = EmptyString) then []
   else [DestClose (DestinationHandlerName c) clientId reason]).

(** ** Schedules *)
Lemma schedule_keeps cs p gs p' gs' :
  proxy_ok p -> Forall (safe p) gs -> schedule cs (p, gs) = Some (p', gs') -> proxy_ok p'.
Proof.
  revert p gs. induction cs as [|c cs IH]; intros p gs O S; cbn [schedule]; [by intros [= <- <-]|].
  destruct c as [ev|i]; cbn [advance].
  - destruct (allowed ev p) eqn:A; [|done]. apply IH; [done|]. apply Forall_app.
    repeat constructor; [done|]. by apply safe_prog_of.
  - destruct (gs !! i) as [[|f]|] eqn:E; try done.
    pose proof (Forall_lookup_1 _ _ _ _ S E) as Hf. inversion Hf as [|? ? Hk Hs]; subst.
    specialize (Hk p ltac:(done) O). specialize (Hs p ltac:(done) O).
    destruct (f p) as [q k]. cbn [fst snd] in *. destruct Hk as [O' G]. apply IH; [done|].
    apply Forall_insert; [|done]. eapply Forall_impl; [exact S|]. intros g Hg. by eapply safe_mono.
Qed.

Lemma reachable_ok c p : reachable c p -> proxy_ok p.
Proof. intros (cs & gs & H). exact (schedule_keeps _ _ _ _ _ (CreateProxy_ok c) (Forall_nil_2 _) H). Qed.

(** A turn needs finitely many actions. *)
Lemma turn_ends g p gs :
  exists n, schedule (repeat (Go (length gs)) n) (p, gs ++ [g]) = Some (run g p, gs ++ [Done]).
Proof.
  revert p. induction g as [|f IH] using prog_induction; intros p; [by exists 0%nat|].
  destruct (IH p (fst (f p))) as [n Hn]. exists (S n). cbn [repeat schedule advance].
  rewrite lookup_app_r, Nat.sub_diag by lia. cbn [lookup list_lookup run]. destruct (f p) as [q k].
  rewrite insert_app_r_alt, Nat.sub_diag by lia. exact Hn.
Qed.

(** ** The store under the hub's operations *)
Lemma kickClient_store id r p : clientStore (kickClient id r p) = RemoveClient id (clientStore p).
Proof.
  unfold kickClient, sendClientDisconnect, sendDestinationDisconnect. cbn. by repeat case_bool_decide.
Qed.

Lemma kick_all_lookup ids e p id :
  clients (kick_all ids e p) !! id = if bool_decide (id ∈ ids) then None else clients p !! id.
Proof.
  revert p. induction ids as [|i ids IH]; intros p; cbn [kick_all fold_left].
  { by rewrite bool_decide_eq_false_2 by apply not_elem_of_nil. }
  unfold kick_all in IH. rewrite IH, kickClient_store. cbn.
  destruct (decide (id = i)) as [->|Hne].
  - rewrite lookup_delete_eq. rewrite (bool_decide_eq_true_2 (i ∈ i :: ids)) by set_solver. by case_bool_decide.
  - rewrite lookup_delete_ne by done. repeat case_bool_decide; try done; set_solver.
Qed.

(** The two lists of the store, as predicates on the records. *)
Lemma elem_of_kick_list (P : ClientConnectionMetadata -> bool) (m : gmap Z ClientConnectionMetadata) id :
  id ∈ map fst (List.filter (fun kc => P (snd kc)) (map_to_list m)) <-> exists c, m !! id = Some c /\ P c = true.
Proof.
  rewrite list_elem_of_In, in_map_iff. split.
  - intros ([i c] & <- & [H Hp]%filter_In). apply list_elem_of_In, elem_of_map_to_list in H. eauto.
  - intros (c & H & Hp). exists (id, c). split; [done|]. apply filter_In. split; [|done].
    by apply list_elem_of_In, elem_of_map_to_list.
Qed.

Lemma kick_all_filter (P : ClientConnectionMetadata -> bool) e p id c :
  clients (kick_all (map fst (List.filter (fun kc => P (snd kc)) (map_to_list (clients p)))) e p) !! id = Some c <->
  clients p !! id = Some c /\ P c = false.
Proof.
  rewrite kick_all_lookup. case_bool_decide as Hin.
  - apply elem_of_kick_list in Hin as (c' & Hc & HP). split; [done|]. intros [? ?]. simplify_eq. congruence.
  - split; [|by intros []]. intros Hc. split; [done|]. destruct (P c) eqn:E; [|done].
    destruct Hin. apply elem_of_kick_list. eauto.
Qed.

Lemma kick_all_limits ids e p : limits (kick_all ids e p) = limits p.
Proof.
  revert p. induction ids as [|i ids IH]; intros p; [done|]. cbn [kick_all fold_left].
  unfold kick_all in IH. rewrite IH.
  unfold kickClient, sendClientDisconnect, sendDestinationDisconnect. cbn. by repeat case_bool_decide.
Qed.

(** A small hub for the witnesses: one handler on each side, one client that has been
    created and one that has been attached. *)
Definition demo_config : ProxyConfig := mkConfig 0 0 0 0 0 0.
Definition demo_open (clientId : Z) : OpenClientConnectionCommand := mkOpen clientId 5 0 "udp://game" (Some [1; 2]).
Definition demo_schedule : list pick :=
  [Begin (RegisterClientHandler "ws"); Go 0;
   Begin (RegisterDestinationHandler "udp" (fun str => Some (String.prefix "udp://" str))); Go 1;
   Begin (NewClient "ws" 5); Go 2; Go 2; Begin (OpenRequest (demo_open 1) 6); Go 3; Go 3; Begin (NewClient "ws" 7); Go 4;
   Go 3; Go 4].
Definition demo_hub : proxy :=
  match schedule demo_schedule (CreateProxy demo_config, []) with Some (p, _) => p | None => CreateProxy demo_config end.

Lemma demo_hub_reachable : reachable demo_config demo_hub.
Proof. exists demo_schedule. eexists. vm_compute. reflexivity. Qed.

(** ** Every schedule *)

(** C7: whatever turns begin and however their actions interleave, from a new hub on: no more
    clients are held than the configured maximum, every client belongs to a registered client
    handler and to a registered destination handler or to none, the destination handlers have
    distinct names, and everything sent was put on the channel of a registered handler. *)
Theorem proxy_invariant_interleaved c cs p gs :
  schedule cs (CreateProxy c, []) = Some (p, gs) -> proxy_ok p.
Proof. intros H. apply (reachable_ok c). by exists cs, gs. Qed.

Lemma proxy_invariant_interleaved_witness : exists gs,
  schedule demo_schedule (CreateProxy demo_config, []) = Some (demo_hub, gs) /\ proxy_ok demo_hub.
Proof.
  eexists. split; [vm_compute; reflexivity|].
  eapply (proxy_invariant_interleaved demo_config demo_schedule). vm_compute. reflexivity.
Defined.

(** A turn of a goroutine always ends, after finitely many actions; when no other goroutine
    acts meanwhile, it has done what the function of the code does as a whole. *)
Theorem turn_refines_step ev p gs :
  allowed ev p = true ->
  exists n, schedule (Begin ev :: repeat (Go (length gs)) n) (p, gs) = Some (step ev p, gs ++ [Done]).
Proof.
  intros A. destruct (turn_ends (prog_of ev) p gs) as [n Hn]. exists n. cbn [schedule advance].
  by rewrite A, <- run_prog_of.
Qed.

Lemma turn_refines_step_witness : exists n,
  schedule (Begin (NewClient "ws" 9) :: repeat (Go 0) n) (demo_hub, []) = Some (step (NewClient "ws" 9) demo_hub, [Done]).
Proof. exact (turn_refines_step (NewClient "ws" 9) demo_hub [] eq_refl). Defined.

(** ** Routing *)
Lemma attached_handlers p id c :
  proxy_ok p -> clients p !! id = Some c ->
  ClientHandlerName c ∈ clientHandlers p /\
  (DestinationHandlerName c <> EmptyString -> DestinationHandlerName c ∈ destinationHandlers p).
Proof. intros O E. destruct (ok_clients _ O _ _ E) as [? []]; by split. Qed.

(** C28: in every reachable state, a client that is attached to a destination exchanges messages
    with it in both directions: a message of the client is put once, with its bytes and its receive
    time, on the channel of its destination handler, and a message of the destination on the channel
    of its client handler; the last message time of the sender, and nothing else of the store, is
    updated. *)
Theorem attached_client_exchanges cfg p id c deq now recv route data :
  reachable cfg p -> clients p !! id = Some c -> DestinationHandlerName c <> EmptyString ->
  let m := mkRouted id recv route data in
  let out := mkRouted id recv deq data in
  sent (step (FromClient m deq now) p) = sent p ++ [DestMsg (DestinationHandlerName c) out] /\
  clients (step (FromClient m deq now) p) =
    <[id := mkMeta (meta_IsConnected c) (ClientHandlerName c) (DestinationHandlerName c)
              (CreatedTime c) now (LastDestinationMsgTime c)]> (clients p) /\
  sent (step (FromDestination m deq now) p) = sent p ++ [ClientMsg (ClientHandlerName c) out] /\
  clients (step (FromDestination m deq now) p) =
    <[id := mkMeta (meta_IsConnected c) (ClientHandlerName c) (DestinationHandlerName c)
              (CreatedTime c) (LastClientMsgTime c) now]> (clients p).
Proof.
  intros O%reachable_ok E Hd m out. destruct (attached_handlers _ _ _ O E) as [Hc Hd'].
  cbn [step]. unfold forwardClientMessage, forwardDestinationMessage, GetDestinationHandlerName, GetClientHandlerName.
  cbn [msg_ClientId m]. rewrite E. rewrite !bool_decide_eq_true_2 by auto.
  unfold SetClientRecvTimestamp, SetDestinationRecvTimestamp, update. cbn. by rewrite E.
Qed.

Lemma attached_client_exchanges_witness :
  sent (step (FromClient (mkRouted 1 8 0 (Some [7])) 9 10) demo_hub) = sent demo_hub ++ [DestMsg "udp" (mkRouted 1 8 9 (Some [7]))] /\
  clients (step (FromClient (mkRouted 1 8 0 (Some [7])) 9 10) demo_hub) =
    <[1 := mkMeta false "ws" "udp" 5 10 5]> (clients demo_hub) /\
  sent (step (FromDestination (mkRouted 1 8 0 (Some [7])) 9 10) demo_hub) = sent demo_hub ++ [ClientMsg "ws" (mkRouted 1 8 9 (Some [7]))] /\
  clients (step (FromDestination (mkRouted 1 8 0 (Some [7])) 9 10) demo_hub) =
    <[1 := mkMeta false "ws" "udp" 5 5 10]> (clients demo_hub).
Proof.
  exact (attached_client_exchanges demo_config demo_hub 1 (mkMeta false "ws" "udp" 5 5 5) 9 10 8 0 (Some [7])
    demo_hub_reachable eq_refl ltac:(discriminate)).
Defined.

(** A message that names no client, from either side, and a message of a client that has no
    destination yet, is refused with the error that says so; nothing is sent and nothing changes.
    (No destination handler is registered under the empty name.) *)
Theorem unroutable_messages_refused p id recv route data deq now :
  EmptyString ∉ destinationHandlers p ->
  let m := mkRouted id recv route data in
  match clients p !! id with
  | None =>
      fst (forwardClientMessage deq m p) = Some (MissingClientIdError id) /\ step (FromClient m deq now) p = p /\
      fst (forwardDestinationMessage deq m p) = Some (MissingClientIdError id) /\ step (FromDestination m deq now) p = p
  | Some c =>
      DestinationHandlerName c = EmptyString ->
      fst (forwardClientMessage deq m p) = Some (MissingDestinationHandler EmptyString) /\
      step (FromClient m deq now) p = p
  end.
Proof.
  intros He m. destruct (clients p !! id) as [c|] eqn:E; [intros Hd|]; cbn [step];
    unfold forwardClientMessage, forwardDestinationMessage, GetDestinationHandlerName, GetClientHandlerName;
    cbn [msg_ClientId m]; rewrite E; [|done].
  rewrite Hd. by rewrite bool_decide_eq_false_2 by done.
Qed.

Lemma unroutable_messages_refused_witness :
  fst (forwardClientMessage 9 (mkRouted 2 8 0 (Some [7])) demo_hub) = Some (MissingDestinationHandler EmptyString) /\
  step (FromClient (mkRouted 2 8 0 (Some [7])) 9 10) demo_hub = demo_hub.
Proof.
  assert (He : EmptyString ∉ destinationHandlers demo_hub).
  { apply (bool_decide_eq_true_1 (EmptyString ∉ destinationHandlers demo_hub)). vm_compute. reflexivity. }
  exact (unroutable_messages_refused demo_hub 2 8 0 (Some [7]) 9 10 He eq_refl).
Defined.

(** ** Kicking and opening *)
Lemma kickClient_known p id c r :
  proxy_ok p -> clients p !! id = Some c ->
  kickClient id r p = mkProxy (RemoveClient id (clientStore p)) (clientHandlers p) (destinationHandlers p)
    (connectedDestinationHandlers p) (limits p) (sent p ++ closes id c r).
Proof.
  intros O E. destruct (attached_handlers _ _ _ O E) as [Hc Hd].
  unfold kickClient, GetClientHandlerName, GetDestinationHandlerName, sendClientDisconnect, sendDestinationDisconnect, closes.
  rewrite E. cbn. rewrite (bool_decide_eq_true_2 (ClientHandlerName c ∈ _)) by done.
  destruct (decide (DestinationHandlerName c = EmptyString)) as [Hn|Hn].
  - rewrite (bool_decide_eq_true_2 (DestinationHandlerName c = _)) by done.
    case_bool_decide; cbn; by rewrite ?app_nil_r.
  - rewrite (bool_decide_eq_false_2 (DestinationHandlerName c = _)) by done.
    destruct (bool_decide (ClientHandlerName c = EmptyString)); cbn;
      rewrite (bool_decide_eq_true_2 (DestinationHandlerName c ∈ _)) by auto; unfold with_store, put_send; cbn; by rewrite <- ?app_assoc.
Qed.

Lemma kickClient_unknown p id r : clients p !! id = None -> kickClient id r p = p.
Proof.
  intros E. unfold kickClient, GetClientHandlerName, GetDestinationHandlerName. rewrite E. cbn.
  unfold RemoveClient, with_clients, with_store. rewrite delete_id by done. by destruct p as [[] ? ? ? ? ?].
Qed.

(** The first handler that matches, if there is one, and [inl] when a handler before it panics. *)
Fixpoint first_match (hs : list (string * (string -> option bool))) (connectionString : string) : sum string (option string) :=
  match hs with
  | [] => inr None
  | (name, f) :: hs =>
      match f connectionString with
      | None => inl name
      | Some true => inr (Some name)
      | Some false => first_match hs connectionString
      end
  end.

Lemma attach_first now c hs p m :
  clients p !! open_ClientId c = Some m -> Forall (fun h => fst h ∈ destinationHandlers p) hs ->
  attach now c hs p =
  match first_match hs (ConnectionString c) with
  | inl name => (None, put_send (MatchPanics name) p)
  | inr None => (Some (NoMatchingHandlerForConnectionString (ConnectionString c)), p)
  | inr (Some name) =>
      (None, put_send (DestOpen name (mkOpen (open_ClientId c) (open_RecvTimestamp c) now (ConnectionString c) (open_AppData c)))
               (with_store p (snd (SetDestinationHandlerName (open_ClientId c) name (clientStore p)))))
  end.
Proof.
  intros E. induction hs as [|[name f] hs IH]; intros H; [done|]. apply Forall_cons_1 in H as [Hn H].
  cbn [attach first_match fst snd] in *. destruct (f _) as [[]|]; [|by apply IH|done].
  rewrite bool_decide_eq_true_2 by done. unfold SetDestinationHandlerName, update. by rewrite E.
Qed.

(** In every reachable state, the first connection request of a client attaches it to the first
    destination handler, in the order of registration, that matches its connection string: the request
    goes to that handler with the application data unchanged, and the client's record names it. When none
    matches, the client is told why and is forgotten; a match function that panics ends the process. A second request
    changes nothing. *)
Theorem open_request_attaches cfg p c m now :
  reachable cfg p -> clients p !! open_ClientId c = Some m ->
  handleClientConnectionRequestMessage now c p =
  if bool_decide (DestinationHandlerName m = EmptyString) then
    match first_match (connectedDestinationHandlers p) (ConnectionString c) with
    | inl name => (None, put_send (MatchPanics name) p)
    | inr (Some name) =>
        (None, put_send (DestOpen name (mkOpen (open_ClientId c) (open_RecvTimestamp c) now (ConnectionString c) (open_AppData c)))
                 (with_store p (with_clients (clientStore p)
                    (<[open_ClientId c := mkMeta (meta_IsConnected m) (ClientHandlerName m) name
                       (CreatedTime m) (LastClientMsgTime m) (LastDestinationMsgTime m)]> (clients p)))))
    | inr None =>
        let e := NoMatchingHandlerForConnectionString (ConnectionString c) in
        (Some e, mkProxy (RemoveClient (open_ClientId c) (clientStore p)) (clientHandlers p) (destinationHandlers p)
                   (connectedDestinationHandlers p) (limits p) (sent p ++ closes (open_ClientId c) m (Some e)))
    end
  else (None, p).
Proof.
  intros O%reachable_ok E. unfold handleClientConnectionRequestMessage, GetDestinationHandlerName. rewrite E.
  destruct (decide (DestinationHandlerName m = EmptyString)) as [Hd|Hd].
  2:{ by rewrite bool_decide_eq_true_2, bool_decide_eq_false_2 by done. }
  rewrite bool_decide_eq_false_2, bool_decide_eq_true_2 by naive_solver.
  rewrite (attach_first now c _ p m E).
  2:{ apply Forall_forall. intros h Hh. apply (ok_handlers _ O), list_elem_of_In, in_map, list_elem_of_In, Hh. }
  destruct (first_match _ _) as [name|[name|]]; [done|..].
  - unfold SetDestinationHandlerName, update. by rewrite E.
  - by rewrite (kickClient_known p _ m _ O E).
Qed.

Lemma open_request_attaches_witness :
  snd (handleClientConnectionRequestMessage 20 (demo_open 2) demo_hub) =
    put_send (DestOpen "udp" (mkOpen 2 5 20 "udp://game" (Some [1; 2])))
      (with_store demo_hub (with_clients (clientStore demo_hub)
         (<[2 := mkMeta false "ws" "udp" 7 7 7]> (clients demo_hub)))) /\
  sent (snd (handleClientConnectionRequestMessage 20 (mkOpen 2 5 0 "tcp://game" None) demo_hub)) =
    sent demo_hub ++ [ClientClose "ws" 2 (Some (NoMatchingHandlerForConnectionString "tcp://game"))] /\
  snd (handleClientConnectionRequestMessage 20 (demo_open 1) demo_hub) = demo_hub.
Proof.
  split; [|split].
  - rewrite (open_request_attaches demo_config demo_hub (demo_open 2) (mkMeta false "ws" EmptyString 7 7 7) 20
      demo_hub_reachable eq_refl). reflexivity.
  - rewrite (open_request_attaches demo_config demo_hub (mkOpen 2 5 0 "tcp://game" None)
      (mkMeta false "ws" EmptyString 7 7 7) 20 demo_hub_reachable eq_refl). reflexivity.
  - rewrite (open_request_attaches demo_config demo_hub (demo_open 1) (mkMeta false "ws" "udp" 5 5 5) 20
      demo_hub_reachable eq_refl). reflexivity.
Defined.

(** C29: in every reachable state, kicking a client puts exactly one close command, with the reason, on
    the channel of its client handler and one on that of the destination handler it is attached to, forgets
    it and leaves the other clients alone; kicking it again, for whatever reason, does nothing. *)
Theorem kickClient_informs_once cfg p id c r r' :
  reachable cfg p -> clients p !! id = Some c ->
  sent (kickClient id r p) = sent p ++ closes id c r /\
  clients (kickClient id r p) = delete id (clients p) /\
  kickClient id r' (kickClient id r p) = kickClient id r p.
Proof.
  intros O%reachable_ok E. rewrite (kickClient_known p id c r O E). repeat split.
  apply kickClient_unknown. cbn. apply lookup_delete_eq.
Qed.

Lemma kickClient_informs_once_witness :
  sent (kickClient 1 None demo_hub) = sent demo_hub ++ [ClientClose "ws" 1 None; DestClose "udp" 1 None] /\
  clients (kickClient 1 None demo_hub) = delete 1 (clients demo_hub) /\
  kickClient 1 (Some AuthTimeout) (kickClient 1 None demo_hub) = kickClient 1 None demo_hub.
Proof.
  exact (kickClient_informs_once demo_config demo_hub 1 (mkMeta false "ws" "udp" 5 5 5) None (Some AuthTimeout)
    demo_hub_reachable eq_refl).
Defined.

(** ** Timeouts *)
Lemma overdue_kicked a b d e p id c :
  clients (kick_all (GetTimeoutClientList a b d (clientStore p)) e p) !! id = Some c <->
  clients p !! id = Some c /\
  (CreatedTime c <? d) || (LastClientMsgTime c <? a) || (LastDestinationMsgTime c <? b) = false.
Proof.
  exact (kick_all_filter (fun c => (CreatedTime c <? d) || (LastClientMsgTime c <? a) || (LastDestinationMsgTime c <? b))
           e p id c).
Qed.

Lemma auth_overdue_kicked d e p id c :
  clients (kick_all (GetAuthTimeoutClientList d (clientStore p)) e p) !! id = Some c <->
  clients p !! id = Some c /\ negb (meta_IsConnected c) && (CreatedTime c <? d) = false.
Proof. exact (kick_all_filter (fun c => negb (meta_IsConnected c) && (CreatedTime c <? d)) e p id c). Qed.

(** C30: after a turn of the timeout goroutine the clients that remain, with their records unchanged, are
    exactly those that are younger than the longest connection, that both sides have sent to recently enough
    and that, unless a destination has answered for them, are within the time allowed for that answer. *)
Theorem tick_keeps_exactly_the_live p id c n1 n2 n3 n4 :
  clients (step (Tick n1 n2 n3 n4) p) !! id = Some c <->
  clients p !! id = Some c /\
  n3 - CreatedTime c <= microseconds_of (maxConnectionLength (limits p)) /\
  n1 - LastClientMsgTime c <= microseconds_of (clientMessageTimeout (limits p)) /\
  n2 - LastDestinationMsgTime c <= microseconds_of (destinationMessageTimeout (limits p)) /\
  (meta_IsConnected c = false -> n4 - CreatedTime c <= microseconds_of (clientAuthTimeout (limits p))).
Proof.
  cbn [step]. unfold checkForAuthTimeouts, kickOldClients. rewrite kick_all_limits. cbn zeta.
  rewrite auth_overdue_kicked, overdue_kicked, !orb_false_iff, andb_false_iff, negb_false_iff, !Z.ltb_ge.
  destruct (meta_IsConnected c); split; intros; intuition (try done; try lia).
Qed.

(** ** Admission *)

Definition is_new_client (ev : event) : bool := match ev with NewClient _ _ => true | _ => false end.

(** How many client ids a run asks for. *)
Definition id_requests (es : list event) : Z := Z.of_nat (length (List.filter is_new_client es)).

(** The ids in use were given out since the start. *)
Record ids_upto (n : Z) (s : ClientStore) : Prop := {
  ids_next : nextClientId s = n;
  ids_used : map_Forall (fun id _ => 1 <= id <= n) (clientConnections s)
}.

(** Only [NewClient] adds a client or takes an id. *)
Definition no_new (s s' : ClientStore) : Prop :=
  nextClientId s' = nextClientId s /\ MaxConnections s' = MaxConnections s /\
  dom (clientConnections s') ⊆ dom (clientConnections s).

#[export] Instance no_new_preorder : PreOrder no_new.
Proof. split; [done|]. intros x y z (?&?&?) (?&?&?). repeat split; [congruence..|set_solver]. Qed.

Lemma no_new_update id f s : no_new s (snd (update id f s)).
Proof.
  unfold update. destruct (_ !! id) as [c|] eqn:E; cbn; [|done]. repeat split; cbn.
  rewrite dom_insert. apply elem_of_dom_2 in E. set_solver.
Qed.

Lemma no_new_kick id r p : no_new (clientStore p) (clientStore (kickClient id r p)).
Proof. rewrite kickClient_store. repeat split; cbn. rewrite dom_delete. set_solver. Qed.

Lemma no_new_kick_all ids e p : no_new (clientStore p) (clientStore (kick_all ids e p)).
Proof.
  revert p. induction ids as [|i ids IH]; intros p; [done|]. cbn [kick_all fold_left]. unfold kick_all in IH.
  etrans; [apply no_new_kick|apply IH].
Qed.

Lemma no_new_attach now c hs p : no_new (clientStore p) (clientStore (snd (attach now c hs p))).
Proof.
  induction hs as [|[name f] hs IH]; [done|]. cbn [attach]. destruct (f _) as [[]|]; [|exact IH|done].
  case_bool_decide; [|done]. unfold SetDestinationHandlerName.
  match goal with |- context [update ?i ?g ?s] => pose proof (no_new_update i g s) end.
  by destruct (update _ _ _) as [[e|] s].
Qed.

Lemma step_no_new ev p :
  is_new_client ev = false -> no_new (clientStore p) (clientStore (step ev p)).
Proof.
  destruct ev; intros Hev; [| |done| | | | | |]; cbn [step].
  - unfold CreateClientMessageHandler. by case_bool_decide.
  - unfold CreateDestinationMessageHandler. by case_bool_decide.
  - unfold forwardClientMessage. destruct (GetDestinationHandlerName _ _); [done|]. case_bool_decide; [|done].
    apply no_new_update.
  - unfold handleClientConnectionRequestMessage. destruct (GetDestinationHandlerName _ _); [done|].
    case_bool_decide; [done|]. pose proof (no_new_attach now c (connectedDestinationHandlers p) p) as H'.
    destruct (attach _ _ _ _) as [[e|] q]; cbn [snd] in *; [|done]. etrans; [exact H'|]. apply no_new_kick.
  - apply no_new_kick.
  - unfold forwardDestinationMessage. destruct (GetClientHandlerName _ _); [done|]. case_bool_decide; [|done].
    apply no_new_update.
  - unfold forwardDestinationVerdict. destruct (GetClientHandlerName _ _); [done|]. case_bool_decide; [|done].
    apply no_new_update.
  - etrans; apply no_new_kick_all.
Qed.

Lemma no_new_ids n s s' : no_new s s' -> ids_upto n s -> ids_upto n s'.
Proof.
  intros (Hn & _ & Hd) [<- Hu]. split; [done|]. intros id c E. apply elem_of_dom_2 in E.
  apply Hd, elem_of_dom in E as [c' E]. exact (Hu id c' E).
Qed.

(** The callback on a store whose ids have not wrapped around. *)
Lemma new_client_ids n name now p :
  0 <= n -> n + 1 < 2 ^ 32 -> ids_upto n (clientStore p) ->
  clients p !! (n + 1) = None /\
  fst (GetNewClientId (clientStore p)) = n + 1 /\
  ids_upto (n + 1) (clientStore (step (NewClient name now) p)).
Proof.
  intros H0 H1 [Hn Hu].
  assert (E : clients p !! (n + 1) = None).
  { destruct (clients p !! (n + 1)) as [c|] eqn:E; [|done]. specialize (Hu _ _ E). cbn in Hu. lia. }
  assert (Hid : to_uint 32 (nextClientId (clientStore p) + 1) = n + 1).
  { rewrite Hn. apply Z.mod_small. lia. }
  split; [done|]. split; [exact Hid|].
  cbn [step]. unfold getClientIdCbForMessageHandler, GetNewClientId. rewrite Hid. unfold CreateClient. cbn.
  rewrite E. destruct (_ <=? _); cbn; (split; [done|]); cbn.
  - eapply map_Forall_impl; [exact Hu|]. cbn. lia.
  - apply map_Forall_insert_2; [lia|]. eapply map_Forall_impl; [exact Hu|]. cbn. lia.
Qed.

Lemma runs_ids es p q n :
  runs es p = Some q -> 0 <= n -> n + id_requests es < 2 ^ 32 -> ids_upto n (clientStore p) ->
  ids_upto (n + id_requests es) (clientStore q).
Proof.
  revert p n. induction es as [|ev es IH]; intros p n; cbn [runs]; intros Hr H0 Hb Hi.
  { simplify_eq. unfold id_requests. cbn. by rewrite Z.add_0_r. }
  destruct (allowed ev p); [|done].
  destruct (is_new_client ev) eqn:Hev.
  - destruct ev; try done.
    assert (Hs : id_requests (NewClient name now :: es) = 1 + id_requests es) by (unfold id_requests; cbn; lia).
    rewrite Hs in *. replace (n + (1 + id_requests es)) with (n + 1 + id_requests es) in * by lia.
    assert (0 <= id_requests es) by (unfold id_requests; lia).
    eapply IH; [done|lia|done|]. apply new_client_ids; [lia|lia|done].
  - replace (id_requests (ev :: es)) with (id_requests es) in * by (unfold id_requests; cbn; by rewrite Hev).
    eapply IH; [done|done|done|]. eapply no_new_ids; [by apply step_no_new|done].
Qed.

(** C31: as long as fewer than 2^32 - 1 ids have been asked for, the next client gets the next number,
    which no client has, and a record that is not connected and has no destination, if there is room; if
    there is none it is refused with that error, and no client is added. It is never a duplicate. *)
Theorem new_client_admitted cfg es p name now :
  runs es (CreateProxy cfg) = Some p -> id_requests es + 1 < 2 ^ 32 ->
  let id := id_requests es + 1 in
  let max := MaxConnections (clientStore p) in
  clients p !! id = None /\
  getClientIdCbForMessageHandler name now p =
  if Z.of_nat (size (clients p)) <? max
  then (inr id, with_store p (mkStore max id (<[id := mkMeta false name EmptyString now now now]> (clients p))))
  else (inl TooManyClientsError, with_store p (mkStore max id (clients p))).
Proof.
  intros Hr Hb id max. assert (0 <= id_requests es) by (unfold id_requests; lia).
  destruct (runs_ids es _ p 0 Hr ltac:(lia) ltac:(lia)) as [Hn Hu]; [split; [done|apply map_Forall_empty]|].
  destruct (new_client_ids (id_requests es) name now p ltac:(lia) ltac:(lia)) as (E & Hid & _); [by split|].
  split; [done|]. unfold getClientIdCbForMessageHandler, GetNewClientId in *. cbn [fst] in Hid. rewrite Hid.
  unfold CreateClient. cbn [clientConnections MaxConnections]. rewrite E.
  fold max. rewrite Z.ltb_antisym. by destruct (_ <=? _).
Qed.

Lemma new_client_admitted_witness :
  clients (step (RegisterClientHandler "ws") (CreateProxy demo_config)) !! 1 = None /\
  fst (getClientIdCbForMessageHandler "ws" 5 (step (RegisterClientHandler "ws") (CreateProxy demo_config))) = inr 1.
Proof.
  destruct (new_client_admitted demo_config [RegisterClientHandler "ws"] _ "ws" 5 eq_refl ltac:(reflexivity)) as [E H].
  split; [exact E|]. rewrite H. reflexivity.
Defined.

(** ** Shutdown *)
Definition shutdown_error : option error := Some (OtherError "disconnecting due to proxy shutdown request").

(** The callback of the shutdown, as one send. *)
Lemma shutdown_callback p id c :
  ClientHandlerName c ∈ clientHandlers p ->
  (DestinationHandlerName c = EmptyString \/ DestinationHandlerName c ∈ destinationHandlers p) ->
  sendDestinationDisconnect id (DestinationHandlerName c) shutdown_error
    (sendClientDisconnect id (ClientHandlerName c) shutdown_error p) =
  mkProxy (clientStore p) (clientHandlers p) (destinationHandlers p) (connectedDestinationHandlers p) (limits p)
    (sent p ++ closes id c shutdown_error).
Proof.
  intros Hc Hd. unfold sendClientDisconnect, sendDestinationDisconnect, closes.
  rewrite (bool_decide_eq_true_2 (ClientHandlerName c ∈ _)) by done.
  destruct (bool_decide (ClientHandlerName c = EmptyString)); cbn;
    case_bool_decide; try (rewrite bool_decide_eq_true_2 by naive_solver); unfold put_send; cbn;
    rewrite ?app_nil_r, <- ?app_assoc; by destruct p.
Qed.

Lemma kick_loop_shutdown todo s p :
  Forall (fun kc => client_ok (clientHandlers p) (destinationHandlers p) (snd kc)) todo ->
  kick_loop (fun clientId meta p =>
      (None, sendDestinationDisconnect clientId (DestinationHandlerName meta) shutdown_error
               (sendClientDisconnect clientId (ClientHandlerName meta) shutdown_error p))) todo s p =
  (None, (fold_left (fun s kc => RemoveClient (fst kc) s) todo s,
          mkProxy (clientStore p) (clientHandlers p) (destinationHandlers p) (connectedDestinationHandlers p) (limits p)
            (sent p ++ concat (map (fun kc => closes (fst kc) (snd kc) shutdown_error) todo)))).
Proof.
  revert s p. induction todo as [|[id c] todo IH]; intros s p H; cbn [kick_loop].
  { cbn. rewrite app_nil_r. by destruct p. }
  apply Forall_cons_1 in H as [[Hc Hd] H]. rewrite shutdown_callback by done.
  rewrite IH by exact H. cbn. by rewrite <- app_assoc.
Qed.

Lemma remove_all_lookup (todo : list (Z * ClientConnectionMetadata)) s id :
  clientConnections (fold_left (fun s kc => RemoveClient (fst kc) s) todo s) !! id =
  if bool_decide (id ∈ map fst todo) then None else clientConnections s !! id.
Proof.
  revert s. induction todo as [|[i c] todo IH]; intros s; cbn [fold_left map fst].
  { by rewrite bool_decide_eq_false_2 by apply not_elem_of_nil. }
  rewrite IH. cbn. destruct (decide (id = i)) as [->|Hne].
  - rewrite lookup_delete_eq, (bool_decide_eq_true_2 (i ∈ i :: _)) by set_solver. by case_bool_decide.
  - rewrite lookup_delete_ne by done. repeat case_bool_decide; try done; set_solver.
Qed.

(** In every reachable state, the shutdown of the hub ends without error with no client left, after it
    has put, for every client, one close command on the channel of its client handler and one on that of the
    destination handler it is attached to. *)
Theorem shutdown_informs_everyone cfg p :
  reachable cfg p ->
  clients (shutdown p) = ∅ /\
  sent (shutdown p) =
    sent p ++ concat (map (fun kc => closes (fst kc) (snd kc) shutdown_error) (map_to_list (clients p))).
Proof.
  intros O%reachable_ok. unfold shutdown, KickAllClients.
  rewrite kick_loop_shutdown.
  2:{ apply Forall_forall. intros [id c] H%elem_of_map_to_list. exact (ok_clients _ O _ _ H). }
  cbn. split; [|done]. apply map_eq. intros id. rewrite remove_all_lookup, lookup_empty.
  case_bool_decide as Hin; [done|]. destruct (clients p !! id) as [c|] eqn:E; [|done].
  destruct Hin. apply list_elem_of_In, in_map_iff. exists (id, c). split; [done|].
  by apply list_elem_of_In, elem_of_map_to_list.
Qed.

Lemma shutdown_informs_everyone_witness :
  clients (shutdown demo_hub) = ∅ /\
  sent (shutdown demo_hub) = sent demo_hub ++
    [ClientClose "ws" 2 shutdown_error; ClientClose "ws" 1 shutdown_error; DestClose "udp" 1 shutdown_error].
Proof. exact (shutdown_informs_everyone demo_config demo_hub demo_hub_reachable). Defined.

(** ** What the code does not intend *)

(** When a destination refuses a client, the refusal is forwarded, but the client is marked as connected
    all the same: it stays in the store with its destination attached, messages between the two are still
    routed, and no later check of the authentication deadline removes it. *)
Theorem refused_client_stays_connected cfg p id c e data now :
  reachable cfg p -> clients p !! id = Some c ->
  let v := mkVerdict id false e data in
  let q := step (FromVerdict v) p in
  let c' := mkMeta true (ClientHandlerName c) (DestinationHandlerName c) (CreatedTime c)
              (LastClientMsgTime c) (LastDestinationMsgTime c) in
  sent q = sent p ++ [ClientVerdict (ClientHandlerName c) v] /\
  clients q !! id = Some c' /\
  clients (checkForAuthTimeouts now q) !! id = Some c'.
Proof.
  intros O%reachable_ok E v q c'. destruct (attached_handlers _ _ _ O E) as [Hc _].
  assert (Hq : q = put_send (ClientVerdict (ClientHandlerName c) v)
                     (with_store p (with_clients (clientStore p) (<[id := c']> (clients p))))).
  { subst q. cbn [step]. unfold forwardDestinationVerdict, GetClientHandlerName, Connect, update. cbn [verdict_ClientId v].
    rewrite E. by rewrite bool_decide_eq_true_2 by done. }
  assert (El : clients q !! id = Some c') by (rewrite Hq; cbn; by rewrite lookup_insert_eq).
  split; [by rewrite Hq|]. split; [done|]. unfold checkForAuthTimeouts. by apply auth_overdue_kicked.
Qed.

Lemma refused_client_stays_connected_witness :
  let v := mkVerdict 1 false None None in
  let q := step (FromVerdict v) demo_hub in
  sent q = sent demo_hub ++ [ClientVerdict "ws" v] /\
  clients q !! 1 = Some (mkMeta true "ws" "udp" 5 5 5) /\
  clients (checkForAuthTimeouts 99000000 q) !! 1 = Some (mkMeta true "ws" "udp" 5 5 5).
Proof.
  exact (refused_client_stays_connected demo_config demo_hub 1 (mkMeta false "ws" "udp" 5 5 5) None None 99000000
    demo_hub_reachable eq_refl).
Defined.

(** The timeout goroutine finds client 2 overdue and reads that it has no destination; the client's request
    is then handled by the other goroutine; then the kick goes on with what it has read. *)
Definition race : list pick :=
  [Begin (Tick 12000000 12000000 12000000 12000000); Go 0; Go 0; Go 0; Go 0;
   Begin (OpenRequest (demo_open 2) 12000000); Go 1; Go 1; Go 1;
   Go 0; Go 0; Go 0; Go 0; Go 0; Go 0; Go 0; Go 0].

Definition is_done (g : prog) : bool := match g with Done => true | Act _ => false end.

Definition closes_destination (id : Z) (x : send) : bool :=
  match x with DestClose _ i _ => i =? id | _ => false end.

Definition opens_destination (id : Z) (x : send) : bool :=
  match x with DestOpen _ c => open_ClientId c =? id | _ => false end.

(** C32: a kick is not atomic. There is a schedule of the client goroutine and the timeout goroutine in which
    both turns end, a destination has been asked to open a connection for a client, the hub has forgotten the
    client, and the destination has not been told; no later kick of that client tells it. *)
Theorem kick_race_leaves_destination_open : exists p gs,
  schedule race (demo_hub, []) = Some (p, gs) /\ forallb is_done gs = true /\
  clients p !! 2 = None /\ existsb (opens_destination 2) (sent p) = true /\
  existsb (closes_destination 2) (sent p) = false /\ (forall r, kickClient 2 r p = p).
Proof.
  assert (H : exists p gs, schedule race (demo_hub, []) = Some (p, gs) /\ forallb is_done gs = true /\
    clients p !! 2 = None /\ existsb (opens_destination 2) (sent p) = true /\
    existsb (closes_destination 2) (sent p) = false).
  { eexists _, _. split; [vm_compute; reflexivity|]. repeat split. }
  destruct H as (p & gs & H1 & H2 & H3 & H4 & H5). exists p, gs. repeat (split; [done|]).
  intros r. by apply kickClient_unknown.
Qed.
