(* ===== verification/GoMessages.v ===== *)
(** * The proxy's generated message code in Go ([pkg/transport/SpanreedMessage/])

    The functions of the Go package that the transports call, with their names. The
    runtime underneath ([github.com/google/flatbuffers/go], not in the repository) is
    the flatbuffers runtime for another language: the interface [FlatBuffers] stands for it as well, with
    its operations under the names of the Go package below. A Go panic (a slice out of range) is [Throw]. *)

From S2P Require Import Prelude JsPlatform FlatBuffers SpanreedMessages ClientStore Proxy.
#[local] Open Scope Z_scope.

Section with_fb.
Context `{FB : FlatBuffers}.

(** ** The runtime's operations *)
Definition NewBuilder : Z -> Builder := new_Builder.
Definition StartObject : Z -> stm Builder exn unit := startObject.
Definition EndObject : stm Builder exn Z := endObject.
Definition PrependBoolSlot (o : Z) (x d : bool) : stm Builder exn unit := addFieldInt8 o (bool_number x) (bool_number d).
Definition PrependByteSlot : Z -> Z -> Z -> stm Builder exn unit := addFieldInt8.
Definition PrependUint32Slot : Z -> Z -> Z -> stm Builder exn unit := addFieldInt32.
Definition PrependUOffsetTSlot : Z -> Z -> Z -> stm Builder exn unit := addFieldOffset.
Definition CreateByteVector : list Z -> stm Builder exn Z := createByteVector.
(** A Go string is its bytes. *)
Definition CreateString (s : list Z) : stm Builder exn Z := createString (Utf8 s).
Definition Finish (o : Z) : stm Builder exn unit := finish o false.
Definition FinishedBytes : stm Builder exn (list Z) := u ← asUint8Array; mret (u8_bytes u).

(** [flatbuffers.Table]: a buffer and a position. Buffers are below 2 GiB, where a root offset is the
    same read signed or unsigned. *)
Definition table : Type := fbtable ByteBuffer.
Definition GetUOffsetT : ByteBuffer -> Z -> Z := readInt32.

(** A bool is true when its byte is one. *)
Definition GetBool (b : ByteBuffer) (p : Z) : bool := readUint8 b p =? 1.

(** [Table.ByteVector] of a string and of a vector of bytes. *)
Definition ByteVector_string (b : ByteBuffer) (p : Z) : list Z :=
  match __string b p (Some UTF8_BYTES) with Utf8 bs => bs | Str s => text_encode s end.
Definition ByteVector (b : ByteBuffer) (p : Z) : outcome exn (list Z) :=
  u ← u8_view (u8_buffer (bytes b)) (u8_byteOffset (bytes b) + __vector b p) (__vector_len b p);
  Ret (u8_bytes u).

(** [GetRootAs...(buf, 0)], the same for every message: [x.Init(buf, n)] *)
Definition GetRootAs (buf : list Z) : table :=
  let b := new_ByteBuffer (u8_of_buffer buf) in mkTable (Some b) (GetUOffsetT b 0 + 0).

(** ** [ConnectClientMessage.go] *)
Definition GetRootAsConnectClientMessage (buf : list Z) : table := GetRootAs buf.

Definition ConnectClientMessage_ConnectionString (rcv : table) : outcome exn slice :=
  _tab ← deref rcv;
  let o := __offset _tab (bb_pos rcv) 4 in
  Ret (if truthy o then Some (ByteVector_string _tab (bb_pos rcv + o)) else None).

Definition ConnectClientMessage_AppDataBytes (rcv : table) : outcome exn slice :=
  _tab ← deref rcv;
  let o := __offset _tab (bb_pos rcv) 6 in
  if truthy o then bs ← ByteVector _tab (bb_pos rcv + o); Ret (Some bs) else Ret None.

(** ** [ConnectClientVerdict.go] *)
Definition ConnectClientVerdictStart : stm Builder exn unit := StartObject 3.
Definition ConnectClientVerdictAddAccepted (accepted : bool) : stm Builder exn unit := PrependBoolSlot 0 accepted false.
Definition ConnectClientVerdictAddErrorReason (errorReason : Z) : stm Builder exn unit := PrependUOffsetTSlot 1 errorReason 0.
Definition ConnectClientVerdictAddAppData (appData : Z) : stm Builder exn unit := PrependUOffsetTSlot 2 appData 0.
Definition ConnectClientVerdictEnd : stm Builder exn Z := EndObject.

(** ** [ProxyDestConnectionRequest.go], [ProxyDestClientMessage.go], [ProxyDestCloseConnection.go] *)
Definition ProxyDestConnectionRequestStart : stm Builder exn unit := StartObject 1.
Definition ProxyDestConnectionRequestAddClientId (clientId : Z) : stm Builder exn unit := PrependUint32Slot 0 clientId 0.
Definition ProxyDestConnectionRequestEnd : stm Builder exn Z := EndObject.
Definition ProxyDestClientMessageStart : stm Builder exn unit := StartObject 1.
Definition ProxyDestClientMessageAddClientId (clientId : Z) : stm Builder exn unit := PrependUint32Slot 0 clientId 0.
Definition ProxyDestClientMessageEnd : stm Builder exn Z := EndObject.
Definition ProxyDestCloseConnectionStart : stm Builder exn unit := StartObject 1.
Definition ProxyDestCloseConnectionAddClientId (clientId : Z) : stm Builder exn unit := PrependUint32Slot 0 clientId 0.
Definition ProxyDestCloseConnectionEnd : stm Builder exn Z := EndObject.

(** ** [ProxyDestinationMessage.go], [ProxyDestInnerMsg.go] *)
Definition ProxyDestInnerMsgProxyDestConnectionRequest : Z := 1.
Definition ProxyDestInnerMsgProxyDestClientMessage : Z := 2.
Definition ProxyDestInnerMsgProxyDestCloseConnection : Z := 3.
Definition ProxyDestinationMessageStart : stm Builder exn unit := StartObject 3.
Definition ProxyDestinationMessageAddInnerMessageType (innerMessageType : Z) : stm Builder exn unit :=
  PrependByteSlot 0 innerMessageType 0.
Definition ProxyDestinationMessageAddInnerMessage (innerMessage : Z) : stm Builder exn unit :=
  PrependUOffsetTSlot 1 innerMessage 0.
Definition ProxyDestinationMessageAddAppData (appData : Z) : stm Builder exn unit := PrependUOffsetTSlot 2 appData 0.
Definition ProxyDestinationMessageEnd : stm Builder exn Z := EndObject.

(** ** [DestinationMessage.go], [InnerMsg.go] *)
Definition InnerMsgNONE : Z := 0.
Definition InnerMsgProxyMessage : Z := 1.
Definition InnerMsgConnectionVerdict : Z := 2.
Definition InnerMsgCloseConnection : Z := 3.

Definition GetRootAsDestinationMessage (buf : list Z) : table := GetRootAs buf.

Definition DestinationMessage_MsgType (rcv : table) : outcome exn Z :=
  _tab ← deref rcv;
  let o := __offset _tab (bb_pos rcv) 4 in
  Ret (if truthy o then readUint8 _tab (bb_pos rcv + o) else 0).

(** [Msg(obj)]: the table of the member, or [None] for the result [false]. *)
Definition DestinationMessage_Msg (rcv obj : table) : outcome exn (option table) :=
  _tab ← deref rcv;
  let o := __offset _tab (bb_pos rcv) 6 in
  Ret (if truthy o then Some (__union _tab obj (bb_pos rcv + o)) else None).

Definition DestinationMessage_AppDataBytes (rcv : table) : outcome exn slice :=
  _tab ← deref rcv;
  let o := __offset _tab (bb_pos rcv) 8 in
  if truthy o then bs ← ByteVector _tab (bb_pos rcv + o); Ret (Some bs) else Ret None.

(** ** [ConnectionVerdict.go], [ProxyMessage.go], [CloseConnection.go] *)
Definition ConnectionVerdict_ClientId (rcv : table) : outcome exn Z :=
  _tab ← deref rcv;
  let o := __offset _tab (bb_pos rcv) 4 in
  Ret (if truthy o then readUint32 _tab (bb_pos rcv + o) else 0).

Definition ConnectionVerdict_Accepted (rcv : table) : outcome exn bool :=
  _tab ← deref rcv;
  let o := __offset _tab (bb_pos rcv) 6 in
  Ret (if truthy o then GetBool _tab (bb_pos rcv + o) else false).

Definition ProxyMessage_ClientId (rcv : table) : outcome exn Z :=
  _tab ← deref rcv;
  let o := __offset _tab (bb_pos rcv) 4 in
  Ret (if truthy o then readUint32 _tab (bb_pos rcv + o) else 0).

Definition CloseConnection_ClientId (rcv : table) : outcome exn Z :=
  _tab ← deref rcv;
  let o := __offset _tab (bb_pos rcv) 4 in
  Ret (if truthy o then readUint32 _tab (bb_pos rcv + o) else 0).

Definition CloseConnection_Reason (rcv : table) : outcome exn slice :=
  _tab ← deref rcv;
  let o := __offset _tab (bb_pos rcv) 6 in
  Ret (if truthy o then Some (ByteVector_string _tab (bb_pos rcv + o)) else None).
End with_fb.
