(* ===== verification/GoGenerated.v ===== *)
(** * The rest of the proxy's generated message code in Go ([pkg/transport/SpanreedMessage/])

    [GoMessages] has the functions that the transports call; here are the others of
    the thirteen files, so that the package is complete: roots at an offset and with a size
    prefix, single elements of the byte vectors, the writers [Mutate...], the builders
    of messages the proxy only reads, and the names of the enums. The code of the accessors is
    the same in every file but for the place in the vtable, so each shape is one definition
    below and each accessor one line. *)

From stdpp Require Import pretty.
From S2P Require Import Prelude JsPlatform FlatBuffers SpanreedMessages ClientStore Proxy GoMessages.
#[local] Open Scope Z_scope.

Section with_fb.
Context `{FB : FlatBuffers}.

(** ** The runtime's operations that [GoMessages] does not need *)

(** The writers of [flatbuffers.Table]. They change the bytes below the table: the result has the
    table over the changed bytes. [MutateByte] takes a place in the bytes, the others a place in the
    vtable, and answer [false] when the field is absent. *)
Class TableWriters := {
  MutateByteSlot : table -> Z -> Z -> outcome exn (bool * table);
  MutateBoolSlot : table -> Z -> bool -> outcome exn (bool * table);
  MutateUint32Slot : table -> Z -> Z -> outcome exn (bool * table);
  MutateByte : table -> Z -> Z -> outcome exn (bool * table);
}.
Context `{TW : TableWriters}.

(** [flatbuffers.UOffsetT]: a [uint32]. *)
Definition UOffsetT (z : Z) : Z := to_uint 32 z.
Definition SizeUint32 : Z := 4.

(** Reading [n] bytes at [p], a 32-bit offset: outside the bytes, slicing or indexing panics. *)
Definition in_bytes (b : ByteBuffer) (p n : Z) : bool := UOffsetT p + n <=? zlen (u8_bytes (bytes b)).
Definition checked {A} (n : Z) (read : ByteBuffer -> Z -> A) (b : ByteBuffer) (p : Z) : outcome exn A :=
  if in_bytes b p n then Ret (read b p) else Throw RangeError.

(** [Table.Offset] looks for the field's place in the vtable, which it finds through the first four bytes of the
    table. How is the runtime's matter; whether what it reads lies in the bytes is a parameter. *)
Class GoBounds := { vtable_inside : ByteBuffer -> Z -> Z -> bool }.
Context `{GB : GoBounds}.
Definition Table_Offset (b : ByteBuffer) (pos vt : Z) : outcome exn Z :=
  if vtable_inside b pos vt then Ret (__offset b pos vt) else Throw RangeError.

(** The other readers of [flatbuffers.Table]. *)
Definition GetByte : ByteBuffer -> Z -> outcome exn Z := checked 1 readUint8.
Definition GetBoolChecked : ByteBuffer -> Z -> outcome exn bool := checked 1 GetBool.
Definition GetUint32 : ByteBuffer -> Z -> outcome exn Z := checked 4 readUint32.
Definition Table_Union (obj : table) : ByteBuffer -> Z -> outcome exn table :=
  checked 4 (fun b p => __union b obj p).
Definition Table_Vector : ByteBuffer -> Z -> outcome exn Z := checked 4 __vector.
(** A vector's length stands before its first element. *)
Definition Table_VectorLen (b : ByteBuffer) (p : Z) : outcome exn Z :=
  a ← Table_Vector b p; if in_bytes b (a - 4) 4 then Ret (__vector_len b p) else Throw RangeError.
Definition Table_ByteVector (b : ByteBuffer) (p : Z) : outcome exn (list Z) :=
  Table_VectorLen b p ≫= fun _ => ByteVector b p.
Definition Table_String (b : ByteBuffer) (p : Z) : outcome exn (list Z) :=
  n ← Table_VectorLen b p;
  if in_bytes b (__vector b p) n then Ret (ByteVector_string b p) else Throw RangeError.

Definition FinishSizePrefixed (o : Z) : stm Builder exn unit := finish o true.

(** [StartVector] answers with the builder's offset. *)
Definition StartVector (elemSize numElems alignment : Z) : stm Builder exn Z :=
  startVector elemSize numElems alignment ≫= fun _ => offset.

(** ** The shapes of the generated functions *)

(** [Init]: the bytes and the position. *)
Definition Init (buf : list Z) (i : Z) : table := mkTable (Some (new_ByteBuffer (u8_of_buffer buf))) i.

(** [GetRootAs...(buf, offset)] with [p] the place of the root's offset: [buf[p:]] and reading
    four bytes of it panic when they are not there. *)
Definition root_at (buf : list Z) (p : Z) : outcome exn table :=
  if p + SizeUint32 <=? zlen buf
  then let n := UOffsetT (GetUOffsetT (new_ByteBuffer (u8_of_buffer buf)) p) in Ret (Init buf (UOffsetT (n +
    p)))
  else Throw RangeError.
Definition GetRootAt (buf : list Z) (offset : Z) : outcome exn table := root_at buf offset.
Definition GetSizePrefixedRootAt (buf : list Z) (offset : Z) : outcome exn table :=
  root_at buf (UOffsetT (offset + SizeUint32)).

Definition read_field {A} (vt : Z) (read : ByteBuffer -> Z -> outcome exn A) (absent : A) (rcv : table) :
  outcome exn A :=
  _tab ← deref rcv;
  o ← Table_Offset _tab (bb_pos rcv) vt;
  if truthy o then read _tab (bb_pos rcv + o) else Ret absent.
Definition present {A} (read : ByteBuffer -> Z -> outcome exn A) (b : ByteBuffer) (p : Z) : outcome exn (option
  A) :=
  x ← read b p; Ret (Some x).

Definition field_Uint32 (vt : Z) : table -> outcome exn Z := read_field vt GetUint32 0.
Definition field_Byte (vt : Z) : table -> outcome exn Z := read_field vt GetByte 0.
Definition field_Bool (vt : Z) : table -> outcome exn bool := read_field vt GetBoolChecked false.
Definition field_string (vt : Z) : table -> outcome exn slice := read_field vt (present Table_String) None.
Definition field_union (vt : Z) (rcv obj : table) : outcome exn (option table) :=
  read_field vt (present (Table_Union obj)) None rcv.

(** Element [j] of a vector of bytes. Nothing compares [j] with the length of the vector: the place is
    [a + UOffsetT(j*1)] in 32 bits, anywhere in the buffer. *)
Definition vector_elem (vt j : Z) : table -> outcome exn Z :=
  read_field vt (fun _tab p => a ← Table_Vector _tab p; GetByte _tab (UOffsetT (a + UOffsetT j))) 0.
Definition vector_length (vt : Z) : table -> outcome exn Z := read_field vt Table_VectorLen 0.
Definition vector_bytes (vt : Z) : table -> outcome exn slice := read_field vt (present Table_ByteVector) None.
Definition vector_mutate (vt j n : Z) (rcv : table) : outcome exn (bool * table) :=
  read_field vt (fun _tab p => a ← Table_Vector _tab p; MutateByte rcv (UOffsetT (a + UOffsetT j)) n) (false,
    rcv) rcv.

(** ** [ConnectClientMessage.go] *)
Definition GetSizePrefixedRootAsConnectClientMessage : list Z -> Z -> outcome exn table :=
  GetSizePrefixedRootAt.
Definition FinishConnectClientMessageBuffer (offset : Z) : stm Builder exn unit := Finish offset.
Definition FinishSizePrefixedConnectClientMessageBuffer (offset : Z) : stm Builder exn unit :=
  FinishSizePrefixed offset.
Definition ConnectClientMessage_Init (buf : list Z) (i : Z) : table := Init buf i.
Definition ConnectClientMessage_Table (rcv : table) : table := rcv.
Definition ConnectClientMessage_AppData (j : Z) (rcv : table) : outcome exn Z := vector_elem 6 j rcv.
Definition ConnectClientMessage_AppDataLength (rcv : table) : outcome exn Z := vector_length 6 rcv.
Definition ConnectClientMessage_MutateAppData (j n : Z) (rcv : table) : outcome exn (bool * table) :=
  vector_mutate 6 j n rcv.
Definition ConnectClientMessageStart : stm Builder exn unit := StartObject 2.
Definition ConnectClientMessageAddConnectionString (connectionString : Z) : stm Builder exn unit :=
  PrependUOffsetTSlot 0 connectionString 0.
Definition ConnectClientMessageAddAppData (appData : Z) : stm Builder exn unit :=
  PrependUOffsetTSlot 1 appData 0.
Definition ConnectClientMessageStartAppDataVector (numElems : Z) : stm Builder exn Z :=
  StartVector 1 numElems 1.
Definition ConnectClientMessageEnd : stm Builder exn Z := EndObject.

(** ** [ConnectClientVerdict.go] *)
Definition GetRootAsConnectClientVerdict : list Z -> Z -> outcome exn table := GetRootAt.
Definition GetSizePrefixedRootAsConnectClientVerdict : list Z -> Z -> outcome exn table :=
  GetSizePrefixedRootAt.
Definition FinishConnectClientVerdictBuffer (offset : Z) : stm Builder exn unit := Finish offset.
Definition FinishSizePrefixedConnectClientVerdictBuffer (offset : Z) : stm Builder exn unit :=
  FinishSizePrefixed offset.
Definition ConnectClientVerdict_Init (buf : list Z) (i : Z) : table := Init buf i.
Definition ConnectClientVerdict_Table (rcv : table) : table := rcv.
Definition ConnectClientVerdict_Accepted (rcv : table) : outcome exn bool := field_Bool 4 rcv.
Definition ConnectClientVerdict_MutateAccepted (n : bool) (rcv : table) : outcome exn (bool * table) :=
  MutateBoolSlot rcv 4 n.
Definition ConnectClientVerdict_ErrorReason (rcv : table) : outcome exn slice := field_string 6 rcv.
Definition ConnectClientVerdict_AppData (j : Z) (rcv : table) : outcome exn Z := vector_elem 8 j rcv.
Definition ConnectClientVerdict_AppDataLength (rcv : table) : outcome exn Z := vector_length 8 rcv.
Definition ConnectClientVerdict_AppDataBytes (rcv : table) : outcome exn slice := vector_bytes 8 rcv.
Definition ConnectClientVerdict_MutateAppData (j n : Z) (rcv : table) : outcome exn (bool * table) :=
  vector_mutate 8 j n rcv.
Definition ConnectClientVerdictStartAppDataVector (numElems : Z) : stm Builder exn Z :=
  StartVector 1 numElems 1.

(** ** [ConnectDestinationVerdict.go] *)
Definition GetRootAsConnectDestinationVerdict : list Z -> Z -> outcome exn table := GetRootAt.
Definition GetSizePrefixedRootAsConnectDestinationVerdict : list Z -> Z -> outcome exn table :=
  GetSizePrefixedRootAt.
Definition FinishConnectDestinationVerdictBuffer (offset : Z) : stm Builder exn unit := Finish offset.
Definition FinishSizePrefixedConnectDestinationVerdictBuffer (offset : Z) : stm Builder exn unit :=
  FinishSizePrefixed offset.
Definition ConnectDestinationVerdict_Init (buf : list Z) (i : Z) : table := Init buf i.
Definition ConnectDestinationVerdict_Table (rcv : table) : table := rcv.
Definition ConnectDestinationVerdict_ClientId (rcv : table) : outcome exn Z := field_Uint32 4 rcv.
Definition ConnectDestinationVerdict_MutateClientId (n : Z) (rcv : table) : outcome exn (bool * table) :=
  MutateUint32Slot rcv 4 n.
Definition ConnectDestinationVerdict_Accepted (rcv : table) : outcome exn bool := field_Bool 6 rcv.
Definition ConnectDestinationVerdict_MutateAccepted (n : bool) (rcv : table) : outcome exn (bool * table) :=
  MutateBoolSlot rcv 6 n.
Definition ConnectDestinationVerdict_ErrorReason (rcv : table) : outcome exn slice := field_string 8 rcv.
Definition ConnectDestinationVerdict_AppData (j : Z) (rcv : table) : outcome exn Z := vector_elem 10 j rcv.
Definition ConnectDestinationVerdict_AppDataLength (rcv : table) : outcome exn Z := vector_length 10 rcv.
Definition ConnectDestinationVerdict_AppDataBytes (rcv : table) : outcome exn slice := vector_bytes 10 rcv.
Definition ConnectDestinationVerdict_MutateAppData (j n : Z) (rcv : table) : outcome exn (bool * table) :=
  vector_mutate 10 j n rcv.
Definition ConnectDestinationVerdictStart : stm Builder exn unit := StartObject 4.
Definition ConnectDestinationVerdictAddClientId (clientId : Z) : stm Builder exn unit :=
  PrependUint32Slot 0 clientId 0.
Definition ConnectDestinationVerdictAddAccepted (accepted : bool) : stm Builder exn unit :=
  PrependBoolSlot 1 accepted false.
Definition ConnectDestinationVerdictAddErrorReason (errorReason : Z) : stm Builder exn unit :=
  PrependUOffsetTSlot 2 errorReason 0.
Definition ConnectDestinationVerdictAddAppData (appData : Z) : stm Builder exn unit :=
  PrependUOffsetTSlot 3 appData 0.
Definition ConnectDestinationVerdictStartAppDataVector (numElems : Z) : stm Builder exn Z :=
  StartVector 1 numElems 1.
Definition ConnectDestinationVerdictEnd : stm Builder exn Z := EndObject.

(** ** [DestinationMessage.go] *)
Definition GetSizePrefixedRootAsDestinationMessage : list Z -> Z -> outcome exn table := GetSizePrefixedRootAt.
Definition FinishDestinationMessageBuffer (offset : Z) : stm Builder exn unit := Finish offset.
Definition FinishSizePrefixedDestinationMessageBuffer (offset : Z) : stm Builder exn unit :=
  FinishSizePrefixed offset.
Definition DestinationMessage_Init (buf : list Z) (i : Z) : table := Init buf i.
Definition DestinationMessage_Table (rcv : table) : table := rcv.
Definition DestinationMessage_MutateMsgType (n : Z) (rcv : table) : outcome exn (bool * table) :=
  MutateByteSlot rcv 4 n.
Definition DestinationMessage_AppData (j : Z) (rcv : table) : outcome exn Z := vector_elem 8 j rcv.
Definition DestinationMessage_AppDataLength (rcv : table) : outcome exn Z := vector_length 8 rcv.
Definition DestinationMessage_MutateAppData (j n : Z) (rcv : table) : outcome exn (bool * table) :=
  vector_mutate 8 j n rcv.
Definition DestinationMessageStart : stm Builder exn unit := StartObject 3.
Definition DestinationMessageAddMsgType (msgType : Z) : stm Builder exn unit := PrependByteSlot 0 msgType 0.
Definition DestinationMessageAddMsg (msg : Z) : stm Builder exn unit := PrependUOffsetTSlot 1 msg 0.
Definition DestinationMessageAddAppData (appData : Z) : stm Builder exn unit := PrependUOffsetTSlot 2 appData 0.
Definition DestinationMessageStartAppDataVector (numElems : Z) : stm Builder exn Z := StartVector 1 numElems 1.
Definition DestinationMessageEnd : stm Builder exn Z := EndObject.

(** ** [ProxyMessage.go] *)
Definition GetRootAsProxyMessage : list Z -> Z -> outcome exn table := GetRootAt.
Definition GetSizePrefixedRootAsProxyMessage : list Z -> Z -> outcome exn table := GetSizePrefixedRootAt.
Definition FinishProxyMessageBuffer (offset : Z) : stm Builder exn unit := Finish offset.
Definition FinishSizePrefixedProxyMessageBuffer (offset : Z) : stm Builder exn unit :=
  FinishSizePrefixed offset.
Definition ProxyMessage_Init (buf : list Z) (i : Z) : table := Init buf i.
Definition ProxyMessage_Table (rcv : table) : table := rcv.
Definition ProxyMessage_MutateClientId (n : Z) (rcv : table) : outcome exn (bool * table) :=
  MutateUint32Slot rcv 4 n.
Definition ProxyMessageStart : stm Builder exn unit := StartObject 1.
Definition ProxyMessageAddClientId (clientId : Z) : stm Builder exn unit := PrependUint32Slot 0 clientId 0.
Definition ProxyMessageEnd : stm Builder exn Z := EndObject.

(** ** [ConnectionVerdict.go] *)
Definition GetRootAsConnectionVerdict : list Z -> Z -> outcome exn table := GetRootAt.
Definition GetSizePrefixedRootAsConnectionVerdict : list Z -> Z -> outcome exn table := GetSizePrefixedRootAt.
Definition FinishConnectionVerdictBuffer (offset : Z) : stm Builder exn unit := Finish offset.
Definition FinishSizePrefixedConnectionVerdictBuffer (offset : Z) : stm Builder exn unit :=
  FinishSizePrefixed offset.
Definition ConnectionVerdict_Init (buf : list Z) (i : Z) : table := Init buf i.
Definition ConnectionVerdict_Table (rcv : table) : table := rcv.
Definition ConnectionVerdict_MutateClientId (n : Z) (rcv : table) : outcome exn (bool * table) :=
  MutateUint32Slot rcv 4 n.
Definition ConnectionVerdict_MutateAccepted (n : bool) (rcv : table) : outcome exn (bool * table) :=
  MutateBoolSlot rcv 6 n.
Definition ConnectionVerdictStart : stm Builder exn unit := StartObject 2.
Definition ConnectionVerdictAddClientId (clientId : Z) : stm Builder exn unit := PrependUint32Slot 0 clientId 0.
Definition ConnectionVerdictAddAccepted (accepted : bool) : stm Builder exn unit :=
  PrependBoolSlot 1 accepted false.
Definition ConnectionVerdictEnd : stm Builder exn Z := EndObject.

(** ** [CloseConnection.go] *)
Definition GetRootAsCloseConnection : list Z -> Z -> outcome exn table := GetRootAt.
Definition GetSizePrefixedRootAsCloseConnection : list Z -> Z -> outcome exn table := GetSizePrefixedRootAt.
Definition FinishCloseConnectionBuffer (offset : Z) : stm Builder exn unit := Finish offset.
Definition FinishSizePrefixedCloseConnectionBuffer (offset : Z) : stm Builder exn unit :=
  FinishSizePrefixed offset.
Definition CloseConnection_Init (buf : list Z) (i : Z) : table := Init buf i.
Definition CloseConnection_Table (rcv : table) : table := rcv.
Definition CloseConnection_MutateClientId (n : Z) (rcv : table) : outcome exn (bool * table) :=
  MutateUint32Slot rcv 4 n.
Definition CloseConnectionStart : stm Builder exn unit := StartObject 2.
Definition CloseConnectionAddClientId (clientId : Z) : stm Builder exn unit := PrependUint32Slot 0 clientId 0.
Definition CloseConnectionAddReason (reason : Z) : stm Builder exn unit := PrependUOffsetTSlot 1 reason 0.
Definition CloseConnectionEnd : stm Builder exn Z := EndObject.

(** ** [ProxyDestinationMessage.go] *)
Definition GetRootAsProxyDestinationMessage : list Z -> Z -> outcome exn table := GetRootAt.
Definition GetSizePrefixedRootAsProxyDestinationMessage : list Z -> Z -> outcome exn table :=
  GetSizePrefixedRootAt.
Definition FinishProxyDestinationMessageBuffer (offset : Z) : stm Builder exn unit := Finish offset.
Definition FinishSizePrefixedProxyDestinationMessageBuffer (offset : Z) : stm Builder exn unit :=
  FinishSizePrefixed offset.
Definition ProxyDestinationMessage_Init (buf : list Z) (i : Z) : table := Init buf i.
Definition ProxyDestinationMessage_Table (rcv : table) : table := rcv.
Definition ProxyDestinationMessage_InnerMessageType (rcv : table) : outcome exn Z := field_Byte 4 rcv.
Definition ProxyDestinationMessage_MutateInnerMessageType (n : Z) (rcv : table) : outcome exn (bool * table) :=
  MutateByteSlot rcv 4 n.
Definition ProxyDestinationMessage_InnerMessage (rcv obj : table) : outcome exn (option table) :=
  field_union 6 rcv obj.
Definition ProxyDestinationMessage_AppData (j : Z) (rcv : table) : outcome exn Z := vector_elem 8 j rcv.
Definition ProxyDestinationMessage_AppDataLength (rcv : table) : outcome exn Z := vector_length 8 rcv.
Definition ProxyDestinationMessage_AppDataBytes (rcv : table) : outcome exn slice := vector_bytes 8 rcv.
Definition ProxyDestinationMessage_MutateAppData (j n : Z) (rcv : table) : outcome exn (bool * table) :=
  vector_mutate 8 j n rcv.
Definition ProxyDestinationMessageStartAppDataVector (numElems : Z) : stm Builder exn Z :=
  StartVector 1 numElems 1.

(** ** [ProxyDestConnectionRequest.go] *)
Definition GetRootAsProxyDestConnectionRequest : list Z -> Z -> outcome exn table := GetRootAt.
Definition GetSizePrefixedRootAsProxyDestConnectionRequest : list Z -> Z -> outcome exn table :=
  GetSizePrefixedRootAt.
Definition FinishProxyDestConnectionRequestBuffer (offset : Z) : stm Builder exn unit := Finish offset.
Definition FinishSizePrefixedProxyDestConnectionRequestBuffer (offset : Z) : stm Builder exn unit :=
  FinishSizePrefixed offset.
Definition ProxyDestConnectionRequest_Init (buf : list Z) (i : Z) : table := Init buf i.
Definition ProxyDestConnectionRequest_Table (rcv : table) : table := rcv.
Definition ProxyDestConnectionRequest_ClientId (rcv : table) : outcome exn Z := field_Uint32 4 rcv.
Definition ProxyDestConnectionRequest_MutateClientId (n : Z) (rcv : table) : outcome exn (bool * table) :=
  MutateUint32Slot rcv 4 n.

(** ** [ProxyDestClientMessage.go] *)
Definition GetRootAsProxyDestClientMessage : list Z -> Z -> outcome exn table := GetRootAt.
Definition GetSizePrefixedRootAsProxyDestClientMessage : list Z -> Z -> outcome exn table :=
  GetSizePrefixedRootAt.
Definition FinishProxyDestClientMessageBuffer (offset : Z) : stm Builder exn unit := Finish offset.
Definition FinishSizePrefixedProxyDestClientMessageBuffer (offset : Z) : stm Builder exn unit :=
  FinishSizePrefixed offset.
Definition ProxyDestClientMessage_Init (buf : list Z) (i : Z) : table := Init buf i.
Definition ProxyDestClientMessage_Table (rcv : table) : table := rcv.
Definition ProxyDestClientMessage_ClientId (rcv : table) : outcome exn Z := field_Uint32 4 rcv.
Definition ProxyDestClientMessage_MutateClientId (n : Z) (rcv : table) : outcome exn (bool * table) :=
  MutateUint32Slot rcv 4 n.

(** ** [ProxyDestCloseConnection.go] *)
Definition GetRootAsProxyDestCloseConnection : list Z -> Z -> outcome exn table := GetRootAt.
Definition GetSizePrefixedRootAsProxyDestCloseConnection : list Z -> Z -> outcome exn table :=
  GetSizePrefixedRootAt.
Definition FinishProxyDestCloseConnectionBuffer (offset : Z) : stm Builder exn unit := Finish offset.
Definition FinishSizePrefixedProxyDestCloseConnectionBuffer (offset : Z) : stm Builder exn unit :=
  FinishSizePrefixed offset.
Definition ProxyDestCloseConnection_Init (buf : list Z) (i : Z) : table := Init buf i.
Definition ProxyDestCloseConnection_Table (rcv : table) : table := rcv.
Definition ProxyDestCloseConnection_ClientId (rcv : table) : outcome exn Z := field_Uint32 4 rcv.
Definition ProxyDestCloseConnection_MutateClientId (n : Z) (rcv : table) : outcome exn (bool * table) :=
  MutateUint32Slot rcv 4 n.
End with_fb.

(** ** [InnerMsg.go], [ProxyDestInnerMsg.go] *)
Definition ProxyDestInnerMsgNONE : Z := 0.

Definition EnumNamesInnerMsg : gmap Z string :=
  list_to_map [(InnerMsgNONE, "NONE"); (InnerMsgProxyMessage, "ProxyMessage");
               (InnerMsgConnectionVerdict, "ConnectionVerdict"); (InnerMsgCloseConnection,
                 "CloseConnection")]%string.
Definition EnumValuesInnerMsg : gmap string Z :=
  list_to_map [("NONE", InnerMsgNONE); ("ProxyMessage", InnerMsgProxyMessage);
               ("ConnectionVerdict", InnerMsgConnectionVerdict); ("CloseConnection",
                 InnerMsgCloseConnection)]%string.
Definition InnerMsg_String (v : Z) : string :=
  match EnumNamesInnerMsg !! v with
  | Some s => s
  | None => "InnerMsg(" +:+ pretty v +:+ ")"
  end.

Definition EnumNamesProxyDestInnerMsg : gmap Z string :=
  list_to_map [(ProxyDestInnerMsgNONE, "NONE"); (ProxyDestInnerMsgProxyDestConnectionRequest,
    "ProxyDestConnectionRequest");
               (ProxyDestInnerMsgProxyDestClientMessage, "ProxyDestClientMessage");
               (ProxyDestInnerMsgProxyDestCloseConnection, "ProxyDestCloseConnection")]%string.
Definition EnumValuesProxyDestInnerMsg : gmap string Z :=
  list_to_map [("NONE", ProxyDestInnerMsgNONE); ("ProxyDestConnectionRequest",
    ProxyDestInnerMsgProxyDestConnectionRequest);
               ("ProxyDestClientMessage", ProxyDestInnerMsgProxyDestClientMessage);
               ("ProxyDestCloseConnection", ProxyDestInnerMsgProxyDestCloseConnection)]%string.
Definition ProxyDestInnerMsg_String (v : Z) : string :=
  match EnumNamesProxyDestInnerMsg !! v with
  | Some s => s
  | None => "ProxyDestInnerMsg(" +:+ pretty v +:+ ")"
  end.

(** The names are those of the members: a number that is one is found again by its name, any other is printed
    in a way that is no name. *)
Lemma InnerMsg_String_parse v :
  EnumValuesInnerMsg !! InnerMsg_String v = InnerMsg.to_number <$> InnerMsg.of_number v.
Proof.
  unfold InnerMsg_String, InnerMsg.of_number.
  destruct (Z.eqb_spec v 0) as [->|]; [done|]. destruct (Z.eqb_spec v 1) as [->|]; [done|].
  destruct (Z.eqb_spec v 2) as [->|]; [done|]. destruct (Z.eqb_spec v 3) as [->|]; [done|].
  replace (EnumNamesInnerMsg !! v) with (@None string); [done|].
  unfold EnumNamesInnerMsg, InnerMsgNONE, InnerMsgProxyMessage, InnerMsgConnectionVerdict,
    InnerMsgCloseConnection.
  cbn. by simplify_map_eq.
Qed.

Lemma ProxyDestInnerMsg_String_parse v :
  EnumValuesProxyDestInnerMsg !! ProxyDestInnerMsg_String v = ProxyDestInnerMsg.to_number <$>
    ProxyDestInnerMsg.of_number v.
Proof.
  unfold ProxyDestInnerMsg_String, ProxyDestInnerMsg.of_number.
  destruct (Z.eqb_spec v 0) as [->|]; [done|]. destruct (Z.eqb_spec v 1) as [->|]; [done|].
  destruct (Z.eqb_spec v 2) as [->|]; [done|]. destruct (Z.eqb_spec v 3) as [->|]; [done|].
  replace (EnumNamesProxyDestInnerMsg !! v) with (@None string); [done|].
  unfold EnumNamesProxyDestInnerMsg, ProxyDestInnerMsgNONE, ProxyDestInnerMsgProxyDestConnectionRequest,
    ProxyDestInnerMsgProxyDestClientMessage, ProxyDestInnerMsgProxyDestCloseConnection.
  cbn. by simplify_map_eq.
Qed.
