(* ===== verification/GoUtil.v ===== *)
(** * Errors and random strings of the proxy ([pkg/errors/errors.go], [pkg/util/random_string.go])

    [Router.error_text] has the texts of the errors that the proxy raises; here are those of the
    other error types, which nothing in the repository raises, and the random strings
    that label the log lines of a connection. *)

From stdpp Require Import pretty.
From S2P Require Import Prelude JsPlatform.
#[local] Open Scope Z_scope.

(** ** [errors.go] *)

(** The structs; [int], [uint8] and [uint32] members are integers. *)
Inductive parse_error : Type :=
| Underflow (MessageName : string) (MsgSize MinimumSize : Z)
| InvalidEnumValue (EnumName : string) (IntValue : Z)
| InvalidHeaderVersion (ExpectedMagicNumber ActualMagicNumber ExpectedVersion ActualVersion : Z)
| MissingFieldError (MessageName FieldName : string)
| ConnectionRefusedByDestination.

(** [Error()]: [fmt.Sprintf] with [%s] and [%d] only. *)
Definition parse_error_text (e : parse_error) : string :=
  match e with
  | Underflow MessageName MsgSize MinimumSize =>
      "Message parsing underflowed (type=" +:+ MessageName +:+ "), provided " +:+ pretty MsgSize +:+
      " bytes, needed at least " +:+ pretty MinimumSize
  | InvalidEnumValue EnumName IntValue =>
      "Invalid enum value=" +:+ pretty IntValue +:+ " (enum: " +:+ EnumName +:+ ")"
  | InvalidHeaderVersion ExpectedMagicNumber ActualMagicNumber ExpectedVersion ActualVersion =>
      "Invalid header: expected MagicNumber=" +:+ pretty ExpectedMagicNumber +:+ ", got MagicNumber=" +:+
      pretty ActualMagicNumber +:+ ". Expected version " +:+ pretty ExpectedVersion +:+ ", got " +:+ pretty ActualVersion
  | MissingFieldError MessageName FieldName => "Missing field " +:+ FieldName +:+ " in message type " +:+ MessageName
  | ConnectionRefusedByDestination => "Connection refused by server"
  end.

(** ** [random_string.go] *)

(** [math/rand]: the source shared by the whole program, [Intn] of it, which panics unless its bound is positive
    and otherwise gives a number below the bound, and sources of one's own. *)
Class Rand := {
  rand_global : Type;
  rand_Source : Type;
  rand_NewSource : Z -> rand_Source;
  rand_Intn : Z -> stm rand_global exn Z;
}.

Class RandLaws (R : Rand) := {
  law_Intn n r (Q : Z -> rand_global -> Prop) :
    0 < n -> (forall i r', 0 <= i < n -> Q i r') -> wp (rand_Intn n) r Q;
}.

(** [letters]: runes; there is no 0, l, I or O. *)
Definition letters : list Z :=
  (fun a => Z.of_N (Ascii.N_of_ascii a)) <$>
  String.list_ascii_of_string "123456789abcdefghijkmnopqrstuvwxyzABCDEFGHJKLMNPQRSTUVWXYZ".

Section with_rand.
Context `{R : Rand}.

(** The mutex is left out: nothing locks it. *)
Record RandomStringGenerator : Type := mkGenerator { gen : rand_Source }.

Definition CreateRandomstringGenerator (seed : Z) : RandomStringGenerator := mkGenerator (rand_NewSource seed).

(** The loop of [GetRandomString], with [k] runes to go; [letters[...]] panics outside of the array. *)
Fixpoint random_runes (k : nat) : stm rand_global exn (list Z) :=
  match k with
  | O => mret []
  | S k =>
      i ← rand_Intn (zlen letters);
      c ← match letters !! Z.to_nat i with Some c => mret c | None => fun r => (Throw RangeError, r) end;
      cs ← random_runes k;
      mret (c :: cs)
  end.

(** [g], which may be nil, is not used: neither its source nor its mutex. [make] panics for a negative length. *)
Definition GetRandomString (g : option RandomStringGenerator) (n : Z) : stm rand_global exn (list Z) :=
  if n <? 0 then fun r => (Throw RangeError, r) else random_runes (Z.to_nat n).

Lemma random_runes_spec {RL : RandLaws R} k r :
  wp (random_runes k) r (fun s _ => length s = k /\ Forall (fun c => c ∈ letters) s).
Proof.
  revert r. induction k as [|k IH]; intros r; cbn [random_runes]; [by apply wp_ret|].
  apply wp_bind. apply law_Intn; [done|]. intros i r' Hi. apply wp_bind.
  destruct (letters !! Z.to_nat i) as [c|] eqn:Hc.
  2:{ apply lookup_ge_None in Hc. unfold zlen in Hi. lia. }
  apply wp_ret, wp_bind. eapply wp_mono; [apply IH|]. cbn beta. intros s r'' [Hl Hf]. apply wp_ret.
  split; [by rewrite length_cons, Hl | constructor; [by eapply list_elem_of_lookup_2 | done]].
Qed.

(** From any state of the shared source a length that is not negative gives that many letters; it ends, without a panic,
    whatever the generator is, also nil as in webtransport_client.go. *)
Lemma GetRandomString_letters {RL : RandLaws R} g n r :
  0 <= n -> wp (GetRandomString g n) r (fun s _ => zlen s = n /\ Forall (fun c => c ∈ letters) s).
Proof.
  intros Hn. unfold GetRandomString. replace (n <? 0) with false by (symmetry; apply Z.ltb_ge; lia).
  eapply wp_mono; [apply random_runes_spec|]. cbn beta. intros s _ [Hl Hf]. split; [unfold zlen; lia | done].
Qed.
End with_rand.

(** A source that counts through the letters. *)
Definition counting_rand : Rand :=
  {| rand_global := Z; rand_Source := Z; rand_NewSource := fun s => s;
     rand_Intn := fun n s => if 0 <? n then (Ret (s mod n), s + 1) else (Throw RangeError, s) |}.
#[export] Instance counting_rand_laws : RandLaws counting_rand.
Proof.
  split. intros n r Q Hn HQ. unfold wp. cbn. replace (0 <? n) with true by (symmetry; apply Z.ltb_lt; lia).
  apply HQ. apply Z.mod_pos_bound. lia.
Qed.

Example six_letters :
  fst (GetRandomString (R := counting_rand) None 6 55) = Ret [88; 89; 90; 49; 50; 51] /\ zlen letters = 58.
Proof. split; reflexivity. Qed.
