(* ===== verification/Router.v ===== *)
(** * Client connections of a transport ([pkg/transport/client_connection_router.go])

    A router keeps, for every client of a WebSocket or WebTransport server, the
    channels between the transport and the hub and the goroutines that serve
    them. Channels are bounded queues; a goroutine that sends on a full channel
    waits. A [conn] is what the goroutines of one connection share; it stays
    alive after the router has removed it from its map. An [action] is one
    enabled case of a [select], one channel operation or one locked section; the
    order of actions is arbitrary. The channels to the hub are taken to have
    room. *)

From S2P Require Import Prelude JsPlatform FlatBuffers SpanreedMessages ClientStore Proxy GoMessages.
From stdpp Require Import gmap pretty.
#[local] Open Scope Z_scope.

(** ** Go strings *)
Definition go_string (bs : list Z) : string :=
  String.string_of_list_ascii (map (fun b => Ascii.ascii_of_N (Z.to_N b)) bs).
Definition go_bytes (s : string) : list Z :=
  map (fun a => Z.of_N (Ascii.N_of_ascii a)) (String.list_ascii_of_string s).

(** ** [Error()] of the errors; [None] is a panic *)
Definition error_text (e : error) : option string :=
  match e with
  | DuplicateClientIdError id => Some ("Attempted to create client with duplicate ID " +:+ pretty id)
  | MissingClientIdError id => Some ("Missing client with id=" +:+ pretty id)
  | TooManyClientsError => Some "Too many clients are connected - cannot create new client"
  | MissingDestinationHandler name => Some ("Missing destination handler with name " +:+ name)
  | MissingClientHandler name => Some ("Missing client message handler with name " +:+ name)
  | NoMatchingHandlerForConnectionString s => no_matching_handler_text s
  | NameCollision context name => Some ("Name collision for name '" +:+ name +:+ "' in context '" +:+ context +:+ "'")
  | AuthTimeout => Some "Auth timeout"
  | ConnectionTimeout => Some "Connection timed out"
  | OtherError msg => Some msg
  end.

Section with_fb.
Context `{FB : FlatBuffers}.
(** Whether the flatbuffers runtime panics on reading a payload (it may be any bytes). *)
Context (malformed : list Z -> bool).

(** ** Messages *)

(** The connection string and the application data of a handshake, or an error after a recovered panic. *)
Definition safeParseConnectClientMessage (payload : list Z) : option (slice * slice) :=
  if malformed payload then None
  else
    let o := GetRootAsConnectClientMessage payload in
    match ConnectClientMessage_ConnectionString o, ConnectClientMessage_AppDataBytes o with
    | Ret s, Ret d => Some (s, d)
    | _, _ => None
    end.

Definition createVerdictMsg (verdict : bool) (reason : list Z) (appData : slice) : outcome exn (list Z) :=
  fst ((pAppData ← match appData with Some bs => CreateByteVector bs | None => mret 0 end;
        pReasonString ← (if bool_decide (reason = []) then mret 0 else CreateString reason);
        ConnectClientVerdictStart ≫= fun _ =>
        ConnectClientVerdictAddAccepted verdict ≫= fun _ =>
        (if bool_decide (reason = []) then mret tt else ConnectClientVerdictAddErrorReason pReasonString) ≫= fun _ =>
        (match appData with Some _ => ConnectClientVerdictAddAppData pAppData | None => mret tt end) ≫= fun _ =>
        pConnectClientVerdict ← ConnectClientVerdictEnd;
        Finish pConnectClientVerdict ≫= fun _ =>
        FinishedBytes) (NewBuilder 64)).

(** ** State *)
Inductive to_hub : Type :=
| Open (c : OpenClientConnectionCommand)        (** on [OpenClientChannel] *)
| FromTransport (m : routed)                    (** on [IncomingMessageChannel] *)
| CloseMe (clientId : Z).                       (** on [IncomingCloseRequests] *)

(** Where the first goroutine of a connection is. *)
Inductive phase : Type :=
| AwaitAuth
| AwaitVerdict
| Accepted         (** about to mark the connection in the router's map *)
| Routing          (** it has started the two goroutines below and is gone *)
| Ended.

(** The goroutine that forwards the hub's messages: running, holding a message that it could not hand on yet, stopped. *)
Inductive forwarder : Type := Running | Holding (data : slice) | Stopped.

Record conn : Type := mkConn {
  conn_id : Z;
  ph : phase;
  marked : bool;                               (** [IsConnected] *)
  outward : forwarder;
  inward : bool;                               (** the goroutine that forwards the transport's packets runs *)
  cancelled : bool;                            (** [ctx.Done()] *)
  closeRequest : Z;                            (** close commands waiting, at most 1 *)
  verdict : list OpenClientConnectionVerdict;  (** at most 1 *)
  outgoingMessages : list routed;
  outgoingPackets : list slice;
  incomingPackets : list (list Z);
  clientClose : Z;                             (** at most 1 *)
  proxyClose : Z;                              (** at most 1 *)
  outbox : list to_hub;                        (** what the connection has sent to the hub *)
  written : list slice                         (** what the transport has taken *)
}.

(** A command the hub sent that the router's loop is about to deliver. *)
Inductive delivery : Type :=
| DeliverClose (clientId : Z)
| DeliverMessage (m : routed)
| DeliverVerdict (v : OpenClientConnectionVerdict).

Definition delivery_id (d : delivery) : Z :=
  match d with DeliverClose id => id | DeliverMessage m => msg_ClientId m | DeliverVerdict v => verdict_ClientId v end.

(** The goroutine of [Start]: in its [select]; delivering a command, with the read lock of the map; gone. *)
Inductive loop : Type := Listening | Delivering (d : delivery) | Returned.

Record router : Type := mkRouter {
  IncomingMessageQueueLength : Z;
  OutgoingMessageQueueLength : Z;
  connections : gmap Z nat;                    (** from client ids to the connections *)
  conns : list conn;
  listener : loop
}.

Definition CreateClientConnectionRouter (incoming outgoing : Z) : router :=
  mkRouter (if incoming =? 0 then 16 else incoming) (if outgoing =? 0 then 16 else outgoing) ∅ [] Listening.

Definition new_conn (id : Z) : conn :=
  mkConn id AwaitAuth false Stopped false false 0 [] [] [] [] 0 0 [] [].

(** ** The goroutines of a connection *)
Inductive conn_action : Type :=
(* the transport *)
| Arrive (packet : list Z)       (** [IncomingMessages <- payload] *)
| Leave                          (** [ClientInitiatedClose <- true] *)
| Cancel                         (** the connection's context is cancelled *)
| TakeOut                        (** [<-OutgoingMessages], written to the client *)
| TakeClose                      (** [<-ProxyInitiatedClose] *)
(* the first goroutine *)
| OnCtx | OnClientClose | OnCloseRequest
| OnPacket (now : Z)
| OnVerdict
| Mark                           (** needs the write lock of the router's map *)
(* the goroutine from the hub to the transport; on [ctx.Done()] it goes round its loop *)
| OutClose | OutTake | OutPush
(* the goroutine from the transport to the hub *)
| InCtx | InClientClose | InClose
| InPacket (now : Z).

Definition set_phase (p : phase) (c : conn) : conn :=
  mkConn (conn_id c) p (marked c) (outward c) (inward c) (cancelled c) (closeRequest c) (verdict c)
    (outgoingMessages c) (outgoingPackets c) (incomingPackets c) (clientClose c) (proxyClose c) (outbox c) (written c).
Definition set_outward (o : forwarder) (c : conn) : conn :=
  mkConn (conn_id c) (ph c) (marked c) o (inward c) (cancelled c) (closeRequest c) (verdict c)
    (outgoingMessages c) (outgoingPackets c) (incomingPackets c) (clientClose c) (proxyClose c) (outbox c) (written c).
Definition set_inward (b : bool) (c : conn) : conn :=
  mkConn (conn_id c) (ph c) (marked c) (outward c) b (cancelled c) (closeRequest c) (verdict c)
    (outgoingMessages c) (outgoingPackets c) (incomingPackets c) (clientClose c) (proxyClose c) (outbox c) (written c).
Definition set_cancelled (c : conn) : conn :=
  mkConn (conn_id c) (ph c) (marked c) (outward c) (inward c) true (closeRequest c) (verdict c)
    (outgoingMessages c) (outgoingPackets c) (incomingPackets c) (clientClose c) (proxyClose c) (outbox c) (written c).
Definition set_closeRequest (n : Z) (c : conn) : conn :=
  mkConn (conn_id c) (ph c) (marked c) (outward c) (inward c) (cancelled c) n (verdict c)
    (outgoingMessages c) (outgoingPackets c) (incomingPackets c) (clientClose c) (proxyClose c) (outbox c) (written c).
Definition set_verdict (v : list OpenClientConnectionVerdict) (c : conn) : conn :=
  mkConn (conn_id c) (ph c) (marked c) (outward c) (inward c) (cancelled c) (closeRequest c) v
    (outgoingMessages c) (outgoingPackets c) (incomingPackets c) (clientClose c) (proxyClose c) (outbox c) (written c).
Definition set_messages (ms : list routed) (c : conn) : conn :=
  mkConn (conn_id c) (ph c) (marked c) (outward c) (inward c) (cancelled c) (closeRequest c) (verdict c)
    ms (outgoingPackets c) (incomingPackets c) (clientClose c) (proxyClose c) (outbox c) (written c).
Definition set_packets (ps : list slice) (c : conn) : conn :=
  mkConn (conn_id c) (ph c) (marked c) (outward c) (inward c) (cancelled c) (closeRequest c) (verdict c)
    (outgoingMessages c) ps (incomingPackets c) (clientClose c) (proxyClose c) (outbox c) (written c).
Definition set_incoming (ps : list (list Z)) (c : conn) : conn :=
  mkConn (conn_id c) (ph c) (marked c) (outward c) (inward c) (cancelled c) (closeRequest c) (verdict c)
    (outgoingMessages c) (outgoingPackets c) ps (clientClose c) (proxyClose c) (outbox c) (written c).
Definition set_clientClose (n : Z) (c : conn) : conn :=
  mkConn (conn_id c) (ph c) (marked c) (outward c) (inward c) (cancelled c) (closeRequest c) (verdict c)
    (outgoingMessages c) (outgoingPackets c) (incomingPackets c) n (proxyClose c) (outbox c) (written c).
Definition set_proxyClose (n : Z) (c : conn) : conn :=
  mkConn (conn_id c) (ph c) (marked c) (outward c) (inward c) (cancelled c) (closeRequest c) (verdict c)
    (outgoingMessages c) (outgoingPackets c) (incomingPackets c) (clientClose c) n (outbox c) (written c).
Definition tell_hub (x : to_hub) (c : conn) : conn :=
  mkConn (conn_id c) (ph c) (marked c) (outward c) (inward c) (cancelled c) (closeRequest c) (verdict c)
    (outgoingMessages c) (outgoingPackets c) (incomingPackets c) (clientClose c) (proxyClose c) (outbox c ++ [x]) (written c).
Definition set_written (w : list slice) (c : conn) : conn :=
  mkConn (conn_id c) (ph c) (marked c) (outward c) (inward c) (cancelled c) (closeRequest c) (verdict c)
    (outgoingMessages c) (outgoingPackets c) (incomingPackets c) (clientClose c) (proxyClose c) (outbox c) w.
Definition set_marked (c : conn) : conn :=
  mkConn (conn_id c) (ph c) true (outward c) (inward c) (cancelled c) (closeRequest c) (verdict c)
    (outgoingMessages c) (outgoingPackets c) (incomingPackets c) (clientClose c) (proxyClose c) (outbox c) (written c).

(** Sending on a channel, when it has room. *)
Definition push_packet (outQ : Z) (p : slice) (c : conn) : option conn :=
  if zlen (outgoingPackets c) <? outQ then Some (set_packets (outgoingPackets c ++ [p]) c) else None.
Definition push_proxyClose (c : conn) : option conn :=
  if proxyClose c <? 1 then Some (set_proxyClose (proxyClose c + 1) c) else None.

(** The verdict as a packet; a panic while it is made ends the process. *)
Definition push_verdict (outQ : Z) (accepted : bool) (reason : list Z) (appData : slice) (c : conn) : option conn :=
  match createVerdictMsg accepted reason appData with
  | Ret bs => push_packet outQ (Some bs) c
  | Throw _ => None
  end.

Definition verdict_reason (v : OpenClientConnectionVerdict) : option (list Z) :=
  match verdict_Error v with None => Some [] | Some e => go_bytes <$> error_text e end.

(** [inQ] and [outQ] are the capacities, [locked] whether the map is locked against writers, [known] whether
    the router's map still has the client. *)
Definition conn_step (inQ outQ : Z) (locked known : bool) (a : conn_action) (c : conn) : option conn :=
  match a with
  | Arrive packet => if zlen (incomingPackets c) <? inQ then Some (set_incoming (incomingPackets c ++ [packet]) c) else None
  | Leave => if clientClose c <? 1 then Some (set_clientClose (clientClose c + 1) c) else None
  | Cancel => Some (set_cancelled c)
  | TakeOut =>
      match outgoingPackets c with
      | [] => None
      | p :: ps => Some (set_written (written c ++ [p]) (set_packets ps c))
      end
  | TakeClose => if 0 <? proxyClose c then Some (set_proxyClose (proxyClose c - 1) c) else None
  | OnCtx =>
      if cancelled c then
        match ph c with
        | AwaitAuth => Some (set_phase Ended (tell_hub (CloseMe (conn_id c)) c))
        | AwaitVerdict =>
            c ← push_verdict outQ false (go_bytes "Proxy shutdown") None c; c ← push_proxyClose c; Some (set_phase Ended c)
        | _ => None
        end
      else None
  | OnClientClose =>
      if 0 <? clientClose c then
        let c := set_clientClose (clientClose c - 1) c in
        match ph c with
        | AwaitAuth => Some (set_phase Ended (tell_hub (CloseMe (conn_id c)) c))
        | AwaitVerdict => c ← push_proxyClose c; Some (set_phase Ended c)
        | _ => None
        end
      else None
  | OnCloseRequest =>
      if 0 <? closeRequest c then
        let c := set_closeRequest (closeRequest c - 1) c in
        match ph c with
        | AwaitAuth => Some (set_phase Ended (tell_hub (CloseMe (conn_id c)) c))
        | AwaitVerdict =>
            c ← push_verdict outQ false (go_bytes "Auth timeout") None c; c ← push_proxyClose c; Some (set_phase Ended c)
        | _ => None
        end
      else None
  | OnPacket now =>
      match ph c, incomingPackets c with
      | AwaitAuth, packet :: rest =>
          let c := set_incoming rest c in
          match safeParseConnectClientMessage packet with
          | None => Some (set_phase Ended c)
          | Some (s, d) =>
              Some (set_phase AwaitVerdict (tell_hub (Open (mkOpen (conn_id c) now 0 (go_string (default [] s)) d)) c))
          end
      | _, _ => None
      end
  | OnVerdict =>
      match ph c, verdict c with
      | AwaitVerdict, v :: rest =>
          let c := set_verdict rest c in
          reason ← verdict_reason v;
          c ← push_verdict outQ (Verdict v) reason (verdict_AppData v) c;
          if Verdict v then Some (set_phase Accepted c)
          else c ← push_proxyClose c; Some (set_phase Ended c)
      | _, _ => None
      end
  | Mark =>
      match ph c with
      | Accepted =>
          if locked then None
          else
            let c := if known then set_marked c else c in
            Some (set_phase Routing (set_outward Running (set_inward true c)))
      | _ => None
      end
  | OutClose =>
      match outward c with
      | Running =>
          if 0 <? closeRequest c
          then c ← push_proxyClose (set_closeRequest (closeRequest c - 1) c); Some (set_outward Stopped c) else None
      | _ => None
      end
  | OutTake =>
      match outward c, outgoingMessages c with
      | Running, m :: ms => Some (set_outward (Holding (Data m)) (set_messages ms c))
      | _, _ => None
      end
  | OutPush =>
      match outward c with
      | Holding d => c ← push_packet outQ d c; Some (set_outward Running c)
      | _ => None
      end
  | InCtx =>
      if inward c && cancelled c then Some (set_inward false (tell_hub (CloseMe (conn_id c)) c)) else None
  | InClientClose => if inward c && (0 <? clientClose c) then Some (set_clientClose (clientClose c - 1) c) else None
  | InClose =>
      if inward c && (0 <? closeRequest c)
      then Some (set_inward false (tell_hub (CloseMe (conn_id c)) (set_closeRequest (closeRequest c - 1) c))) else None
  | InPacket now =>
      match inward c, incomingPackets c with
      | true, packet :: rest =>
          Some (tell_hub (FromTransport (mkRouted (conn_id c) now 0 (Some packet))) (set_incoming rest c))
      | _, _ => None
      end
  end.

(** Delivering a command of the hub to a connection, when its channel has room. *)
Definition deliver (outQ : Z) (d : delivery) (c : conn) : option conn :=
  match d with
  | DeliverClose _ => if closeRequest c <? 1 then Some (set_closeRequest (closeRequest c + 1) c) else None
  | DeliverMessage m =>
      if zlen (outgoingMessages c) <? outQ then Some (set_messages (outgoingMessages c ++ [m]) c) else None
  | DeliverVerdict v => if zlen (verdict c) <? 1 then Some (set_verdict (verdict c ++ [v]) c) else None
  end.

(** ** The router *)
Inductive action : Type :=
| OpenConnection (next : sum error Z)        (** with the result of [GetNextClientId] *)
| Remove (id : Z)
| Take (d : delivery)                        (** the loop of [Start] receives a command of the hub *)
| Deliver                                    (** ... and hands it on, or drops it *)
| Shutdown                                   (** [ctx.Done()] in the loop *)
| Conn (i : nat) (a : conn_action).

Definition unlocked (r : router) : bool := match listener r with Delivering _ => false | _ => true end.

Definition set_conns (cs : list conn) (r : router) : router :=
  mkRouter (IncomingMessageQueueLength r) (OutgoingMessageQueueLength r) (connections r) cs (listener r).
Definition set_listener (d : loop) (r : router) : router :=
  mkRouter (IncomingMessageQueueLength r) (OutgoingMessageQueueLength r) (connections r) (conns r) d.

Definition known (i : nat) (id : Z) (r : router) : bool := bool_decide (connections r !! id = Some i).

Definition step (a : action) (r : router) : option router :=
  match a with
  | OpenConnection next =>
      match next with
      | inl _ => Some r
      | inr id =>
          if unlocked r then
            match connections r !! id with
            | Some _ => Some r                  (* DuplicateClientIdError *)
            | None => Some (mkRouter (IncomingMessageQueueLength r) (OutgoingMessageQueueLength r)
                        (<[id := length (conns r)]> (connections r)) (conns r ++ [new_conn id]) (listener r))
            end
          else None
      end
  | Remove id =>
      if unlocked r then Some (mkRouter (IncomingMessageQueueLength r) (OutgoingMessageQueueLength r)
        (delete id (connections r)) (conns r) (listener r)) else None
  | Take d => match listener r with Listening => Some (set_listener (Delivering d) r) | _ => None end
  | Shutdown => match listener r with Listening => Some (set_listener Returned r) | _ => None end
  | Deliver =>
      match listener r with
      | Delivering d =>
          match connections r !! delivery_id d with
          | None => Some (set_listener Listening r)
          | Some i =>
              c ← conns r !! i;
              c ← deliver (OutgoingMessageQueueLength r) d c;
              Some (set_listener Listening (set_conns (<[i := c]> (conns r)) r))
          end
      | _ => None
      end
  | Conn i a =>
      c ← conns r !! i;
      c ← conn_step (IncomingMessageQueueLength r) (OutgoingMessageQueueLength r) (negb (unlocked r))
            (known i (conn_id c) r) a c;
      Some (set_conns (<[i := c]> (conns r)) r)
  end.

Fixpoint run (acts : list action) (r : router) : option router :=
  match acts with
  | [] => Some r
  | a :: acts => match step a r with Some r => run acts r | None => None end
  end.
End with_fb.
