(* ===== verification/RouterTheorems.v ===== *)
(** * Correctness of the connection router

    [conn_reachable]: a property of single connections, kept by every action of
    a connection and by every delivery, holds of every connection in every
    reachable state, for all schedules of the goroutines. The streams in both
    directions are instances of it. *)

From S2P Require Import Prelude JsPlatform FlatBuffers SpanreedMessages ClientStore Proxy GoMessages Router.
From S2P Require Import FbReference SpanreedCodec.
From stdpp Require Import gmap.
#[local] Open Scope Z_scope.

(** Sending, when there was room. *)
Section sending.
Context `{FB : FlatBuffers}.

Lemma push_verdict_inv outQ a reason d c c' :
  push_verdict outQ a reason d c = Some c' ->
  exists bs, createVerdictMsg a reason d = Ret bs /\ c' = set_packets (outgoingPackets c ++ [Some bs]) c.
Proof. unfold push_verdict, push_packet. intros H. repeat case_match; naive_solver. Qed.

Lemma push_packet_inv outQ d c c' :
  push_packet outQ d c = Some c' -> c' = set_packets (outgoingPackets c ++ [d]) c.
Proof. unfold push_packet. intros H. case_match; naive_solver. Qed.

Lemma push_proxyClose_inv c c' : push_proxyClose c = Some c' -> c' = set_proxyClose (proxyClose c + 1) c.
Proof. unfold push_proxyClose. intros H. case_match; naive_solver. Qed.

End sending.

(** Take apart what a step of a connection did. *)
Ltac conn_cases H :=
  unfold conn_step in H;
  repeat match type of H with
  | context [match ?x with _ => _ end] => let E := fresh "E" in destruct x eqn:E; simpl in H; try discriminate H
  | context [mbind _ ?x] =>
      let E := fresh "E" in destruct x eqn:E; simpl in H; try discriminate H
  | _ = Some _ => injection H as H
  end;
  repeat match goal with
  | E : push_verdict _ _ _ _ _ = Some _ |- _ => apply push_verdict_inv in E as (? & ? & ->)
  | E : push_packet _ _ _ = Some _ |- _ => apply push_packet_inv in E as ->
  | E : push_proxyClose _ = Some _ |- _ => apply push_proxyClose_inv in E as ->
  end; try subst.

Section with_fb.
Context `{FB : FlatBuffers}.
Context (malformed : list Z -> bool).
Abbreviation step := (step malformed).
Abbreviation run := (run malformed).

(** ** What happened at a connection *)

(** The commands handed to connection [i], and the packets that arrived on it, in order. *)
Definition delivered_now (i : nat) (a : action) (r : router) : list delivery :=
  match a, listener r with
  | Deliver, Delivering d => if bool_decide (connections r !! delivery_id d = Some i) then [d] else []
  | _, _ => []
  end.

Definition arrived_now (i : nat) (a : action) : list (list Z) :=
  match a with Conn j (Arrive p) => if bool_decide (j = i) then [p] else [] | _ => [] end.

Fixpoint delivered (i : nat) (acts : list action) (r : router) : list delivery :=
  match acts with
  | [] => []
  | a :: acts => delivered_now i a r ++ match step a r with Some r => delivered i acts r | None => [] end
  end.

Definition arrived (i : nat) (acts : list action) : list (list Z) := acts ≫= arrived_now i.

(** The data of the messages, and the verdicts, among the commands. *)
Definition sent_data (ds : list delivery) : list slice :=
  omap (fun d => match d with DeliverMessage m => Some (Data m) | _ => None end) ds.
Definition sent_verdicts (ds : list delivery) : list OpenClientConnectionVerdict :=
  omap (fun d => match d with DeliverVerdict v => Some v | _ => None end) ds.

Definition arrives (a : conn_action) : list (list Z) := match a with Arrive p => [p] | _ => [] end.

(** ** Induction over schedules for one connection *)
Section conn_invariant.
#[local] Set Default Proof Using "Type*".
Context (P : conn -> list delivery -> list (list Z) -> Prop).
Hypothesis P_new : forall id, P (new_conn id) [] [].
Hypothesis P_step : forall inQ outQ locked known a c c' ds ps,
  conn_step malformed inQ outQ locked known a c = Some c' -> P c ds ps -> P c' ds (ps ++ arrives a).
Hypothesis P_deliver : forall outQ d c c' ds ps,
  deliver outQ d c = Some c' -> P c ds ps -> P c' (ds ++ [d]) ps.

Definition all_conns (r : router) (D : nat -> list delivery) (A : nat -> list (list Z)) : Prop :=
  (forall i c, conns r !! i = Some c -> P c (D i) (A i)) /\
  (forall i, (length (conns r) <= i)%nat -> D i = [] /\ A i = []) /\
  (forall id i, connections r !! id = Some i -> (i < length (conns r))%nat).

Lemma all_conns_update r D A D' A' i c' :
  all_conns r D A -> (i < length (conns r))%nat -> P c' (D' i) (A' i) ->
  (forall j, j <> i -> D' j = D j /\ A' j = A j) ->
  all_conns (set_conns (<[i := c']> (conns r)) r) D' A'.
Proof.
  intros (H1 & H2 & H3) Hi Hc' Heq. unfold all_conns. simpl. rewrite length_insert. split_and!.
  - intros j c Hj. destruct (decide (j = i)) as [->|Hne].
    + rewrite list_lookup_insert_eq in Hj by done. by simplify_eq.
    + rewrite list_lookup_insert_ne in Hj by done. destruct (Heq j Hne) as [-> ->]. auto.
  - intros j Hj. destruct (Heq j) as [-> ->]; [lia|auto].
  - done.
Qed.

Lemma all_conns_same r r' D A D' A' :
  all_conns r D A -> conns r' = conns r -> connections r' ⊆ connections r ->
  (forall j, D' j = D j /\ A' j = A j) -> all_conns r' D' A'.
Proof.
  intros (H1 & H2 & H3) Hc Hm Heq. unfold all_conns. rewrite Hc. split_and!.
  - intros i c Hi. destruct (Heq i) as [-> ->]. auto.
  - intros i Hi. destruct (Heq i) as [-> ->]. auto.
  - intros id i Hi. eapply H3, lookup_weaken; [exact Hi | exact Hm].
Qed.

Lemma all_conns_open r D A id :
  all_conns r D A ->
  all_conns (mkRouter (IncomingMessageQueueLength r) (OutgoingMessageQueueLength r)
    (<[id := length (conns r)]> (connections r)) (conns r ++ [new_conn id]) (listener r)) D A.
Proof.
  intros (H1 & H2 & H3). unfold all_conns. simpl. rewrite length_app. simpl. split_and!.
  - intros i c Hi. apply lookup_app_Some in Hi as [Hi | [Hle Hi]]; [auto|].
    apply list_lookup_singleton_Some in Hi as [Hi <-]. destruct (H2 i) as [-> ->]; [lia|]. apply P_new.
  - intros i Hi. apply H2. lia.
  - intros id' i Hi. apply lookup_insert_Some in Hi as [[_ <-] | [_ Hi]]; [lia|]. apply H3 in Hi. lia.
Qed.

Lemma all_conns_step a r r' D A :
  step a r = Some r' -> all_conns r D A ->
  all_conns r' (fun i => D i ++ delivered_now i a r) (fun i => A i ++ arrived_now i a).
Proof.
  intros Hs Hall.
  assert (Hq : forall r', conns r' = conns r -> connections r' ⊆ connections r ->
    (forall i, delivered_now i a r = [] /\ arrived_now i a = []) ->
    all_conns r' (fun i => D i ++ delivered_now i a r) (fun i => A i ++ arrived_now i a)).
  { intros r1 Hc Hm Hno. eapply all_conns_same; [exact Hall | done | done |].
    intros j. destruct (Hno j) as [-> ->]. by rewrite !app_nil_r. }
  destruct a as [next|id|d| | |i a]; simpl in Hs.
  - destruct next as [e|id]; [simplify_eq; by apply Hq|]. case_match; [|done]. case_match; simplify_eq; [by apply Hq|].
    eapply all_conns_same; [apply all_conns_open, Hall | done | done |].
    intros j. simpl. by rewrite !app_nil_r.
  - case_match; [|done]. simplify_eq. apply Hq; [done | apply delete_subseteq | done].
  - case_match; try done. simplify_eq. by apply Hq.
  - destruct (listener r) as [|d|] eqn:Hl; try done.
    destruct (connections r !! delivery_id d) as [i|] eqn:Hi.
    + destruct (conns r !! i) as [c|] eqn:Hc; [|done]. simpl in Hs.
      destruct (deliver (OutgoingMessageQueueLength r) d c) as [c'|] eqn:Hd; [|done]. simpl in Hs. simplify_eq.
      eapply all_conns_same;
        [eapply (all_conns_update r D A (fun j => D j ++ delivered_now j Deliver r)
           (fun j => A j ++ arrived_now j Deliver) i c') | done | done | done].
      * exact Hall.
      * by eapply lookup_lt_Some.
      * unfold delivered_now. rewrite Hl, bool_decide_true by done. simpl. rewrite app_nil_r.
        eapply P_deliver; [exact Hd|]. destruct Hall as (H1 & _). eauto.
      * intros j Hj. unfold delivered_now. rewrite Hl, bool_decide_false by congruence. by rewrite !app_nil_r.
    + simplify_eq. apply Hq; [done | done |]. intros i. unfold delivered_now.
      rewrite Hl, bool_decide_false by congruence. done.
  - case_match; try done. simplify_eq. by apply Hq.
  - destruct (conns r !! i) as [c|] eqn:Hc; [|done]. simpl in Hs.
    destruct (conn_step _ _ _ _ _ a c) as [c'|] eqn:Hd; [|done]. simpl in Hs. simplify_eq.
    assert (Harr : forall j, arrived_now j (Conn i a) = if decide (j = i) then arrives a else []).
    { intros j. unfold arrived_now, arrives. case_decide; subst.
      - destruct a; try done. by rewrite bool_decide_true.
      - destruct a; try done. by rewrite bool_decide_false. }
    eapply all_conns_update; [exact Hall | by eapply lookup_lt_Some | |].
    + rewrite Harr, decide_True by done. simpl. rewrite app_nil_r. eapply P_step; [exact Hd|]. destruct Hall as (H1 & _). eauto.
    + intros j Hj. rewrite Harr, decide_False by done. simpl. by rewrite !app_nil_r.
Qed.

Lemma all_conns_run acts r r' D A :
  run acts r = Some r' -> all_conns r D A ->
  all_conns r' (fun i => D i ++ delivered i acts r) (fun i => A i ++ arrived i acts).
Proof.
  revert r D A. induction acts as [|a acts IH]; intros r D A Hr Hall; simpl in Hr.
  - simplify_eq. eapply all_conns_same; [exact Hall | done | done |].
    intros j. simpl. unfold arrived. simpl. by rewrite !app_nil_r.
  - destruct (Router.step malformed a r) as [r1|] eqn:Hs; [|done].
    eapply all_conns_same; [eapply IH; [exact Hr | eapply all_conns_step; [exact Hs | exact Hall]] | done | done |].
    intros j. simpl. rewrite Hs. unfold arrived. simpl. by rewrite !(assoc_L (++)).
Qed.

Lemma conn_reachable incoming outgoing acts r i c :
  run acts (CreateClientConnectionRouter incoming outgoing) = Some r -> conns r !! i = Some c ->
  P c (delivered i acts (CreateClientConnectionRouter incoming outgoing)) (arrived i acts).
Proof.
  intros Hr Hc.
  assert (Hall : all_conns (CreateClientConnectionRouter incoming outgoing) (fun _ => []) (fun _ => [])).
  { unfold all_conns. simpl. split_and!; [done | done |]. intros id j Hj. by rewrite lookup_empty in Hj. }
  destruct (all_conns_run _ _ _ _ _ Hr Hall) as (H1 & _). apply (H1 _ _ Hc).
Qed.
End conn_invariant.

(** ** From the hub to the client *)
Definition held (c : conn) : list slice := match outward c with Holding d => [d] | _ => [] end.

(** All that is on its way to the client or was written to it, oldest first. *)
Definition to_client (c : conn) : list slice :=
  written c ++ outgoingPackets c ++ held c ++ map Data (outgoingMessages c).

Definition verdict_packet (accepted : bool) (reason : list Z) (appData : slice) (hello : list slice) : Prop :=
  exists bs, createVerdictMsg accepted reason appData = Ret bs /\ hello = [Some bs].

(** The verdict the client is told, by the phase of the connection and the verdicts delivered. *)
Definition hello_ok (p : phase) (vs : list OpenClientConnectionVerdict) (hello : list slice) : Prop :=
  match p with
  | AwaitAuth | AwaitVerdict => hello = []
  | Accepted | Routing => exists v reason, v ∈ vs /\ Verdict v = true /\ verdict_reason v = Some reason /\
      verdict_packet true reason (verdict_AppData v) hello
  | Ended => hello = [] \/ exists reason appData, verdict_packet false reason appData hello
  end.

Definition flow_out (c : conn) (ds : list delivery) : Prop :=
  (exists hello, to_client c = hello ++ sent_data ds /\ hello_ok (ph c) (sent_verdicts ds) hello /\
     (ph c = Routing \/ (outward c = Stopped /\ written c ++ outgoingPackets c = hello))) /\
  (forall v, v ∈ verdict c -> v ∈ sent_verdicts ds).

Lemma flow_out_new id : flow_out (new_conn id) [].
Proof. split; [|set_solver]. exists []. split_and!; [done | done | by right]. Qed.

Lemma flow_out_step inQ outQ locked known a c c' ds :
  conn_step malformed inQ outQ locked known a c = Some c' -> flow_out c ds -> flow_out c' ds.
Proof.
  intros Hs [(hello & Hto & Hh & Hr) Hv]. destruct c as [id p mk ow inw can cr vd om op ip cc pc ob wr].
  unfold to_client, held in Hto.
  destruct a; conn_cases Hs; simpl in *; try subst;
    (split; [|simpl; set_solver]); unfold to_client, held; simpl in *.
  all: try (exists hello; rewrite <- ?(assoc_L (++)); simpl; rewrite <- ?(assoc_L (++)) in Hto, Hr;
            split_and!; [exact Hto | done || by left | naive_solver]).
  all: destruct Hr as [? | [? Hr]]; simplify_eq;
    try (apply app_eq_nil in Hr as [-> ->]; simpl in Hto |- *; rewrite Hto;
         first [ exists []; solve [auto]
               | eexists [_]; split_and!; [done | | by right];
                 solve [right; unfold verdict_packet; eauto | do 2 eexists; split_and!; [apply Hv; left | | | eexists]; eauto] ]).
  all: exists (wr ++ op); auto.
Qed.

Lemma flow_out_deliver outQ d c c' ds : deliver outQ d c = Some c' -> flow_out c ds -> flow_out c' (ds ++ [d]).
Proof.
  intros Hs [(hello & Hto & Hh & Hr) Hv]. unfold flow_out, sent_data, sent_verdicts in *.
  destruct d; simpl in Hs; case_match; try done; simplify_eq; unfold to_client in *; rewrite !omap_app; simpl;
    rewrite ?app_nil_r, ?map_app; (split; [exists hello; split_and! | simpl; set_solver]); try done.
  all: simpl; rewrite ?(assoc_L (++)) in Hto |- *; rewrite ?Hto; try done.
  - rewrite (assoc_L (++) _ (map Data _)), (assoc_L (++) hello). f_equal. exact Hto.
  - destruct (ph c); try done; destruct Hh as (v0 & reason & Hv0 & ?); exists v0, reason; rewrite elem_of_app; auto.
Qed.

(** ** From the client to the hub *)

(** What the first packet makes of the connection: nothing yet, a malformed packet, or a request to the hub. *)
Inductive opened (id : Z) : list (list Z) -> list to_hub -> Prop :=
| opened_not : opened id [] []
| opened_malformed p : safeParseConnectClientMessage malformed p = None -> opened id [p] []
| opened_request p s d now : safeParseConnectClientMessage malformed p = Some (s, d) ->
    opened id [p] [Open (mkOpen id now 0 (go_string (default [] s)) d)].

Definition flow_in (c : conn) (ps : list (list Z)) : Prop :=
  exists first opening fw closing rest,
    outbox c = opening ++ map FromTransport fw ++ closing /\ opened (conn_id c) first opening /\
    (closing = [] \/ closing = [CloseMe (conn_id c)]) /\
    ps = first ++ rest ++ incomingPackets c /\
    map Data fw = map Some rest /\ Forall (fun m => msg_ClientId m = conn_id c) fw /\
    (ph c = AwaitAuth -> outbox c = [] /\ first = []) /\
    (ph c = AwaitVerdict \/ ph c = Accepted \/ ph c = Routing -> exists o, opening = [Open o]) /\
    (ph c <> Routing -> fw = [] /\ inward c = false) /\
    (ph c = Accepted \/ ph c = AwaitVerdict \/ inward c = true -> closing = []).

Lemma flow_in_new id : flow_in (new_conn id) [].
Proof. exists [], [], [], [], []. split_and!; try done; [constructor | by left | naive_solver]. Qed.

Lemma flow_in_await c ps :
  flow_in c ps -> ph c = AwaitAuth -> outbox c = [] /\ inward c = false /\ ps = incomingPackets c.
Proof.
  intros (first & opening & fw & closing & rest & Hob & Hop & Hcl & Hps & Hfw & Hid & Hauth & Hopen & Hrt & Hin) Hph.
  destruct (Hauth Hph) as [Ho ->]. destruct Hrt as [-> ->]; [congruence|]. by destruct rest.
Qed.

(** Giving up before a handshake. *)
Lemma flow_in_give_up c c' ps :
  flow_in c ps -> ph c = AwaitAuth -> ph c' = Ended -> conn_id c' = conn_id c -> inward c' = inward c ->
  incomingPackets c' = incomingPackets c -> outbox c' = outbox c ++ [CloseMe (conn_id c)] -> flow_in c' ps.
Proof.
  intros Hf Hph He Hid Hin Hip Hob. apply flow_in_await in Hf as (Ho & Hi & ->); [|done]. rewrite Ho in Hob.
  exists [], [], [], [CloseMe (conn_id c)], []. rewrite He, Hid, Hin, Hip, Hi, Hob.
  split_and!; auto; first [by constructor | by intros; destruct_or?].
Qed.

(** The goroutine towards the hub ends. *)
Lemma flow_in_stop c c' ps :
  flow_in c ps -> inward c = true -> ph c' = ph c -> conn_id c' = conn_id c -> inward c' = false ->
  incomingPackets c' = incomingPackets c -> outbox c' = outbox c ++ [CloseMe (conn_id c)] -> flow_in c' ps.
Proof.
  intros (first & opening & fw & closing & rest & Hob & Hop & Hcl & Hps & Hfw & Hid & Hauth & Hopen & Hrt & Hin)
    Hi Hph Hid' Hi' Hip Hob'.
  rewrite Hin, app_nil_r in Hob by auto.
  assert (Hr : ph c = Routing) by (destruct (ph c) eqn:E; try done; destruct Hrt; congruence).
  exists first, opening, fw, [CloseMe (conn_id c)], rest. rewrite Hph, Hid', Hi', Hip, Hob', Hob, Hr.
  split_and!; auto; first [by rewrite <- (assoc_L (++)) | by intros; destruct_or?].
Qed.

(** The first packet. *)
Lemma flow_in_first c c' ps p rest opening :
  flow_in c ps -> ph c = AwaitAuth -> incomingPackets c = p :: rest -> opened (conn_id c) [p] opening ->
  ph c' = AwaitVerdict /\ opening <> [] \/ ph c' = Ended ->
  conn_id c' = conn_id c -> inward c' = inward c -> incomingPackets c' = rest -> outbox c' = outbox c ++ opening ->
  flow_in c' ps.
Proof.
  intros Hf Hph Hip Hop Hp' Hid Hin Hip' Hob. apply flow_in_await in Hf as (Ho & Hi & ->); [|done]. rewrite Ho in Hob.
  exists [p], opening, [], [], []. rewrite Hid, Hin, Hip', Hi, Hob, Hip. simpl. rewrite app_nil_r.
  split_and!; auto; try (by destruct Hp' as [[-> ?] | ->]).
  intros Hp. inversion Hop; subst; [|by eauto].
  destruct Hp' as [[_ ?] | Hp']; [done|]. rewrite Hp' in Hp. by destruct_or!.
Qed.

(** The verdict. *)
Lemma flow_in_decided c c' ps :
  flow_in c ps -> ph c = AwaitVerdict -> ph c' = Accepted \/ ph c' = Ended -> conn_id c' = conn_id c ->
  inward c' = inward c -> incomingPackets c' = incomingPackets c -> outbox c' = outbox c -> flow_in c' ps.
Proof.
  intros (first & opening & fw & closing & rest & Hob & Hop & Hcl & Hps & Hfw & Hid & Hauth & Hopen & Hrt & Hin)
    Hph Hph' Hid' Hi' Hip Hob'.
  exists first, opening, fw, closing, rest. rewrite Hid', Hi', Hip, Hob'. destruct Hrt as [-> Hi]; [congruence|].
  split_and!; auto; intros; destruct_or?; try congruence; auto.
Qed.

(** A packet forwarded. *)
Lemma flow_in_forward c c' ps p rest' now :
  flow_in c ps -> inward c = true -> incomingPackets c = p :: rest' -> ph c' = ph c -> conn_id c' = conn_id c ->
  inward c' = true -> incomingPackets c' = rest' ->
  outbox c' = outbox c ++ [FromTransport (mkRouted (conn_id c) now 0 (Some p))] -> flow_in c' ps.
Proof.
  intros (first & opening & fw & closing & rest & Hob & Hop & Hcl & Hps & Hfw & Hid & Hauth & Hopen & Hrt & Hin)
    Hi Hip Hph Hid' Hi' Hip' Hob'.
  rewrite Hin, app_nil_r in Hob by auto.
  assert (Hr : ph c = Routing) by (destruct (ph c) eqn:E; try done; destruct Hrt; congruence).
  exists first, opening, (fw ++ [mkRouted (conn_id c) now 0 (Some p)]), [], (rest ++ [p]).
  rewrite Hph, Hid', Hi', Hip', Hob', Hob, Hr, Hps, Hip, !map_app, Hfw, app_nil_r. simpl.
  split_and!; auto; rewrite <- ?(assoc_L (++)); try done. apply Forall_app. by repeat constructor.
Qed.

Lemma flow_in_step inQ outQ locked known a c c' ps :
  conn_step malformed inQ outQ locked known a c = Some c' -> flow_in c ps -> flow_in c' (ps ++ arrives a).
Proof.
  intros Hs Hf.
  destruct a; simpl arrives; rewrite ?app_nil_r; conn_cases Hs; try exact Hf;
    try (eapply flow_in_give_up; [exact Hf | done | done | done | done | done | done]);
    try (eapply flow_in_stop; [exact Hf | by apply andb_true_iff in E as [??] | done | done | done | done | done]);
    try (eapply flow_in_first;
         [exact Hf | done | done | by econstructor | by auto | done | done | done | by rewrite ?app_nil_r]);
    try (eapply flow_in_decided; [exact Hf | done | by auto | done | done | done | done]);
    try (eapply flow_in_forward; [exact Hf | done | done | done | done | done | done | done]).
  all: destruct Hf as (first & opening & fw & closing & rest & Hob & Hop & Hcl & Hps & Hfw & Hid & Hauth & Hopen & Hrt & Hin).
  all: exists first, opening, fw, closing, rest; simpl in *; rewrite ?Hps, <- ?(assoc_L (++));
     split_and!; try assumption; try done; by intros; destruct_or?; simplify_eq; auto.
Qed.

(** ** Theorems *)

(** In every reachable state, whatever the order in which the goroutines, the transport and the hub act, what
    a connection has written and still holds for its client is the verdict followed by the data of the messages the
    hub delivered to it, each once and in order; before the verdict there is nothing, and an accepting verdict is one the hub
    delivered. *)
Theorem client_stream incoming outgoing acts r i c :
  let r0 := CreateClientConnectionRouter incoming outgoing in
  run acts r0 = Some r -> conns r !! i = Some c ->
  exists hello,
    written c ++ outgoingPackets c ++ held c ++ map Data (outgoingMessages c) = hello ++ sent_data (delivered i acts r0) /\
    hello_ok (ph c) (sent_verdicts (delivered i acts r0)) hello.
Proof.
  intros r0 Hr Hc.
  destruct (conn_reachable (fun c ds _ => flow_out c ds) flow_out_new
    (fun _ _ _ _ _ _ _ _ _ => flow_out_step _ _ _ _ _ _ _ _) (fun _ _ _ _ _ _ => flow_out_deliver _ _ _ _ _)
    _ _ _ _ _ _ Hr Hc) as [(hello & ? & ? & _) _]. by exists hello.
Qed.

(** In every reachable state the hub has got from a connection at most one request, made from its first packet,
    then its other packets in order and with its client id, then at most one close command; no packet is lost or
    doubled, none is forwarded before the connection is accepted, and none follows a malformed handshake. *)
Theorem hub_stream incoming outgoing acts r i c :
  run acts (CreateClientConnectionRouter incoming outgoing) = Some r -> conns r !! i = Some c ->
  exists first opening fw closing rest,
    outbox c = opening ++ map FromTransport fw ++ closing /\ arrived i acts = first ++ rest ++ incomingPackets c /\
    opened (conn_id c) first opening /\ (closing = [] \/ closing = [CloseMe (conn_id c)]) /\
    map Data fw = map Some rest /\ Forall (fun m => msg_ClientId m = conn_id c) fw /\
    (rest <> [] -> ph c = Routing /\ exists o, opening = [Open o]).
Proof.
  intros Hr Hc.
  destruct (conn_reachable (fun c _ ps => flow_in c ps) flow_in_new
    (fun _ _ _ _ _ _ _ _ _ => flow_in_step _ _ _ _ _ _ _ _)) with (3 := Hc) (2 := Hr)
    as (first & opening & fw & closing & rest & Hob & Hop & Hcl & Hps & Hfw & Hid & Hauth & Hopen & Hrt & Hin).
  { intros outQ d c0 c1 ds ps Hd Hf. destruct d; simpl in Hd; case_match; simplify_eq; exact Hf. }
  exists first, opening, fw, closing, rest. split_and!; auto. intros Hne.
  assert (Hph : ph c = Routing).
  { destruct (ph c); try done; destruct Hrt as [-> _]; try done; by destruct rest. }
  auto.
Qed.

(** *** Blocking *)

(** The loop waits for room in the queue of a connection whose forwarder does not run. *)
Definition blocked (m : routed) (i : nat) (r : router) : Prop :=
  listener r = Delivering (DeliverMessage m) /\ connections r !! msg_ClientId m = Some i /\
  exists c, conns r !! i = Some c /\ outward c = Stopped /\
    OutgoingMessageQueueLength r <= zlen (outgoingMessages c).

Lemma stopped_keeps inQ outQ known a c c' :
  conn_step malformed inQ outQ true known a c = Some c' -> outward c = Stopped ->
  outward c' = Stopped /\ outgoingMessages c' = outgoingMessages c.
Proof. intros Hs Ho. destruct c, a; conn_cases Hs; simpl in *; try congruence; auto. Qed.

Lemma blocked_step m i a r r' : blocked m i r -> step a r = Some r' -> blocked m i r'.
Proof.
  intros (Hl & Hm & c & Hc & Ho & Hq) Hs.
  assert (Hlock : unlocked r = false) by (unfold unlocked; by rewrite Hl).
  destruct a as [next|id|d| | |j a]; simpl in Hs; rewrite ?Hlock, ?Hl in Hs; simpl in Hs; try done.
  - destruct next; simplify_eq. by split_and!; eauto.
  - rewrite Hm, Hc in Hs. simpl in Hs. rewrite (proj2 (Z.ltb_ge _ _) Hq) in Hs. done.
  - destruct (conns r !! j) as [cj|] eqn:Hj; [|done]. simpl in Hs.
    destruct (conn_step _ _ _ _ _ a cj) as [c'|] eqn:Hd; [|done]. simpl in Hs. simplify_eq.
    split_and!; [done | done |]. simpl. destruct (decide (j = i)) as [->|Hne].
    + rewrite Hc in Hj. simplify_eq. exists c'. rewrite list_lookup_insert_eq by (by eapply lookup_lt_Some).
      destruct (stopped_keeps _ _ _ _ _ _ Hd Ho) as [? ->]. auto.
    + exists c. by rewrite list_lookup_insert_ne.
Qed.

Lemma blocked_run m i acts r r' : blocked m i r -> run acts r = Some r' -> blocked m i r'.
Proof.
  revert r. induction acts as [|a acts IH]; intros r Hb Hr; simpl in Hr; [by simplify_eq|].
  destruct (Router.step malformed a r) as [r1|] eqn:Hs; [|done]. eauto using blocked_step.
Qed.

(** A connection whose forwarder runs makes room: what it takes. *)
Lemma running_makes_room r m i c n :
  listener r = Delivering (DeliverMessage m) -> connections r !! msg_ClientId m = Some i -> conns r !! i = Some c ->
  outward c = Running -> zlen (outgoingMessages c) = OutgoingMessageQueueLength r -> outgoingMessages c = n ->
  n <> [] -> exists r', run [Conn i OutTake; Deliver] r = Some r' /\ unlocked r' = true.
Proof.
  intros Hl Hm Hc Ho Hq Hn Hne. destruct n as [|x n]; [done|].
  pose proof (lookup_lt_Some _ _ _ Hc) as Hlt.
  simpl. rewrite Hc. simpl. rewrite Ho, Hn. simpl. rewrite Hl. simpl. rewrite Hm. simpl.
  rewrite list_lookup_insert_eq by done. simpl.
  assert (Hroom : (zlen n <? OutgoingMessageQueueLength r) = true) by (rewrite Hn in Hq; autorewrite with zlen in Hq; lia).
  rewrite Hroom. simpl. eexists. split; [reflexivity | done].
Qed.

Lemma holding_makes_room n r m i c d :
  listener r = Delivering (DeliverMessage m) -> connections r !! msg_ClientId m = Some i -> conns r !! i = Some c ->
  outward c = Holding d -> zlen (outgoingMessages c) = OutgoingMessageQueueLength r -> outgoingMessages c <> [] ->
  length (outgoingPackets c) = n -> exists acts r', run acts r = Some r' /\ unlocked r' = true.
Proof.
  revert r c. induction n as [|n IH]; intros r c Hl Hm Hc Ho Hq Hne Hn; pose proof (lookup_lt_Some _ _ _ Hc) as Hlt;
    destruct (zlen (outgoingPackets c) <? OutgoingMessageQueueLength r) eqn:Hroom.
  1, 3: set (c1 := set_outward Running (set_packets (outgoingPackets c ++ [d]) c));
    set (r1 := set_conns (<[i := c1]> (conns r)) r);
    assert (Hs : step (Conn i OutPush) r = Some r1)
      by (simpl; rewrite Hc; simpl; rewrite Ho; unfold push_packet; by rewrite Hroom);
    destruct (running_makes_room r1 m i c1 (outgoingMessages c)) as (r' & Hr' & Hu);
      [done | done | by apply list_lookup_insert_eq | done | done | done | done |];
    exists [Conn i OutPush; Conn i OutTake; Deliver], r'; split; [|done];
    change (match step (Conn i OutPush) r with Some r => run [Conn i OutTake; Deliver] r | None => None end = Some r');
    by rewrite Hs.
  - destruct (outgoingPackets c); [|done]. apply Z.ltb_ge in Hroom. autorewrite with zlen in Hroom.
    destruct (outgoingMessages c); [done|]. autorewrite with zlen in Hq. pose proof (zlen_nonneg l). lia.
  - destruct (outgoingPackets c) as [|p ps] eqn:Hp; [done|].
    set (c1 := set_written (written c ++ [p]) (set_packets ps c)).
    destruct (IH (set_conns (<[i := c1]> (conns r)) r) c1) as (acts & r' & Hr' & Hu);
      [done | done | by apply list_lookup_insert_eq | done | done | done | simpl in Hn |- *; lia |].
    exists (Conn i TakeOut :: acts), r'. split; [|done]. simpl. rewrite Hc. simpl. by rewrite Hp.
Qed.

(** C10: When the router's loop is delivering a message to a connection whose queue is full, the connection's own
    goroutine and its transport can always make room if that goroutine was started and still runs; otherwise no
    sequence of actions of any goroutine ever lets the loop continue, so no client is served, added or
    removed any more. *)
Theorem full_queue_proceeds_iff m i c r :
  0 < OutgoingMessageQueueLength r -> listener r = Delivering (DeliverMessage m) ->
  connections r !! msg_ClientId m = Some i -> conns r !! i = Some c ->
  zlen (outgoingMessages c) = OutgoingMessageQueueLength r ->
  (exists acts r', run acts r = Some r' /\ unlocked r' = true) <-> outward c <> Stopped.
Proof.
  intros Hpos Hl Hm Hc Hq. split.
  { intros (acts & r' & Hr & Hu) Ho.
    assert (Hb : blocked m i r) by (split_and!; eauto with lia).
    destruct (blocked_run _ _ _ _ _ Hb Hr) as (Hl' & _). unfold unlocked in Hu. by rewrite Hl' in Hu. }
  intros Ho. pose proof (lookup_lt_Some _ _ _ Hc) as Hlt.
  assert (Hne : outgoingMessages c <> []) by (intros E; rewrite E in Hq; autorewrite with zlen in Hq; lia).
  destruct (outward c) as [|d|] eqn:Eo; [|clear Ho|done].
  { eauto using running_makes_room. }
  eauto using holding_makes_room.
Qed.

(** *** A handshake that cannot be read *)

Definition untold (c : conn) : Prop :=
  outward c = Stopped /\ inward c = false /\ outbox c = [] /\ written c = [] /\ outgoingPackets c = [] /\ proxyClose c = 0.

Lemma untold_step inQ outQ locked known a c c' :
  conn_step malformed inQ outQ locked known a c = Some c' ->
  (ph c = AwaitAuth -> untold c) -> (ph c' = AwaitAuth -> untold c').
Proof. intros Hs Hu. destruct c, a; conn_cases Hs; unfold untold in *; simpl in *; intros; simplify_eq; naive_solver. Qed.

Lemma abandoned_step inQ outQ locked known a c c' :
  conn_step malformed inQ outQ locked known a c = Some c' ->
  ph c = Ended /\ untold c -> ph c' = Ended /\ untold c'.
Proof. intros Hs Hu. destruct c, a; conn_cases Hs; unfold untold in *; simpl in *; destruct_and!; simplify_eq; naive_solver. Qed.

(** A property that actions and deliveries keep stays with a connection. *)
Lemma conn_keeps (Q : conn -> Prop) acts r r' i c :
  (forall inQ outQ locked known a c c', conn_step malformed inQ outQ locked known a c = Some c' -> Q c -> Q c') ->
  (forall outQ d c c', deliver outQ d c = Some c' -> Q c -> Q c') ->
  run acts r = Some r' -> conns r !! i = Some c -> Q c -> exists c', conns r' !! i = Some c' /\ Q c'.
Proof.
  intros H1 H2. revert r c. induction acts as [|a acts IH]; intros r c Hr Hc HQ; simpl in Hr; [simplify_eq; eauto|].
  destruct (Router.step malformed a r) as [r1|] eqn:Hs; [|done].
  assert (Hset : forall j cj, conns r !! j = Some cj -> forall cj', (Q cj -> Q cj') ->
    exists c', (<[j := cj']> (conns r)) !! i = Some c' /\ Q c').
  { intros j cj Hj cj' HQ'. destruct (decide (j = i)) as [->|Hne].
    - exists cj'. rewrite list_lookup_insert_eq by (by eapply lookup_lt_Some). simplify_eq. auto.
    - exists c. by rewrite list_lookup_insert_ne. }
  assert (exists c1, conns r1 !! i = Some c1 /\ Q c1) as (c1 & ? & ?); [|eauto].
  destruct a; simpl in Hs; repeat case_match; simplify_eq; simpl; eauto.
  - exists c. split; [|done]. by apply lookup_app_l_Some.
  - destruct (conns r !! _) eqn:Hj in Hs; [|done]. simpl in Hs. destruct (deliver _ _ _) eqn:Hd; [|done].
    simpl in Hs. simplify_eq. simpl. eauto.
  - destruct (conns r !! _) eqn:Hj in Hs; [|done]. simpl in Hs. destruct (conn_step _ _ _ _ _ _ _) eqn:Hd; [|done].
    simpl in Hs. simplify_eq. simpl. eauto.
Qed.

(** A connection whose handshake cannot be read is abandoned: whatever happens afterwards, the hub's close command included,
    the hub gets nothing from it, and the transport neither a verdict nor the request to close. *)
Theorem malformed_handshake_abandoned incoming outgoing before after r r' i c p rest now :
  run before (CreateClientConnectionRouter incoming outgoing) = Some r -> conns r !! i = Some c -> ph c = AwaitAuth ->
  incomingPackets c = p :: rest -> safeParseConnectClientMessage malformed p = None ->
  run (Conn i (OnPacket now) :: after) r = Some r' ->
  exists c', conns r' !! i = Some c' /\ ph c' = Ended /\
    outbox c' = [] /\ written c' = [] /\ outgoingPackets c' = [] /\ proxyClose c' = 0.
Proof.
  intros Hr Hc Hph Hip Hparse Hr'.
  assert (Hu : untold c).
  { eapply (conn_reachable (fun c _ _ => ph c = AwaitAuth -> untold c)); [| | | exact Hr | exact Hc | done].
    - done.
    - eauto using untold_step.
    - intros outQ d c0 c1 ds ps Hd Hf. destruct d; simpl in Hd; case_match; simplify_eq; exact Hf. }
  change (match step (Conn i (OnPacket now)) r with Some r => run after r | None => None end = Some r') in Hr'.
  simpl in Hr'. rewrite Hc in Hr'. simpl in Hr'. rewrite Hph, Hip, Hparse in Hr'. simpl in Hr'.
  eapply (conn_keeps (fun c => ph c = Ended /\ untold c)) in Hr' as (c' & Hc' & He & ?).
  - exists c'. unfold untold in *. naive_solver.
  - eauto using abandoned_step.
  - intros outQ d c0 c1 Hd Hf. destruct d; simpl in Hd; case_match; simplify_eq; exact Hf.
  - by apply list_lookup_insert_eq, (lookup_lt_Some _ _ _ Hc).
  - done.
Qed.
(** *** A close command that only one goroutine sees *)

(** The router's map leads to the connection with that id. *)
Definition ids_ok (r : router) : Prop :=
  forall id i, connections r !! id = Some i -> exists c, conns r !! i = Some c /\ conn_id c = id.

Lemma conn_step_id inQ outQ locked known a c c' :
  conn_step malformed inQ outQ locked known a c = Some c' -> conn_id c' = conn_id c.
Proof. intros Hs. destruct a; conn_cases Hs; done. Qed.

Lemma deliver_id outQ d c c' : deliver outQ d c = Some c' -> conn_id c' = conn_id c.
Proof. intros Hd. destruct d; simpl in Hd; case_match; simplify_eq; done. Qed.

Lemma ids_ok_insert r i c c' m :
  ids_ok r -> m = connections r -> conns r !! i = Some c -> conn_id c' = conn_id c ->
  forall id j, m !! id = Some j -> exists c0, (<[i := c']> (conns r)) !! j = Some c0 /\ conn_id c0 = id.
Proof.
  intros Hok -> Hc Hid id j Hj. destruct (Hok _ _ Hj) as (cj & Hcj & <-). destruct (decide (i = j)) as [->|Hne].
  - exists c'. rewrite list_lookup_insert_eq by (by eapply lookup_lt_Some). split; [done | congruence].
  - exists cj. by rewrite list_lookup_insert_ne.
Qed.

Lemma ids_ok_step a r r' : step a r = Some r' -> ids_ok r -> ids_ok r'.
Proof.
  intros Hs Hok. destruct a as [next|id|d| | |j a]; simpl in Hs.
  - destruct next as [|id]; [by simplify_eq|]. case_match; [|done]. case_match; simplify_eq; [done|].
    intros id' i Hi. simpl in *. apply lookup_insert_Some in Hi as [[-> <-] | [_ Hi]].
    + exists (new_conn id'). rewrite list_lookup_middle by done. done.
    + destruct (Hok _ _ Hi) as (c & Hc & ?). exists c. split; [by apply lookup_app_l_Some | done].
  - case_match; [|done]. simplify_eq. intros id' i Hi. simpl in *. apply lookup_delete_Some in Hi as [_ Hi]. eauto.
  - case_match; try done. by simplify_eq.
  - destruct (listener r) as [|d|]; try done. case_match; [|by simplify_eq].
    destruct (conns r !! _) as [c|] eqn:Hc; [|done]. simpl in Hs. destruct (deliver _ d c) eqn:Hd; [|done].
    simpl in Hs. simplify_eq. intros id' i. simpl. eapply ids_ok_insert; eauto using deliver_id.
  - case_match; try done. by simplify_eq.
  - destruct (conns r !! j) as [c|] eqn:Hc; [|done]. simpl in Hs. destruct (conn_step _ _ _ _ _ a c) eqn:Hd; [|done].
    simpl in Hs. simplify_eq. intros id' i. simpl. eapply ids_ok_insert; eauto using conn_step_id.
Qed.

Lemma ids_ok_run acts r r' : run acts r = Some r' -> ids_ok r -> ids_ok r'.
Proof.
  revert r. induction acts as [|a acts IH]; intros r Hr Hok; simpl in Hr; [by simplify_eq|].
  destruct (Router.step malformed a r) as [r1|] eqn:Hs; [|done]. eauto using ids_ok_step.
Qed.

(** The transport has not been asked to close, and no close command is left for the connection. *)
Definition unasked (id : Z) (c : conn) : Prop :=
  conn_id c = id /\ ph c = Routing /\ inward c = false /\ outward c <> Stopped /\ closeRequest c = 0 /\ proxyClose c = 0.

Lemma unasked_step inQ outQ locked known id a c c' :
  conn_step malformed inQ outQ locked known a c = Some c' -> unasked id c -> unasked id c'.
Proof.
  intros Hs (Hid & Hp & Hi & Ho & Hcr & Hpc). destruct c, a; simpl in *; conn_cases Hs; unfold unasked; simpl in *;
    split_and!; congruence || lia || naive_solver.
Qed.

Lemma unasked_deliver outQ id d c c' :
  (forall id', d <> DeliverClose id') -> deliver outQ d c = Some c' -> unasked id c -> unasked id c'.
Proof. intros Hd Hs Hu. destruct d; simpl in Hs; [by destruct (Hd clientId)|..]; case_match; simplify_eq; done. Qed.

(** No close command for the client is on its way or comes later. *)
Definition no_close (id : Z) (acts : list action) (r : router) : Prop :=
  listener r <> Delivering (DeliverClose id) /\ ~ (Take (DeliverClose id) ∈ acts).

Lemma unasked_run id i acts r r' c :
  ids_ok r -> no_close id acts r -> run acts r = Some r' -> conns r !! i = Some c -> unasked id c ->
  exists c', conns r' !! i = Some c' /\ unasked id c'.
Proof.
  revert r c. induction acts as [|a acts IH]; intros r c Hok [Hl Hn] Hr Hc Hu; simpl in Hr; [simplify_eq; eauto|].
  destruct (Router.step malformed a r) as [r1|] eqn:Hs; [|done].
  assert (Hset : forall j cj cj', conns r !! j = Some cj -> (j = i -> unasked id cj -> unasked id cj') ->
    exists c', (<[j := cj']> (conns r)) !! i = Some c' /\ unasked id c').
  { intros j cj cj' Hj Hkeep. destruct (decide (j = i)) as [->|Hne].
    - exists cj'. rewrite list_lookup_insert_eq by (by eapply lookup_lt_Some). simplify_eq. auto.
    - exists c. by rewrite list_lookup_insert_ne. }
  assert (listener r1 <> Delivering (DeliverClose id) /\ exists c1, conns r1 !! i = Some c1 /\ unasked id c1) as (Hl1 & c1 & Hc1 & Hu1).
  { destruct a as [next|id'|d| | |j a]; simpl in Hs.
    - destruct next as [|id']; [by simplify_eq; eauto|]. case_match; [|done]. case_match; simplify_eq; [by eauto|].
      split; [done|]. exists c. split; [by apply lookup_app_l_Some | done].
    - case_match; [|done]. simplify_eq. eauto.
    - case_match; try done. simplify_eq. simpl. split; [|by eauto]. intros [= ->]. apply Hn. left.
    - destruct (listener r) as [|d|] eqn:El; try done. case_match eqn:Hi; [|by simplify_eq; eauto].
      destruct (conns r !! _) as [cj|] eqn:Hj; [|done]. simpl in Hs. destruct (deliver _ d cj) eqn:Hd; [|done].
      simpl in Hs. simplify_eq. split; [done|]. simpl. eapply Hset; [exact Hj|]. intros -> Huj.
      eapply unasked_deliver; [|exact Hd | exact Huj]. intros id' ->. simpl in Hi.
      destruct (Hok _ _ Hi) as (cx & Hcx & Hidx). destruct Huj as (? & _). congruence.
    - case_match; try done. simplify_eq. eauto.
    - destruct (conns r !! j) as [cj|] eqn:Hj; [|done]. simpl in Hs. destruct (conn_step _ _ _ _ _ a cj) eqn:Hd; [|done].
      simpl in Hs. simplify_eq. split; [done|]. simpl. eapply Hset; [exact Hj|]. intros _. by eapply unasked_step. }
  eapply (IH r1 c1); [by eapply ids_ok_step | | done | done | done].
  split; [done|]. intros Hin. apply Hn. by right.
Qed.

(** Two goroutines of a connection wait for the same close command of the hub. When the one that reads from the client
    takes it, the transport is not asked to close: in every later state, until the hub sends another close
    command for that client, the request is missing, while packets of the client are no longer
    forwarded. *)
Theorem close_command_lost incoming outgoing before after r r' i c :
  run before (CreateClientConnectionRouter incoming outgoing) = Some r -> conns r !! i = Some c ->
  ph c = Routing -> inward c = true -> outward c <> Stopped -> closeRequest c = 1 -> proxyClose c = 0 ->
  no_close (conn_id c) after r -> run (Conn i InClose :: after) r = Some r' ->
  exists c', conns r' !! i = Some c' /\ proxyClose c' = 0 /\ outward c' <> Stopped /\ inward c' = false.
Proof.
  intros Hr Hc Hph Hin Hout Hcr Hpc Hno Hrun.
  assert (Hok : ids_ok r).
  { eapply ids_ok_run; [exact Hr|]. intros id j Hj. simpl in Hj. by rewrite lookup_empty in Hj. }
  change (match step (Conn i InClose) r with Some r => run after r | None => None end = Some r') in Hrun.
  destruct (step (Conn i InClose) r) as [r1|] eqn:Hs; [|done].
  pose proof (ids_ok_step _ _ _ Hs Hok) as Hok1.
  simpl in Hs. rewrite Hc in Hs. simpl in Hs. rewrite Hin, Hcr in Hs. simpl in Hs. simplify_eq.
  eapply unasked_run in Hrun as (c' & Hc' & _ & _ & ? & ? & _ & ?); [by eauto | exact Hok1 | exact Hno | |].
  - by apply list_lookup_insert_eq, (lookup_lt_Some _ _ _ Hc).
  - done.
Qed.
End with_fb.

(** ** A concrete run *)

(** A handshake with a connection string and application data. *)
Definition sample_handshake : list Z :=
  match fst (encodeConnectClientMessage (FB := FbRef) (Some (Utf8 (go_bytes "udp:game"))) (Some [1; 2; 3]) false (new_Builder 64)) with
  | Ret u => u8_bytes u
  | Throw _ => []
  end.

Definition demo_message (b : Z) : routed := mkRouted 1 7 8 (Some [b]).

(** One client connects, is accepted, receives a message and sends a packet; queues hold one element. *)
Definition demo_acts : list action :=
  [OpenConnection (inr 1); Conn 0 (Arrive sample_handshake); Conn 0 (OnPacket 5);
   Take (DeliverVerdict (mkVerdict 1 true None None)); Deliver; Conn 0 OnVerdict; Conn 0 Mark; Conn 0 TakeOut;
   Take (DeliverMessage (demo_message 7)); Deliver; Conn 0 OutTake; Conn 0 OutPush;
   Conn 0 (Arrive [9]); Conn 0 (InPacket 6); Conn 0 (Arrive [10])].

Abbreviation demo_run acts := (run (FB := FbRef) (fun _ => false) acts (CreateClientConnectionRouter 1 1)).


Lemma client_stream_witness : exists r c hello,
  demo_run demo_acts = Some r /\ conns r !! 0%nat = Some c /\
  written c ++ outgoingPackets c ++ held c ++ map Data (outgoingMessages c) = hello ++ [Some [7]] /\
  hello_ok (FB := FbRef) Routing [mkVerdict 1 true None None] hello.
Proof.
  destruct (demo_run demo_acts) as [r|] eqn:Hr; [|vm_compute in Hr; discriminate Hr].
  destruct (conns r !! 0%nat) as [c|] eqn:Hc; [|vm_compute in Hr; injection Hr as <-; discriminate Hc].
  destruct (client_stream (FB := FbRef) (fun _ => false) 1 1 demo_acts r 0 c Hr Hc) as (hello & H1 & H2).
  exists r, c, hello. split_and!; [reflexivity | exact Hc | exact H1 |].
  enough (Hp : ph c = Routing) by (rewrite Hp in H2; exact H2).
  vm_compute in Hr. injection Hr as <-. injection Hc as <-. reflexivity.
Defined.

Lemma hub_stream_witness : exists r c,
  demo_run demo_acts = Some r /\ conns r !! 0%nat = Some c /\
  exists first opening fw closing rest,
    outbox c = opening ++ map FromTransport fw ++ closing /\
    [sample_handshake; [9]; [10]] = first ++ rest ++ incomingPackets c /\
    opened (FB := FbRef) (fun _ => false) (conn_id c) first opening /\ map Data fw = map Some rest /\ ph c = Routing.
Proof.
  destruct (demo_run demo_acts) as [r|] eqn:Hr; [|vm_compute in Hr; discriminate Hr].
  destruct (conns r !! 0%nat) as [c|] eqn:Hc; [|vm_compute in Hr; injection Hr as <-; discriminate Hc].
  destruct (hub_stream (FB := FbRef) (fun _ => false) 1 1 demo_acts r 0 c Hr Hc)
    as (first & opening & fw & closing & rest & H1 & H2 & H3 & H4 & H5 & H6 & H7).
  exists r, c. split_and!; [reflexivity | exact Hc |]. exists first, opening, fw, closing, rest.
  split_and!; [exact H1 | exact H2 | exact H3 | exact H5 |].
  vm_compute in Hr. injection Hr as <-. injection Hc as <-. reflexivity.
Defined.

(** Two messages of the destination reach the router before its verdict does. *)
Definition early_acts : list action :=
  [OpenConnection (inr 1); Conn 0 (Arrive sample_handshake); Conn 0 (OnPacket 5);
   Take (DeliverMessage (demo_message 7)); Deliver; Take (DeliverMessage (demo_message 8))].

Lemma full_queue_proceeds_iff_witness : exists r,
  demo_run early_acts = Some r /\
  ~ (exists acts r', run (FB := FbRef) (fun _ => false) acts r = Some r' /\ unlocked r' = true).
Proof.
  destruct (demo_run early_acts) as [r|] eqn:Hr; [|vm_compute in Hr; discriminate Hr].
  exists r. split; [reflexivity|]. vm_compute in Hr. injection Hr as Hr.
  destruct (conns r !! 0%nat) as [c|] eqn:Hc; [|rewrite <- Hr in Hc; discriminate Hc].
  intros Hp. refine (proj1 (full_queue_proceeds_iff (FB := FbRef) (fun _ => false) (demo_message 8) 0 c r _ _ _ Hc _) Hp _);
    clear Hp; subst r; injection Hc as <-; reflexivity.
Defined.

Lemma malformed_handshake_abandoned_witness : exists r',
  run (FB := FbRef) (fun _ => true)
    [OpenConnection (inr 1); Conn 0 (Arrive [1]); Conn 0 (OnPacket 5); Take (DeliverClose 1); Deliver]
    (CreateClientConnectionRouter 1 1) = Some r' /\
  exists c', conns r' !! 0%nat = Some c' /\ ph c' = Ended /\
    outbox c' = [] /\ written c' = [] /\ outgoingPackets c' = [] /\ proxyClose c' = 0.
Proof.
  eexists. split; [vm_compute; reflexivity|].
  eapply (malformed_handshake_abandoned (FB := FbRef) (fun _ => true) 1 1
    [OpenConnection (inr 1); Conn 0 (Arrive [1])] [Take (DeliverClose 1); Deliver] _ _ 0 _ [1] [] 5);
    vm_compute; reflexivity.
Defined.

(** Accepted, then kicked by the hub. *)
Lemma close_command_lost_witness : exists r',
  demo_run (demo_acts ++ [Take (DeliverClose 1); Deliver; Conn 0 InClose; Conn 0 TakeOut]) = Some r' /\
  exists c', conns r' !! 0%nat = Some c' /\ proxyClose c' = 0 /\ outward c' <> Stopped /\ inward c' = false.
Proof.
  destruct (demo_run (demo_acts ++ [Take (DeliverClose 1); Deliver])) as [r|] eqn:Hr; [|vm_compute in Hr; discriminate Hr].
  eexists. split; [vm_compute; reflexivity|].
  destruct (conns r !! 0%nat) as [c|] eqn:Hc; [|vm_compute in Hr; injection Hr as <-; discriminate Hc].
  eapply (close_command_lost (FB := FbRef) (fun _ => false) 1 1 (demo_acts ++ [Take (DeliverClose 1); Deliver])
    [Conn 0 TakeOut] r _ 0 c Hr Hc); vm_compute in Hr; injection Hr as <-; injection Hc as <-.
  - reflexivity.
  - reflexivity.
  - discriminate.
  - reflexivity.
  - reflexivity.
  - split; [discriminate|]. intros H. apply list_elem_of_In in H. destruct H as [H|[]]. discriminate H.
  - vm_compute. reflexivity.
Defined.
