(* ===== verification/HandshakeTheorems.v ===== *)
(** * Client and router understand each other

    The handshake that the TypeScript client builds is what the Go router
    parses, and the verdict that the router builds is what the client reads. *)

From S2P Require Import Prelude JsPlatform FlatBuffers FbTables FbReference SpanreedMessages HelloMessages ClientGen.
From S2P Require Import SpanreedCodec HelloCodec Log ClientStore Proxy GoMessages Connection ConnectionTheorems.
From S2P Require Import Router.
#[local] Open Scope Z_scope.

Lemma go_bytes_byte s : Forall is_byte (go_bytes s).
Proof.
  unfold go_bytes. apply Forall_map, Forall_true. intros a. unfold is_byte.
  pose proof (Ascii.N_ascii_bounded a). lia.
Qed.

Section with_fb.
#[local] Set Default Proof Using "Type*".
Context {FB : FlatBuffers} {FL : FlatBuffersLaws FB}.

(** ** Reading with the Go accessors *)
Lemma GetRootAs_root buf : GetRootAs buf = root_table false (new_ByteBuffer (u8_of_buffer buf)).
Proof. unfold GetRootAs, root_table, GetUOffsetT. by rewrite law_position. Qed.

Lemma go_ConnectionString t s data :
  reads_ConnectClientMessage t s data -> ConnectClientMessage_ConnectionString t = Ret s.
Proof.
  intros [Hs _]. specialize (Hs (Some UTF8_BYTES)).
  unfold ConnectClientMessage.connectionString in Hs. unfold ConnectClientMessage_ConnectionString, ByteVector_string.
  destruct (deref t) as [b|]; simpl in *. 2: done. injection Hs as Hs. destruct (truthy _), s; try discriminate Hs; [|reflexivity].
  injection Hs as Hs. by rewrite Hs.
Qed.

Lemma go_AppDataBytes t s data :
  reads_ConnectClientMessage t s data -> ConnectClientMessage_AppDataBytes t = Ret data.
Proof.
  intros (_ & _ & _ & r & Hr & Hb & _).
  unfold ConnectClientMessage.appDataArray in Hr. unfold ConnectClientMessage_AppDataBytes, ByteVector.
  destruct (deref t) as [b|]; simpl in *; [|done]. destruct (truthy _); simplify_eq; [|done].
  destruct (u8_view _ _ _); simpl in *; simplify_eq; done.
Qed.

Lemma decodes_go_root u root P :
  u8_wf u -> root = root_table false -> decodes u root P -> P (GetRootAs (u8_bytes u)).
Proof.
  intros Hwf -> Hdec. rewrite GetRootAs_root. apply Hdec; [|apply u8_of_buffer_bytes].
  apply u8_of_buffer_wf. by apply Forall_take, Forall_drop, Hwf.
Qed.

(** What the router makes of the client's payload. *)
Lemma handshake_parsed malformed backendAddress userName :
  sendable backendAddress -> sendable userName ->
  exists packet app, connect_payload backendAddress userName = Ret packet /\ u8_wf packet /\ u8_wf app /\
    zlen (u8_bytes app) <= 2 ^ 20 + 200 /\
    decodes app (fun b => ClientMessage.getRootAsClientMessage b None) (fun m =>
      exists c, client_message m = Ret (Some (UserMessageUnion.AUserConnectMessage c)) /\
        UserConnectMessage.name c None = Ret (Some (Str userName))) /\
    (malformed (u8_bytes packet) = false ->
     safeParseConnectClientMessage malformed (u8_bytes packet) = Some (Some (text_encode backendAddress), Some (u8_bytes app))).
Proof.
  intros Hb Hu. destruct (connect_payload_reads _ _ Hb Hu) as (u & app & Hrun & Hwf & Hwfa & Hlen & Hdec & Happ).
  exists u, app. split_and!; try done.
  { intros u' Hwf' Hbytes. by apply (reads_connect_name _ _ Hu), Happ. }
  intros Hm. apply (decodes_go_root _ _ _ Hwf eq_refl) in Hdec.
  unfold safeParseConnectClientMessage, GetRootAsConnectClientMessage.
  by rewrite Hm, (go_ConnectionString _ _ _ Hdec), (go_AppDataBytes _ _ _ Hdec).
Qed.

(** The first packet of the TypeScript client makes the Go router ask the hub for a connection with the
    backend address the user chose, and with application data in which the backend finds the user name. *)
Theorem client_handshake_opens malformed backendAddress userName :
  sendable backendAddress -> sendable userName ->
  exists packet app, connect_payload backendAddress userName = Ret packet /\
    decodes app (fun b => ClientMessage.getRootAsClientMessage b None) (fun m =>
      exists c, client_message m = Ret (Some (UserMessageUnion.AUserConnectMessage c)) /\
        UserConnectMessage.name c None = Ret (Some (Str userName))) /\
    forall inQ outQ locked known now c rest,
      malformed (u8_bytes packet) = false -> ph c = AwaitAuth -> incomingPackets c = u8_bytes packet :: rest ->
      conn_step malformed inQ outQ locked known (OnPacket now) c =
        Some (set_phase AwaitVerdict (tell_hub
          (Open (mkOpen (conn_id c) now 0 (go_string (text_encode backendAddress)) (Some (u8_bytes app))))
          (set_incoming rest c))).
Proof.
  intros Hb Hu. destruct (handshake_parsed malformed _ _ Hb Hu) as (u & app & Hrun & _ & _ & _ & Happ & Hparse).
  exists u, app. split_and!; [done | done |]. intros inQ outQ locked known now c rest Hm Hph Hip.
  simpl. rewrite Hph, Hip. by rewrite (Hparse Hm).
Qed.

(** ** Verdicts *)

(** Finishing a buffer, for the Go builders. *)
Lemma finish_bytes_bounded b l root P :
  Rep b l -> ready l 32 -> shown l root P ->
  wp (u ← finish_bytes root false; mret (u8_bytes u)) b (fun bs _ =>
    (Forall is_byte bs /\ decodes (u8_of_buffer bs) (root_table false) P) /\ zlen bs <= used l + 32).
Proof.
  intros HR Hrd SO. apply wp_bind. eapply wp_mono; [by eapply (finish_shown b l root false _ HR)|].
  intros u b' (Hwf & Hlen & Hdec). apply wp_ret.
  assert (Hbytes : Forall is_byte (u8_bytes u)) by (by apply Forall_take, Forall_drop, Hwf).
  split_and!; [done | |].
  - intros u' Hwf' Hu'. apply Hdec; [done|]. by rewrite Hu', u8_of_buffer_bytes.
  - destruct Hwf as (? & ? & ? & _). unfold u8_bytes. rewrite zlen_zslice; lia.
Qed.

Lemma finish_go_bytes b l root P :
  Rep b l -> ready l 32 -> shown l root P ->
  wp (u ← finish_bytes root false; mret (u8_bytes u)) b (fun bs _ =>
    Forall is_byte bs /\ decodes (u8_of_buffer bs) (root_table false) P).
Proof. intros HR Hrd SO. eapply wp_mono; [by eapply finish_bytes_bounded|]. by intros bs b' [H _]. Qed.

(** The table of a verdict: the optional fields are left out rather than added as null. *)
Definition verdict_adds (accepted hasReason hasData : bool) (pR pD : Z) : list add :=
  AddInt8 0 (bool_number accepted) (bool_number false) ::
  (if hasReason then [AddOffset 1 pR 0] else []) ++ (if hasData then [AddOffset 2 pD 0] else []).

Lemma createVerdictMsg_steps accepted reason data :
  createVerdictMsg accepted reason data =
  fst ((pD ← opt_vector createByteVector data;
        pR ← opt_string (if bool_decide (reason = []) then None else Some (Utf8 reason));
        o ← create_table 3 (verdict_adds accepted (negb (bool_decide (reason = []))) (bool_decide (is_Some data)) pR pD);
        u ← finish_bytes o false; mret (u8_bytes u)) (new_Builder 64)).
Proof.
  unfold createVerdictMsg, create_table, verdict_adds, finish_bytes, opt_vector, opt_string, CreateByteVector,
    NewBuilder, CreateString, ConnectClientVerdictStart, StartObject, ConnectClientVerdictAddAccepted, PrependBoolSlot,
    ConnectClientVerdictAddErrorReason, ConnectClientVerdictAddAppData, PrependUOffsetTSlot, ConnectClientVerdictEnd,
    EndObject, Finish, FinishedBytes.
  destruct data as [bs|]; [rewrite (bool_decide_true (is_Some (Some bs))) by eauto
                         | rewrite (bool_decide_false (is_Some None)) by apply is_Some_None];
    (destruct (bool_decide (reason = [])); cbn [negb app run_adds run_add]; unfold mbind, stm_bind, mret, stm_ret;
     repeat case_match; simplify_eq; reflexivity).
Qed.

Lemma verdict_adds_reason a hr hd pR pD :
  (hr = false -> pR = 0) -> table_fields (verdict_adds a hr hd pR pD) !! 1 = stored (negb (pR =? 0)) (FOff pR).
Proof.
  intros H. unfold verdict_adds. destruct hr, hd; cbn [app]; try (rewrite H by done); cbn [Z.eqb negb stored]; table_field.
Qed.

Lemma verdict_adds_data a hr hd pR pD :
  (hd = false -> pD = 0) -> table_fields (verdict_adds a hr hd pR pD) !! 2 = stored (negb (pD =? 0)) (FOff pD).
Proof.
  intros H. unfold verdict_adds. destruct hr, hd; cbn [app]; try (rewrite H by done); cbn [Z.eqb negb stored]; table_field.
Qed.

Lemma createVerdictMsg_spec accepted reason data :
  Forall is_byte reason -> Forall is_byte (default [] data) ->
  zlen reason + zlen (default [] data) + 200 <= fb_limit ->
  exists bs, createVerdictMsg accepted reason data = Ret bs /\ Forall is_byte bs /\
    decodes (u8_of_buffer bs) (fun b => ConnectClientVerdict.getRootAsConnectClientVerdict b None) (fun t =>
      reads_ConnectClientVerdict t accepted (if bool_decide (reason = []) then None else Some reason) data).
Proof.
  intros Hr Hd Hsz. rewrite createVerdictMsg_steps.
  set (mr := if bool_decide (reason = []) then None else Some (Utf8 reason)).
  assert (Hmr : (if bool_decide (reason = []) then None else Some reason) = text_bytes <$> mr)
    by (unfold mr; by case_bool_decide).
  assert (Hb : default [] (text_bytes <$> mr) = reason) by (unfold mr; by case_bool_decide).
  rewrite Hmr. pose proof (Rep_new 64 eq_refl) as HR. pose proof (zlen_nonneg reason).
  pose proof (zlen_nonneg (default [] data)).
  match goal with |- exists bs, fst (?m _) = _ /\ _ => set (prog := m) end.
  enough (wp prog (new_Builder 64) (fun bs _ => Forall is_byte bs /\
    decodes (u8_of_buffer bs) (fun b => ConnectClientVerdict.getRootAsConnectClientVerdict b None) (fun t =>
      reads_ConnectClientVerdict t accepted (text_bytes <$> mr) data))) as (bs & b' & Hrun & ?)%wp_run.
  { exists bs. by rewrite Hrun. }
  unfold prog. apply wp_bind.
  eapply opt_vector_spec; [intros; by eapply createByteVector_spec | done | | done | apply Z.le_refl |]; [fb_arith|].
  intros pD b1 l1 HR1 G1 OD. apply wp_bind.
  eapply opt_string_spec; [done | | by rewrite Hb | apply Z.le_refl |]; [rewrite Hb; fb_arith|]. rewrite Hb.
  intros pR b2 l2 HR2 G2 OR. apply wp_bind. apply (off_is_grows _ _ _ _ _ G2) in OD.
  eapply (table_shown b2 l2 3 _ 64 (fun t => reads_ConnectClientVerdict t accepted (text_bytes <$> mr) data));
    [done | fb_arith | by destruct (negb _), (bool_decide (is_Some data)) | | | |].
  - unfold verdict_adds. apply Forall_cons; [done|]. apply Forall_app.
    destruct (negb _), (bool_decide (is_Some data)); split; adds_ok.
  - by destruct (negb _), (bool_decide (is_Some data)).
  - intros os o t Hsub Hs Ho. unfold reads_ConnectClientVerdict. split_and!.
    + eapply (acc_bool os o t _ 0 Hs Ho); [lia|]. unfold verdict_adds.
      destruct (negb _), (bool_decide (is_Some data)); simpl app; table_field.
    + intros enc. eapply (acc_text os o t _ 1 Hs Ho); [lia| |eauto with fbgrow].
      apply verdict_adds_reason. unfold mr in OR. intros Hn%negb_false_iff. by rewrite Hn in OR.
    + eapply (acc_bytes os o t _ 2 _ _ Hs Ho); [lia| |eauto with fbgrow].
      apply verdict_adds_data. destruct data; [|done]. intros Hn%bool_decide_eq_false. by destruct Hn.
  - intros o b3 l3 HR3 G3 SO. eapply finish_go_bytes; [done | fb_arith | exact SO].
Qed.

Lemma verdict_reason_byte v reason : verdict_reason v = Some reason -> Forall is_byte reason.
Proof.
  unfold verdict_reason. destruct (verdict_Error v) as [e|]; [|by intros [= <-]].
  destruct (error_text e); simpl; intros; simplify_eq. apply go_bytes_byte.
Qed.

(** C24: When the hub's verdict reaches a waiting connection, the client is sent one packet, which the TypeScript client reads
    as that verdict, with the text of the error when it has one; an accepted connection goes on, a refused one
    ends and the transport is asked to close. *)
Theorem verdict_reaches_client malformed inQ outQ locked known v rest reason c :
  verdict_reason v = Some reason -> Forall is_byte (default [] (verdict_AppData v)) ->
  zlen reason + zlen (default [] (verdict_AppData v)) + 200 <= fb_limit ->
  ph c = Router.AwaitVerdict -> verdict c = v :: rest -> zlen (outgoingPackets c) < outQ -> proxyClose c = 0 ->
  exists bs c', conn_step malformed inQ outQ locked known OnVerdict c = Some c' /\
    outgoingPackets c' = outgoingPackets c ++ [Some bs] /\
    read_verdict (u8_of_buffer bs) = Ret (if Verdict v then None
      else Some (if bool_decide (reason = []) then js "<unknown reason>" else text_decode reason)) /\
    ph c' = (if Verdict v then Router.Accepted else Ended) /\ proxyClose c' = (if Verdict v then 0 else 1).
Proof.
  intros Hr Hd Hsz Hph Hv Hroom Hpc.
  destruct (createVerdictMsg_spec (Verdict v) reason (verdict_AppData v)) as (bs & Hrun & Hb & Hdec);
    [by eapply verdict_reason_byte | done | done |].
  exists bs. simpl. rewrite Hph, Hv, Hr. simpl. unfold push_verdict, push_packet. rewrite Hrun. simpl.
  rewrite (proj2 (Z.ltb_lt _ _) Hroom). simpl.
  assert (Hread : read_verdict (u8_of_buffer bs) = Ret (if Verdict v then None
      else Some (if bool_decide (reason = []) then js "<unknown reason>" else text_decode reason))).
  { erewrite read_verdict_reads; [|apply Hdec; [by apply u8_of_buffer_wf | done]]. by case_bool_decide. }
  destruct (Verdict v); simpl; [by eexists|].
  unfold push_proxyClose. simpl. rewrite Hpc. simpl. by eexists.
Qed.
End with_fb.

Lemma client_handshake_opens_witness : exists packet app,
  connect_payload (FB := FbRef) sample_backend sample_user = Ret packet /\
  conn_step (FB := FbRef) (fun _ => false) 16 16 false true (OnPacket 5) (set_incoming [u8_bytes packet] (new_conn 1)) =
    Some (set_phase Router.AwaitVerdict (tell_hub (Open (mkOpen 1 5 0 (go_string (text_encode sample_backend)) (Some app)))
      (set_incoming [] (new_conn 1)))).
Proof.
  destruct (client_handshake_opens (FL := FbRefLaws) (fun _ => false) sample_backend sample_user)
    as (packet & app & Hp & _ & Hs); [apply sample_sendable | apply sample_sendable |].
  exists packet, (u8_bytes app). split; [exact Hp|].
  exact (Hs 16 16 false true 5 (set_incoming [u8_bytes packet] (new_conn 1)) [] eq_refl eq_refl eq_refl).
Defined.

Lemma verdict_reaches_client_witness :
  let v := mkVerdict 1 false (Some AuthTimeout) None in
  let c := set_verdict [v] (set_phase Router.AwaitVerdict (new_conn 1)) in
  exists bs c', conn_step (FB := FbRef) (fun _ => false) 16 16 false true OnVerdict c = Some c' /\
    outgoingPackets c' = [Some bs] /\ read_verdict (FB := FbRef) (u8_of_buffer bs) = Ret (Some (js "Auth timeout")) /\
    ph c' = Ended /\ proxyClose c' = 1.
Proof.
  exact (verdict_reaches_client (FL := FbRefLaws) (fun _ => false) 16 16 false true
    (mkVerdict 1 false (Some AuthTimeout) None) [] (go_bytes "Auth timeout")
    (set_verdict [mkVerdict 1 false (Some AuthTimeout) None] (set_phase Router.AwaitVerdict (new_conn 1)))
    eq_refl (Forall_nil_2 _) ltac:(vm_compute; discriminate) eq_refl eq_refl eq_refl eq_refl).
Defined.
