(* ===== verification/UdpDestination.v ===== *)
(** * The UDP destination ([pkg/transport/udp_destination.go], [pkg/util/strutils.go])

    One goroutine takes the hub's commands, one the datagrams of the
    destinations, one writes queued datagrams, and one waits for the shutdown.
    Each turn of a goroutine is a function on the handler's state and a
    constructor of [event]; a run is a sequence of events in any order. What
    goes to the hub's channels is recorded in order. A Go panic that nothing
    recovers ends the process: it is [Throw]. *)

From S2P Require Import Prelude JsPlatform FlatBuffers SpanreedMessages ClientStore Proxy GoMessages Router.
From stdpp Require Import gmap.
#[local] Open Scope Z_scope.

(** ** Strings *)
Inductive panic : Type :=
| SliceOutOfRange
| RuntimePanic (e : exn).         (** in the flatbuffers runtime *)

(** [s[0:n]] *)
Definition go_prefix (n : Z) (s : string) : outcome panic string :=
  if n <=? Z.of_nat (String.length s) then Ret (String.substring 0 (Z.to_nat n) s) else Throw SliceOutOfRange.

(** [s[n:]], for [n] within the string. *)
Definition go_suffix (n : Z) (s : string) : string :=
  String.substring (Z.to_nat n) (String.length s - Z.to_nat n) s.

Fixpoint Contains (s : string) (list : list string) : bool :=
  match list with
  | [] => false
  | c :: list => if bool_decide (c = s) then true else Contains s list
  end.

Definition isDestinationAllowed (allowAll : bool) (allowlist denylist : list string) (destination : string) : bool :=
  if Contains destination denylist then false
  else if allowAll then true
  else Contains destination allowlist.

Definition DefaultUdpDestinationHandlerMatchConnectionStringFn (connStr : string) : outcome panic bool :=
  p ← go_prefix 4 connStr; Ret (bool_decide (p = "udp:")).

Definition defaultHostResolution (connStr : string) : outcome panic (sum error string) :=
  p ← go_prefix 4 connStr;
  Ret (if bool_decide (p <> "udp:") then inl (OtherError "not a UDP connection string") else inr (go_suffix 4 connStr)).

Definition or_panic {A} (x : outcome exn A) : outcome panic A :=
  match x with Ret a => Ret a | Throw e => Throw (RuntimePanic e) end.

Section with_fb.
Context `{FB : FlatBuffers}.
(** A [*net.UDPAddr], and [net.ResolveUDPAddr] with its error. *)
Context {Addr : Type} (ResolveUDPAddr : string -> sum error Addr).
(** Whether the runtime panics on reading the root of a payload, or on reading the rest of it. *)
Context (bad_root bad_body : list Z -> bool).

(** ** Datagrams *)

(** Each handler builds its message in place; what they share is the end. *)
Definition finish_destination_message (kind inner_msg : Z) (appData : slice) (appDataLoc : Z) : stm Builder exn (list Z) :=
  ProxyDestinationMessageStart ≫= fun _ =>
  ProxyDestinationMessageAddInnerMessageType kind ≫= fun _ =>
  ProxyDestinationMessageAddInnerMessage inner_msg ≫= fun _ =>
  (match appData with Some _ => ProxyDestinationMessageAddAppData appDataLoc | None => mret tt end) ≫= fun _ =>
  cmsg ← ProxyDestinationMessageEnd;
  Finish cmsg ≫= fun _ =>
  FinishedBytes.

Definition connection_request (ClientId : Z) (AppData : slice) : outcome exn (list Z) :=
  fst ((ProxyDestConnectionRequestStart ≫= fun _ =>
        ProxyDestConnectionRequestAddClientId ClientId ≫= fun _ =>
        inner_msg ← ProxyDestConnectionRequestEnd;
        appDataLoc ← match AppData with Some bs => CreateByteVector bs | None => mret 0 end;
        finish_destination_message ProxyDestInnerMsgProxyDestConnectionRequest inner_msg AppData appDataLoc)
       (NewBuilder (64 + zlen (default [] AppData)))).

Definition client_message (ClientId : Z) (Data : slice) : outcome exn (list Z) :=
  fst ((ProxyDestClientMessageStart ≫= fun _ =>
        ProxyDestClientMessageAddClientId ClientId ≫= fun _ =>
        inner_msg ← ProxyDestClientMessageEnd;
        appDataLoc ← match Data with Some bs => CreateByteVector bs | None => mret 0 end;
        finish_destination_message ProxyDestInnerMsgProxyDestClientMessage inner_msg Data appDataLoc)
       (NewBuilder (64 + zlen (default [] Data)))).

Definition close_connection (ClientId : Z) : outcome exn (list Z) :=
  fst ((ProxyDestCloseConnectionStart ≫= fun _ =>
        ProxyDestCloseConnectionAddClientId ClientId ≫= fun _ =>
        inner_msg ← ProxyDestCloseConnectionEnd;
        finish_destination_message ProxyDestInnerMsgProxyDestCloseConnection inner_msg None 0)
       (NewBuilder 64)).

(** ** State *)
Record UdpSpanreedDestinationParams : Type := mkParams {
  AllowAllDestinations : bool;
  AllowlistedDestinations : list string;
  DenylistedDestinations : list string;
  ResolveUdpHost : option (string -> outcome panic (sum error string))
}.

Definition outgoingMessage : Type := Addr * list Z.

(** What goes to the hub: on [OpenClientVerdictChannel], [IncomingMessageChannel] and [DestinationCloseRequests]. *)
Inductive from_destination : Type :=
| DestVerdict (v : OpenClientConnectionVerdict)
| DestMessage (m : routed)
| DestCloseRequest (clientId : Z) (reason : string) (appData : slice).

Record udpSpanreedDestination : Type := mkUdp {
  params : UdpSpanreedDestinationParams;
  resolveUdpHost : string -> outcome panic (sum error string);
  destinationConnections : gmap Z Addr;
  outgoingMessages : list outgoingMessage;
  datagrams : list outgoingMessage;              (** written to the socket *)
  toHub : list from_destination;
  closed : bool                                  (** the shutdown has closed the socket *)
}.

Definition CreateUdpDestinationHandler (p : UdpSpanreedDestinationParams) : udpSpanreedDestination :=
  mkUdp p (default defaultHostResolution (ResolveUdpHost p)) ∅ [] [] [] false.

Definition set_connections (m : gmap Z Addr) (s : udpSpanreedDestination) : udpSpanreedDestination :=
  mkUdp (params s) (resolveUdpHost s) m (outgoingMessages s) (datagrams s) (toHub s) (closed s).
Definition enqueue (m : outgoingMessage) (s : udpSpanreedDestination) : udpSpanreedDestination :=
  mkUdp (params s) (resolveUdpHost s) (destinationConnections s) (outgoingMessages s ++ [m]) (datagrams s) (toHub s) (closed s).
(** [conn.WriteToUDP]: it fails on a closed socket, and the error is not looked at. *)
Definition write (m : outgoingMessage) (s : udpSpanreedDestination) : udpSpanreedDestination :=
  if closed s then s
  else mkUdp (params s) (resolveUdpHost s) (destinationConnections s) (outgoingMessages s) (datagrams s ++ [m]) (toHub s) (closed s).
Definition tell_hub (x : from_destination) (s : udpSpanreedDestination) : udpSpanreedDestination :=
  mkUdp (params s) (resolveUdpHost s) (destinationConnections s) (outgoingMessages s) (datagrams s) (toHub s ++ [x]) (closed s).
Definition set_outgoing (q : list outgoingMessage) (s : udpSpanreedDestination) : udpSpanreedDestination :=
  mkUdp (params s) (resolveUdpHost s) (destinationConnections s) q (datagrams s) (toHub s) (closed s).
Definition set_closed (s : udpSpanreedDestination) : udpSpanreedDestination :=
  mkUdp (params s) (resolveUdpHost s) (destinationConnections s) (outgoingMessages s) (datagrams s) (toHub s) true.

(** ** Commands of the hub *)
Definition allowed (s : udpSpanreedDestination) (udpHost : string) : bool :=
  isDestinationAllowed (AllowAllDestinations (params s)) (AllowlistedDestinations (params s))
    (DenylistedDestinations (params s)) udpHost.

Definition onConnectClient (outgoingMsg : OpenClientConnectionCommand) (s : udpSpanreedDestination) :
    outcome panic (option error * udpSpanreedDestination) :=
  r ← resolveUdpHost s (ConnectionString outgoingMsg);
  match r with
  | inl udpHostErr => Ret (Some udpHostErr, s)
  | inr udpHost =>
      if negb (allowed s udpHost) then Ret (Some (OtherError "cannot connect to denied destination"), s)
      else
        match ResolveUDPAddr udpHost with
        | inl udpAddrErr => Ret (Some udpAddrErr, s)
        | inr udpAddr =>
            let s := set_connections (<[open_ClientId outgoingMsg := udpAddr]> (destinationConnections s)) s in
            buf ← or_panic (connection_request (open_ClientId outgoingMsg) (open_AppData outgoingMsg));
            Ret (None, enqueue (udpAddr, buf) s)
        end
  end.

Definition onClientMessage (msg : routed) (s : udpSpanreedDestination) : outcome panic udpSpanreedDestination :=
  match destinationConnections s !! msg_ClientId msg with
  | None => Ret s
  | Some addr =>
      buf ← or_panic (client_message (msg_ClientId msg) (Data msg));
      Ret (enqueue (addr, buf) s)
  end.

Definition onProxyRequestClose (ClientId : Z) (s : udpSpanreedDestination) : outcome panic udpSpanreedDestination :=
  match destinationConnections s !! ClientId with
  | None => Ret s
  | Some addr =>
      buf ← or_panic (close_connection ClientId);
      Ret (set_connections (delete ClientId (destinationConnections s)) (enqueue (addr, buf) s))
  end.

(** A request that cannot be met is answered with a refusal. *)
Definition onOpenRequest (c : OpenClientConnectionCommand) (s : udpSpanreedDestination) : outcome panic udpSpanreedDestination :=
  '(err, s) ← onConnectClient c s;
  Ret (match err with
       | Some err => tell_hub (DestVerdict (mkVerdict (open_ClientId c) false (Some err) None)) s
       | None => s
       end).

(** ** Datagrams of a destination

    [payload] and [rawMsg] are the bytes that were read, at most [read_buffer] of them ([step]). *)
Definition registered (clientId : Z) (s : udpSpanreedDestination) : bool :=
  bool_decide (is_Some (destinationConnections s !! clientId)).

Definition onReceiveVerdict (msg : table) (appData : slice) (s : udpSpanreedDestination) : outcome exn udpSpanreedDestination :=
  clientId ← ConnectionVerdict_ClientId msg;
  accepted ← ConnectionVerdict_Accepted msg;
  Ret (if registered clientId s then tell_hub (DestVerdict (mkVerdict clientId accepted None appData)) s else s).

Definition onReceiveProxyMessage (now : Z) (msg : table) (appData : slice) (s : udpSpanreedDestination) :
    outcome exn udpSpanreedDestination :=
  clientId ← ProxyMessage_ClientId msg;
  Ret (if registered clientId s then tell_hub (DestMessage (mkRouted clientId now 0 appData)) s else s).

Definition onReceiveCloseRequest (msg : table) (appData : slice) (s : udpSpanreedDestination) :
    outcome exn udpSpanreedDestination :=
  clientId ← CloseConnection_ClientId msg;
  if registered clientId s then
    reason ← CloseConnection_Reason msg;
    Ret (tell_hub (DestCloseRequest clientId (go_string (default [] reason)) appData) s)
  else Ret s.

(** The parse error of a recovered panic is [None]. *)
Definition safeParseDestinationMessage (payload : list Z) : option table :=
  if bad_root payload then None else Some (GetRootAsDestinationMessage payload).

(** [ut] is a fresh table. *)
Definition on_datagram (now : Z) (rawMsg : list Z) (s : udpSpanreedDestination) : outcome panic udpSpanreedDestination :=
  match safeParseDestinationMessage rawMsg with
  | None => Ret s
  | Some parsedMsg =>
      if bad_body rawMsg then Throw (RuntimePanic RangeError)
      else or_panic (
        ut ← DestinationMessage_Msg parsedMsg (mkTable None 0);
        match ut with
        | None => Ret s
        | Some ut =>
            t ← DestinationMessage_MsgType parsedMsg;
            if t =? InnerMsgConnectionVerdict then
              d ← DestinationMessage_AppDataBytes parsedMsg; onReceiveVerdict ut d s
            else if t =? InnerMsgProxyMessage then
              d ← DestinationMessage_AppDataBytes parsedMsg; onReceiveProxyMessage now ut d s
            else if t =? InnerMsgCloseConnection then
              d ← DestinationMessage_AppDataBytes parsedMsg; onReceiveCloseRequest ut d s
            else Ret s
        end)
  end.

(** ** [Start] *)

(** The shutdown: every connected client's destination is told, in the order of the map's iteration. *)
Fixpoint close_all (ids : list Z) (s : udpSpanreedDestination) : outcome panic udpSpanreedDestination :=
  match ids with
  | [] => Ret (set_closed s)
  | clientId :: ids =>
      match destinationConnections s !! clientId with
      | None => close_all ids s
      | Some addr =>
          buf ← or_panic (close_connection clientId);
          close_all ids (set_connections (delete clientId (destinationConnections s)) (write (addr, buf) s))
      end
  end.

(** The buffer that a datagram is read into; what is longer is cut (Windows also reports [WSAEMSGSIZE], which is only logged). *)
Definition read_buffer : nat := 2048.

Inductive event : Type :=
| Opening (c : OpenClientConnectionCommand)
| Message (m : routed)
| Closing (clientId : Z)
| Datagram (now : Z) (payload : list Z)
| Send                                  (** the sending goroutine takes a message off the queue *)
| Shutdown (order : list Z).            (** with the iteration order of the clients *)

Definition step (ev : event) (s : udpSpanreedDestination) : outcome panic udpSpanreedDestination :=
  match ev with
  | Opening c => onOpenRequest c s
  | Message m => onClientMessage m s
  | Closing clientId => onProxyRequestClose clientId s
  | Datagram now payload => on_datagram now (take read_buffer payload) s
  | Send =>
      match outgoingMessages s with
      | [] => Ret s
      | m :: rest => Ret (write m (set_outgoing rest s))
      end
  | Shutdown order => close_all order s
  end.

Fixpoint run (evs : list event) (s : udpSpanreedDestination) : outcome panic udpSpanreedDestination :=
  match evs with
  | [] => Ret s
  | ev :: evs => s ← step ev s; run evs s
  end.
End with_fb.
