(* ===== verification/UdpTheorems.v ===== *)
(** * Correctness of the UDP destination

    Datagrams go to permitted destinations only and carry what the hub sent;
    datagrams of a destination reach the hub with their content. *)

From S2P Require Import Prelude JsPlatform FlatBuffers FbTables FbReference SpanreedMessages SpanreedCodec.
From S2P Require Import ClientStore Proxy GoMessages Router HandshakeTheorems UdpDestination.
From stdpp Require Import gmap.
#[local] Open Scope Z_scope.

Lemma Contains_spec s l : Contains s l = true <-> s ∈ l.
Proof.
  induction l as [|c l IH]; simpl; [set_solver|]. rewrite list_elem_of_In in *. simpl. rewrite <- IH.
  case_bool_decide; naive_solver.
Qed.

Lemma substring_all b : String.substring 0 (String.length b) b = b.
Proof. induction b as [|x b IH]; simpl; [done|]. by rewrite IH. Qed.

Lemma go_prefix_udp host : go_prefix 4 ("udp:" +:+ host) = Ret "udp:"%string.
Proof.
  unfold go_prefix. change (String.length ("udp:" +:+ host)) with (4 + String.length host)%nat.
  rewrite (proj2 (Z.leb_le 4 _)) by (rewrite Nat2Z.inj_add; pose proof (Nat2Z.is_nonneg (String.length host));
    change (Z.of_nat 4) with 4; lia).
  simpl. by destruct host.
Qed.

Lemma connection_string_matches host :
  DefaultUdpDestinationHandlerMatchConnectionStringFn ("udp:" +:+ host) = Ret true.
Proof. unfold DefaultUdpDestinationHandlerMatchConnectionStringFn. by rewrite go_prefix_udp. Qed.

Lemma host_resolved host : defaultHostResolution ("udp:" +:+ host) = Ret (inr host).
Proof.
  unfold defaultHostResolution. rewrite go_prefix_udp. simpl. unfold go_suffix. simpl.
  by rewrite Nat.sub_0_r, substring_all.
Qed.

(** Connection strings: after the prefix udp: comes the host; another string of at least four bytes is refused with an
    error; a shorter one makes both functions slice past its end and panic. *)
Theorem connection_strings host s :
  DefaultUdpDestinationHandlerMatchConnectionStringFn ("udp:" +:+ host) = Ret true /\
  defaultHostResolution ("udp:" +:+ host) = Ret (inr host) /\
  ((4 <= String.length s)%nat -> String.substring 0 4 s <> "udp:"%string ->
     DefaultUdpDestinationHandlerMatchConnectionStringFn s = Ret false /\
     defaultHostResolution s = Ret (inl (OtherError "not a UDP connection string"))) /\
  ((String.length s < 4)%nat ->
     DefaultUdpDestinationHandlerMatchConnectionStringFn s = Throw SliceOutOfRange /\
     defaultHostResolution s = Throw SliceOutOfRange).
Proof.
  split_and!; [apply connection_string_matches | apply host_resolved | |];
    unfold DefaultUdpDestinationHandlerMatchConnectionStringFn, defaultHostResolution, go_prefix.
  - intros Hl Hne. rewrite (proj2 (Z.leb_le 4 _)) by lia. simpl. change (Pos.to_nat 4) with 4%nat.
    by rewrite bool_decide_false, bool_decide_true by done.
  - intros Hl. by rewrite (proj2 (Z.leb_gt 4 _)) by lia.
Qed.

Section datagrams.
#[local] Set Default Proof Using "Type*".
Context {FB : FlatBuffers} {FL : FlatBuffersLaws FB}.

(** ** Datagrams read back *)
Definition dest_adds (m : proxy_inner) (hasData : bool) (pM pD : Z) : list add :=
  [AddInt8 0 (ProxyDestInnerMsg.to_number (proxy_type m)) 0; AddOffset 1 pM 0] ++
  (if hasData then [AddOffset 2 pD 0] else []).

(** The three handlers build their datagram by the same steps. *)
Definition datagram_steps (m : proxy_inner) (id : Z) (data : slice) : stm Builder exn (list Z) :=
  pM ← create_table 1 [AddInt32 0 id 0];
  pD ← opt_vector createByteVector data;
  o ← create_table 3 (dest_adds m (bool_decide (is_Some data)) pM pD);
  u ← finish_bytes o false; mret (u8_bytes u).

Ltac go_steps :=
  unfold connection_request, client_message, close_connection, finish_destination_message, datagram_steps,
    ProxyDestConnectionRequestStart, ProxyDestConnectionRequestAddClientId, ProxyDestConnectionRequestEnd,
    ProxyDestClientMessageStart, ProxyDestClientMessageAddClientId, ProxyDestClientMessageEnd,
    ProxyDestCloseConnectionStart, ProxyDestCloseConnectionAddClientId, ProxyDestCloseConnectionEnd,
    ProxyDestinationMessageStart, ProxyDestinationMessageAddInnerMessageType, ProxyDestinationMessageAddInnerMessage,
    ProxyDestinationMessageAddAppData, ProxyDestinationMessageEnd, StartObject, EndObject, PrependUint32Slot,
    PrependByteSlot, PrependUOffsetTSlot, CreateByteVector, NewBuilder, Finish, FinishedBytes, create_table, dest_adds,
    finish_bytes, opt_vector, ProxyDestInnerMsgProxyDestConnectionRequest, ProxyDestInnerMsgProxyDestClientMessage,
    ProxyDestInnerMsgProxyDestCloseConnection;
  cbn [app run_adds run_add proxy_type ProxyDestInnerMsg.to_number];
  unfold mbind, stm_bind, mret, stm_ret; repeat case_match; simplify_eq; reflexivity.

Lemma connection_request_steps id data :
  connection_request id data =
  fst (datagram_steps (PConnectionRequest id) id data (new_Builder (64 + zlen (default [] data)))).
Proof. unfold datagram_steps. destruct data; [rewrite bool_decide_true by eauto | rewrite bool_decide_false by apply is_Some_None]; go_steps. Qed.

Lemma client_message_steps id data :
  client_message id data = fst (datagram_steps (PClientMessage id) id data (new_Builder (64 + zlen (default [] data)))).
Proof. unfold datagram_steps. destruct data; [rewrite bool_decide_true by eauto | rewrite bool_decide_false by apply is_Some_None]; go_steps. Qed.

Lemma close_connection_steps id : close_connection id = fst (datagram_steps (PCloseConnection id) id None (new_Builder 64)).
Proof. unfold datagram_steps. rewrite bool_decide_false by apply is_Some_None. go_steps. Qed.

Definition inner_id (m : proxy_inner) : option Z :=
  match m with PNone => None | PConnectionRequest id | PClientMessage id | PCloseConnection id => Some id end.

Lemma dest_adds_data m hd pM pD :
  (hd = false -> pD = 0) -> table_fields (dest_adds m hd pM pD) !! 2 = stored (negb (pD =? 0)) (FOff pD).
Proof.
  intros H. unfold dest_adds. destruct hd; cbn [app]; [table_field|]. rewrite H by done.
  cbn [Z.eqb negb stored]. table_field.
Qed.

Definition carries (bs : list Z) (m : proxy_inner) (data : slice) : Prop :=
  Forall is_byte bs /\
  decodes (u8_of_buffer bs) (fun b => ProxyDestinationMessage.getRootAsProxyDestinationMessage b None) (fun t =>
    reads_ProxyDestinationMessage t m data).

Lemma datagram_steps_spec m id data n :
  0 < n -> inner_id m = Some id -> is_uint32 id -> Forall is_byte (default [] data) ->
  zlen (default [] data) + 200 <= fb_limit ->
  wp (datagram_steps m id data) (new_Builder n) (fun bs _ => carries bs m data /\ zlen bs <= zlen (default [] data) + 200).
Proof.
  intros Hn Hm Hid Hd Hsz. pose proof (Rep_new n Hn) as HR. pose proof (zlen_nonneg (default [] data)).
  assert (exists P, reads_proxy_inner m = Some P /\ forall t, (this_bb ← deref t;
              let offset := __offset this_bb (bb_pos t) 4 in
              Ret (if truthy offset then readUint32 this_bb (bb_pos t + offset) else 0)) = Ret id -> P t) as (P & HP & HPt).
  { destruct m; simpl in Hm; simplify_eq; eexists; (split; [reflexivity|]); auto. }
  apply wp_bind. eapply (client_id_table_spec P _ lb_new id 64); [done | fb_arith | done | lia | done |].
  intros pM b1 l1 HR1 G1 OM. apply wp_bind.
  eapply opt_vector_spec; [intros; by eapply createByteVector_spec | done | | done | apply Z.le_refl |]; [fb_arith|].
  intros pD b2 l2 HR2 G2 OD. apply (shown_grows _ _ _ _ _ G2) in OM. apply wp_bind.
  eapply (table_shown b2 l2 3 _ 64 (fun t => reads_ProxyDestinationMessage t m data));
    [done | fb_arith | by destruct (bool_decide (is_Some data)) | | by destruct (bool_decide (is_Some data)) | |].
  - unfold dest_adds. destruct (bool_decide (is_Some data)); cbn [app]; adds_ok.
  - intros os o t Hsub Hs Ho.
    assert (ProxyDestinationMessage.innerMessageType t = Ret (ProxyDestInnerMsg.to_number (proxy_type m))) as Htype.
    { eapply (acc_uint8 os o t _ 0 Hs Ho); [lia | | by destruct m]. unfold dest_adds.
      destruct (bool_decide (is_Some data)); cbn [app]; table_field. }
    split_and!; [done | |].
    + apply proxy_message_reads; [done|]. intros t0. rewrite HP.
      eapply (acc_member os o t _ 1 _ l2 (Some P) _ Hs Ho); [lia | | exact OM | done].
      unfold dest_adds. destruct (bool_decide (is_Some data)); cbn [app]; table_field.
    + eapply (acc_bytes os o t _ 2 _ _ Hs Ho); [lia | | eauto with fbgrow].
      apply dest_adds_data. destruct data; [|done]. intros Hx%bool_decide_eq_false. by destruct Hx.
  - intros o b3 l3 HR3 G3 SO. eapply wp_mono; [eapply finish_bytes_bounded; [done | fb_arith | exact SO]|].
    cbv beta. intros bs _ [Hc Hlen]. split; [exact Hc|]. used_bound.
Qed.
End datagrams.

(** ** Who is sent datagrams *)
Section permitted.
Context `{FB : FlatBuffers} {Addr : Type} (ResolveUDPAddr : string -> sum error Addr).
Context (p : UdpSpanreedDestinationParams).

(** A client asked for the host, the lists allow it, and it has this address. *)
Definition permitted (evs : list event) (addr : Addr) : Prop :=
  exists c host, Opening c ∈ evs /\
    default defaultHostResolution (ResolveUdpHost p) (ConnectionString c) = Ret (inr host) /\
    isDestinationAllowed (AllowAllDestinations p) (AllowlistedDestinations p) (DenylistedDestinations p) host = true /\
    ResolveUDPAddr host = inr addr.

Definition addressed (evs : list event) (s : udpSpanreedDestination) : Prop :=
  params s = p /\ resolveUdpHost s = default defaultHostResolution (ResolveUdpHost p) /\
  (forall id a, destinationConnections s !! id = Some a -> permitted evs a) /\
  (forall a bs, (a, bs) ∈ outgoingMessages s \/ (a, bs) ∈ datagrams s -> permitted evs a).

Lemma permitted_mono evs evs' a : evs ⊆ evs' -> permitted evs a -> permitted evs' a.
Proof. intros Hsub (c & host & Hc & ?). exists c, host. split; [set_solver | done]. Qed.

Lemma addressed_weaken evs evs' s : evs ⊆ evs' -> addressed evs s -> addressed evs' s.
Proof. intros Hsub (? & ? & H1 & H2). split_and!; eauto using permitted_mono. Qed.

Lemma addressed_tell evs x s : addressed evs s -> addressed evs (tell_hub x s).
Proof. done. Qed.

Lemma addressed_enqueue evs a bs s : permitted evs a -> addressed evs s -> addressed evs (enqueue (a, bs) s).
Proof.
  intros Ha (? & ? & H1 & H2). split_and!; auto. intros a' bs'. simpl. rewrite elem_of_app, list_elem_of_singleton.
  intros [[? | [= -> ->]] | ?]; eauto.
Qed.

Lemma addressed_write evs a bs s : permitted evs a -> addressed evs s -> addressed evs (write (a, bs) s).
Proof.
  intros Ha (? & ? & H1 & H2). unfold write. destruct (closed s); [done|].
  split_and!; auto. intros a' bs'. simpl. rewrite elem_of_app, list_elem_of_singleton.
  intros [? | [? | [= -> ->]]]; eauto.
Qed.

Lemma addressed_insert evs id a s :
  permitted evs a -> addressed evs s -> addressed evs (set_connections (<[id := a]> (destinationConnections s)) s).
Proof.
  intros Ha (? & ? & H1 & H2). split_and!; auto. intros id' a'. simpl.
  intros [[_ ->] | [_ ?]]%lookup_insert_Some; eauto.
Qed.

Lemma addressed_delete evs id s :
  addressed evs s -> addressed evs (set_connections (delete id (destinationConnections s)) s).
Proof.
  intros (? & ? & H1 & H2). split_and!; auto. intros id' a'. simpl. intros [_ ?]%lookup_delete_Some. eauto.
Qed.

Lemma addressed_close_all evs ids s s' :
  close_all ids s = Ret s' -> addressed evs s -> addressed evs s'.
Proof.
  revert s. induction ids as [|id ids IH]; intros s Hc Ha; simpl in Hc; [by simplify_eq|].
  destruct (destinationConnections s !! id) as [a|] eqn:Hid; [|eauto].
  destruct (close_connection id) as [bs|]; simpl in Hc; [|done].
  assert (Hp : permitted evs a) by (destruct Ha as (_ & _ & H1 & _); eauto).
  eapply IH; [exact Hc|].
  pose proof (addressed_delete _ id _ (addressed_write _ _ bs _ Hp Ha)) as Hd.
  unfold write in *. by destruct (closed s).
Qed.

Lemma addressed_open evs c s s' :
  onOpenRequest ResolveUDPAddr c s = Ret s' -> addressed evs s -> addressed (evs ++ [Opening c]) s'.
Proof.
  unfold onOpenRequest, onConnectClient. intros Ho Ha.
  apply (addressed_weaken _ (evs ++ [Opening c])) in Ha; [|set_solver]. pose proof Ha as (Hp & Hr & _ & _).
  rewrite Hr in Ho. destruct (default _ _ _) as [[e|host]|] eqn:Hhost; simpl in Ho; simplify_eq; [by apply addressed_tell|].
  destruct (allowed s host) eqn:Hall; simpl in Ho; [|simplify_eq; by apply addressed_tell].
  destruct (ResolveUDPAddr host) as [e|a] eqn:Hres; simpl in Ho; [simplify_eq; by apply addressed_tell|].
  destruct (connection_request _ _) as [bs|]; simpl in Ho; [|done]. simplify_eq.
  assert (permitted (evs ++ [Opening c]) a).
  { exists c, host. unfold allowed in Hall. rewrite Hp in Hall. split_and!; [set_solver | done | done | done]. }
  by apply addressed_enqueue, addressed_insert.
Qed.

Context (bad_root bad_body : list Z -> bool).
Abbreviation step := (UdpDestination.step ResolveUDPAddr bad_root bad_body).
Abbreviation run := (UdpDestination.run ResolveUDPAddr bad_root bad_body).

Lemma addressed_datagram evs now payload s s' :
  on_datagram bad_root bad_body now payload s = Ret s' -> addressed evs s -> addressed evs s'.
Proof.
  unfold on_datagram, safeParseDestinationMessage, onReceiveVerdict, onReceiveProxyMessage, onReceiveCloseRequest, or_panic,
    mbind, outcome_bind.
  intros Hd Ha. repeat (case_match; simplify_eq; try done); auto using addressed_tell.
Qed.

Lemma addressed_step evs ev s s' : step ev s = Ret s' -> addressed evs s -> addressed (evs ++ [ev]) s'.
Proof.
  intros Hs Ha. destruct ev as [c|m|id|now payload| |ids]; simpl in Hs; [by eapply addressed_open| ..];
    apply (addressed_weaken evs); try set_solver.
  - unfold onClientMessage in Hs. destruct (_ !! _) as [a|] eqn:Hid; simplify_eq; [|done].
    destruct (client_message _ _); simpl in Hs; simplify_eq. apply addressed_enqueue; [|done].
    destruct Ha as (_ & _ & H1 & _). eauto.
  - unfold onProxyRequestClose in Hs. destruct (_ !! _) as [a|] eqn:Hid; simplify_eq; [|done].
    destruct (close_connection _) as [bs|]; simpl in Hs; simplify_eq.
    apply (addressed_delete _ id (enqueue (a, bs) s)), addressed_enqueue; [|done].
    destruct Ha as (_ & _ & H1 & _). eauto.
  - by eapply addressed_datagram.
  - destruct (outgoingMessages s) as [|[a bs] rest] eqn:Hq; simplify_eq; [done|].
    destruct Ha as (? & ? & H1 & H2). rewrite Hq in H2.
    apply addressed_write; [eapply (H2 a bs); set_solver|]. split_and!; auto. simpl.
    intros a' bs' Hin. apply (H2 a' bs'). set_solver.
  - by eapply addressed_close_all.
Qed.

Lemma addressed_run evs0 evs s s' : run evs s = Ret s' -> addressed evs0 s -> addressed (evs0 ++ evs) s'.
Proof.
  revert evs0 s. induction evs as [|ev evs IH]; intros evs0 s Hr Ha; simpl in Hr.
  - simplify_eq. by rewrite app_nil_r.
  - destruct (UdpDestination.step _ _ _ ev s) as [s1|] eqn:Hs; simpl in Hr; [|done].
    rewrite cons_middle, (assoc_L (++)). eapply IH; [exact Hr|]. by eapply addressed_step.
Qed.

(** C11: However commands, datagrams, sends and the shutdown follow each other, every datagram queued or written goes to
    the address of a host that a client asked for and that the allow and deny lists permit: a host on the
    deny list never, and with AllowAllDestinations off only hosts on the allow list. *)
Theorem datagrams_only_to_permitted evs s a bs :
  run evs (CreateUdpDestinationHandler p) = Ret s ->
  (a, bs) ∈ outgoingMessages s \/ (a, bs) ∈ datagrams s ->
  exists c host, Opening c ∈ evs /\
    default defaultHostResolution (ResolveUdpHost p) (ConnectionString c) = Ret (inr host) /\ ResolveUDPAddr host = inr a /\
    ~ (host ∈ DenylistedDestinations p) /\ (AllowAllDestinations p = true \/ host ∈ AllowlistedDestinations p).
Proof.
  intros Hr Hin. assert (H0 : addressed [] (CreateUdpDestinationHandler p)).
  { split_and!; [done | done | |]; simpl; [intros ??; by rewrite lookup_empty | set_solver]. }
  destruct (addressed_run _ _ _ _ Hr H0) as (_ & _ & _ & H).
  destruct (H a bs Hin) as (c & host & Hc & Hhost & Hall & Hres). exists c, host. split_and!; try done.
  - intros Hden%Contains_spec. unfold isDestinationAllowed in Hall. by rewrite Hden in Hall.
  - unfold isDestinationAllowed in Hall. destruct (Contains host (DenylistedDestinations p)); [done|].
    destruct (AllowAllDestinations p); [by left | right; by apply Contains_spec].
Qed.
End permitted.

(** ** What the hub's commands send *)
Section handlers.
#[local] Set Default Proof Using "Type*".
Context {FB : FlatBuffers} {FL : FlatBuffersLaws FB}.
Context {Addr : Type}.

Lemma datagram_made m id data n build :
  build = fst (datagram_steps m id data (new_Builder n)) -> 0 < n -> inner_id m = Some id -> is_uint32 id ->
  Forall is_byte (default [] data) -> zlen (default [] data) + 200 <= fb_limit ->
  exists bs, or_panic build = Ret bs /\ carries bs m data /\ zlen bs <= zlen (default [] data) + 200.
Proof.
  intros -> Hn Hm Hid Hd Hsz.
  destruct (wp_run _ _ _ (datagram_steps_spec m id data n Hn Hm Hid Hd Hsz)) as (bs & b & Hrun & Hc).
  exists bs. by rewrite Hrun.
Qed.

Lemma message_sends (s : udpSpanreedDestination (Addr := Addr)) m a :
  destinationConnections s !! msg_ClientId m = Some a -> is_uint32 (msg_ClientId m) ->
  Forall is_byte (default [] (Data m)) -> zlen (default [] (Data m)) + 200 <= fb_limit ->
  exists bs, onClientMessage m s = Ret (enqueue (a, bs) s) /\ carries bs (PClientMessage (msg_ClientId m)) (Data m) /\
    or_panic (client_message (msg_ClientId m) (Data m)) = Ret bs /\ zlen bs <= zlen (default [] (Data m)) + 200.
Proof.
  intros Ha Hid Hd Hsz.
  destruct (datagram_made _ _ _ _ _ (client_message_steps (msg_ClientId m) (Data m)))
    as (bs & Hbs & Hc & Hl); try done; [pose proof (zlen_nonneg (default [] (Data m))); lia|].
  exists bs. split; [|done]. unfold onClientMessage. by rewrite Ha, Hbs.
Qed.

Lemma close_sends (s : udpSpanreedDestination (Addr := Addr)) id a :
  destinationConnections s !! id = Some a -> is_uint32 id ->
  exists bs, onProxyRequestClose id s = Ret (set_connections (delete id (destinationConnections s)) (enqueue (a, bs) s)) /\
    carries bs (PCloseConnection id) None /\ or_panic (close_connection id) = Ret bs /\ zlen bs <= 200.
Proof.
  intros Ha Hid. destruct (datagram_made _ _ _ _ _ (close_connection_steps id)) as (bs & Hbs & Hc & Hl); try done.
  exists bs. split; [|done]. unfold onProxyRequestClose. by rewrite Ha, Hbs.
Qed.

Context (ResolveUDPAddr : string -> sum error Addr).

Lemma open_sends (s : udpSpanreedDestination (Addr := Addr)) c host a :
  resolveUdpHost s (ConnectionString c) = Ret (inr host) -> allowed s host = true ->
  ResolveUDPAddr host = inr a -> is_uint32 (open_ClientId c) -> Forall is_byte (default [] (open_AppData c)) ->
  zlen (default [] (open_AppData c)) + 200 <= fb_limit ->
  exists bs, onOpenRequest ResolveUDPAddr c s =
      Ret (enqueue (a, bs) (set_connections (<[open_ClientId c := a]> (destinationConnections s)) s)) /\
    carries bs (PConnectionRequest (open_ClientId c)) (open_AppData c).
Proof.
  intros Hhost Hall Hres Hid Hd Hsz.
  destruct (datagram_made _ _ _ _ _ (connection_request_steps (open_ClientId c) (open_AppData c)))
    as (bs & Hbs & Hc & _); try done; [pose proof (zlen_nonneg (default [] (open_AppData c))); lia|].
  exists bs. split; [|done]. unfold onOpenRequest, onConnectClient. rewrite Hhost. simpl. rewrite Hall. simpl.
  rewrite Hres, Hbs. done.
Qed.

(** Each command of the hub for a destination makes one datagram to the address of its client, which
    reads back as that command with the client's id and the bytes unchanged; opening registers the client under the resolved
    address, closing forgets it, and a message or close for a client that is not registered sends nothing. *)
Theorem hub_commands_become_datagrams (s : udpSpanreedDestination (Addr := Addr)) :
  (forall c host a, resolveUdpHost s (ConnectionString c) = Ret (inr host) -> allowed s host = true ->
     ResolveUDPAddr host = inr a -> is_uint32 (open_ClientId c) -> Forall is_byte (default [] (open_AppData c)) ->
     zlen (default [] (open_AppData c)) + 200 <= fb_limit ->
     exists bs, onOpenRequest ResolveUDPAddr c s =
         Ret (enqueue (a, bs) (set_connections (<[open_ClientId c := a]> (destinationConnections s)) s)) /\
       carries bs (PConnectionRequest (open_ClientId c)) (open_AppData c)) /\
  (forall m a, destinationConnections s !! msg_ClientId m = Some a -> is_uint32 (msg_ClientId m) ->
     Forall is_byte (default [] (Data m)) -> zlen (default [] (Data m)) + 200 <= fb_limit ->
     exists bs, onClientMessage m s = Ret (enqueue (a, bs) s) /\ carries bs (PClientMessage (msg_ClientId m)) (Data m)) /\
  (forall id a, destinationConnections s !! id = Some a -> is_uint32 id ->
     exists bs, onProxyRequestClose id s =
         Ret (set_connections (delete id (destinationConnections s)) (enqueue (a, bs) s)) /\
       carries bs (PCloseConnection id) None) /\
  (forall m, destinationConnections s !! msg_ClientId m = None ->
     onClientMessage m s = Ret s /\ onProxyRequestClose (msg_ClientId m) s = Ret s).
Proof.
  split_and!; [intros; by apply open_sends with host | | |].
  - intros m a Ha Hid Hb Hsz. destruct (message_sends s m a Ha Hid Hb Hsz) as (bs & H1 & H2 & _). by exists bs.
  - intros id a Ha Hid. destruct (close_sends s id a Ha Hid) as (bs & H1 & H2 & _). by exists bs.
  - intros m Hm. unfold onClientMessage, onProxyRequestClose. by rewrite Hm.
Qed.

(** The clients of the list, told one by one. *)
Lemma close_all_tells order (s : udpSpanreedDestination (Addr := Addr)) :
  NoDup order -> closed s = false ->
  Forall (fun id => is_uint32 id /\ is_Some (destinationConnections s !! id)) order ->
  exists s' sent, close_all order s = Ret s' /\ closed s' = true /\ datagrams s' = datagrams s ++ sent /\
    destinationConnections s' = filter (fun x => ~ (x.1 ∈ order)) (destinationConnections s) /\
    Forall2 (fun id d => destinationConnections s !! id = Some d.1 /\ carries d.2 (PCloseConnection id) None) order sent.
Proof.
  intros Hnd. revert s. induction Hnd as [|id order Hnot Hnd IH]; intros s Hopen Hall; simpl.
  - exists (set_closed s), []. split_and!; simpl; [done | done | by rewrite app_nil_r | | constructor].
    symmetry. apply map_filter_id. intros i x _. simpl. by intros ?%elem_of_nil.
  - apply list.Forall_cons in Hall as [[Hid [a Ha]] Hall]. rewrite Ha.
    destruct (datagram_made _ _ _ _ _ (close_connection_steps id)) as (bs & Hbs & Hc & _); try done.
    rewrite Hbs. simpl. unfold write. rewrite Hopen.
    destruct (IH (set_connections (delete id (destinationConnections s))
      (mkUdp (params s) (resolveUdpHost s) (destinationConnections s) (outgoingMessages s) (datagrams s ++ [(a, bs)])
        (toHub s) false))) as (s' & sent & Hr & Hcl & Hd & Hconn & Hf); [done | |].
    { apply list.Forall_forall. intros i Hi. rewrite list.Forall_forall in Hall.
      destruct (Hall i Hi) as [? ?]. split; [done|]. simpl. rewrite lookup_delete_ne; [done | set_solver]. }
    exists s', ((a, bs) :: sent). split_and!; [done | done | | |].
    + rewrite Hd. simpl. by rewrite <- (assoc_L (++)).
    + rewrite Hconn. simpl. apply map_eq. intros i. apply option_eq. intros x.
      rewrite !map_lookup_filter_Some, lookup_delete_Some. simpl. set_solver.
    + constructor; [done|]. eapply Forall2_impl; [exact Hf|]. simpl. intros i d [Hi ?].
      apply lookup_delete_Some in Hi as [_ ?]. done.
Qed.

(** The shutdown tells the destination of every connected client once that the client is gone, in whatever order the
    map is iterated, forgets all clients and closes the socket. *)
Theorem shutdown_closes_everyone bad_root bad_body order (s : udpSpanreedDestination (Addr := Addr)) :
  closed s = false -> order ≡ₚ (map_to_list (destinationConnections s)).*1 -> Forall is_uint32 order ->
  exists s' sent, step ResolveUDPAddr bad_root bad_body (Shutdown order) s = Ret s' /\
    closed s' = true /\ destinationConnections s' = ∅ /\ datagrams s' = datagrams s ++ sent /\
    Forall2 (fun id d => destinationConnections s !! id = Some d.1 /\ carries d.2 (PCloseConnection id) None) order sent.
Proof.
  intros Hopen Hperm Hids.
  assert (Hin : forall i, i ∈ order <-> is_Some (destinationConnections s !! i)).
  { intros i. rewrite Hperm, list_elem_of_fmap. split.
    - intros ([k x] & -> & Hx%elem_of_map_to_list). eauto.
    - intros [x Hx]. exists (i, x). by rewrite elem_of_map_to_list. }
  destruct (close_all_tells order s) as (s' & sent & Hr & Hcl & Hd & Hconn & Hf); [|done| |].
  - rewrite Hperm. apply NoDup_fst_map_to_list.
  - apply list.Forall_forall. intros i Hi. rewrite list.Forall_forall in Hids. split; [auto | by apply Hin].
  - exists s', sent. split_and!; try done. rewrite Hconn. apply map_empty. intros i.
    apply map_lookup_filter_None. right. intros x Hx Hno. apply Hno, Hin. eauto.
Qed.

End handlers.

(** ** What the destinations' datagrams say *)
Section receiving.
#[local] Set Default Proof Using "Type*".
Context {FB : FlatBuffers} {FL : FlatBuffersLaws FB} {Addr : Type}.

(** The message for the hub. *)
Definition hub_message (now : Z) (m : dest_inner) (data : slice) : option (Z * from_destination) :=
  match m with
  | DNone => None
  | DProxy id => Some (id, DestMessage (mkRouted id now 0 data))
  | DVerdict id a => Some (id, DestVerdict (mkVerdict id a None data))
  | DClose id reason => Some (id, DestCloseRequest id (go_string (default [] (text_bytes <$> reason))) data)
  end.

Lemma go_Msg t m data :
  reads_DestinationMessage t m data -> DestinationMessage_MsgType t = Ret (InnerMsg.to_number (dest_type m)) /\
  DestinationMessage_AppDataBytes t = Ret data.
Proof.
  intros (Ht & _ & _ & _ & r & Hr & Hb & _). split; [exact Ht|].
  unfold DestinationMessage.appDataArray in Hr. unfold DestinationMessage_AppDataBytes, ByteVector.
  destruct (deref t) as [b|]; simpl in *; [|done]. destruct (truthy _); simplify_eq; [|done].
  destruct (u8_view _ _ _); simpl in *; simplify_eq; done.
Qed.

Lemma go_Reason t (reason : option (list Z)) :
  (forall enc, CloseConnection.reason t enc = Ret (text_as enc <$> reason)) -> CloseConnection_Reason t = Ret reason.
Proof.
  intros Hs. specialize (Hs (Some UTF8_BYTES)).
  unfold CloseConnection.reason in Hs. unfold CloseConnection_Reason, ByteVector_string.
  destruct (deref t) as [b|]; simpl in *; [|done]. injection Hs as Hs.
  destruct (truthy _), reason; try discriminate Hs; [|reflexivity]. injection Hs as Hs. by rewrite Hs.
Qed.

(** The member of the union, when there is one. *)
Lemma go_member t m data :
  reads_DestinationMessage t m data -> m <> DNone ->
  exists ut P, DestinationMessage_Msg t (mkTable None 0) = Ret (Some ut) /\ reads_dest_inner m = Some P /\ P ut.
Proof.
  intros (Ht & (r & Hr & Hm) & _) Hne. unfold dest_message in Hr. rewrite Ht in Hr.
  destruct m; [done|..]; cbn -[DestinationMessage.msg] in Hr; unfold dest_member in Hr;
    cbn -[DestinationMessage.msg] in Hr;
    change (DestinationMessage_Msg t (mkTable None 0)) with (DestinationMessage.msg t (mkTable None 0));
    unfold ProxyMessage.new, ConnectionVerdict.new, CloseConnection.new in Hr;
    destruct (DestinationMessage.msg t (mkTable None 0)) as [[ut|]|]; simpl in Hr; simplify_eq; simpl in Hm; try done;
    (exists ut; eexists; split_and!; [done | done | exact Hm]).
Qed.

(** Bytes that show a [DestinationMessage], whoever wrote them. *)
Lemma shown_datagram_received bad_root bad_body m data now payload (s : udpSpanreedDestination (Addr := Addr)) :
  reads_DestinationMessage (GetRootAs payload) m data -> bad_root payload = false -> bad_body payload = false ->
  on_datagram bad_root bad_body now payload s =
    Ret match hub_message now m data with
        | Some (id, x) => if bool_decide (is_Some (destinationConnections s !! id)) then tell_hub x s else s
        | None => s
        end.
Proof.
  intros Hdec Hroot Hbody.
  unfold on_datagram, safeParseDestinationMessage, GetRootAsDestinationMessage. rewrite Hroot, Hbody.
  destruct (go_Msg _ _ _ Hdec) as [Htype Happ].
  assert (m = DNone \/ m <> DNone) as [->|Hne] by (destruct m; auto).
  - unfold DestinationMessage_Msg. unfold DestinationMessage_MsgType in Htype |- *.
    destruct (deref _) as [b0|]; simpl in *; [|done].
    injection Htype as Htype. rewrite Htype. clear Htype. destruct (truthy _); reflexivity.
  - destruct (go_member _ _ _ Hdec Hne) as (ut & P & Hut & HP & Hread). unfold mbind, outcome_bind. rewrite Hut, Htype, !Happ.
    destruct m as [|id|id a|id reason]; [done|..]; simpl in HP; injection HP as <-; simpl;
      unfold onReceiveProxyMessage, onReceiveVerdict, onReceiveCloseRequest, registered, mbind, outcome_bind.
    + change (ProxyMessage_ClientId ut) with (ProxyMessage.clientId ut). by rewrite Hread.
    + destruct Hread as (Hid & _ & Ha). change (ConnectionVerdict_ClientId ut) with (ConnectionVerdict.clientId ut).
      rewrite Hid. simpl. unfold ConnectionVerdict_Accepted, GetBool. by rewrite Ha.
    + destruct Hread as [Hid Hreason]. change (CloseConnection_ClientId ut) with (CloseConnection.clientId ut).
      rewrite Hid, (go_Reason _ _ Hreason). simpl. by case_bool_decide.
Qed.

Lemma datagram_received bad_root bad_body n m data now (s : udpSpanreedDestination (Addr := Addr)) :
  0 < n -> dest_inner_ok m -> Forall is_byte (default [] data) ->
  zlen (dest_text m) + zlen (default [] data) + 200 <= fb_limit ->
  wp (encodeDestinationMessage m data false) (new_Builder n) (fun u _ =>
    bad_root (u8_bytes u) = false -> bad_body (u8_bytes u) = false ->
    on_datagram bad_root bad_body now (u8_bytes u) s =
      Ret match hub_message now m data with
          | Some (id, x) => if bool_decide (is_Some (destinationConnections s !! id)) then tell_hub x s else s
          | None => s
          end).
Proof.
  intros Hn Hm Hd Hsz. pose proof (Rep_new n Hn) as HR. apply wp_bind.
  eapply (buildDestinationMessage_spec _ lb_new m data (zlen (dest_text m) + zlen (default [] data) + 160));
    [done | fb_arith | done | done | lia |].
  intros o b l HR1 G SO. eapply wp_mono; [eapply (finish_roundtrip b l o false _ HR1); [fb_arith | exact SO]|].
  intros u b' [Hwf Hdec] Hroot Hbody.
  apply shown_datagram_received; [|done|done]. exact (decodes_go_root _ _ _ Hwf eq_refl Hdec).
Qed.

(** A datagram of a destination, with any message and once read whole, reaches the hub as that message, with client id, verdict, reason and
    bytes unchanged, when the client is registered, and changes nothing otherwise. *)
Theorem destination_datagram_reaches_hub bad_root bad_body n m data now (s : udpSpanreedDestination (Addr := Addr)) :
  0 < n -> dest_inner_ok m -> Forall is_byte (default [] data) ->
  zlen (dest_text m) + zlen (default [] data) + 200 <= fb_limit ->
  wp (encodeDestinationMessage m data false) (new_Builder n) (fun u _ =>
    bad_root (u8_bytes u) = false -> bad_body (u8_bytes u) = false ->
    on_datagram bad_root bad_body now (u8_bytes u) s =
      Ret match hub_message now m data with
          | Some (id, x) => if bool_decide (is_Some (destinationConnections s !! id)) then tell_hub x s else s
          | None => s
          end).
Proof. apply datagram_received. Qed.
End receiving.

(** ** A concrete run *)
Definition demo_params : UdpSpanreedDestinationParams := mkParams false ["game:30001"%string] ["private:22"%string] None.
Definition resolve (host : string) : sum error string := inr host.
Definition never (payload : list Z) : bool := false.
Definition demo_open : OpenClientConnectionCommand := mkOpen 1 5 6 "udp:game:30001" (Some [1; 2; 3]).

(** One client is connected and one is turned away. *)
Definition demo_events : list event :=
  [Opening demo_open; Opening (mkOpen 2 5 6 "udp:private:22" None); Message (mkRouted 1 7 8 (Some [9])); Send].

Definition demo_udp : udpSpanreedDestination :=
  match run (FB := FbRef) resolve never never demo_events (CreateUdpDestinationHandler demo_params) with
  | Ret s => s
  | Throw _ => CreateUdpDestinationHandler demo_params
  end.

Lemma datagrams_only_to_permitted_witness :
  (exists bs, ("game:30001"%string, bs) ∈ outgoingMessages demo_udp) /\
  exists c host, Opening c ∈ demo_events /\
    default defaultHostResolution (ResolveUdpHost demo_params) (ConnectionString c) = Ret (inr host) /\
    resolve host = inr "game:30001"%string /\
    ~ (host ∈ DenylistedDestinations demo_params) /\
    (AllowAllDestinations demo_params = true \/ host ∈ AllowlistedDestinations demo_params).
Proof.
  split; [eexists; vm_compute; left|].
  eapply (datagrams_only_to_permitted (FB := FbRef) resolve demo_params never never demo_events demo_udp);
    [vm_compute; reflexivity | left; vm_compute; left].
Defined.

Lemma connection_strings_witness :
  defaultHostResolution "udp:game:30001" = Ret (inr "game:30001"%string) /\
  DefaultUdpDestinationHandlerMatchConnectionStringFn "ws:game" = Ret false /\
  DefaultUdpDestinationHandlerMatchConnectionStringFn "udp" = Throw SliceOutOfRange.
Proof.
  destruct (connection_strings "game:30001" "ws:game") as (_ & H1 & H2 & _).
  destruct (connection_strings "game:30001" "udp") as (_ & _ & _ & H3).
  split; [exact H1|]. split; [apply H2; [simpl; lia | discriminate] | apply H3; simpl; lia].
Defined.

Lemma hub_commands_become_datagrams_witness :
  exists bs, onClientMessage (FB := FbRef) (mkRouted 1 9 10 (Some [4; 5])) demo_udp = Ret (enqueue ("game:30001"%string, bs) demo_udp) /\
    carries (FB := FbRef) bs (PClientMessage 1) (Some [4; 5]).
Proof.
  destruct (hub_commands_become_datagrams (FL := FbRefLaws) resolve demo_udp) as (_ & H & _).
  apply (H (mkRouted 1 9 10 (Some [4; 5])) "game:30001"%string); [vm_compute; reflexivity | concrete | concrete | concrete].
Defined.

Lemma shutdown_closes_everyone_witness :
  exists s' sent, step (FB := FbRef) resolve never never (Shutdown [1]) demo_udp = Ret s' /\
    closed s' = true /\ destinationConnections s' = ∅ /\ datagrams s' = datagrams demo_udp ++ sent /\
    Forall2 (fun id d => destinationConnections demo_udp !! id = Some d.1 /\ carries (FB := FbRef) d.2 (PCloseConnection id) None)
      [1] sent.
Proof.
  apply (shutdown_closes_everyone (FL := FbRefLaws) resolve never never [1] demo_udp);
    [vm_compute; reflexivity | | repeat constructor; vm_compute; congruence].
  replace ((map_to_list (destinationConnections demo_udp)).*1) with [1] by (vm_compute; reflexivity). reflexivity.
Defined.

Lemma destination_datagram_reaches_hub_witness :
  wp (encodeDestinationMessage (FB := FbRef) (DVerdict 1 true) (Some [7]) false) (new_Builder 64) (fun u _ =>
    never (u8_bytes u) = false -> never (u8_bytes u) = false ->
    on_datagram (FB := FbRef) never never 12 (u8_bytes u) demo_udp =
      Ret (tell_hub (DestVerdict (mkVerdict 1 true None (Some [7]))) demo_udp)).
Proof.
  exact (destination_datagram_reaches_hub (FL := FbRefLaws) never never 64 (DVerdict 1 true) (Some [7]) 12 demo_udp
    eq_refl ltac:(split; concrete) ltac:(concrete) ltac:(concrete)).
Defined.
