(* ===== verification/Transports.v ===== *)
(** * The servers that clients connect to (pkg/transport/websocket_client.go and webtransport_client.go)

    Both servers check the origin of a request, open a connection with their router and then
    run two goroutines per client, a reader and a writer, until both are done. They differ in
    what the reader forwards and in when the writer gives up. [session] is what one request's
    handler and its goroutines keep; the channels they share with the router are those of the
    router's [conn] with the same index. An [action] of the server is a request, one step of a
    session, one step of the router's own goroutines, or the shutdown; actions come in any
    order. The network is in the actions: what a read or a write gives. *)

From S2P Require Import Prelude JsPlatform FlatBuffers SpanreedMessages ClientStore Proxy GoMessages UdpDestination Router.
From stdpp Require Import gmap.
#[local] Open Scope Z_scope.

(** ** Parameters *)
Record WebsocketSpanreedClientParams : Type := mkWsParams {
  ws_ListenAddress : string;
  ws_ListenEndpoint : string;
  ws_AllowAllHosts : bool;
  ws_AllowlistedHosts : list string;
  ws_DenylistedHosts : list string;
  ws_CertPath : string;
  ws_KeyPath : string;
  ws_IncomingMessageQueueLength : Z;
  ws_OutgoingMessageQueueLength : Z;
  IncomingMessageReadLimit : Z;
  OutgoingMessageWriteLimit : Z;
  HandshakeTimeoutMilliseconds : Z
}.

Record WebtransportSpanreedClientParams : Type := mkWtParams {
  wt_ListenAddress : string;
  wt_ListenEndpoint : string;
  wt_CertPath : string;
  wt_KeyPath : string;
  wt_AllowAllHosts : bool;
  wt_AllowlistedHosts : list string;
  wt_DenylistedHosts : list string;
  wt_IncomingMessageQueueLength : Z;
  wt_OutgoingMessageQueueLength : Z
}.

(** [CheckOrigin], on the request's [Origin] header; without the header it is the empty string. *)
Definition ws_CheckOrigin (params : WebsocketSpanreedClientParams) (origin : string) : bool :=
  if Contains origin (ws_DenylistedHosts params) then false
  else if ws_AllowAllHosts params then true
  else Contains origin (ws_AllowlistedHosts params).

Definition wt_CheckOrigin (params : WebtransportSpanreedClientParams) (origin : string) : bool :=
  if Contains origin (wt_DenylistedHosts params) then false
  else if wt_AllowAllHosts params then true
  else Contains origin (wt_AllowlistedHosts params).

(** [websocket.Upgrader]; the timeout in nanoseconds. *)
Record Upgrader : Type := mkUpgrader {
  CheckOrigin : string -> bool; ReadBufferSize : Z; WriteBufferSize : Z; HandshakeTimeout : Z
}.

(** ** The state of a session *)
Inductive transport : Type := WebSocket | WebTransport.

(** The reader: in the read call; with a message for the router; then its deferred calls. *)
Inductive reader : Type :=
| Reading
| Forwarding (payload : list Z)
| Cancelling                             (** [routeCancel()] *)
| Telling                                (** [ClientInitiatedClose <- true] *)
| ReaderDone.

(** The writer: in its [select]; about to close the socket or session; about to cancel. *)
Inductive writer : Type := Selecting | Closing | WriterCancelling | WriterDone.

(** The request's handler: waiting for both goroutines; then its deferred calls, last one first. *)
Inductive stage : Type := Serving | Removed | Cancelled | Returned.

Record session : Type := mkSession {
  rd : reader;
  wr : writer;
  handler : stage;
  ended : bool;                          (** the socket or session is closed *)
  attempts : list (slice * bool)         (** what was given to [WriteMessage] or [SendDatagram], and whether it went out *)
}.

Definition new_session : session := mkSession Reading Selecting Serving false [].

Definition set_reader (r : reader) (s : session) : session := mkSession r (wr s) (handler s) (ended s) (attempts s).
Definition set_writer (w : writer) (s : session) : session := mkSession (rd s) w (handler s) (ended s) (attempts s).
Definition set_stage (h : stage) (s : session) : session := mkSession (rd s) (wr s) h (ended s) (attempts s).
Definition set_ended (s : session) : session := mkSession (rd s) (wr s) (handler s) true (attempts s).
Definition attempted (p : slice) (ok : bool) (s : session) : session :=
  mkSession (rd s) (wr s) (handler s) (ended s) (attempts s ++ [(p, ok)]).

(** ** The goroutines of a session *)
Inductive read_result : Type :=
| Message (binary : bool) (payload : list Z)
| ReadError.

Inductive session_action : Type :=
| PeerCloses                             (** the client closes, or the connection breaks *)
| Read (r : read_result)                 (** [ReadMessage] or [ReceiveDatagram] returns *)
| ReaderStep
| Write (ok : bool)                      (** a packet of the router, and whether sending it succeeded *)
| TakeProxyClose
| Spin                                   (** a case with an empty body *)
| WriterStep
| HandlerStep.

(** What a session's step does to the router. *)
Inductive effect : Type := Nothing | OnConn (a : conn_action) | Unregister.

(** WebSocket drops what is not binary; a datagram has no such kind. Whatever the error is, the
    reader returns. *)
Definition on_read (k : transport) (r : read_result) (s : session) : session :=
  match k, r with
  | _, ReadError => set_reader Cancelling s
  | WebSocket, Message false _ => s
  | _, Message _ payload => set_reader (Forwarding payload) s
  end.

(** WebSocket ignores whether sending worked; WebTransport gives up when it failed in an ended session. *)
Definition on_write (k : transport) (p : slice) (ok : bool) (s : session) : session :=
  let s := attempted p ok s in
  match k with
  | WebSocket => s
  | WebTransport => if negb ok && ended s then set_writer WriterCancelling s else s
  end.

(** The cases with an empty body: [ctx.Done()], the server's context, in WebSocket; the session's
    or the connection's context in WebTransport. *)
Definition spins (k : transport) (ctx_done : bool) (c : conn) (s : session) : bool :=
  match k with WebSocket => ctx_done | WebTransport => ended s || cancelled c end.

Definition session_step (k : transport) (ctx_done : bool) (c : conn) (a : session_action) (s : session) :
    option (effect * session) :=
  match a with
  | PeerCloses => Some (Nothing, set_ended s)
  | Read r => match rd s with Reading => Some (Nothing, on_read k r s) | _ => None end
  | ReaderStep =>
      match rd s with
      | Forwarding payload => Some (OnConn (Arrive payload), set_reader Reading s)
      | Cancelling => Some (OnConn Router.Cancel, set_reader Telling s)
      | Telling => Some (OnConn Leave, set_reader ReaderDone s)
      | _ => None
      end
  | Write ok =>
      match wr s, outgoingPackets c with
      | Selecting, p :: _ => Some (OnConn TakeOut, on_write k p ok s)
      | _, _ => None
      end
  | TakeProxyClose => match wr s with Selecting => Some (OnConn TakeClose, set_writer Closing s) | _ => None end
  | Spin => match wr s with Selecting => if spins k ctx_done c s then Some (Nothing, s) else None | _ => None end
  | WriterStep =>
      match wr s with
      | Closing => Some (Nothing, set_writer WriterCancelling (set_ended s))
      | WriterCancelling => Some (OnConn Router.Cancel, set_writer WriterDone s)
      | _ => None
      end
  | HandlerStep =>
      match handler s with
      | Serving =>
          match rd s, wr s with ReaderDone, WriterDone => Some (Unregister, set_stage Removed s) | _, _ => None end
      | Removed => Some (OnConn Router.Cancel, set_stage Cancelled s)
      | Cancelled => Some (Nothing, set_stage Returned (set_ended s))
      | Returned => None
      end
  end.

(** ** The servers *)
Record server : Type := mkServer {
  kind : transport;
  check_origin : string -> bool;
  clientConnectionRouter : router;
  sessions : list session;               (** by the index of their connection *)
  ctx_done : bool                        (** the server is shutting down *)
}.

Definition with_router (r : router) (s : server) : server :=
  mkServer (kind s) (check_origin s) r (sessions s) (ctx_done s).
Definition with_sessions (l : list session) (s : server) : server :=
  mkServer (kind s) (check_origin s) (clientConnectionRouter s) l (ctx_done s).

Definition or_else (x dflt : Z) : Z := if x =? 0 then dflt else x.

Definition ws_defaults (p : WebsocketSpanreedClientParams) : WebsocketSpanreedClientParams :=
  mkWsParams (ws_ListenAddress p) (ws_ListenEndpoint p) (ws_AllowAllHosts p) (ws_AllowlistedHosts p)
    (ws_DenylistedHosts p) (ws_CertPath p) (ws_KeyPath p) (ws_IncomingMessageQueueLength p)
    (ws_OutgoingMessageQueueLength p) (or_else (IncomingMessageReadLimit p) 10240)
    (or_else (OutgoingMessageWriteLimit p) 10240) (or_else (HandshakeTimeoutMilliseconds p) 1500).

Definition ws_upgrader (params : WebsocketSpanreedClientParams) : Upgrader :=
  let p := ws_defaults params in
  mkUpgrader (ws_CheckOrigin p) (ws_IncomingMessageQueueLength p) (ws_OutgoingMessageQueueLength p)
    (milliseconds (HandshakeTimeoutMilliseconds p)).

Definition CreateWebsocketHandler (params : WebsocketSpanreedClientParams) : server :=
  let p := ws_defaults params in
  mkServer WebSocket (CheckOrigin (ws_upgrader params))
    (CreateClientConnectionRouter (ws_IncomingMessageQueueLength p) (ws_OutgoingMessageQueueLength p)) [] false.

Definition CreateWebtransportHandler (params : WebtransportSpanreedClientParams) : server :=
  mkServer WebTransport (wt_CheckOrigin params)
    (CreateClientConnectionRouter (wt_IncomingMessageQueueLength params) (wt_OutgoingMessageQueueLength params)) [] false.

(** [Start], up to the goroutines: whether to listen with TLS, or [None] when the key pair
    cannot be loaded, which ends the server before it listens. *)
Definition ws_Start (LoadX509KeyPair : string -> string -> bool) (params : WebsocketSpanreedClientParams) : option bool :=
  if bool_decide (ws_CertPath params = EmptyString) || bool_decide (ws_KeyPath params = EmptyString) then Some false
  else if LoadX509KeyPair (ws_CertPath params) (ws_KeyPath params) then Some true else None.

Definition wt_Start (LoadX509KeyPair : string -> string -> bool) (params : WebtransportSpanreedClientParams) : option bool :=
  if LoadX509KeyPair (wt_CertPath params) (wt_KeyPath params) then Some true else None.

Section with_fb.
Context `{FB : FlatBuffers}.
Context (malformed : list Z -> bool).

Inductive action : Type :=
| Request (origin : string) (upgrades : bool) (next : sum error Z)   (** with what else decides about the upgrade, and the client id *)
| Session (i : nat) (a : session_action)
| Routing (a : Router.action)            (** the router's own goroutines *)
| CtxDone
| CancelSession (i : nat).               (** the server's context cancels the one of a connection *)

(** The actions of the router that are not the transport's. *)
Definition routers_own (s : server) (a : Router.action) : bool :=
  match a with
  | OpenConnection _ | Remove _ => false
  | Take _ | Deliver => true
  | Shutdown => ctx_done s
  | Conn _ (Arrive _ | Leave | Router.Cancel | TakeOut | TakeClose) => false
  | Conn _ _ => true
  end.

(** [onWsRequest], [onWtRequest] up to the start of the goroutines; a connection that cannot be opened is closed at once. *)
Definition on_request (origin : string) (upgrades : bool) (next : sum error Z) (s : server) : option server :=
  if check_origin s origin && upgrades then
    r ← Router.step malformed (OpenConnection next) (clientConnectionRouter s);
    let s' := with_router r s in
    Some (if (length (conns (clientConnectionRouter s)) <? length (conns r))%nat
          then with_sessions (sessions s ++ [new_session]) s' else s')
  else Some s.

Definition apply_effect (i : nat) (id : Z) (e : effect) (r : router) : option router :=
  match e with
  | Nothing => Some r
  | OnConn a => Router.step malformed (Conn i a) r
  | Unregister => Router.step malformed (Remove id) r
  end.

Definition step (a : action) (s : server) : option server :=
  match a with
  | Request origin upgrades next => on_request origin upgrades next s
  | Session i a =>
      ss ← sessions s !! i;
      c ← conns (clientConnectionRouter s) !! i;
      es ← session_step (kind s) (ctx_done s) c a ss;
      r ← apply_effect i (conn_id c) es.1 (clientConnectionRouter s);
      Some (with_router r (with_sessions (<[i := es.2]> (sessions s)) s))
  | Routing a =>
      if routers_own s a then r ← Router.step malformed a (clientConnectionRouter s); Some (with_router r s) else None
  | CtxDone => Some (mkServer (kind s) (check_origin s) (clientConnectionRouter s) (sessions s) true)
  | CancelSession i =>
      if ctx_done s then r ← Router.step malformed (Conn i Router.Cancel) (clientConnectionRouter s); Some (with_router r s)
      else None
  end.

Fixpoint run (acts : list action) (s : server) : option server :=
  match acts with
  | [] => Some s
  | a :: acts => match step a s with Some s => run acts s | None => None end
  end.
End with_fb.
