(* ===== verification/TransportTheorems.v ===== *)
(** * Correctness of the servers

    A run of a server is a run of its router ([run_refines]), in which the transport's actions
    are the ones of the sessions. [server_ok] relates every session to its connection; the
    streams of the router then become those of the network. *)

From S2P Require Import Prelude JsPlatform FlatBuffers SpanreedMessages ClientStore Proxy GoMessages UdpDestination Router.
From S2P Require Import FbReference SpanreedCodec RouterTheorems Transports.
From stdpp Require Import gmap.
#[local] Open Scope Z_scope.

Section with_fb.
Context `{FB : FlatBuffers}.
Context (malformed : list Z -> bool).
Abbreviation step := (step malformed).
Abbreviation run := (run malformed).

(** ** A server drives its router *)
Definition effect_actions (i : nat) (id : Z) (e : effect) : list Router.action :=
  match e with Nothing => [] | OnConn a => [Conn i a] | Unregister => [Remove id] end.

Definition router_actions (a : action) (s : server) : list Router.action :=
  match a with
  | Request origin upgrades next => if check_origin s origin && upgrades then [OpenConnection next] else []
  | Session i a =>
      match sessions s !! i, conns (clientConnectionRouter s) !! i with
      | Some ss, Some c =>
          match session_step (kind s) (ctx_done s) c a ss with
          | Some (e, _) => effect_actions i (conn_id c) e
          | None => []
          end
      | _, _ => []
      end
  | Routing a => [a]
  | CtxDone => []
  | CancelSession i => [Conn i Router.Cancel]
  end.

Fixpoint trace (acts : list action) (s : server) : list Router.action :=
  match acts with
  | [] => []
  | a :: acts => router_actions a s ++ match step a s with Some s => trace acts s | None => [] end
  end.

Lemma router_run_app acts1 acts2 r :
  Router.run malformed (acts1 ++ acts2) r = (r1 ← Router.run malformed acts1 r; Router.run malformed acts2 r1).
Proof.
  revert r. induction acts1 as [|a acts1 IH]; intros r; simpl; [done|]. by destruct (Router.step malformed a r); simpl.
Qed.

Lemma router_run_one a r : Router.run malformed [a] r = Router.step malformed a r.
Proof. simpl. by destruct (Router.step malformed a r). Qed.

Lemma apply_effect_run i id e r : apply_effect malformed i id e r = Router.run malformed (effect_actions i id e) r.
Proof. destruct e; cbn [apply_effect effect_actions]; by rewrite ?router_run_one. Qed.

Lemma step_refines a s s' :
  step a s = Some s' ->
  Router.run malformed (router_actions a s) (clientConnectionRouter s) = Some (clientConnectionRouter s').
Proof.
  intros Hs. destruct a as [origin up next|i a|a| |i]; cbn [Transports.step router_actions] in *.
  - unfold on_request in Hs. destruct (check_origin s origin && up); [|by simplify_eq]. rewrite router_run_one.
    apply bind_Some in Hs as (r & Hr & Hs). rewrite Hr. case_match; by simplify_eq.
  - apply bind_Some in Hs as (ss & Hss & Hs). apply bind_Some in Hs as (c & Hc & Hs). rewrite Hss, Hc.
    apply bind_Some in Hs as ([e ss'] & -> & Hs). apply bind_Some in Hs as (r & Hr & Hs). simplify_eq.
    by rewrite <- apply_effect_run.
  - rewrite router_run_one. case_match; [|done]. apply bind_Some in Hs as (r & Hr & Hs). by simplify_eq.
  - by simplify_eq.
  - rewrite router_run_one. case_match; [|done]. apply bind_Some in Hs as (r & Hr & Hs). by simplify_eq.
Qed.

Lemma run_refines acts s s' :
  run acts s = Some s' ->
  Router.run malformed (trace acts s) (clientConnectionRouter s) = Some (clientConnectionRouter s').
Proof.
  revert s. induction acts as [|a acts IH]; intros s Hr; simpl in *; [by simplify_eq|].
  destruct (step a s) as [s1|] eqn:Hs; [|done]. rewrite router_run_app, (step_refines _ _ _ Hs). simpl. auto.
Qed.

Lemma arrived_app i acts1 acts2 : arrived i (acts1 ++ acts2) = arrived i acts1 ++ arrived i acts2.
Proof. apply bind_app. Qed.

(** ** Sessions and connections *)

(** What a session's reads gave that its transport forwards. *)
Definition received_now (k : transport) (i : nat) (a : action) : list (list Z) :=
  match a with
  | Session j (Read (Message binary payload)) =>
      if bool_decide (j = i) && match k with WebSocket => binary | WebTransport => true end then [payload] else []
  | _ => []
  end.
Definition received (k : transport) (i : nat) (acts : list action) : list (list Z) := acts ≫= received_now k i.

Definition pending (r : reader) : list (list Z) := match r with Forwarding payload => [payload] | _ => [] end.

Record session_ok (m : gmap Z nat) (i : nat) (ss : session) (c : conn) (A R : list (list Z)) : Prop := {
  ok_in : A ++ pending (rd ss) = R;
  ok_out : (attempts ss).*1 = written c;
  ok_reader : rd ss = Telling \/ rd ss = ReaderDone -> cancelled c = true;
  ok_writer : wr ss = WriterDone -> cancelled c = true;
  ok_handler : handler ss = Serving \/ (rd ss = ReaderDone /\ wr ss = WriterDone);
  ok_ended : handler ss = Returned -> ended ss = true;
  ok_known : m !! conn_id c = Some i <-> handler ss = Serving;
  ok_early : ph c = AwaitAuth -> untold c /\ wr ss = Selecting
}.

Record server_ok (s : server) (A R : nat -> list (list Z)) : Prop := {
  ok_length : length (sessions s) = length (conns (clientConnectionRouter s));
  ok_sessions : forall i ss c, sessions s !! i = Some ss -> conns (clientConnectionRouter s) !! i = Some c ->
    session_ok (connections (clientConnectionRouter s)) i ss c (A i) (R i);
  ok_fresh : forall i, (length (sessions s) <= i)%nat -> A i = [] /\ R i = [];
  ok_ids : ids_ok (clientConnectionRouter s)
}.

(** What the router's own goroutines leave as it is. *)
Record undisturbed (c c' : conn) : Prop := {
  same_id : conn_id c' = conn_id c;
  same_written : written c' = written c;
  still_cancelled : cancelled c = true -> cancelled c' = true;
  early_kept : (ph c = AwaitAuth -> untold c) -> ph c' = AwaitAuth -> ph c = AwaitAuth /\ untold c'
}.

Lemma session_ok_undisturbed m i ss c c' A R :
  undisturbed c c' -> session_ok m i ss c A R -> session_ok m i ss c' A R.
Proof.
  intros [Hid Hw Hc He] [H1 H2 H3 H4 H5 H6 H7 H8]. split; try done; rewrite ?Hid, ?Hw; auto.
  intros Hp. destruct He as [He ?]; [by intros ?; apply H8 | done |]. split; [done | by apply H8].
Qed.

Definition not_transport (a : conn_action) : bool :=
  match a with Arrive _ | Leave | Router.Cancel | TakeOut | TakeClose => false | _ => true end.

Lemma conn_step_undisturbed inQ outQ locked known a c c' :
  not_transport a = true \/ a = Router.Cancel ->
  conn_step malformed inQ outQ locked known a c = Some c' -> undisturbed c c'.
Proof.
  intros Ha Hs. pose proof (conn_step_id _ _ _ _ _ _ _ _ Hs) as Hid. pose proof (untold_step _ _ _ _ _ _ _ _ Hs) as Hu.
  split; [done | | | intros He Hp; split; [|auto]].
  all: destruct Ha as [Ha | ->]; [destruct a; try done|].
  all: clear Hid Hu; destruct c; conn_cases Hs; simpl in *; done.
Qed.

Lemma deliver_undisturbed outQ d c c' : deliver outQ d c = Some c' -> undisturbed c c'.
Proof.
  intros Hd. pose proof (deliver_id _ _ _ _ Hd). destruct d; simpl in Hd; case_match; simplify_eq; split; done || naive_solver.
Qed.
Lemma undisturbed_refl c : undisturbed c c.
Proof. split; naive_solver. Qed.

(** The clauses of [session_ok] after a step of the session. *)
Ltac session_goals :=
  split; simpl; rewrite ?app_nil_r, ?fmap_app; simpl;
  try done; try congruence; try tauto; try (by intros; destruct_or?; destruct_and?; auto);
  try (intros Hp; match goal with H : ph _ = AwaitAuth -> _ |- _ => destruct (H Hp); congruence end).

(** One step of a session, seen from its connection. *)
Lemma session_step_ok m k ctx i c a ss e ss' A R :
  session_step k ctx c a ss = Some (e, ss') -> session_ok m i ss c A R ->
  match e with
  | Nothing => session_ok m i ss' c A (R ++ received_now k i (Session i a))
  | OnConn ca => forall inQ outQ locked known c', conn_step malformed inQ outQ locked known ca c = Some c' ->
      session_ok m i ss' c' (A ++ arrives ca) (R ++ received_now k i (Session i a))
  | Unregister => session_ok (delete (conn_id c) m) i ss' c A (R ++ received_now k i (Session i a))
  end.
Proof.
  intros Hs [H1 H2 H3 H4 H5 H6 H7 H8]. destruct ss as [r w h en at_]. simpl in *.
  destruct a; simpl in Hs |- *; rewrite ?app_nil_r.
  - simplify_eq. by split.
  - destruct r; try done. simplify_eq. simpl.
    destruct k, r0 as [[] payload|]; simpl; rewrite ?bool_decide_true by done; session_goals.
  - destruct r; simplify_eq; intros inQ outQ locked known c' Hc; simpl in Hc;
      try (case_match; [|done]); simplify_eq; session_goals.
  - destruct w, (outgoingPackets c) as [|p ps] eqn:Hp; simplify_eq. intros inQ outQ locked known c' Hc. simpl in Hc.
    rewrite Hp in Hc. simplify_eq. unfold on_write, attempted. assert (Hph : ph c <> AwaitAuth).
    { intros Hph. destruct (H8 Hph) as [Hu _]. unfold untold in Hu. destruct_and!. congruence. }
    destruct k; simpl; try case_match; session_goals.
  - destruct w; simplify_eq. intros inQ outQ locked known c' Hc. simpl in Hc. case_match eqn:Hlt; [|done]. simplify_eq.
    assert (Hph : ph c <> AwaitAuth).
    { intros Hph. destruct (H8 Hph) as [Hu _]. unfold untold in Hu. destruct_and!. apply Z.ltb_lt in Hlt. lia. }
    session_goals.
  - destruct w; try done. case_match; [|done]. simplify_eq. by split.
  - destruct w; simplify_eq; [|intros inQ outQ locked known c' Hc; simpl in Hc; simplify_eq]; session_goals.
  - destruct h; [destruct r, w|..]; simplify_eq; try (intros inQ outQ locked known c' Hc; simpl in Hc; simplify_eq);
      session_goals; [by rewrite lookup_delete_eq | by rewrite H7 | by rewrite H7].
Qed.
(** Steps that leave the sessions alone. *)
Lemma server_ok_router s s' A R :
  server_ok s A R -> sessions s' = sessions s ->
  connections (clientConnectionRouter s') = connections (clientConnectionRouter s) ->
  length (conns (clientConnectionRouter s')) = length (conns (clientConnectionRouter s)) ->
  (forall i c', conns (clientConnectionRouter s') !! i = Some c' ->
     exists c, conns (clientConnectionRouter s) !! i = Some c /\ undisturbed c c') ->
  ids_ok (clientConnectionRouter s') -> server_ok s' A R.
Proof.
  intros [H1 H2 H3 H4] Hs Hm Hl Hc Hi. split; rewrite ?Hs, ?Hl; auto.
  intros i ss c' Hss Hc'. rewrite Hm. destruct (Hc _ _ Hc') as (c & Hci & Hu). eauto using session_ok_undisturbed.
Qed.

Lemma set_conns_undisturbed r i c c' :
  conns r !! i = Some c -> undisturbed c c' -> forall j cj', conns (set_conns (<[i := c']> (conns r)) r) !! j = Some cj' ->
  exists cj, conns r !! j = Some cj /\ undisturbed cj cj'.
Proof.
  intros Hc Hu j cj' Hj. simpl in Hj. apply list_lookup_insert_Some in Hj as [(<- & <- & _) | [_ Hj]]; [eauto|].
  eauto using undisturbed_refl.
Qed.

(** A request that opens a connection. *)
Lemma server_ok_open s A R id :
  server_ok s A R -> connections (clientConnectionRouter s) !! id = None ->
  server_ok (with_sessions (sessions s ++ [new_session]) (with_router
    (mkRouter (IncomingMessageQueueLength (clientConnectionRouter s)) (OutgoingMessageQueueLength (clientConnectionRouter s))
      (<[id := length (conns (clientConnectionRouter s))]> (connections (clientConnectionRouter s)))
      (conns (clientConnectionRouter s) ++ [new_conn id]) (listener (clientConnectionRouter s))) s)) A R.
Proof.
  intros [H1 H2 H3 H4] Hid. set (r := clientConnectionRouter s) in *. split; simpl.
  - rewrite !length_app. simpl. lia.
  - intros i ss c Hss Hc. apply lookup_app_Some in Hss as [Hss | [Hle Hss]].
    + rewrite lookup_app_l in Hc by (rewrite <- H1; by eapply lookup_lt_Some).
      destruct (H2 _ _ _ Hss Hc) as [G1 G2 G3 G4 G5 G6 G7 G8]. split; try done. rewrite <- G7.
      destruct (decide (conn_id c = id)) as [<-|Hne]; [|by rewrite lookup_insert_ne].
      rewrite lookup_insert_eq, Hid. apply lookup_lt_Some in Hss. split; [intros [= <-]; lia | done].
    + apply list_lookup_singleton_Some in Hss as [Hi <-]. rewrite lookup_app_r in Hc by lia.
      replace (i - length (conns r))%nat with 0%nat in Hc by lia. simpl in Hc. simplify_eq.
      destruct (H3 i) as [-> ->]; [done|]. split; simpl; try done; [by intros [?|?] | by left |].
      rewrite lookup_insert_eq. split; [done|]. intros _. f_equal. lia.
  - intros i Hi. rewrite length_app in Hi. simpl in Hi. apply H3. lia.
  - intros id' i Hi. simpl in *. apply lookup_insert_Some in Hi as [[-> <-] | [_ Hi]].
    + exists (new_conn id'). by rewrite list_lookup_middle.
    + destruct (H4 _ _ Hi) as (c & Hc & ?). exists c. split; [by apply lookup_app_l_Some | done].
Qed.

(** The step of a session. *)
Lemma server_ok_session s A R A' R' i ss c ss' c' m r' :
  server_ok s A R -> sessions s !! i = Some ss -> conns (clientConnectionRouter s) !! i = Some c ->
  connections r' = m -> conns r' = <[i := c']> (conns (clientConnectionRouter s)) -> ids_ok r' ->
  (m = connections (clientConnectionRouter s) \/
   m = delete (conn_id c) (connections (clientConnectionRouter s)) /\ connections (clientConnectionRouter s) !! conn_id c = Some i) ->
  session_ok m i ss' c' (A' i) (R' i) -> (forall j, j <> i -> A' j = A j /\ R' j = R j) ->
  server_ok (with_router r' (with_sessions (<[i := ss']> (sessions s)) s)) A' R'.
Proof.
  intros [H1 H2 H3 H4] Hss Hc Hm Hcs Hids Hmm Hok Heq. split; simpl.
  - by rewrite Hcs, !length_insert.
  - rewrite Hm, Hcs. intros j ssj cj Hj Hcj. destruct (decide (j = i)) as [->|Hne].
    + rewrite list_lookup_insert_eq in Hj by (by eapply lookup_lt_Some).
      rewrite list_lookup_insert_eq in Hcj by (by eapply lookup_lt_Some). by simplify_eq.
    + rewrite list_lookup_insert_ne in Hj by done.
      rewrite list_lookup_insert_ne in Hcj by done. destruct (Heq j Hne) as [-> ->].
      destruct (H2 _ _ _ Hj Hcj) as [G1 G2 G3 G4 G5 G6 G7 G8]. split; try done. rewrite <- G7.
      destruct Hmm as [-> | [-> Hi]]; [done|]. rewrite lookup_delete_Some. split; [naive_solver|].
      intros Hcj'. split; [|done]. intros E. rewrite <- E in Hcj'. congruence.
  - intros j Hj. rewrite length_insert in Hj. destruct (Heq j) as [-> ->]; [|by apply H3].
    intros ->. apply lookup_lt_Some in Hss. lia.
  - done.
Qed.

Lemma server_ok_ext s A R A' R' : (forall i, A' i = A i /\ R' i = R i) -> server_ok s A R -> server_ok s A' R'.
Proof.
  intros Heq [H1 H2 H3 H4]. split; [done | | | done]; intros i; destruct (Heq i) as [-> ->]; auto.
Qed.

Lemma router_length a i r r' : Router.step malformed (Conn i a) r = Some r' -> length (conns r') = length (conns r).
Proof.
  intros Hs. simpl in Hs. apply bind_Some in Hs as (c & _ & Hs). apply bind_Some in Hs as (c' & _ & Hs). simplify_eq.
  apply length_insert.
Qed.

Lemma arrived_conn i j a : arrived j [Conn i a] = if decide (j = i) then arrives a else [].
Proof.
  unfold arrived. simpl. rewrite app_nil_r. unfold arrived_now, arrives. case_decide; subst.
  - destruct a; try done. by rewrite bool_decide_true.
  - destruct a; try done. by rewrite bool_decide_false.
Qed.

(** The router's own goroutines, and the cancelled context. *)
Lemma server_ok_conn s s' i a A R :
  server_ok s A R -> not_transport a = true \/ a = Router.Cancel ->
  Router.step malformed (Conn i a) (clientConnectionRouter s) = Some (clientConnectionRouter s') ->
  sessions s' = sessions s -> server_ok s' A R.
Proof.
  intros Hok Ha Hs Hss. pose proof (ids_ok_step _ _ _ _ Hs (ok_ids _ _ _ Hok)) as Hids.
  pose proof (router_length _ _ _ _ Hs) as Hl. simpl in Hs. apply bind_Some in Hs as (c & Hc & Hs).
  apply bind_Some in Hs as (c' & Hs & Hr). eapply server_ok_router; [exact Hok | done | by injection Hr as <- | done | | done].
  injection Hr as <-. eauto using set_conns_undisturbed, conn_step_undisturbed.
Qed.

Lemma server_ok_deliver s s' A R :
  server_ok s A R -> Router.step malformed Deliver (clientConnectionRouter s) = Some (clientConnectionRouter s') ->
  sessions s' = sessions s -> server_ok s' A R.
Proof.
  intros Hok Hs Hss. pose proof (ids_ok_step _ _ _ _ Hs (ok_ids _ _ _ Hok)) as Hids.
  simpl in Hs. destruct (listener _) as [|d|] eqn:Hl; try done.
  destruct (connections (clientConnectionRouter s) !! delivery_id d) as [i|].
  - apply bind_Some in Hs as (c & Hc & Hs). apply bind_Some in Hs as (c' & Hs & Hr).
    eapply server_ok_router; [exact Hok | done | by injection Hr as <- | injection Hr as <-; apply length_insert | | done].
    injection Hr as <-. eauto using set_conns_undisturbed, deliver_undisturbed.
  - injection Hs as Hr. eapply server_ok_router; [exact Hok | done | by rewrite <- Hr | by rewrite <- Hr | | done].
    rewrite <- Hr. eauto using undisturbed_refl.
Qed.

Lemma server_ok_session_step i a s s' A R :
  step (Session i a) s = Some s' -> server_ok s A R ->
  server_ok s' (fun j => A j ++ arrived j (router_actions (Session i a) s)) (fun j => R j ++ received_now (kind s) j (Session i a)).
Proof.
  intros Hs Hok. cbn [Transports.step router_actions] in *.
  apply bind_Some in Hs as (ss & Hss & Hs). apply bind_Some in Hs as (c & Hc & Hs). rewrite Hss, Hc.
  apply bind_Some in Hs as ([e ss'] & Hstep & Hs). rewrite Hstep. apply bind_Some in Hs as (r & Hr & Hs). simpl in Hr.
  injection Hs as <-. pose proof (session_step_ok _ _ _ _ _ _ _ _ _ _ _ Hstep (ok_sessions _ _ _ Hok _ _ _ Hss Hc)) as Hone.
  assert (Hother : forall j, j <> i ->
    A j ++ arrived j (effect_actions i (conn_id c) e) = A j /\ R j ++ received_now (kind s) j (Session i a) = R j).
  { intros j Hne. split; [|destruct a as [|[]| | | | | |]; simpl; rewrite ?bool_decide_false by congruence; apply app_nil_r].
    destruct e; cbn [effect_actions]; [apply app_nil_r | rewrite arrived_conn, decide_False by done; apply app_nil_r |].
    apply app_nil_r. }
  destruct e as [|ca|]; cbn [apply_effect effect_actions] in *.
  + injection Hr as <-. eapply server_ok_session; [exact Hok | exact Hss | exact Hc | reflexivity | | apply Hok | by left | | exact Hother].
    * by rewrite list_insert_id.
    * simpl. by rewrite app_nil_r.
  + pose proof (ids_ok_step _ _ _ _ Hr (ok_ids _ _ _ Hok)) as Hids. simpl in Hr. rewrite Hc in Hr. simpl in Hr.
    apply bind_Some in Hr as (c' & Hc' & Hr). injection Hr as <-.
    eapply server_ok_session; [exact Hok | exact Hss | exact Hc | reflexivity | reflexivity | exact Hids | by left | | exact Hother].
    cbn beta. rewrite arrived_conn, decide_True by done. eauto.
  + pose proof (ids_ok_step _ _ _ _ Hr (ok_ids _ _ _ Hok)) as Hids. simpl in Hr. case_match; [|done]. injection Hr as <-.
    eapply server_ok_session; [exact Hok | exact Hss | exact Hc | reflexivity | | exact Hids | right; split; [done|] | | exact Hother].
    * simpl. by rewrite list_insert_id.
    * apply (ok_sessions _ _ _ Hok _ _ _ Hss Hc). destruct a; simpl in Hstep; repeat case_match; congruence.
    * simpl. by rewrite app_nil_r.
Qed.

Lemma server_ok_routing a s s' A R :
  step (Routing a) s = Some s' -> server_ok s A R ->
  server_ok s' (fun i => A i ++ arrived i (router_actions (Routing a) s)) (fun i => R i ++ received_now (kind s) i (Routing a)).
Proof.
  intros Hs Hok. apply (server_ok_ext _ A R).
  { intros i. cbn [router_actions received_now]. rewrite app_nil_r. split; [|done]. cbn [Transports.step] in Hs.
    destruct a; simpl; try (by rewrite app_nil_r). destruct a; simpl in *; try done; by rewrite app_nil_r. }
  cbn [Transports.step] in Hs. destruct (routers_own s a) eqn:Hown; [|done]. apply bind_Some in Hs as (r & Hr & Hs).
  injection Hs as <-. destruct a as [next|id|d| | |i a]; try done.
  + simpl in Hr. case_match; try done. simplify_eq. eapply server_ok_router; [exact Hok | done..| |apply Hok].
    simpl. eauto using undisturbed_refl.
  + by eapply server_ok_deliver.
  + simpl in Hr. case_match; try done. simplify_eq. eapply server_ok_router; [exact Hok | done..| |apply Hok].
    simpl. eauto using undisturbed_refl.
  + eapply server_ok_conn; [exact Hok | left | exact Hr | done]. by destruct a.
Qed.

Lemma server_ok_step a s s' A R :
  step a s = Some s' -> server_ok s A R ->
  server_ok s' (fun i => A i ++ arrived i (router_actions a s)) (fun i => R i ++ received_now (kind s) i a).
Proof.
  intros Hs Hok. destruct a as [origin up next|i a|a| |i].
  - apply (server_ok_ext _ A R).
    { intros i. simpl. case_match; simpl; by rewrite !app_nil_r. }
    cbn [Transports.step] in Hs. unfold on_request in Hs. case_match; [|by simplify_eq].
    apply bind_Some in Hs as (r & Hr & Hs). simpl in Hr.
    assert (Hsame : server_ok (with_router (clientConnectionRouter s) s) A R) by (by destruct s).
    destruct next as [e|id]; [simplify_eq; rewrite Nat.ltb_irrefl; exact Hsame|].
    destruct (unlocked _); [|done].
    destruct (connections (clientConnectionRouter s) !! id) eqn:Hid; simplify_eq; [rewrite Nat.ltb_irrefl; exact Hsame|].
    simpl. rewrite length_app, (proj2 (Nat.ltb_lt _ _)) by (simpl; lia). by apply server_ok_open.
  - by apply server_ok_session_step.
  - by apply server_ok_routing.
  - apply (server_ok_ext _ A R); [intros i; simpl; by rewrite !app_nil_r|]. simpl in Hs. simplify_eq. by destruct Hok.
  - apply (server_ok_ext _ A R).
    { intros j. cbn [router_actions received_now]. rewrite arrived_conn. simpl. case_decide; by rewrite !app_nil_r. }
    cbn [Transports.step] in Hs. case_match; [|done]. apply bind_Some in Hs as (r & Hr & Hs). injection Hs as <-.
    eapply server_ok_conn; [exact Hok | by right | exact Hr | done].
Qed.

(** ** Runs *)
Definition start_server (k : transport) (origin_ok : string -> bool) (incoming outgoing : Z) : server :=
  mkServer k origin_ok (CreateClientConnectionRouter incoming outgoing) [] false.

Lemma constant_step a s s' : step a s = Some s' -> kind s' = kind s /\ check_origin s' = check_origin s.
Proof.
  intros Hs. destruct a; cbn [Transports.step] in Hs; unfold on_request in Hs;
    repeat first [ match type of Hs with (_ ≫= _) = Some _ => apply bind_Some in Hs as (? & ? & Hs) end | case_match ];
    by simplify_eq.
Qed.

Lemma constant_run acts s s' : run acts s = Some s' -> kind s' = kind s /\ check_origin s' = check_origin s.
Proof.
  revert s. induction acts as [|a acts IH]; intros s Hr; simpl in Hr; [by simplify_eq|].
  destruct (step a s) as [s1|] eqn:Hs; [|done]. destruct (IH _ Hr) as [-> ->]. by eapply constant_step.
Qed.

Lemma server_ok_run acts s s' A R :
  run acts s = Some s' -> server_ok s A R ->
  server_ok s' (fun i => A i ++ arrived i (trace acts s)) (fun i => R i ++ received (kind s) i acts).
Proof.
  revert s A R. induction acts as [|a acts IH]; intros s A R Hr Hok; simpl in Hr.
  - simplify_eq. eapply server_ok_ext; [|exact Hok]. intros i. by rewrite !app_nil_r.
  - destruct (step a s) as [s1|] eqn:Hs; [|done].
    eapply server_ok_ext; [|eapply IH; [exact Hr | eapply server_ok_step; [exact Hs | exact Hok]]].
    intros i. cbn [trace]. rewrite Hs, arrived_app, (proj1 (constant_step _ _ _ Hs)). unfold received. simpl.
    by rewrite !(assoc_L (++)).
Qed.

Lemma server_reachable k origin_ok incoming outgoing acts s :
  let s0 := start_server k origin_ok incoming outgoing in
  run acts s0 = Some s ->
  server_ok s (fun i => arrived i (trace acts s0)) (fun i => received k i acts) /\
  Router.run malformed (trace acts s0) (CreateClientConnectionRouter incoming outgoing) = Some (clientConnectionRouter s).
Proof.
  intros s0 Hr. split; [|exact (run_refines _ _ _ Hr)].
  apply (server_ok_run acts s0 s (fun _ => []) (fun _ => [])); [done | by split].
Qed.

(** What one action can do to a session and its connection. *)
Inductive moves : session -> conn -> session -> conn -> Prop :=
| move_none ss c : moves ss c ss c
| move_router inQ outQ locked known a ss c c' : not_transport a = true \/ a = Router.Cancel ->
    conn_step malformed inQ outQ locked known a c = Some c' -> moves ss c ss c'
| move_deliver outQ d ss c c' : deliver outQ d c = Some c' -> moves ss c ss c'
| move_session k ctx a ss c e ss' : session_step k ctx c a ss = Some (e, ss') -> (forall ca, e <> OnConn ca) -> moves ss c ss' c
| move_both k ctx a ss c ca ss' inQ outQ locked known c' : session_step k ctx c a ss = Some (OnConn ca, ss') ->
    conn_step malformed inQ outQ locked known ca c = Some c' -> moves ss c ss' c'.

Lemma moves_insert (sss : list session) (cs : list conn) i j ss c ssj cj ss' c' :
  sss !! i = Some ss -> cs !! i = Some c -> sss !! j = Some ssj -> cs !! j = Some cj -> moves ssj cj ss' c' ->
  exists ss1 c1, <[j := ss']> sss !! i = Some ss1 /\ <[j := c']> cs !! i = Some c1 /\ moves ss c ss1 c1.
Proof.
  intros Hss Hc Hssj Hcj Hm. destruct (decide (j = i)) as [->|Hne].
  - simplify_eq. exists ss', c'. rewrite !list_lookup_insert_eq by (by eapply lookup_lt_Some). auto.
  - exists ss, c. rewrite !list_lookup_insert_ne by done. auto using move_none.
Qed.

Lemma moves_conn (sss : list session) (cs : list conn) i j ss c cj c' :
  sss !! i = Some ss -> cs !! i = Some c -> cs !! j = Some cj -> (forall ss, moves ss cj ss c') ->
  exists ss1 c1, sss !! i = Some ss1 /\ <[j := c']> cs !! i = Some c1 /\ moves ss c ss1 c1.
Proof.
  intros Hss Hc Hcj Hm. destruct (decide (j = i)) as [->|Hne].
  - simplify_eq. exists ss, c'. rewrite list_lookup_insert_eq by (by eapply lookup_lt_Some). auto.
  - exists ss, c. rewrite list_lookup_insert_ne by done. auto using move_none.
Qed.

Lemma step_moves a s s' i ss c :
  step a s = Some s' -> sessions s !! i = Some ss -> conns (clientConnectionRouter s) !! i = Some c ->
  exists ss' c', sessions s' !! i = Some ss' /\ conns (clientConnectionRouter s') !! i = Some c' /\ moves ss c ss' c'.
Proof.
  intros Hs Hss Hc.
  destruct a as [origin up next|j a|a| |j]; cbn [Transports.step] in Hs.
  - unfold on_request in Hs. case_match; [|simplify_eq; eauto using move_none].
    apply bind_Some in Hs as (r1 & Hr & Hs). injection Hs as <-. exists ss, c.
    assert (conns r1 !! i = Some c).
    { simpl in Hr. destruct next; [by simplify_eq|]. destruct (unlocked _); [|done].
      case_match; simplify_eq; [done|]. by apply lookup_app_l_Some. }
    case_match; simpl; split_and!; try done; try apply move_none. by apply lookup_app_l_Some.
  - apply bind_Some in Hs as (ssj & Hssj & Hs). apply bind_Some in Hs as (cj & Hcj & Hs).
    apply bind_Some in Hs as ([e ss'] & Hstep & Hs). apply bind_Some in Hs as (r1 & Hr & Hs). injection Hs as <-. simpl in Hr |- *.
    destruct e as [|ca|]; simpl in Hr.
    + injection Hr as <-. rewrite <- (list_insert_id (conns _) _ _ Hcj). eapply moves_insert; [done..|]. by eapply move_session.
    + rewrite Hcj in Hr. simpl in Hr. apply bind_Some in Hr as (c' & Hc' & Hr). injection Hr as <-.
      eapply moves_insert; [done..|]. by eapply move_both.
    + destruct (unlocked _); [|done]. injection Hr as <-. simpl. rewrite <- (list_insert_id (conns _) _ _ Hcj).
      eapply moves_insert; [done..|]. by eapply move_session.
  - destruct (routers_own s a) eqn:Hown; [|done]. apply bind_Some in Hs as (r1 & Hr & Hs). injection Hs as <-.
    destruct a as [next|id|d| | |j a]; try done; simpl in Hr.
    + case_match; try done. simplify_eq. eauto using move_none.
    + case_match; try done. case_match; [|simplify_eq; by eauto using move_none].
      apply bind_Some in Hr as (cj & Hcj & Hr). apply bind_Some in Hr as (c' & Hc' & Hr). injection Hr as <-.
      eapply moves_conn; [done..|]. intros. by eapply move_deliver.
    + case_match; try done. simplify_eq. eauto using move_none.
    + apply bind_Some in Hr as (cj & Hcj & Hr). apply bind_Some in Hr as (c' & Hc' & Hr). injection Hr as <-.
      eapply moves_conn; [done..|]. intros. eapply move_router; [|exact Hc']. left. by destruct a.
  - simplify_eq. eauto using move_none.
  - case_match; [|done]. apply bind_Some in Hs as (r1 & Hr & Hs). injection Hs as <-.
    apply bind_Some in Hr as (cj & Hcj & Hr). apply bind_Some in Hr as (c' & Hc' & Hr). injection Hr as <-.
    eapply moves_conn; [done..|]. intros. eapply move_router; [by right | exact Hc'].
Qed.

Lemma moves_kept (Q : session -> conn -> Prop) acts s s' i ss c :
  (forall ss c ss' c', moves ss c ss' c' -> Q ss c -> Q ss' c') ->
  run acts s = Some s' -> sessions s !! i = Some ss -> conns (clientConnectionRouter s) !! i = Some c -> Q ss c ->
  exists ss' c', sessions s' !! i = Some ss' /\ conns (clientConnectionRouter s') !! i = Some c' /\ Q ss' c'.
Proof.
  intros HQ. revert s ss c. induction acts as [|a acts IH]; intros s ss c Hr Hss Hc Hq; simpl in Hr; [simplify_eq; eauto|].
  destruct (step a s) as [s1|] eqn:Hs; [|done]. destruct (step_moves _ _ _ _ _ _ Hs Hss Hc) as (ss1 & c1 & ? & ? & ?). eauto.
Qed.

(** ** Theorems *)

(** C4: Whatever the clients, the network, the router and the hub do, in any order: what a server gave a client's
    socket to send, together with what still waits, is the verdict and then the data of the messages the hub delivered for that
    client, each once and in order; and the binary messages (or datagrams) read from the client are, in order, the handshake
    the request to the hub was made from, the messages the hub got under the client's id, and those still on their way. *)
Theorem session_streams k origin_ok incoming outgoing acts s i ss c :
  let s0 := start_server k origin_ok incoming outgoing in
  run acts s0 = Some s -> sessions s !! i = Some ss -> conns (clientConnectionRouter s) !! i = Some c ->
  exists tr hello first opening fw closing rest,
    Router.run malformed tr (CreateClientConnectionRouter incoming outgoing) = Some (clientConnectionRouter s) /\
    (attempts ss).*1 ++ outgoingPackets c ++ held c ++ map Data (outgoingMessages c) =
      hello ++ sent_data (delivered malformed i tr (CreateClientConnectionRouter incoming outgoing)) /\
    hello_ok (ph c) (sent_verdicts (delivered malformed i tr (CreateClientConnectionRouter incoming outgoing))) hello /\
    received k i acts = first ++ rest ++ incomingPackets c ++ pending (rd ss) /\
    outbox c = opening ++ map FromTransport fw ++ closing /\ opened malformed (conn_id c) first opening /\
    (closing = [] \/ closing = [CloseMe (conn_id c)]) /\
    map Data fw = map Some rest /\ Forall (fun m => msg_ClientId m = conn_id c) fw.
Proof.
  intros s0 Hr Hss Hc. destruct (server_reachable _ _ _ _ _ _ Hr) as [Hok Htr].
  pose proof (ok_sessions _ _ _ Hok _ _ _ Hss Hc) as [Hin Hout _ _ _ _ _ _].
  destruct (conn_reachable malformed (fun c ds _ => flow_out c ds) flow_out_new
    (fun _ _ _ _ _ _ _ _ _ => flow_out_step _ _ _ _ _ _ _ _ _) (fun _ _ _ _ _ _ => flow_out_deliver _ _ _ _ _)
    _ _ _ _ _ _ Htr Hc) as [(hello & Hto & Hh & _) _].
  destruct (conn_reachable malformed (fun c _ ps => flow_in malformed c ps) (flow_in_new malformed)
    (fun _ _ _ _ _ _ _ _ _ => flow_in_step malformed _ _ _ _ _ _ _ _)) with (3 := Hc) (2 := Htr)
    as (first & opening & fw & closing & rest & Hob & Hop & Hcl & Hps & Hfw & Hid & _).
  { intros outQ d c0 c1 ds ps Hd Hf. destruct d; simpl in Hd; case_match; simplify_eq; exact Hf. }
  exists (trace acts s0), hello, first, opening, fw, closing, rest. rewrite Hout.
  split_and!; try done. by rewrite <- Hin, Hps, <- !(assoc_L (++)).
Qed.

(** C14: In every reachable state of a server: a connection is in the router's map, under its client id, exactly as
    long as the handler of its request waits for its goroutines; the handler goes on only when the reader and the writer
    have both finished and the connection's context is cancelled; and once it has returned the socket is closed. *)
Theorem session_lifecycle k origin_ok incoming outgoing acts s i ss c :
  run acts (start_server k origin_ok incoming outgoing) = Some s ->
  sessions s !! i = Some ss -> conns (clientConnectionRouter s) !! i = Some c ->
  (connections (clientConnectionRouter s) !! conn_id c = Some i <-> handler ss = Serving) /\
  (handler ss <> Serving -> rd ss = ReaderDone /\ wr ss = WriterDone /\ cancelled c = true) /\
  (handler ss = Returned -> ended ss = true).
Proof.
  intros Hr Hss Hc. destruct (server_reachable _ _ _ _ _ _ Hr) as [Hok _].
  destruct (ok_sessions _ _ _ Hok _ _ _ Hss Hc) as [_ _ Hrd _ Hh He Hk _]. split_and!; [done | | done].
  intros Hne. destruct Hh as [? | [Hd Hw]]; [done|]. auto.
Qed.

(** A session that nothing will end. *)
Definition silent (c : conn) : Prop :=
  ph c = Ended /\ outward c = Stopped /\ inward c = false /\ outgoingPackets c = [] /\ proxyClose c = 0.

Definition forgotten (id : Z) (ss : session) (c : conn) : Prop :=
  conn_id c = id /\ silent c /\ wr ss = Selecting /\ handler ss = Serving.

Lemma silent_step inQ outQ locked known a c c' :
  conn_step malformed inQ outQ locked known a c = Some c' ->
  silent c \/ ph c = AwaitAuth /\ untold c /\ ph c' = Ended -> silent c'.
Proof.
  intros Hs Hc. destruct c, a; conn_cases Hs; unfold silent, untold in *; simpl in *;
    destruct_or?; destruct_and?; simplify_eq; split_and?; congruence.
Qed.

Lemma forgotten_conn id inQ outQ locked known a ss c c' :
  conn_step malformed inQ outQ locked known a c = Some c' -> forgotten id ss c -> forgotten id ss c'.
Proof.
  intros Hs (Hid & Hu & ? & ?). pose proof (silent_step _ _ _ _ _ _ _ Hs (or_introl Hu)).
  unfold forgotten. by rewrite (conn_step_id _ _ _ _ _ _ _ _ Hs).
Qed.

Lemma forgotten_moves id ss c ss' c' : moves ss c ss' c' -> forgotten id ss c -> forgotten id ss' c'.
Proof.
  intros Hm Hf. destruct Hm as [|? ? ? ? ? ? ? ? _ Hs | ? d ? ? ? Hs | k ctx a ss c e ss' Hs Hno | k ctx a ss c ca ss' ? ? ? ? c' Hs Hc].
  - done.
  - by eapply forgotten_conn.
  - unfold forgotten, silent in *. destruct d; simpl in Hs; case_match; simplify_eq; exact Hf.
  - destruct Hf as (Hid & Hu & Hw & Hh). unfold forgotten.
    destruct a; simpl in Hs; rewrite ?Hw, ?Hh in Hs; repeat case_match; simplify_eq; try done; try (by destruct (Hno _ eq_refl)).
    all: unfold on_read; repeat case_match; done.
  - assert (Hf' : forgotten id ss c') by (by eapply forgotten_conn).
    destruct Hf as (Hid & Hu & Hw & Hh). unfold silent in Hu. destruct_and!.
    destruct a; simpl in Hs; rewrite ?Hw, ?Hh in Hs; repeat case_match; simplify_eq; try exact Hf'.
    simpl in Hc. case_match eqn:Hlt; [|done]. apply Z.ltb_lt in Hlt. lia.
Qed.

(** C26: When the router's first goroutine gives up on a connection before it has asked the hub (the client left without a handshake, or
    sent one that cannot be read, or the hub timed it out), the handler of that request never
    returns: in every later state the connection is still in the router's map and the writer still waits for a close
    request that does not come, so the proxy never closes the socket; and once the client is gone, a WebTransport session's writer
    can always take the case with the empty body, that is, it spins. *)
Theorem early_leaver_never_removed k origin_ok incoming outgoing before after a s s1 s2 i c c1 :
  run before (start_server k origin_ok incoming outgoing) = Some s ->
  conns (clientConnectionRouter s) !! i = Some c -> ph c = AwaitAuth ->
  step (Routing (Conn i a)) s = Some s1 -> conns (clientConnectionRouter s1) !! i = Some c1 -> ph c1 = Ended ->
  run after s1 = Some s2 ->
  exists ss2 c2, sessions s2 !! i = Some ss2 /\ conns (clientConnectionRouter s2) !! i = Some c2 /\
    handler ss2 = Serving /\ wr ss2 = Selecting /\ connections (clientConnectionRouter s2) !! conn_id c = Some i /\
    outgoingPackets c2 = [] /\ proxyClose c2 = 0 /\
    (k = WebTransport -> cancelled c2 = true -> session_step k (ctx_done s2) c2 Spin ss2 = Some (Nothing, ss2)).
Proof.
  intros Hr Hc Hph Hs Hc1 Hp1 Hr2.
  destruct (server_reachable _ _ _ _ _ _ Hr) as [Hok _].
  assert (exists ss, sessions s !! i = Some ss) as [ss Hss].
  { apply lookup_lt_is_Some. rewrite (ok_length _ _ _ Hok). by eapply lookup_lt_Some. }
  pose proof (ok_sessions _ _ _ Hok _ _ _ Hss Hc) as [_ _ _ _ Hh _ _ He]. destruct (He Hph) as [Hu Hw].
  assert (sessions s1 !! i = Some ss /\ forgotten (conn_id c) ss c1) as [Hss1 Hf].
  { cbn [Transports.step] in Hs. destruct (routers_own _ _) eqn:Hown; [|done]. apply bind_Some in Hs as (r & Hr1 & Hs).
    injection Hs as <-. split; [done|]. simpl in Hr1. rewrite Hc in Hr1. simpl in Hr1.
    apply bind_Some in Hr1 as (c1' & Hstep & Hr1). injection Hr1 as <-. simpl in Hc1.
    rewrite list_lookup_insert_eq in Hc1 by (by eapply lookup_lt_Some). simplify_eq.
    unfold forgotten. rewrite (conn_step_id _ _ _ _ _ _ _ _ Hstep). split_and!; try done.
    - eapply silent_step; [exact Hstep | by right].
    - destruct Hh as [?|[_ ?]]; [done | congruence]. }
  destruct (moves_kept _ _ _ _ _ _ _ (forgotten_moves (conn_id c)) Hr2 Hss1 Hc1 Hf) as (ss2 & c2 & Hss2 & Hc2 & Hid & Hu2 & Hw2 & Hh2).
  assert (Hr12 : run (before ++ Routing (Conn i a) :: after) (start_server k origin_ok incoming outgoing) = Some s2).
  { clear - Hr Hs Hr2. revert Hr. generalize (start_server k origin_ok incoming outgoing) as s0.
    induction before as [|b before IH]; intros s0 Hr; simpl in Hr |- *.
    - simplify_eq. change (match step (Routing (Conn i a)) s with Some s => run after s | None => None end = Some s2). by rewrite Hs.
    - destruct (step b s0); [auto | done]. }
  destruct (server_reachable _ _ _ _ _ _ Hr12) as [Hok2 _].
  pose proof (ok_sessions _ _ _ Hok2 _ _ _ Hss2 Hc2) as [_ _ _ _ _ _ Hk _]. unfold silent in Hu2. destruct_and!.
  exists ss2, c2. split_and!; try done; [by rewrite <- Hid; apply Hk|].
  intros -> Hcan. simpl. by rewrite Hw2, Hcan, orb_true_r.
Qed.
End with_fb.

(** ** Instances *)

(** A page over WebSocket: a request, a handshake, a text message that is dropped, acceptance, a message each way, and
    a shutdown of the client, up to the end of the handler. *)
Definition served_acts : list action :=
  [Request "https://game" true (inr 1);
   Session 0 (Read (Message true sample_handshake)); Session 0 ReaderStep; Session 0 (Read (Message false [0]));
   Routing (Conn 0 (OnPacket 5)); Routing (Take (DeliverVerdict (mkVerdict 1 true None None))); Routing Deliver;
   Routing (Conn 0 OnVerdict); Routing (Conn 0 Mark); Session 0 (Write true);
   Routing (Take (DeliverMessage (demo_message 7))); Routing Deliver; Routing (Conn 0 OutTake); Routing (Conn 0 OutPush);
   Session 0 (Write false); Session 0 (Read (Message true [9])); Session 0 ReaderStep; Routing (Conn 0 (InPacket 6));
   Session 0 (Read (Message true [10]))].

Definition left_acts : list action :=
  [Session 0 ReaderStep; Session 0 PeerCloses; Session 0 (Read ReadError); Session 0 ReaderStep; Session 0 ReaderStep;
   Routing (Conn 0 InCtx); Routing (Take (DeliverClose 1)); Routing Deliver; Routing (Conn 0 OutClose);
   Session 0 TakeProxyClose; Session 0 WriterStep; Session 0 WriterStep; Session 0 HandlerStep; Session 0 HandlerStep;
   Session 0 HandlerStep].

Abbreviation run_ws acts := (run (FB := FbRef) (fun _ => false) acts (start_server WebSocket (fun _ => true) 4 4)).
Abbreviation run_wt acts := (run (FB := FbRef) (fun _ => false) acts (start_server WebTransport (fun _ => true) 4 4)).

Lemma session_streams_witness : exists s ss c,
  run_ws served_acts = Some s /\ sessions s !! 0%nat = Some ss /\ conns (clientConnectionRouter s) !! 0%nat = Some c /\
  exists first rest, [sample_handshake; [9]; [10]] = first ++ rest ++ incomingPackets c ++ pending (rd ss).
Proof.
  destruct (run_ws served_acts) as [s|] eqn:Hr; [|vm_compute in Hr; discriminate Hr].
  destruct (sessions s !! 0%nat) as [ss|] eqn:Hss; [|vm_compute in Hr; injection Hr as <-; discriminate Hss].
  destruct (conns (clientConnectionRouter s) !! 0%nat) as [c|] eqn:Hc; [|vm_compute in Hr; injection Hr as <-; discriminate Hc].
  destruct (session_streams (FB := FbRef) (fun _ => false) WebSocket (fun _ => true) 4 4 served_acts s 0 ss c Hr Hss Hc)
    as (tr & hello & first & opening & fw & closing & rest & _ & _ & _ & H & _).
  exists s, ss, c. split_and!; [reflexivity | exact Hss | exact Hc |]. exists first, rest. exact H.
Defined.

Lemma session_lifecycle_witness : exists s ss c,
  run_ws (served_acts ++ left_acts) = Some s /\ sessions s !! 0%nat = Some ss /\
  conns (clientConnectionRouter s) !! 0%nat = Some c /\ handler ss = Returned /\
  ended ss = true /\ cancelled c = true /\ connections (clientConnectionRouter s) !! conn_id c <> Some 0%nat.
Proof.
  destruct (run_ws (served_acts ++ left_acts)) as [s|] eqn:Hr; [|vm_compute in Hr; discriminate Hr].
  destruct (sessions s !! 0%nat) as [ss|] eqn:Hss; [|vm_compute in Hr; injection Hr as <-; discriminate Hss].
  destruct (conns (clientConnectionRouter s) !! 0%nat) as [c|] eqn:Hc; [|vm_compute in Hr; injection Hr as <-; discriminate Hc].
  destruct (session_lifecycle (FB := FbRef) (fun _ => false) WebSocket (fun _ => true) 4 4 _ s 0 ss c Hr Hss Hc) as (H1 & H2 & H3).
  assert (Hh : handler ss = Returned) by (vm_compute in Hr; injection Hr as <-; injection Hss as <-; reflexivity).
  exists s, ss, c. split_and!; [reflexivity | exact Hss | exact Hc | exact Hh | exact (H3 Hh) | |].
  - apply H2. rewrite Hh. discriminate.
  - intros Hk. apply H1 in Hk. congruence.
Defined.

(** A WebTransport session whose client goes away before its handshake, and whom the hub then kicks. *)
Definition early_session : list action :=
  [Request EmptyString true (inr 1); Session 0 PeerCloses; Session 0 (Read ReadError); Session 0 ReaderStep;
   Session 0 ReaderStep].
Definition kicked_later : list action := [Routing (Take (DeliverClose 1)); Routing Deliver; Session 0 Spin].

Lemma early_leaver_never_removed_witness : exists s,
  run_wt (early_session ++ Routing (Conn 0 OnCtx) :: kicked_later) = Some s /\
  exists ss c, sessions s !! 0%nat = Some ss /\ conns (clientConnectionRouter s) !! 0%nat = Some c /\
    handler ss = Serving /\ connections (clientConnectionRouter s) !! 1 = Some 0%nat /\
    session_step WebTransport false c Spin ss = Some (Nothing, ss).
Proof.
  destruct (run_wt early_session) as [s|] eqn:Hr; [|vm_compute in Hr; discriminate Hr].
  destruct (conns (clientConnectionRouter s) !! 0%nat) as [c|] eqn:Hc; [|vm_compute in Hr; injection Hr as <-; discriminate Hc].
  destruct (step (FB := FbRef) (fun _ => false) (Routing (Conn 0 OnCtx)) s) as [s1|] eqn:Hs;
    [|vm_compute in Hr; injection Hr as <-; vm_compute in Hs; discriminate Hs].
  destruct (conns (clientConnectionRouter s1) !! 0%nat) as [c1|] eqn:Hc1;
    [|vm_compute in Hr; injection Hr as <-; vm_compute in Hs; injection Hs as <-; discriminate Hc1].
  destruct (run (FB := FbRef) (fun _ => false) kicked_later s1) as [s2|] eqn:Hr2;
    [|vm_compute in Hr; injection Hr as <-; vm_compute in Hs; injection Hs as <-; vm_compute in Hr2; discriminate Hr2].
  destruct (early_leaver_never_removed (FB := FbRef) (fun _ => false) WebTransport (fun _ => true) 4 4 early_session
    kicked_later (OnCtx) s s1 s2 0 c c1 Hr Hc) as (ss2 & c2 & H1 & H2 & H3 & H4 & H5 & _ & _ & H6);
    try (vm_compute in Hr; injection Hr as <-; injection Hc as <-; vm_compute in Hs; injection Hs as <-;
         vm_compute in Hc1; injection Hc1 as <-; first [reflexivity | exact Hr2]).

  exists s2. split.
  - vm_compute in Hr. injection Hr as <-. vm_compute in Hs. injection Hs as <-. rewrite <- Hr2. vm_compute. reflexivity.
  - exists ss2, c2. vm_compute in Hr. injection Hr as <-. injection Hc as <-. vm_compute in Hs. injection Hs as <-.
    vm_compute in Hr2. injection Hr2 as <-. split_and!; [exact H1 | exact H2 | exact H3 | exact H5 |].
    apply H6; [reflexivity|]. injection H2 as <-. reflexivity.
Defined.
