(* ===== verification/HubMain.v ===== *)
(** * The command (cmd/spanreed-hub/main.go)

    [main] reads its settings from the environment, which is a function from names to values
    (a variable that is not set is the empty string), creates the proxy and registers with it a
    handler for every server that is switched on. [strconv] and [strings.Split] are those of
    Go's library. [main] is [None] when it returns before anything runs. *)

From S2P Require Import Prelude JsPlatform FlatBuffers SpanreedMessages ClientStore Proxy GoMessages UdpDestination Router Transports.
From stdpp Require Import gmap pretty.
#[local] Open Scope Z_scope.

(** ** strconv and strings *)
Definition ParseBool (s : string) : option bool :=
  if bool_decide (s ∈ ["1"; "t"; "T"; "TRUE"; "true"; "True"]) then Some true
  else if bool_decide (s ∈ ["0"; "f"; "F"; "FALSE"; "false"; "False"]) then Some false
  else None.

(** The characters that matter, as bytes. *)
Definition c_0 : Z := 48.
Definition c_9 : Z := 57.
Definition c_a : Z := 97.
Definition c_z : Z := 122.
Definition c_f : Z := 102.
Definition c_b : Z := 98.
Definition c_o : Z := 111.
Definition c_x : Z := 120.
Definition c_underscore : Z := 95.
Definition c_plus : Z := 43.
Definition c_minus : Z := 45.

Definition lower (c : Z) : Z := Z.lor c 32.
Definition is_digit (c : Z) : bool := (c_0 <=? c) && (c <=? c_9).

Definition digit (c : Z) : option Z :=
  if is_digit c then Some (c - c_0)
  else if (c_a <=? lower c) && (lower c <=? c_z) then Some (lower c - c_a + 10)
  else None.

(** The loop over the digits; whether it saw an underscore. *)
Fixpoint parse_digits (base maxVal : Z) (s : list Z) (n : Z) (underscores : bool) : option (Z * bool) :=
  match s with
  | [] => Some (n, underscores)
  | c :: s =>
      if c =? c_underscore then parse_digits base maxVal s n true
      else
        match digit c with
        | Some d =>
            if base <=? d then None
            else if maxVal <? n * base + d then None
            else parse_digits base maxVal s (n * base + d) underscores
        | None => None
        end
  end.

(** Underscores only between digits, or after the prefix of the base. *)
Inductive saw : Type := SawStart | SawDigit | SawUnderscore | SawOther.

Fixpoint underscores_ok (hex : bool) (s : list Z) (last : saw) : bool :=
  match s with
  | [] => match last with SawUnderscore => false | _ => true end
  | c :: s =>
      if is_digit c || hex && (c_a <=? lower c) && (lower c <=? c_f) then underscores_ok hex s SawDigit
      else if c =? c_underscore then match last with SawDigit => underscores_ok hex s SawUnderscore | _ => false end
      else match last with SawUnderscore => false | _ => underscores_ok hex s SawOther end
  end.

Definition underscoreOK (s : list Z) : bool :=
  let s := match s with c :: s' => if (c =? c_minus) || (c =? c_plus) then s' else s | [] => s end in
  match s with
  | z :: p :: rest =>
      if (z =? c_0) && ((lower p =? c_b) || (lower p =? c_o) || (lower p =? c_x))
      then underscores_ok (lower p =? c_x) rest SawDigit else underscores_ok false s SawStart
  | _ => underscores_ok false s SawStart
  end.

(** [ParseUint(s, 0, bitSize)]: the base is in the prefix; a leading 0 alone means octal. *)
Definition base_prefix (s : list Z) : Z * list Z :=
  match s with
  | z :: rest =>
      if z =? c_0 then
        match rest with
        | p :: ((_ :: _) as digits) =>
            if lower p =? c_b then (2, digits)
            else if lower p =? c_o then (8, digits)
            else if lower p =? c_x then (16, digits)
            else (8, rest)
        | _ => (8, rest)
        end
      else (10, s)
  | [] => (10, s)
  end.

Definition ParseUint (str : string) (bitSize : Z) : option Z :=
  let s := go_bytes str in
  match s with
  | [] => None
  | _ =>
      let '(base, digits) := base_prefix s in
      match parse_digits base (2 ^ bitSize - 1) digits 0 false with
      | Some (n, underscores) => if underscores && negb (underscoreOK s) then None else Some n
      | None => None
      end
  end.

(** [strings.Split(s, ",")] *)
Definition comma : Ascii.ascii := Ascii.ascii_of_nat 44.
Fixpoint split_commas (s : string) : list string :=
  match s with
  | EmptyString => [EmptyString]
  | String c s =>
      if Ascii.eqb c comma then EmptyString :: split_commas s
      else match split_commas s with
           | part :: parts => String c part :: parts
           | [] => [String c EmptyString]
           end
  end.

(** ** Settings *)
Record settings : Type := mkSettings {
  certPath : string;
  keyPath : string;
  useWebsockets : bool;
  wsPort : Z;
  wsEndpoint : string;
  wsReadBufferSize : Z;
  wsWriteBufferSize : Z;
  wsHandshakeTimeoutMs : Z;
  useWebtransport : bool;
  wtPort : Z;
  wtEndpoint : string;
  allowAllHosts : bool;
  forbiddenHosts : string;
  allowedHosts : string;
  clientIncomingMessageQueueLength : Z;
  clientOutgoingMessageQueueLength : Z;
  allowAllDestinations : bool;
  allowedDestinations : string;
  forbiddenDestinations : string;
  useUdp : bool;
  udpPort : Z
}.

(** A value that cannot be read is replaced by its default; for a flag that is false. *)
Definition flag (s : string) : bool := default false (ParseBool s).
Definition number_setting (bitSize dflt : Z) (s : string) : Z := default dflt (ParseUint s bitSize).
Definition endpoint (s : string) : string := if bool_decide (s = EmptyString) then "/" else s.

Definition read_settings (getenv : string -> string) : settings :=
  mkSettings (getenv "SPANREED_TLS_CERT_PATH") (getenv "SPANREED_TLS_KEY_PATH")
    (flag (getenv "SPANREED_WEBSOCKET")) (number_setting 16 3000 (getenv "SPANREED_WEBSOCKET_PORT"))
    (endpoint (getenv "SPANREED_WEBSOCKET_ENDPOINT"))
    (number_setting 32 10240 (getenv "SPANREED_WEBSOCKET_READ_BUFFER_SIZE"))
    (number_setting 32 10240 (getenv "SPANREED_WEBSOCKET_WRITE_BUFFER_SIZE"))
    (number_setting 32 1500 (getenv "SPANREED_WEBSOCKET_HANDSHAKE_TIMEOUT_MS"))
    (flag (getenv "SPANREED_WEBTRANSPORT")) (number_setting 32 3000 (getenv "SPANREED_WEBTRANSPORT_PORT"))
    (endpoint (getenv "SPANREED_WEBTRANSPORT_ENDPOINT"))
    (flag (getenv "SPANREED_ALLOW_ALL_HOSTS")) (getenv "SPANREED_DENY_HOSTS") (getenv "SPANREED_ALLOW_HOSTS")
    (number_setting 32 16 (getenv "SPANREED_CLIENT_INCOMING_MESSAGE_QUEUE_LENGTH"))
    (number_setting 32 16 (getenv "SPANREED_CLIENT_OUTGOING_MESSAGE_QUEUE_LENGTH"))
    (flag (getenv "SPANREED_ALLOW_ALL_DESTINATIONS")) (getenv "SPANREED_ALLOW_DESTINATIONS")
    (getenv "SPANREED_DENY_DESTINATIONS")
    (flag (getenv "SPANREED_UDP")) (number_setting 16 30321 (getenv "SPANREED_UDP_PORT")).

(** ** The hub *)
Definition listen_address (port : Z) : string := ":" +:+ pretty port.

Definition ws_params (c : settings) : WebsocketSpanreedClientParams :=
  mkWsParams (listen_address (wsPort c)) (wsEndpoint c) (allowAllHosts c) (split_commas (allowedHosts c))
    (split_commas (forbiddenHosts c)) (certPath c) (keyPath c)
    (clientIncomingMessageQueueLength c) (clientOutgoingMessageQueueLength c)
    (wsReadBufferSize c) (wsWriteBufferSize c) (wsHandshakeTimeoutMs c).

Definition wt_params (c : settings) : WebtransportSpanreedClientParams :=
  mkWtParams (listen_address (wtPort c)) (wtEndpoint c) (certPath c) (keyPath c) (allowAllHosts c)
    (split_commas (allowedHosts c)) (split_commas (forbiddenHosts c))
    (clientIncomingMessageQueueLength c) (clientOutgoingMessageQueueLength c).

Definition udp_params (c : settings) : UdpSpanreedDestinationParams :=
  mkParams (allowAllDestinations c) (split_commas (allowedDestinations c)) (split_commas (forbiddenDestinations c)) None.

Section with_addr.
Context {Addr : Type}.

Record hub : Type := mkHub {
  hub_proxy : proxy;
  wsServer : option server;
  wtServer : option server;
  udpServer : option (udpSpanreedDestination (Addr := Addr))
}.

(** The match function that is registered; it panics on a string of less than four bytes. *)
Definition match_fn (connStr : string) : option bool :=
  match DefaultUdpDestinationHandlerMatchConnectionStringFn connStr with Ret b => Some b | Throw _ => None end.

(** Register a handler; an error ends [main]. *)
Definition registered {A} (r : option error * proxy) (x : A) : option (proxy * A) :=
  match r with (None, p) => Some (p, x) | (Some _, _) => None end.

Definition main (getenv : string -> string) : option hub :=
  let c := read_settings getenv in
  let no_key := bool_decide (keyPath c = EmptyString) in
  let no_cert := bool_decide (certPath c = EmptyString) in
  if xorb no_key no_cert then None
  else
    let p := CreateProxy (mkConfig 0 0 0 0 0 0) in
    '(p, ws) ← (if useWebsockets c
                then registered (CreateClientMessageHandler "WebSocket" p) (Some (CreateWebsocketHandler (ws_params c)))
                else Some (p, None));
    '(p, wt) ← (if useWebtransport c && negb no_key && negb no_cert
                then registered (CreateClientMessageHandler "WebTransport" p) (Some (CreateWebtransportHandler (wt_params c)))
                else Some (p, None));
    '(p, udp) ← (if useUdp c
                 then registered (CreateDestinationMessageHandler "UdpDestination" match_fn p)
                        (Some (CreateUdpDestinationHandler (udp_params c)))
                 else Some (p, None));
    Some (mkHub p ws wt udp).
End with_addr.
Arguments hub Addr : clear implicits.
