(* ===== verification/HubTheorems.v ===== *)
(** * What the command starts, and for whom

    [split_spec]: what [strings.Split] at commas gives. [ParseUint_pretty]: decimal numerals
    are read as they are. The theorems say which servers and handlers a setting of the
    environment gives, and whose requests they accept. *)

From S2P Require Import Prelude JsPlatform FlatBuffers SpanreedMessages ClientStore Proxy GoMessages UdpDestination Router Transports.
From S2P Require Import FbReference ProxyInvariant UdpTheorems TransportTheorems HubMain.
From stdpp Require Import gmap pretty.
#[local] Open Scope Z_scope.

(** ** Splitting at commas *)
Definition no_comma (s : string) : Prop := ~ In comma (String.list_ascii_of_string s).
Definition stops (s : string) : Prop := s = EmptyString \/ exists s', s = String comma s'.

Lemma no_comma_cons c s : no_comma (String c s) <-> c <> comma /\ no_comma s.
Proof. unfold no_comma. simpl. naive_solver. Qed.

Lemma first_part_unique o p a b : no_comma o -> no_comma p -> stops a -> stops b -> o +:+ a = p +:+ b -> o = p.
Proof.
  revert p. induction o as [|c o IH]; intros [|d p] Ho Hp Ha Hb E; simpl in E; try done.
  - destruct Ha as [-> | [a' ->]]; [done|]. injection E as <- _. by apply no_comma_cons in Hp as [? _].
  - destruct Hb as [-> | [b' ->]]; [done|]. injection E as -> _. by apply no_comma_cons in Ho as [? _].
  - injection E as -> E. apply no_comma_cons in Ho as [_ Ho], Hp as [_ Hp]. f_equal. eauto.
Qed.

Lemma split_spec s : exists p ps,
  split_commas s = p :: ps /\ no_comma p /\ (exists a, s = p +:+ a /\ stops a) /\
  forall o, o ∈ ps <-> no_comma o /\ exists b a, s = b +:+ String comma (o +:+ a) /\ stops a.
Proof.
  induction s as [|c s (p & ps & Hs & Hp & (a & Ea & Ha) & Hps)]; simpl.
  - exists EmptyString, []. split_and!; [done | by intros [] | exists EmptyString; split; [done | by left] |].
    intros o. split; [by intros ?%not_elem_of_nil|]. intros (_ & b & x & E & _). by destruct b.
  - rewrite Hs. destruct (Ascii.eqb_spec c comma) as [->|Hc].
    + exists EmptyString, (p :: ps). split_and!; [done | by intros [] | exists (String comma s); split; [done | right; eauto] |].
      intros o. rewrite elem_of_cons, Hps. split.
      * intros [-> | (Ho & b & a' & E & Ha')].
        -- split; [done|]. exists EmptyString, a. by rewrite Ea.
        -- split; [done|]. exists (String comma b), a'. split; [by rewrite E | done].
      * intros (Ho & [|d b] & a' & E & Ha'); simpl in E; injection E as E; [left | right].
        -- eapply first_part_unique; [done | exact Hp | exact Ha' | exact Ha | congruence].
        -- split; [done|]. eauto.
    + exists (String c p), ps. split_and!; [done | by apply no_comma_cons | exists a; by rewrite Ea |].
      intros o. rewrite Hps. split; intros (Ho & b & a' & E & Ha'); (split; [done|]).
      * exists (String c b), a'. split; [by rewrite E | done].
      * destruct b as [|d b]; simpl in E; injection E as -> E; [done|]. eauto.
Qed.

(** One of the values of a comma-separated list. *)
Definition part_of (o s : string) : Prop :=
  no_comma o /\ exists b a, s = b +:+ o +:+ a /\ (b = EmptyString \/ exists b', b = b' +:+ String comma EmptyString) /\ stops a.

Lemma app_assoc_string (a b c : string) : a +:+ b +:+ c = (a +:+ b) +:+ c.
Proof. induction a as [|x a IH]; [done|]. exact (f_equal (String x) IH). Qed.

Lemma part_of_spec o s : o ∈ split_commas s <-> part_of o s.
Proof.
  destruct (split_spec s) as (p & ps & -> & Hp & (a & Ea & Ha) & Hps). rewrite elem_of_cons, Hps. unfold part_of. split.
  - intros [-> | (Ho & b & a' & E & Ha')]; (split; [done|]); [by exists EmptyString, a; auto|].
    exists (b +:+ String comma EmptyString), a'. rewrite <- app_assoc_string. by eauto.
  - intros (Ho & b & a' & E & [-> | [b' ->]] & Ha'); [left | right].
    + change (s = o +:+ a') in E. eapply first_part_unique; [done | done | exact Ha' | exact Ha | congruence].
    + split; [done|]. exists b', a'. by rewrite <- app_assoc_string in E.
Qed.








(** ** Theorems *)
Section theorems.
Context {Addr : Type}.
Abbreviation main := (main (Addr := Addr)).

(** [SPANREED_WEBSOCKET], [SPANREED_WEBTRANSPORT] (which needs TLS) and [SPANREED_UDP]. *)
Definition ws_on (c : settings) : bool := useWebsockets c.
Definition wt_on (c : settings) : bool :=
  useWebtransport c && negb (bool_decide (keyPath c = EmptyString)) && negb (bool_decide (certPath c = EmptyString)).

Definition registrations (c : settings) : list Proxy.event :=
  (if ws_on c then [RegisterClientHandler "WebSocket"] else []) ++
  (if wt_on c then [RegisterClientHandler "WebTransport"] else []) ++
  (if useUdp c then [RegisterDestinationHandler "UdpDestination" match_fn] else []).

(** Registering under a name that is not taken. *)
Lemma registered_client {A} name p (x : A) : name ∉ clientHandlers p ->
  registered (CreateClientMessageHandler name p) x = Some (Proxy.step (RegisterClientHandler name) p, x) /\
  clientHandlers (Proxy.step (RegisterClientHandler name) p) = {[name]} ∪ clientHandlers p /\
  destinationHandlers (Proxy.step (RegisterClientHandler name) p) = destinationHandlers p /\
  connectedDestinationHandlers (Proxy.step (RegisterClientHandler name) p) = connectedDestinationHandlers p.
Proof. intros Hn. unfold Proxy.step, CreateClientMessageHandler. by rewrite bool_decide_eq_false_2. Qed.

Lemma registered_destination {A} name f p (x : A) : name ∉ destinationHandlers p ->
  registered (CreateDestinationMessageHandler name f p) x = Some (Proxy.step (RegisterDestinationHandler name f) p, x) /\
  clientHandlers (Proxy.step (RegisterDestinationHandler name f) p) = clientHandlers p /\
  connectedDestinationHandlers (Proxy.step (RegisterDestinationHandler name f) p) =
    connectedDestinationHandlers p ++ [(name, f)].
Proof. intros Hn. unfold Proxy.step, CreateDestinationMessageHandler. by rewrite bool_decide_eq_false_2. Qed.

(** The three optional registrations. *)
Lemma register_ws (on : bool) {A} (x : A) : let p := CreateProxy (mkConfig 0 0 0 0 0 0) in exists p1,
  (if on then registered (CreateClientMessageHandler "WebSocket" p) (Some x) else Some (p, None)) =
    Some (p1, if on then Some x else None) /\
  runs (if on then [RegisterClientHandler "WebSocket"] else []) p = Some p1 /\
  (forall name, name ∈ clientHandlers p1 <-> name = "WebSocket" /\ on = true) /\
  destinationHandlers p1 = ∅ /\ connectedDestinationHandlers p1 = [].
Proof.
  intros p. destruct on; [|exists p; split_and!; try done; set_solver].
  destruct (registered_client "WebSocket" p (Some x)) as (-> & Hc & Hd & Hh); [set_solver|].
  eexists. split_and!; [done | done | rewrite Hc; set_solver | by rewrite Hd | by rewrite Hh].
Qed.

Lemma register_wt (on : bool) {A} (x : A) p : "WebTransport" ∉ clientHandlers p -> exists p1,
  (if on then registered (CreateClientMessageHandler "WebTransport" p) (Some x) else Some (p, None)) =
    Some (p1, if on then Some x else None) /\
  runs (if on then [RegisterClientHandler "WebTransport"] else []) p = Some p1 /\
  (forall name, name ∈ clientHandlers p1 <-> name ∈ clientHandlers p \/ name = "WebTransport" /\ on = true) /\
  destinationHandlers p1 = destinationHandlers p /\ connectedDestinationHandlers p1 = connectedDestinationHandlers p.
Proof.
  intros Hn. destruct on; [|exists p; split_and!; try done; set_solver].
  destruct (registered_client "WebTransport" p (Some x)) as (-> & Hc & Hd & Hh); [done|].
  eexists. split_and!; [done | done | rewrite Hc; set_solver | done | done].
Qed.

Lemma register_udp (on : bool) {A} (x : A) p : destinationHandlers p = ∅ -> connectedDestinationHandlers p = [] -> exists p1,
  (if on then registered (CreateDestinationMessageHandler "UdpDestination" match_fn p) (Some x) else Some (p, None)) =
    Some (p1, if on then Some x else None) /\
  runs (if on then [RegisterDestinationHandler "UdpDestination" match_fn] else []) p = Some p1 /\
  clientHandlers p1 = clientHandlers p /\
  connectedDestinationHandlers p1 = (if on then [("UdpDestination", match_fn)] else []).
Proof.
  intros Hd Hh. destruct on; [|exists p; by split_and!].
  destruct (registered_destination "UdpDestination" match_fn p (Some x)) as (-> & Hc & Hh'); [rewrite Hd; set_solver|].
  eexists. split_and!; [done | done | done | by rewrite Hh', Hh].
Qed.

Lemma match_fn_udp host : match_fn ("udp:" +:+ host) = Some true.
Proof. unfold match_fn. by rewrite connection_string_matches. Qed.

Lemma match_fn_panics str : match_fn str = None <-> (String.length str < 4)%nat.
Proof.
  unfold match_fn, DefaultUdpDestinationHandlerMatchConnectionStringFn, go_prefix.
  destruct (Z.leb_spec 4 (Z.of_nat (String.length str))); cbn [mbind outcome_bind].
  - split; [discriminate | lia].
  - split; [lia | done].
Qed.

Lemma runs_app es1 es2 p p1 : runs es1 p = Some p1 -> runs (es1 ++ es2) p = runs es2 p1.
Proof.
  revert p. induction es1 as [|e es1 IH]; intros p Hr; simpl in Hr |- *; [by simplify_eq|]. case_match; [auto | done].
Qed.

(** C27: The command starts unless exactly one of the two TLS paths is given. It then runs the proxy with its default
    limits, a WebSocket server if that is switched on, with TLS exactly when there are TLS paths, a WebTransport server if that is switched
    on and there are TLS paths, and the UDP destination if that is switched on; each is registered with the proxy once, under its
    name, so that the hub starts in a state from which the proxy's invariant holds. A variable that is not set, or is no
    boolean, switches nothing on, and the endpoints and ports have the defaults of the code (the README says that
    WebSocket and UDP are on by default, and names other endpoints and another WebTransport port). The registered match
    function tells the connection strings that start with udp: from the others and panics on those of less than four
    bytes. *)
Theorem hub_starts_what_is_switched_on getenv :
  let c := read_settings getenv in
  match main getenv with
  | None => ~ (keyPath c = EmptyString <-> certPath c = EmptyString)
  | Some h =>
      (keyPath c = EmptyString <-> certPath c = EmptyString) /\
      wsServer h = (if ws_on c then Some (CreateWebsocketHandler (ws_params c)) else None) /\
      wtServer h = (if wt_on c then Some (CreateWebtransportHandler (wt_params c)) else None) /\
      udpServer h = (if useUdp c then Some (CreateUdpDestinationHandler (udp_params c)) else None) /\
      runs (registrations c) (CreateProxy (mkConfig 0 0 0 0 0 0)) = Some (hub_proxy h) /\
      (forall name, name ∈ clientHandlers (hub_proxy h) <->
         name = "WebSocket" /\ ws_on c = true \/ name = "WebTransport" /\ wt_on c = true) /\
      connectedDestinationHandlers (hub_proxy h) = (if useUdp c then [("UdpDestination", match_fn)] else []) /\
      (forall load, ws_Start load (ws_params c) =
        (if bool_decide (keyPath c = EmptyString) then Some false
         else if load (certPath c) (keyPath c) then Some true else None)) /\
      (ParseBool (getenv "SPANREED_WEBSOCKET") = None -> wsServer h = None) /\
      (ParseBool (getenv "SPANREED_WEBTRANSPORT") = None -> wtServer h = None) /\
      (ParseBool (getenv "SPANREED_UDP") = None -> udpServer h = None) /\
      (getenv "SPANREED_WEBSOCKET_ENDPOINT" = EmptyString -> wsEndpoint c = "/") /\
      (getenv "SPANREED_WEBTRANSPORT_ENDPOINT" = EmptyString -> wtEndpoint c = "/") /\
      (getenv "SPANREED_WEBTRANSPORT_PORT" = EmptyString -> wtPort c = 3000) /\
      (forall host, match_fn ("udp:" +:+ host) = Some true) /\
      (forall str, match_fn str = None <-> (String.length str < 4)%nat)
  end.
Proof.
  intros c. unfold HubMain.main. fold c. unfold ws_on, ws_Start. cbn [ws_CertPath ws_KeyPath ws_params].
  set (nk := bool_decide (keyPath c = EmptyString)). set (nc := bool_decide (certPath c = EmptyString)).
  assert (Hx : xorb nk nc = false <-> (keyPath c = EmptyString <-> certPath c = EmptyString)).
  { subst nk nc. do 2 case_bool_decide; simpl; intuition congruence. }
  destruct (xorb nk nc) eqn:E; [by intros [=]%Hx|].
  destruct (register_ws (useWebsockets c) (CreateWebsocketHandler (ws_params c))) as (p1 & -> & R1 & C1 & D1 & H1). cbn [mbind option_bind].
  destruct (register_wt (wt_on c) (CreateWebtransportHandler (wt_params c)) p1) as (p2 & Hwt & R2 & C2 & D2 & H2).
  { rewrite C1. by intros [? _]. }
  unfold wt_on in Hwt at 1. fold nk nc in Hwt. rewrite Hwt. cbn [mbind option_bind].
  destruct (register_udp (useUdp c) (CreateUdpDestinationHandler (Addr := Addr) (udp_params c)) p2) as (p3 & -> & R3 & C3 & H3);
    [congruence..|]. cbn [mbind option_bind].
  cbn [hub_proxy wsServer wtServer udpServer]. split_and!; try done.
  - by apply Hx.
  - unfold registrations, ws_on. rewrite (runs_app _ _ _ _ R1), (runs_app _ _ _ _ R2). exact R3.
  - intros name. by rewrite C3, C2, C1.
  - intros load. destruct nk, nc; done.
  - intros H. unfold c, useWebsockets, read_settings, flag. by rewrite H.
  - intros H. unfold wt_on, c, useWebtransport, read_settings, flag. by rewrite H.
  - intros H. unfold c, useUdp, read_settings, flag. by rewrite H.
  - intros H. unfold c, wsEndpoint, read_settings, endpoint. by rewrite H.
  - intros H. unfold c, wtEndpoint, read_settings, endpoint. by rewrite H.
  - intros H. unfold c, wtPort, read_settings, number_setting. by rewrite H.
  - exact match_fn_udp.
  - exact match_fn_panics.
Qed.

Lemma main_origins getenv h s :
  main getenv = Some h -> wsServer h = Some s \/ wtServer h = Some s ->
  check_origin s = (fun origin =>
    if Contains origin (split_commas (getenv "SPANREED_DENY_HOSTS")) then false
    else if flag (getenv "SPANREED_ALLOW_ALL_HOSTS") then true
    else Contains origin (split_commas (getenv "SPANREED_ALLOW_HOSTS"))).
Proof.
  intros Hm Hs. unfold HubMain.main in Hm. case_match; [done|].
  apply bind_Some in Hm as ([p1 ws] & H1 & Hm). apply bind_Some in Hm as ([p2 wt] & H2 & Hm).
  apply bind_Some in Hm as ([p3 udp] & H3 & Hm). injection Hm as <-. cbn in Hs. unfold registered in *.
  match goal with |- _ = ?g => set (f := g) end.
  destruct Hs as [-> | ->]; repeat case_match; simplify_eq; reflexivity.
Qed.

(** C25: Which pages may connect, for every environment: a request to either server is accepted only if its origin is
    not in the comma-separated SPANREED_DENY_HOSTS and, unless SPANREED_ALLOW_ALL_HOSTS is true, is in SPANREED_ALLOW_HOSTS; in any state
    of the server, a request from another origin changes nothing. When SPANREED_DENY_HOSTS is empty it still lists the
    empty string, so that a client that sends no origin is refused whatever is allowed. *)
Theorem origins_admitted `{FB : FlatBuffers} malformed getenv h s acts s' :
  main getenv = Some h -> wsServer h = Some s \/ wtServer h = Some s -> Transports.run malformed acts s = Some s' ->
  (forall origin, check_origin s' origin = true <->
     ~ part_of origin (getenv "SPANREED_DENY_HOSTS") /\
     (ParseBool (getenv "SPANREED_ALLOW_ALL_HOSTS") = Some true \/ part_of origin (getenv "SPANREED_ALLOW_HOSTS"))) /\
  (forall origin upgrades next, check_origin s' origin = false ->
     Transports.step malformed (Request origin upgrades next) s' = Some s') /\
  (getenv "SPANREED_DENY_HOSTS" = EmptyString -> check_origin s' EmptyString = false).
Proof.
  intros Hm Hs Hr. destruct (constant_run _ _ _ _ Hr) as [_ Hc]. rewrite Hc. split_and!.
  - intros origin. rewrite (main_origins _ _ _ Hm Hs). rewrite <- !part_of_spec, <- !Contains_spec.
    unfold flag. destruct (Contains origin (split_commas (getenv "SPANREED_DENY_HOSTS"))); [naive_solver|].
    destruct (ParseBool _) as [[]|]; simpl; naive_solver.
  - intros origin up next Ho. cbn [Transports.step]. unfold on_request. by rewrite Hc, Ho.
  - intros Hd. by rewrite (main_origins _ _ _ Hm Hs), Hd.
Qed.

End theorems.

(** ** Instances *)

(** A hub for one site, without TLS. *)
Definition sample_env (name : string) : string :=
  if bool_decide (name = "SPANREED_WEBSOCKET") then "true"
  else if bool_decide (name = "SPANREED_WEBSOCKET_PORT") then "8080"
  else if bool_decide (name = "SPANREED_ALLOW_HOSTS") then "https://a.example,https://b.example"
  else EmptyString.

Lemma origins_admitted_witness : exists h s,
  main (Addr := Z) sample_env = Some h /\ wsServer h = Some s /\
  check_origin s "https://b.example" = true /\ check_origin s EmptyString = false.
Proof.
  destruct (main (Addr := Z) sample_env) as [h|] eqn:Hm; [|vm_compute in Hm; discriminate Hm].
  destruct (wsServer h) as [s|] eqn:Hs; [|vm_compute in Hm; injection Hm as <-; discriminate Hs].
  destruct (origins_admitted (FB := FbRef) (fun _ => false) sample_env h s [] s Hm (or_introl Hs) eq_refl) as (H1 & _ & H3).
  exists h, s. split_and!; [reflexivity | exact Hs | | apply H3; reflexivity].
  apply H1. split.
  - intros Hp. apply part_of_spec in Hp. apply list_elem_of_In in Hp. destruct Hp as [Hp|[]]; discriminate Hp.
  - right. apply part_of_spec. right. left.
Defined.
