(* ===== verification/EndToEnd.v ===== *)
(** * Through the whole proxy

    The components one after the other, each message handed on as the code
    does: TypeScript client, router, hub, UDP destination, and back. *)

From S2P Require Import Prelude JsPlatform FlatBuffers FbTables FbReference SpanreedMessages HelloMessages ClientGen.
From S2P Require Import SpanreedCodec HelloCodec Log Connection ConnectionTheorems ClientStore Proxy GoMessages Router.
From S2P Require Import HandshakeTheorems UdpDestination UdpTheorems.
From stdpp Require Import gmap.
#[local] Open Scope Z_scope.

Section end_to_end.
#[local] Set Default Proof Using "Type*".
Context {FB : FlatBuffers} {FL : FlatBuffersLaws FB} {Addr : Type}.

(** ** Connecting *)

(** The hub passes the request of a new client on to the destination handler that matches. *)
Lemma hub_attaches p id meta name f now c :
  clientConnections (clientStore p) !! id = Some meta -> DestinationHandlerName meta = EmptyString ->
  head (connectedDestinationHandlers p) = Some (name, f) -> name ∈ destinationHandlers p ->
  open_ClientId c = id -> f (ConnectionString c) = Some true ->
  sent (Proxy.step (OpenRequest c now) p) =
    sent p ++ [DestOpen name (mkOpen id (open_RecvTimestamp c) now (ConnectionString c) (open_AppData c))].
Proof.
  intros Hmeta Hnone Hhead Hname <- Hf. simpl. unfold handleClientConnectionRequestMessage, GetDestinationHandlerName.
  rewrite Hmeta, Hnone. simpl. destruct (connectedDestinationHandlers p) as [|[name' f'] hs]; simplify_eq/=.
  rewrite Hf, bool_decide_true by done. unfold SetDestinationHandlerName, update. by rewrite Hmeta.
Qed.

(** C1: A user who connects to an allowed UDP host reaches it: the payload of the TypeScript client, taken by
    a new connection of the router, passed by the hub to the UDP destination, becomes one datagram to the address of
    that host, which reads back as a connection request with the client's id and the application data in which the
    backend finds the user name. *)
Theorem client_reaches_backend malformed ResolveUDPAddr inQ outQ locked known now1 now2 backendAddress userName host
    (c : conn) p meta f name (s : udpSpanreedDestination (Addr := Addr)) a :
  sendable backendAddress -> sendable userName -> go_string (text_encode backendAddress) = ("udp:" +:+ host)%string ->
  ph c = Router.AwaitAuth -> is_uint32 (conn_id c) ->
  clientConnections (clientStore p) !! conn_id c = Some meta -> DestinationHandlerName meta = EmptyString ->
  head (connectedDestinationHandlers p) = Some (name, f) -> name ∈ destinationHandlers p ->
  (forall str, DefaultUdpDestinationHandlerMatchConnectionStringFn str = Ret true -> f str = Some true) ->
  resolveUdpHost s = defaultHostResolution -> allowed s host = true -> ResolveUDPAddr host = inr a ->
  exists packet app, connect_payload backendAddress userName = Ret packet /\
    decodes app (fun b => ClientMessage.getRootAsClientMessage b None) (fun m =>
      exists u, HelloCodec.client_message m = Ret (Some (UserMessageUnion.AUserConnectMessage u)) /\
        UserConnectMessage.name u None = Ret (Some (Str userName))) /\
    forall rest, malformed (u8_bytes packet) = false -> incomingPackets c = u8_bytes packet :: rest ->
      let req := mkOpen (conn_id c) now1 0 ("udp:" +:+ host) (Some (u8_bytes app)) in
      let req' := mkOpen (conn_id c) now1 now2 ("udp:" +:+ host) (Some (u8_bytes app)) in
      (exists c', conn_step malformed inQ outQ locked known (OnPacket now1) c = Some c' /\
         outbox c' = outbox c ++ [Router.Open req]) /\
      sent (Proxy.step (OpenRequest req now2) p) = sent p ++ [DestOpen name req'] /\
      exists bs, onOpenRequest ResolveUDPAddr req' s =
          Ret (enqueue (a, bs) (set_connections (<[conn_id c := a]> (destinationConnections s)) s)) /\
        carries bs (PConnectionRequest (conn_id c)) (Some (u8_bytes app)).
Proof.
  intros Hb Hu Hhost Hph Hid Hmeta Hnone Hhead Hname Hf Hres Hall Haddr.
  destruct (handshake_parsed malformed _ _ Hb Hu) as (packet & app & Hrun & Hwf & Hwfa & Hlen & Happ & Hparse).
  exists packet, app. split_and!; [done | done |]. intros rest Hmal Hip req req'. split_and!.
  - eexists. simpl. rewrite Hph, Hip. rewrite (Hparse Hmal). simpl. rewrite Hhost. done.
  - eapply hub_attaches; [exact Hmeta | done | exact Hhead | done | done |]. apply Hf, connection_string_matches.
  - destruct (open_sends ResolveUDPAddr s req' host a) as (bs & Hbs & Hc); eauto.
    + rewrite Hres. apply host_resolved.
    + by apply Forall_take, Forall_drop, Hwfa.
    + simpl. assert (2 ^ 20 + 400 <= fb_limit) by (vm_compute; discriminate). lia.
Qed.

(** ** Messages *)

(** The hub hands the message of an attached client on. *)
Lemma hub_forwards p id meta m now1 now2 :
  clientConnections (clientStore p) !! id = Some meta -> DestinationHandlerName meta ∈ destinationHandlers p ->
  msg_ClientId m = id ->
  sent (Proxy.step (FromClient m now1 now2) p) =
    sent p ++ [DestMsg (DestinationHandlerName meta) (mkRouted id (RecvTimestamp m) now1 (Data m))].
Proof.
  intros Hmeta Hname <-. simpl. unfold forwardClientMessage, GetDestinationHandlerName.
  by rewrite Hmeta, bool_decide_true by done.
Qed.

Lemma hub_returns p id meta m now1 now2 :
  clientConnections (clientStore p) !! id = Some meta -> ClientHandlerName meta ∈ clientHandlers p ->
  msg_ClientId m = id ->
  sent (Proxy.step (FromDestination m now1 now2) p) =
    sent p ++ [ClientMsg (ClientHandlerName meta) (mkRouted id (RecvTimestamp m) now1 (Data m))].
Proof.
  intros Hmeta Hname <-. simpl. unfold forwardDestinationMessage, GetClientHandlerName.
  by rewrite Hmeta, bool_decide_true by done.
Qed.

(** A packet of an accepted client becomes one datagram to its destination, through router, hub and UDP destination, and the
    datagram carries the client's id and exactly the bytes of the packet. *)
Theorem packet_reaches_destination malformed inQ outQ locked known now now1 now2 packet rest (c : conn) p meta
    (s : udpSpanreedDestination (Addr := Addr)) a :
  inward c = true -> incomingPackets c = packet :: rest ->
  clientConnections (clientStore p) !! conn_id c = Some meta -> DestinationHandlerName meta ∈ destinationHandlers p ->
  destinationConnections s !! conn_id c = Some a ->
  is_uint32 (conn_id c) -> Forall is_byte packet -> zlen packet + 200 <= fb_limit ->
  let m := mkRouted (conn_id c) now 0 (Some packet) in
  let m' := mkRouted (conn_id c) now now1 (Some packet) in
  (exists c', conn_step malformed inQ outQ locked known (InPacket now) c = Some c' /\
     outbox c' = outbox c ++ [FromTransport m]) /\
  sent (Proxy.step (FromClient m now1 now2) p) = sent p ++ [DestMsg (DestinationHandlerName meta) m'] /\
  exists bs, onClientMessage m' s = Ret (enqueue (a, bs) s) /\ carries bs (PClientMessage (conn_id c)) (Some packet).
Proof.
  intros Hin Hip Hmeta Hname Ha Hid Hb Hsz m m'. split_and!.
  - eexists. simpl. by rewrite Hin, Hip.
  - by apply hub_forwards.
  - destruct (message_sends s m' a Ha Hid Hb Hsz) as (bs & H1 & H2 & _). by exists bs.
Qed.

(** A message datagram of a destination for a connected client, once read whole, ends, through UDP destination, hub and router, as one
    packet for that client with exactly the bytes of the datagram's application data. *)
Theorem datagram_reaches_client malformed bad_root bad_body n id data inQ outQ locked known now now1 now2 p meta
    (s : udpSpanreedDestination (Addr := Addr)) (c : conn) :
  0 < n -> is_uint32 id -> Forall is_byte (default [] data) -> zlen (default [] data) + 200 <= fb_limit ->
  is_Some (destinationConnections s !! id) ->
  clientConnections (clientStore p) !! id = Some meta -> ClientHandlerName meta ∈ clientHandlers p ->
  outward c = Running -> Router.outgoingMessages c = [] -> zlen (outgoingPackets c) < outQ ->
  let m := mkRouted id now 0 data in
  let m' := mkRouted id now now1 data in
  wp (encodeDestinationMessage (DProxy id) data false) (new_Builder n) (fun u _ =>
    bad_root (u8_bytes u) = false -> bad_body (u8_bytes u) = false ->
    on_datagram bad_root bad_body now (u8_bytes u) s = Ret (tell_hub (DestMessage m) s)) /\
  sent (Proxy.step (FromDestination m now1 now2) p) = sent p ++ [ClientMsg (ClientHandlerName meta) m'] /\
  exists c1 c2 c3, deliver outQ (DeliverMessage m') c = Some c1 /\
    conn_step malformed inQ outQ locked known OutTake c1 = Some c2 /\
    conn_step malformed inQ outQ locked known OutPush c2 = Some c3 /\
    outgoingPackets c3 = outgoingPackets c ++ [data] /\ outward c3 = Running /\ Router.outgoingMessages c3 = [].
Proof.
  intros Hn Hid Hd Hsz Hreg Hmeta Hname Ho Hq Hroom m m'. split_and!.
  - eapply wp_mono; [apply (datagram_received bad_root bad_body n (DProxy id) data now s)|];
      [done | split; [constructor | done] | done | done |].
    intros u b H H1 H2. rewrite (H H1 H2). simpl. by rewrite bool_decide_true.
  - by apply hub_returns.
  - pose proof (zlen_nonneg (outgoingPackets c)).
    do 3 eexists. split_and!.
    + simpl. rewrite Hq. rewrite (proj2 (Z.ltb_lt _ _)) by (autorewrite with zlen; lia). reflexivity.
    + simpl. rewrite Ho. reflexivity.
    + simpl. unfold push_packet. simpl. rewrite (proj2 (Z.ltb_lt _ _)) by done. reflexivity.
    + done.
    + done.
    + done.
Qed.
End end_to_end.

(** ** A concrete system *)
Definition match_udp (str : string) : option bool :=
  match DefaultUdpDestinationHandlerMatchConnectionStringFn str with Ret b => Some b | Throw _ => None end.

Definition small_config : ProxyConfig := mkConfig 0 0 0 0 0 0.

(** One client, just arrived. *)
Definition small_hub : proxy :=
  Proxy.step (NewClient "ws" 5) (Proxy.step (RegisterDestinationHandler "udp" match_udp)
    (Proxy.step (RegisterClientHandler "ws") (CreateProxy small_config))).

(** ... and after its request. *)
Definition attached_hub : proxy := Proxy.step (OpenRequest (mkOpen 1 6 0 "udp:localhost:30001" None) 7) small_hub.

Definition small_udp : udpSpanreedDestination (Addr := string) :=
  CreateUdpDestinationHandler (mkParams false ["localhost:30001"%string] [] None).
Definition open_udp : udpSpanreedDestination (Addr := string) :=
  set_connections {[ 1 := "localhost:30001"%string ]} small_udp.

Lemma client_reaches_backend_witness : exists packet app,
  connect_payload (FB := FbRef) sample_backend sample_user = Ret packet /\
  exists bs, onOpenRequest (FB := FbRef) resolve (mkOpen 1 6 7 "udp:localhost:30001" (Some app)) small_udp =
      Ret (enqueue ("localhost:30001"%string, bs) (set_connections {[ 1 := "localhost:30001"%string ]} small_udp)) /\
    carries (FB := FbRef) bs (PConnectionRequest 1) (Some app).
Proof.
  destruct (connect_payload (FB := FbRef) sample_backend sample_user) as [packet|] eqn:Hp;
    [|vm_compute in Hp; discriminate Hp].
  destruct (client_reaches_backend (FL := FbRefLaws) never resolve 16 16 false true 6 7 sample_backend sample_user
    "localhost:30001" (set_incoming [u8_bytes packet] (new_conn 1)) small_hub (mkMeta false "ws" EmptyString 5 5 5)
    match_udp "udp" small_udp "localhost:30001") as (packet' & app & Hp' & _ & H);
    [apply sample_sendable | apply sample_sendable | vm_compute; reflexivity | reflexivity | concrete
    | vm_compute; reflexivity | reflexivity | vm_compute; reflexivity
    | apply (bool_decide_eq_true_1 ("udp"%string ∈ destinationHandlers small_hub)); vm_compute; reflexivity
    | intros str Hs; unfold match_udp; rewrite Hs; reflexivity | reflexivity | vm_compute; reflexivity | reflexivity |].
  exists packet, (u8_bytes app). split; [reflexivity|].
  rewrite Hp in Hp'. injection Hp' as <-.
  destruct (H [] eq_refl eq_refl) as (_ & _ & Hbs). exact Hbs.
Defined.

Lemma packet_reaches_destination_witness :
  let c := set_inward true (set_incoming [[1; 2]] (new_conn 1)) in
  sent (Proxy.step (FromClient (mkRouted 1 8 0 (Some [1; 2])) 9 10) attached_hub) =
    sent attached_hub ++ [DestMsg "udp" (mkRouted 1 8 9 (Some [1; 2]))] /\
  exists bs, onClientMessage (FB := FbRef) (mkRouted 1 8 9 (Some [1; 2])) open_udp =
      Ret (enqueue ("localhost:30001"%string, bs) open_udp) /\
    carries (FB := FbRef) bs (PClientMessage 1) (Some [1; 2]).
Proof.
  refine (proj2 (packet_reaches_destination (FL := FbRefLaws) never 16 16 false true 8 9 10 [1; 2] []
    (set_inward true (set_incoming [[1; 2]] (new_conn 1))) attached_hub (mkMeta false "ws" "udp" 5 5 5) open_udp
    "localhost:30001"%string eq_refl eq_refl _ _ _ _ _ _));
    [vm_compute; reflexivity
    | apply (bool_decide_eq_true_1 ("udp"%string ∈ destinationHandlers attached_hub)); vm_compute; reflexivity
    | vm_compute; reflexivity | concrete | concrete | concrete].
Defined.

Lemma datagram_reaches_client_witness :
  let c := set_outward Running (new_conn 1) in
  sent (Proxy.step (FromDestination (mkRouted 1 8 0 (Some [3])) 9 10) attached_hub) =
    sent attached_hub ++ [ClientMsg "ws" (mkRouted 1 8 9 (Some [3]))] /\
  exists c1 c2 c3, deliver 16 (DeliverMessage (mkRouted 1 8 9 (Some [3]))) c = Some c1 /\
    conn_step (FB := FbRef) never 16 16 false true OutTake c1 = Some c2 /\
    conn_step (FB := FbRef) never 16 16 false true OutPush c2 = Some c3 /\
    outgoingPackets c3 = outgoingPackets c ++ [Some [3]] /\ outward c3 = Running /\ Router.outgoingMessages c3 = [].
Proof.
  refine (proj2 (datagram_reaches_client (FL := FbRefLaws) never never never 64 1 (Some [3]) 16 16 false true 8 9 10
    attached_hub (mkMeta false "ws" "udp" 5 5 5) open_udp (set_outward Running (new_conn 1))
    eq_refl _ _ _ _ _ _ eq_refl eq_refl eq_refl));
    [concrete | concrete | concrete | eexists; vm_compute; reflexivity | vm_compute; reflexivity
    | apply (bool_decide_eq_true_1 ("ws"%string ∈ clientHandlers attached_hub)); vm_compute; reflexivity].
Defined.
