(* ===== verification/CppMessages.v ===== *)
(** * The demo server's generated message code in C++

    Headers of examples/hello-spanreed/server/include/: [spanreed_messages/] for the
    proxy protocol (the files flatbuffers/generated/cc/ has as well) and [messages/] for
    the demo's own messages. The runtime underneath ([flatbuffers/flatbuffers.h], not in
    the repository) is the flatbuffers runtime for another language: the interface
    [FlatBuffers] stands for it, with its operations under the names of the C++ header
    below. Its [Verifier], which no other component uses, is the class [Verifier]. A read
    through a null pointer is [Throw TypeError]. *)

From S2P Require Import Prelude JsPlatform FlatBuffers.
#[local] Open Scope Z_scope.

Section with_fb.
Context `{FB : FlatBuffers}.

(** ** The runtime's operations *)

(** [FlatBufferBuilder]: 1024 bytes to begin with. [StartTable] reserves the slots of the
    fields its builder can add; a field is named by its place in the vtable. *)
Definition FlatBufferBuilder : Builder := new_Builder 1024.
Definition StartTable : Z -> stm Builder exn unit := startObject.
Definition EndTable : stm Builder exn Z := endObject.
Definition field_slot (vt : Z) : Z := (vt - 4) / 2.
Definition AddElement_uint8 (vt e def : Z) : stm Builder exn unit := addFieldInt8 (field_slot vt) e def.
Definition AddElement_uint32 (vt e def : Z) : stm Builder exn unit := addFieldInt32 (field_slot vt) e def.
Definition AddElement_float (vt : Z) (e def : number) : stm Builder exn unit := addFieldFloat32 (field_slot vt) e def.
Definition AddOffset (vt off : Z) : stm Builder exn unit := addFieldOffset (field_slot vt) off 0.
Definition CreateVector : list Z -> stm Builder exn Z := createByteVector.
(** A [std::string] is its bytes. *)
Definition CreateString (s : list Z) : stm Builder exn Z := createString (Utf8 s).
Definition FinishBuffer (root : Z) : stm Builder exn unit := finish root false.
(** [GetBufferPointer] and [GetSize] *)
Definition GetBuffer : stm Builder exn (list Z) := u ← asUint8Array; mret (u8_bytes u).

(** [const T*]: a table is its position, a string or a vector the place of the reference to
    it; [nullptr] is [None]. *)
Definition table : Type := fbtable ByteBuffer.
Definition ptr : Type := option table.
Definition deref_ptr (p : ptr) : outcome exn table :=
  match p with Some t => Ret t | None => Throw TypeError end.

Definition GetField_uint8 (t : table) (vt def : Z) : outcome exn Z :=
  b ← deref t;
  let o := __offset b (bb_pos t) vt in
  Ret (if truthy o then readUint8 b (bb_pos t + o) else def).
Definition GetField_uint32 (t : table) (vt def : Z) : outcome exn Z :=
  b ← deref t;
  let o := __offset b (bb_pos t) vt in
  Ret (if truthy o then readUint32 b (bb_pos t + o) else def).
Definition GetField_float (t : table) (vt : Z) (def : number) : outcome exn number :=
  b ← deref t;
  let o := __offset b (bb_pos t) vt in
  Ret (if truthy o then readFloat32 b (bb_pos t + o) else def).
Definition GetPointer_table (t : table) (vt : Z) : outcome exn ptr :=
  b ← deref t;
  let o := __offset b (bb_pos t) vt in
  Ret (if truthy o then Some (__union b (mkTable None 0) (bb_pos t + o)) else None).
Definition GetPointer (t : table) (vt : Z) : outcome exn ptr :=
  b ← deref t;
  let o := __offset b (bb_pos t) vt in
  Ret (if truthy o then Some (mkTable (Some b) (bb_pos t + o)) else None).

(** [String::str]; [Vector<uint8_t>]'s [data] and [size] *)
Definition String_str (p : ptr) : outcome exn (list Z) :=
  r ← deref_ptr p; b ← deref r;
  Ret (match __string b (bb_pos r) (Some UTF8_BYTES) with Utf8 bs => bs | Str s => text_encode s end).
Definition Vector_bytes (p : ptr) : outcome exn (list Z) :=
  r ← deref_ptr p; b ← deref r;
  u ← u8_view (u8_buffer (bytes b)) (u8_byteOffset (bytes b) + __vector b (bb_pos r)) (__vector_len b (bb_pos r));
  Ret (u8_bytes u).

Definition GetRoot (buf : list Z) : table :=
  let b := new_ByteBuffer (u8_of_buffer buf) in mkTable (Some b) (readInt32 b 0 + 0).

(** ** [destination_message_generated.h] *)
Definition InnerMsg_NONE : Z := 0.
Definition InnerMsg_ProxyMessage : Z := 1.
Definition InnerMsg_ConnectionVerdict : Z := 2.
Definition InnerMsg_CloseConnection : Z := 3.

Definition ProxyMessage_client_id (t : table) : outcome exn Z := GetField_uint32 t 4 0.
Definition ProxyMessageBuilder : stm Builder exn unit := StartTable 1.
Definition ProxyMessageBuilder_add_client_id (client_id : Z) : stm Builder exn unit := AddElement_uint32 4 client_id 0.
Definition ProxyMessageBuilder_Finish : stm Builder exn Z := EndTable.
Definition CreateProxyMessage (client_id : Z) : stm Builder exn Z :=
  ProxyMessageBuilder ≫= fun _ => ProxyMessageBuilder_add_client_id client_id ≫= fun _ => ProxyMessageBuilder_Finish.

Definition ConnectionVerdict_client_id (t : table) : outcome exn Z := GetField_uint32 t 4 0.
Definition ConnectionVerdict_accepted (t : table) : outcome exn bool := truthy <$> GetField_uint8 t 6 0.
Definition ConnectionVerdictBuilder : stm Builder exn unit := StartTable 2.
Definition ConnectionVerdictBuilder_add_client_id (client_id : Z) : stm Builder exn unit := AddElement_uint32 4 client_id 0.
Definition ConnectionVerdictBuilder_add_accepted (accepted : bool) : stm Builder exn unit :=
  AddElement_uint8 6 (bool_number accepted) 0.
Definition ConnectionVerdictBuilder_Finish : stm Builder exn Z := EndTable.
Definition CreateConnectionVerdict (client_id : Z) (accepted : bool) : stm Builder exn Z :=
  ConnectionVerdictBuilder ≫= fun _ => ConnectionVerdictBuilder_add_client_id client_id ≫= fun _ =>
  ConnectionVerdictBuilder_add_accepted accepted ≫= fun _ => ConnectionVerdictBuilder_Finish.

Definition CloseConnection_client_id (t : table) : outcome exn Z := GetField_uint32 t 4 0.
Definition CloseConnection_reason (t : table) : outcome exn ptr := GetPointer t 6.
Definition CloseConnectionBuilder : stm Builder exn unit := StartTable 2.
Definition CloseConnectionBuilder_add_client_id (client_id : Z) : stm Builder exn unit := AddElement_uint32 4 client_id 0.
Definition CloseConnectionBuilder_add_reason (reason : Z) : stm Builder exn unit := AddOffset 6 reason.
Definition CloseConnectionBuilder_Finish : stm Builder exn Z := EndTable.
Definition CreateCloseConnection (client_id reason : Z) : stm Builder exn Z :=
  CloseConnectionBuilder ≫= fun _ => CloseConnectionBuilder_add_reason reason ≫= fun _ =>
  CloseConnectionBuilder_add_client_id client_id ≫= fun _ => CloseConnectionBuilder_Finish.

Definition DestinationMessage_msg_type (t : table) : outcome exn Z := GetField_uint8 t 4 0.
Definition DestinationMessage_msg (t : table) : outcome exn ptr := GetPointer_table t 6.
Definition DestinationMessage_app_data (t : table) : outcome exn ptr := GetPointer t 8.
Definition DestinationMessageBuilder : stm Builder exn unit := StartTable 3.
Definition DestinationMessageBuilder_add_msg_type (msg_type : Z) : stm Builder exn unit := AddElement_uint8 4 msg_type 0.
Definition DestinationMessageBuilder_add_msg (msg : Z) : stm Builder exn unit := AddOffset 6 msg.
Definition DestinationMessageBuilder_add_app_data (app_data : Z) : stm Builder exn unit := AddOffset 8 app_data.
Definition DestinationMessageBuilder_Finish : stm Builder exn Z := EndTable.
Definition CreateDestinationMessage (msg_type msg app_data : Z) : stm Builder exn Z :=
  DestinationMessageBuilder ≫= fun _ => DestinationMessageBuilder_add_app_data app_data ≫= fun _ =>
  DestinationMessageBuilder_add_msg msg ≫= fun _ => DestinationMessageBuilder_add_msg_type msg_type ≫= fun _ =>
  DestinationMessageBuilder_Finish.
Definition GetDestinationMessage (buf : list Z) : table := GetRoot buf.
Definition FinishDestinationMessageBuffer (root : Z) : stm Builder exn unit := FinishBuffer root.

(** ** [proxy_destination_message_generated.h] *)
Definition ProxyDestInnerMsg_NONE : Z := 0.
Definition ProxyDestInnerMsg_ProxyDestConnectionRequest : Z := 1.
Definition ProxyDestInnerMsg_ProxyDestClientMessage : Z := 2.
Definition ProxyDestInnerMsg_ProxyDestCloseConnection : Z := 3.

Definition ProxyDestConnectionRequest_client_id (t : table) : outcome exn Z := GetField_uint32 t 4 0.
Definition ProxyDestClientMessage_client_id (t : table) : outcome exn Z := GetField_uint32 t 4 0.
Definition ProxyDestCloseConnection_client_id (t : table) : outcome exn Z := GetField_uint32 t 4 0.

Definition ProxyDestinationMessage_inner_message_type (t : table) : outcome exn Z := GetField_uint8 t 4 0.
Definition ProxyDestinationMessage_inner_message (t : table) : outcome exn ptr := GetPointer_table t 6.
(** [inner_message_as_...]: the member, or null when the type says otherwise. *)
Definition inner_message_as (type : Z) (t : table) : outcome exn ptr :=
  ty ← ProxyDestinationMessage_inner_message_type t;
  if ty =? type then ProxyDestinationMessage_inner_message t else Ret None.
Definition inner_message_as_ProxyDestConnectionRequest : table -> outcome exn ptr :=
  inner_message_as ProxyDestInnerMsg_ProxyDestConnectionRequest.
Definition inner_message_as_ProxyDestClientMessage : table -> outcome exn ptr :=
  inner_message_as ProxyDestInnerMsg_ProxyDestClientMessage.
Definition inner_message_as_ProxyDestCloseConnection : table -> outcome exn ptr :=
  inner_message_as ProxyDestInnerMsg_ProxyDestCloseConnection.
Definition ProxyDestinationMessage_app_data (t : table) : outcome exn ptr := GetPointer t 8.
Definition GetProxyDestinationMessage (buf : list Z) : table := GetRoot buf.

(** ** [client_message_generated.h] *)
Definition UserMessage_NONE : Z := 0.
Definition UserMessage_UserConnectMessage : Z := 1.
Definition UserMessage_UserClickMessage : Z := 2.
Definition UserMessage_UserChatMessage : Z := 3.
Definition UserMessage_UserPingMessage : Z := 4.

Definition UserConnectMessage_name (t : table) : outcome exn ptr := GetPointer t 4.
Definition UserClickMessage_x (t : table) : outcome exn number := GetField_float t 4 num_zero.
Definition UserClickMessage_y (t : table) : outcome exn number := GetField_float t 6 num_zero.
Definition UserChatMessage_text (t : table) : outcome exn ptr := GetPointer t 4.

Definition ClientMessage_user_message_type (t : table) : outcome exn Z := GetField_uint8 t 4 0.
Definition ClientMessage_user_message (t : table) : outcome exn ptr := GetPointer_table t 6.
Definition user_message_as (type : Z) (t : table) : outcome exn ptr :=
  ty ← ClientMessage_user_message_type t;
  if ty =? type then ClientMessage_user_message t else Ret None.
Definition user_message_as_UserConnectMessage : table -> outcome exn ptr := user_message_as UserMessage_UserConnectMessage.
Definition user_message_as_UserClickMessage : table -> outcome exn ptr := user_message_as UserMessage_UserClickMessage.
Definition user_message_as_UserChatMessage : table -> outcome exn ptr := user_message_as UserMessage_UserChatMessage.
Definition user_message_as_UserPingMessage : table -> outcome exn ptr := user_message_as UserMessage_UserPingMessage.
Definition GetClientMessage (buf : list Z) : table := GetRoot buf.

(** ** [server_message_generated.h] *)
Definition Color_Red : Z := 0.
Definition Color_Green : Z := 1.
Definition Color_Blue : Z := 2.
Definition Color_Indigo : Z := 3.
Definition Color_FireOrange : Z := 4.
Definition Message_NONE : Z := 0.
Definition Message_ServerChatMessage : Z := 1.
Definition Message_ServerGameStateMessage : Z := 2.

(** The struct [Dot]: three floats, the color, three bytes of padding. *)
Record Dot : Type := mkCppDot { x_ : number; y_ : number; radius_ : number; color_ : Z }.

(** [CreateVectorOfStructs]: the structs are laid out one after the other; the builder
    grows downwards, so the last one is written first. *)
Definition write_Dot (d : Dot) : stm Builder exn unit :=
  prep 4 16 ≫= fun _ => pad 3 ≫= fun _ => writeInt8 (color_ d) ≫= fun _ =>
  writeFloat32 (radius_ d) ≫= fun _ => writeFloat32 (y_ d) ≫= fun _ => writeFloat32 (x_ d) ≫= fun _ =>
  mret tt.
Definition CreateVectorOfStructs (v : list Dot) : stm Builder exn Z :=
  startVector 16 (zlen v) 4 ≫= fun _ => for_each (rev v) write_Dot ≫= fun _ => endVector.

Definition ServerChatMessageBuilder : stm Builder exn unit := StartTable 2.
Definition ServerChatMessageBuilder_add_user (user : Z) : stm Builder exn unit := AddOffset 4 user.
Definition ServerChatMessageBuilder_add_text (text : Z) : stm Builder exn unit := AddOffset 6 text.
Definition ServerChatMessageBuilder_Finish : stm Builder exn Z := EndTable.
Definition CreateServerChatMessage (user text : Z) : stm Builder exn Z :=
  ServerChatMessageBuilder ≫= fun _ => ServerChatMessageBuilder_add_text text ≫= fun _ =>
  ServerChatMessageBuilder_add_user user ≫= fun _ => ServerChatMessageBuilder_Finish.

Definition ServerGameStateMessageBuilder : stm Builder exn unit := StartTable 1.
Definition ServerGameStateMessageBuilder_add_dots (dots : Z) : stm Builder exn unit := AddOffset 4 dots.
Definition ServerGameStateMessageBuilder_Finish : stm Builder exn Z := EndTable.
Definition CreateServerGameStateMessage (dots : Z) : stm Builder exn Z :=
  ServerGameStateMessageBuilder ≫= fun _ => ServerGameStateMessageBuilder_add_dots dots ≫= fun _ =>
  ServerGameStateMessageBuilder_Finish.

Definition ServerMessageBuilder : stm Builder exn unit := StartTable 2.
Definition ServerMessageBuilder_add_message_type (message_type : Z) : stm Builder exn unit := AddElement_uint8 4 message_type 0.
Definition ServerMessageBuilder_add_message (message : Z) : stm Builder exn unit := AddOffset 6 message.
Definition ServerMessageBuilder_Finish : stm Builder exn Z := EndTable.
Definition CreateServerMessage (message_type message : Z) : stm Builder exn Z :=
  ServerMessageBuilder ≫= fun _ => ServerMessageBuilder_add_message message ≫= fun _ =>
  ServerMessageBuilder_add_message_type message_type ≫= fun _ => ServerMessageBuilder_Finish.
End with_fb.
Arguments table {FB}.
Arguments ptr {FB}.

(** ** Verification *)

(** What the generated [Verify] methods use of [flatbuffers::Verifier]: it keeps the depth and
    the number of the tables it is in, so each check may change it. [VerifyTable] calls the
    method of the class on a table that is not null, [VerifyBuffer] on the root. *)
Class Verifier `{FB : FlatBuffers} := {
  verifier : Type;
  new_Verifier : list Z -> Z -> verifier;            (** the bytes and [max_depth]; alignment is checked *)
  VerifyTableStart : table -> stm verifier exn bool;
  VerifyField : table -> Z -> Z -> stm verifier exn bool;   (** vtable place, alignment *)
  VerifyOffset : table -> Z -> stm verifier exn bool;
  VerifyString : ptr -> stm verifier exn bool;
  VerifyVector : ptr -> stm verifier exn bool;
  VerifyTable : (table -> stm verifier exn bool) -> ptr -> stm verifier exn bool;
  VerifierEndTable : stm verifier exn bool;
  VerifyBuffer : (table -> stm verifier exn bool) -> stm verifier exn bool;
}.

Section verify.
Context `{V : Verifier}.

(** [a && b] *)
Definition vand (a b : stm verifier exn bool) : stm verifier exn bool :=
  r ← a; if r : bool then b else mret false.
#[local] Infix "&&&" := vand (at level 40, left associativity).
Definition vget {A} (x : outcome exn A) : stm verifier exn A := fun v => (x, v).

(** Tables with a client id only: [ProxyDestConnectionRequest], [ProxyDestClientMessage], [ProxyDestCloseConnection] *)
Definition client_id_Verify (t : table) : stm verifier exn bool :=
  VerifyTableStart t &&& VerifyField t 4 4 &&& VerifierEndTable.

Definition VerifyProxyDestInnerMsg (obj : ptr) (type : Z) : stm verifier exn bool :=
  if type =? ProxyDestInnerMsg_NONE then mret true
  else if type =? ProxyDestInnerMsg_ProxyDestConnectionRequest then VerifyTable client_id_Verify obj
  else if type =? ProxyDestInnerMsg_ProxyDestClientMessage then VerifyTable client_id_Verify obj
  else if type =? ProxyDestInnerMsg_ProxyDestCloseConnection then VerifyTable client_id_Verify obj
  else mret true.

Definition ProxyDestinationMessage_Verify (t : table) : stm verifier exn bool :=
  VerifyTableStart t &&&
  VerifyField t 4 1 &&&
  VerifyOffset t 6 &&&
  (obj ← vget (ProxyDestinationMessage_inner_message t); type ← vget (ProxyDestinationMessage_inner_message_type t);
   VerifyProxyDestInnerMsg obj type) &&&
  VerifyOffset t 8 &&&
  (v ← vget (ProxyDestinationMessage_app_data t); VerifyVector v) &&&
  VerifierEndTable.

Definition UserConnectMessage_Verify (t : table) : stm verifier exn bool :=
  VerifyTableStart t &&& VerifyOffset t 4 &&&
  (s ← vget (UserConnectMessage_name t); VerifyString s) &&& VerifierEndTable.
Definition UserClickMessage_Verify (t : table) : stm verifier exn bool :=
  VerifyTableStart t &&& VerifyField t 4 4 &&& VerifyField t 6 4 &&& VerifierEndTable.
Definition UserChatMessage_Verify (t : table) : stm verifier exn bool :=
  VerifyTableStart t &&& VerifyOffset t 4 &&&
  (s ← vget (UserChatMessage_text t); VerifyString s) &&& VerifierEndTable.
Definition UserPingMessage_Verify (t : table) : stm verifier exn bool :=
  VerifyTableStart t &&& VerifierEndTable.

Definition VerifyUserMessage (obj : ptr) (type : Z) : stm verifier exn bool :=
  if type =? UserMessage_NONE then mret true
  else if type =? UserMessage_UserConnectMessage then VerifyTable UserConnectMessage_Verify obj
  else if type =? UserMessage_UserClickMessage then VerifyTable UserClickMessage_Verify obj
  else if type =? UserMessage_UserChatMessage then VerifyTable UserChatMessage_Verify obj
  else if type =? UserMessage_UserPingMessage then VerifyTable UserPingMessage_Verify obj
  else mret true.

Definition ClientMessage_Verify (t : table) : stm verifier exn bool :=
  VerifyTableStart t &&&
  VerifyField t 4 1 &&&
  VerifyOffset t 6 &&&
  (obj ← vget (ClientMessage_user_message t); type ← vget (ClientMessage_user_message_type t);
   VerifyUserMessage obj type) &&&
  VerifierEndTable.

Definition VerifyProxyDestinationMessageBuffer : stm verifier exn bool := VerifyBuffer ProxyDestinationMessage_Verify.
Definition VerifyClientMessageBuffer : stm verifier exn bool := VerifyBuffer ClientMessage_Verify.
End verify.
