(* ===== verification/CppGenerated.v ===== *)
(** * The rest of the demo server's generated message code in C++

    [CppMessages] has what the demo server calls; here are the other functions of the seven
    headers under examples/hello-spanreed/server/include/: the messages it does not use, the names
    of the enums (without the null pointer that ends a list), the [Create...Direct] functions, the size-prefixed
      forms, the
    remaining [Verify] methods and those of unions and vectors of unions. A template is its instances:
    the specialisations [msg_as<T>()] forward to [msg_as_T()] and are not repeated. *)

From stdpp Require Import strings.
From S2P Require Import Prelude JsPlatform FlatBuffers CppMessages.
#[local] Open Scope Z_scope.

Section with_fb.
Context `{FB : FlatBuffers}.

(** ** The runtime's operations that [CppMessages] does not need *)
Definition IsOutRange (e low high : Z) : bool := (e <? low) || (high <? e).
Definition FinishSizePrefixedBuffer (root : Z) : stm Builder exn unit := finish root true.
Definition GetSizePrefixedRoot (buf : list Z) : table :=
  let b := new_ByteBuffer (u8_of_buffer buf) in mkTable (Some b) (readInt32 b SIZE_PREFIX_LENGTH +
    SIZE_PREFIX_LENGTH).

(** [Vector::size]; [Get] of a vector of tables and [GetEnum] of a vector of bytes. *)
Definition Vector_size (p : ptr) : outcome exn Z :=
  r ← deref_ptr p; b ← deref r; Ret (__vector_len b (bb_pos r)).
Definition Vector_Get (p : ptr) (i : Z) : outcome exn ptr :=
  r ← deref_ptr p; b ← deref r; Ret (Some (__union b (mkTable None 0) (__vector b (bb_pos r) + 4 * i))).
Definition Vector_GetEnum (p : ptr) (i : Z) : outcome exn Z :=
  r ← deref_ptr p; b ← deref r; Ret (readUint8 b (__vector b (bb_pos r) + i)).

(** [x ? _fbb.Create...(x) : 0]: a [const char*] is the bytes before its NUL. *)
Definition opt_create {A} (create : A -> stm Builder exn Z) (x : option A) : stm Builder exn Z :=
  match x with Some x => create x | None => mret 0 end.

(** The constructors and members of the struct [Dot] of [server_message_generated.h]. *)
Definition Dot_default : Dot := mkCppDot num_zero num_zero num_zero 0.
Definition Dot_of (x y radius : number) (color : Z) : Dot := mkCppDot x y radius color.
Definition Dot_x (d : Dot) : number := x_ d.
Definition Dot_y (d : Dot) : number := y_ d.
Definition Dot_radius (d : Dot) : number := radius_ d.
Definition Dot_color (d : Dot) : Z := color_ d.

(** ** [connect_client_message_generated.h] *)
Definition ConnectClientMessage_connection_string (t : table) : outcome exn ptr := GetPointer t 4.
Definition ConnectClientMessage_app_data (t : table) : outcome exn ptr := GetPointer t 6.
Definition ConnectClientMessageBuilder_add_connection_string (connection_string : Z) : stm Builder exn unit :=
  AddOffset 4 connection_string.
Definition ConnectClientMessageBuilder_add_app_data (app_data : Z) : stm Builder exn unit :=
  AddOffset 6 app_data.
Definition ConnectClientMessageBuilder : stm Builder exn unit := StartTable 2.
Definition ConnectClientMessageBuilder_Finish : stm Builder exn Z := EndTable.
Definition CreateConnectClientMessage (connection_string : Z) (app_data : Z) : stm Builder exn Z :=
  ConnectClientMessageBuilder ≫= fun _ => ConnectClientMessageBuilder_add_app_data app_data ≫= fun _ =>
    ConnectClientMessageBuilder_add_connection_string connection_string ≫= fun _ =>
    ConnectClientMessageBuilder_Finish.
Definition CreateConnectClientMessageDirect (connection_string : option (list Z)) (app_data : option (list Z)) :
  stm Builder exn Z :=
  connection_string__ ← opt_create CreateString connection_string;
  app_data__ ← opt_create CreateVector app_data;
  CreateConnectClientMessage connection_string__ app_data__.
Definition GetConnectClientMessage (buf : list Z) : table := GetRoot buf.
Definition GetSizePrefixedConnectClientMessage (buf : list Z) : table := GetSizePrefixedRoot buf.
Definition FinishConnectClientMessageBuffer (root : Z) : stm Builder exn unit := FinishBuffer root.
Definition FinishSizePrefixedConnectClientMessageBuffer (root : Z) : stm Builder exn unit :=
  FinishSizePrefixedBuffer root.

(** ** [connect_client_verdict_generated.h] *)
Definition ConnectClientVerdict_accepted (t : table) : outcome exn bool := truthy <$> GetField_uint8 t 4 0.
Definition ConnectClientVerdict_error_reason (t : table) : outcome exn ptr := GetPointer t 6.
Definition ConnectClientVerdict_app_data (t : table) : outcome exn ptr := GetPointer t 8.
Definition ConnectClientVerdictBuilder_add_accepted (accepted : bool) : stm Builder exn unit :=
  AddElement_uint8 4 (bool_number accepted) 0.
Definition ConnectClientVerdictBuilder_add_error_reason (error_reason : Z) : stm Builder exn unit :=
  AddOffset 6 error_reason.
Definition ConnectClientVerdictBuilder_add_app_data (app_data : Z) : stm Builder exn unit :=
  AddOffset 8 app_data.
Definition ConnectClientVerdictBuilder : stm Builder exn unit := StartTable 3.
Definition ConnectClientVerdictBuilder_Finish : stm Builder exn Z := EndTable.
Definition CreateConnectClientVerdict (accepted : bool) (error_reason : Z) (app_data : Z) : stm Builder exn Z :=
  ConnectClientVerdictBuilder ≫= fun _ => ConnectClientVerdictBuilder_add_app_data app_data ≫= fun _ =>
    ConnectClientVerdictBuilder_add_error_reason error_reason ≫= fun _ =>
    ConnectClientVerdictBuilder_add_accepted accepted ≫= fun _ => ConnectClientVerdictBuilder_Finish.
Definition CreateConnectClientVerdictDirect (accepted : bool) (error_reason : option (list Z)) (app_data :
  option (list Z)) : stm Builder exn Z :=
  error_reason__ ← opt_create CreateString error_reason;
  app_data__ ← opt_create CreateVector app_data;
  CreateConnectClientVerdict accepted error_reason__ app_data__.
Definition GetConnectClientVerdict (buf : list Z) : table := GetRoot buf.
Definition GetSizePrefixedConnectClientVerdict (buf : list Z) : table := GetSizePrefixedRoot buf.
Definition FinishConnectClientVerdictBuffer (root : Z) : stm Builder exn unit := FinishBuffer root.
Definition FinishSizePrefixedConnectClientVerdictBuffer (root : Z) : stm Builder exn unit :=
  FinishSizePrefixedBuffer root.

(** ** [connect_destination_verdict_generated.h] *)
Definition ConnectDestinationVerdict_client_id (t : table) : outcome exn Z := GetField_uint32 t 4 0.
Definition ConnectDestinationVerdict_accepted (t : table) : outcome exn bool := truthy <$> GetField_uint8 t 6 0.
Definition ConnectDestinationVerdict_error_reason (t : table) : outcome exn ptr := GetPointer t 8.
Definition ConnectDestinationVerdict_app_data (t : table) : outcome exn ptr := GetPointer t 10.
Definition ConnectDestinationVerdictBuilder_add_client_id (client_id : Z) : stm Builder exn unit :=
  AddElement_uint32 4 client_id 0.
Definition ConnectDestinationVerdictBuilder_add_accepted (accepted : bool) : stm Builder exn unit :=
  AddElement_uint8 6 (bool_number accepted) 0.
Definition ConnectDestinationVerdictBuilder_add_error_reason (error_reason : Z) : stm Builder exn unit :=
  AddOffset 8 error_reason.
Definition ConnectDestinationVerdictBuilder_add_app_data (app_data : Z) : stm Builder exn unit :=
  AddOffset 10 app_data.
Definition ConnectDestinationVerdictBuilder : stm Builder exn unit := StartTable 4.
Definition ConnectDestinationVerdictBuilder_Finish : stm Builder exn Z := EndTable.
Definition CreateConnectDestinationVerdict (client_id : Z) (accepted : bool) (error_reason : Z) (app_data : Z) :
  stm Builder exn Z :=
  ConnectDestinationVerdictBuilder ≫= fun _ => ConnectDestinationVerdictBuilder_add_app_data app_data
    ≫= fun _ => ConnectDestinationVerdictBuilder_add_error_reason error_reason ≫= fun _ =>
    ConnectDestinationVerdictBuilder_add_client_id client_id ≫= fun _ =>
    ConnectDestinationVerdictBuilder_add_accepted accepted ≫= fun _ => ConnectDestinationVerdictBuilder_Finish.
Definition CreateConnectDestinationVerdictDirect (client_id : Z) (accepted : bool) (error_reason : option (list
  Z)) (app_data : option (list Z)) : stm Builder exn Z :=
  error_reason__ ← opt_create CreateString error_reason;
  app_data__ ← opt_create CreateVector app_data;
  CreateConnectDestinationVerdict client_id accepted error_reason__ app_data__.
Definition GetConnectDestinationVerdict (buf : list Z) : table := GetRoot buf.
Definition GetSizePrefixedConnectDestinationVerdict (buf : list Z) : table := GetSizePrefixedRoot buf.
Definition FinishConnectDestinationVerdictBuffer (root : Z) : stm Builder exn unit := FinishBuffer root.
Definition FinishSizePrefixedConnectDestinationVerdictBuffer (root : Z) : stm Builder exn unit :=
  FinishSizePrefixedBuffer root.

(** ** [destination_message_generated.h] *)
Definition InnerMsg_MIN : Z := InnerMsg_NONE.
Definition InnerMsg_MAX : Z := InnerMsg_CloseConnection.
Definition EnumValuesInnerMsg : list Z :=
  [InnerMsg_NONE; InnerMsg_ProxyMessage; InnerMsg_ConnectionVerdict; InnerMsg_CloseConnection].
Definition EnumNamesInnerMsg : list string :=
  ["NONE"; "ProxyMessage"; "ConnectionVerdict"; "CloseConnection"]%string.
Definition EnumNameInnerMsg (e : Z) : string :=
  if IsOutRange e InnerMsg_NONE InnerMsg_CloseConnection then EmptyString else default EmptyString
    (EnumNamesInnerMsg !! Z.to_nat e).
Definition InnerMsgTraits : Z := InnerMsg_NONE.
Definition InnerMsgTraits_ProxyMessage : Z := InnerMsg_ProxyMessage.
Definition InnerMsgTraits_ConnectionVerdict : Z := InnerMsg_ConnectionVerdict.
Definition InnerMsgTraits_CloseConnection : Z := InnerMsg_CloseConnection.
Definition CreateCloseConnectionDirect (client_id : Z) (reason : option (list Z)) : stm Builder exn Z :=
  reason__ ← opt_create CreateString reason;
  CreateCloseConnection client_id reason__.
Definition DestinationMessage_msg_as_ProxyMessage (t : table) : outcome exn ptr :=
  ty ← DestinationMessage_msg_type t; if ty =? InnerMsg_ProxyMessage then DestinationMessage_msg t else Ret
    None.
Definition DestinationMessage_msg_as_ConnectionVerdict (t : table) : outcome exn ptr :=
  ty ← DestinationMessage_msg_type t; if ty =? InnerMsg_ConnectionVerdict then DestinationMessage_msg t else Ret
    None.
Definition DestinationMessage_msg_as_CloseConnection (t : table) : outcome exn ptr :=
  ty ← DestinationMessage_msg_type t; if ty =? InnerMsg_CloseConnection then DestinationMessage_msg t else Ret
    None.
Definition CreateDestinationMessageDirect (msg_type : Z) (msg : Z) (app_data : option (list Z)) : stm Builder
  exn Z :=
  app_data__ ← opt_create CreateVector app_data;
  CreateDestinationMessage msg_type msg app_data__.
Definition GetSizePrefixedDestinationMessage (buf : list Z) : table := GetSizePrefixedRoot buf.
Definition FinishSizePrefixedDestinationMessageBuffer (root : Z) : stm Builder exn unit :=
  FinishSizePrefixedBuffer root.

(** ** [proxy_destination_message_generated.h] *)
Definition ProxyDestInnerMsg_MIN : Z := ProxyDestInnerMsg_NONE.
Definition ProxyDestInnerMsg_MAX : Z := ProxyDestInnerMsg_ProxyDestCloseConnection.
Definition EnumValuesProxyDestInnerMsg : list Z :=
  [ProxyDestInnerMsg_NONE; ProxyDestInnerMsg_ProxyDestConnectionRequest;
    ProxyDestInnerMsg_ProxyDestClientMessage; ProxyDestInnerMsg_ProxyDestCloseConnection].
Definition EnumNamesProxyDestInnerMsg : list string :=
  ["NONE"; "ProxyDestConnectionRequest"; "ProxyDestClientMessage"; "ProxyDestCloseConnection"]%string.
Definition EnumNameProxyDestInnerMsg (e : Z) : string :=
  if IsOutRange e ProxyDestInnerMsg_NONE ProxyDestInnerMsg_ProxyDestCloseConnection then EmptyString else
    default EmptyString (EnumNamesProxyDestInnerMsg !! Z.to_nat e).
Definition ProxyDestInnerMsgTraits : Z := ProxyDestInnerMsg_NONE.
Definition ProxyDestInnerMsgTraits_ProxyDestConnectionRequest : Z :=
  ProxyDestInnerMsg_ProxyDestConnectionRequest.
Definition ProxyDestInnerMsgTraits_ProxyDestClientMessage : Z := ProxyDestInnerMsg_ProxyDestClientMessage.
Definition ProxyDestInnerMsgTraits_ProxyDestCloseConnection : Z := ProxyDestInnerMsg_ProxyDestCloseConnection.
Definition ProxyDestConnectionRequestBuilder_add_client_id (client_id : Z) : stm Builder exn unit :=
  AddElement_uint32 4 client_id 0.
Definition ProxyDestConnectionRequestBuilder : stm Builder exn unit := StartTable 1.
Definition ProxyDestConnectionRequestBuilder_Finish : stm Builder exn Z := EndTable.
Definition CreateProxyDestConnectionRequest (client_id : Z) : stm Builder exn Z :=
  ProxyDestConnectionRequestBuilder ≫= fun _ => ProxyDestConnectionRequestBuilder_add_client_id client_id
    ≫= fun _ => ProxyDestConnectionRequestBuilder_Finish.
Definition ProxyDestClientMessageBuilder_add_client_id (client_id : Z) : stm Builder exn unit :=
  AddElement_uint32 4 client_id 0.
Definition ProxyDestClientMessageBuilder : stm Builder exn unit := StartTable 1.
Definition ProxyDestClientMessageBuilder_Finish : stm Builder exn Z := EndTable.
Definition CreateProxyDestClientMessage (client_id : Z) : stm Builder exn Z :=
  ProxyDestClientMessageBuilder ≫= fun _ => ProxyDestClientMessageBuilder_add_client_id client_id ≫= fun _ =>
    ProxyDestClientMessageBuilder_Finish.
Definition ProxyDestCloseConnectionBuilder_add_client_id (client_id : Z) : stm Builder exn unit :=
  AddElement_uint32 4 client_id 0.
Definition ProxyDestCloseConnectionBuilder : stm Builder exn unit := StartTable 1.
Definition ProxyDestCloseConnectionBuilder_Finish : stm Builder exn Z := EndTable.
Definition CreateProxyDestCloseConnection (client_id : Z) : stm Builder exn Z :=
  ProxyDestCloseConnectionBuilder ≫= fun _ => ProxyDestCloseConnectionBuilder_add_client_id client_id
    ≫= fun _ => ProxyDestCloseConnectionBuilder_Finish.
Definition ProxyDestinationMessageBuilder_add_inner_message_type (inner_message_type : Z) : stm Builder exn unit
    :=
  AddElement_uint8 4 inner_message_type 0.
Definition ProxyDestinationMessageBuilder_add_inner_message (inner_message : Z) : stm Builder exn unit :=
  AddOffset 6 inner_message.
Definition ProxyDestinationMessageBuilder_add_app_data (app_data : Z) : stm Builder exn unit :=
  AddOffset 8 app_data.
Definition ProxyDestinationMessageBuilder : stm Builder exn unit := StartTable 3.
Definition ProxyDestinationMessageBuilder_Finish : stm Builder exn Z := EndTable.
Definition CreateProxyDestinationMessage (inner_message_type : Z) (inner_message : Z) (app_data : Z) : stm
  Builder exn Z :=
  ProxyDestinationMessageBuilder ≫= fun _ => ProxyDestinationMessageBuilder_add_app_data app_data ≫= fun _ =>
    ProxyDestinationMessageBuilder_add_inner_message inner_message ≫= fun _ =>
    ProxyDestinationMessageBuilder_add_inner_message_type inner_message_type ≫= fun _ =>
    ProxyDestinationMessageBuilder_Finish.
Definition CreateProxyDestinationMessageDirect (inner_message_type : Z) (inner_message : Z) (app_data : option
  (list Z)) : stm Builder exn Z :=
  app_data__ ← opt_create CreateVector app_data;
  CreateProxyDestinationMessage inner_message_type inner_message app_data__.
Definition GetSizePrefixedProxyDestinationMessage (buf : list Z) : table := GetSizePrefixedRoot buf.
Definition FinishProxyDestinationMessageBuffer (root : Z) : stm Builder exn unit := FinishBuffer root.
Definition FinishSizePrefixedProxyDestinationMessageBuffer (root : Z) : stm Builder exn unit :=
  FinishSizePrefixedBuffer root.

(** ** [client_message_generated.h] *)
Definition UserMessage_MIN : Z := UserMessage_NONE.
Definition UserMessage_MAX : Z := UserMessage_UserPingMessage.
Definition EnumValuesUserMessage : list Z :=
  [UserMessage_NONE; UserMessage_UserConnectMessage; UserMessage_UserClickMessage; UserMessage_UserChatMessage;
    UserMessage_UserPingMessage].
Definition EnumNamesUserMessage : list string :=
  ["NONE"; "UserConnectMessage"; "UserClickMessage"; "UserChatMessage"; "UserPingMessage"]%string.
Definition EnumNameUserMessage (e : Z) : string :=
  if IsOutRange e UserMessage_NONE UserMessage_UserPingMessage then EmptyString else default EmptyString
    (EnumNamesUserMessage !! Z.to_nat e).
Definition UserMessageTraits : Z := UserMessage_NONE.
Definition UserMessageTraits_UserConnectMessage : Z := UserMessage_UserConnectMessage.
Definition UserMessageTraits_UserClickMessage : Z := UserMessage_UserClickMessage.
Definition UserMessageTraits_UserChatMessage : Z := UserMessage_UserChatMessage.
Definition UserMessageTraits_UserPingMessage : Z := UserMessage_UserPingMessage.
Definition UserConnectMessageBuilder_add_name (name : Z) : stm Builder exn unit := AddOffset 4 name.
Definition UserConnectMessageBuilder : stm Builder exn unit := StartTable 1.
Definition UserConnectMessageBuilder_Finish : stm Builder exn Z := EndTable.
Definition CreateUserConnectMessage (name : Z) : stm Builder exn Z :=
  UserConnectMessageBuilder ≫= fun _ => UserConnectMessageBuilder_add_name name ≫= fun _ =>
    UserConnectMessageBuilder_Finish.
Definition CreateUserConnectMessageDirect (name : option (list Z)) : stm Builder exn Z :=
  name__ ← opt_create CreateString name;
  CreateUserConnectMessage name__.
Definition UserClickMessageBuilder_add_x (x : number) : stm Builder exn unit := AddElement_float 4 x num_zero.
Definition UserClickMessageBuilder_add_y (y : number) : stm Builder exn unit := AddElement_float 6 y num_zero.
Definition UserClickMessageBuilder : stm Builder exn unit := StartTable 2.
Definition UserClickMessageBuilder_Finish : stm Builder exn Z := EndTable.
Definition CreateUserClickMessage (x : number) (y : number) : stm Builder exn Z :=
  UserClickMessageBuilder ≫= fun _ => UserClickMessageBuilder_add_y y ≫= fun _ => UserClickMessageBuilder_add_x
    x ≫= fun _ => UserClickMessageBuilder_Finish.
Definition UserChatMessageBuilder_add_text (text : Z) : stm Builder exn unit := AddOffset 4 text.
Definition UserChatMessageBuilder : stm Builder exn unit := StartTable 1.
Definition UserChatMessageBuilder_Finish : stm Builder exn Z := EndTable.
Definition CreateUserChatMessage (text : Z) : stm Builder exn Z :=
  UserChatMessageBuilder ≫= fun _ => UserChatMessageBuilder_add_text text ≫= fun _ =>
    UserChatMessageBuilder_Finish.
Definition CreateUserChatMessageDirect (text : option (list Z)) : stm Builder exn Z :=
  text__ ← opt_create CreateString text;
  CreateUserChatMessage text__.
Definition UserPingMessageBuilder : stm Builder exn unit := StartTable 0.
Definition UserPingMessageBuilder_Finish : stm Builder exn Z := EndTable.
Definition CreateUserPingMessage : stm Builder exn Z :=
  UserPingMessageBuilder ≫= fun _ => UserPingMessageBuilder_Finish.
Definition ClientMessageBuilder_add_user_message_type (user_message_type : Z) : stm Builder exn unit :=
  AddElement_uint8 4 user_message_type 0.
Definition ClientMessageBuilder_add_user_message (user_message : Z) : stm Builder exn unit :=
  AddOffset 6 user_message.
Definition ClientMessageBuilder : stm Builder exn unit := StartTable 2.
Definition ClientMessageBuilder_Finish : stm Builder exn Z := EndTable.
Definition CreateClientMessage (user_message_type : Z) (user_message : Z) : stm Builder exn Z :=
  ClientMessageBuilder ≫= fun _ => ClientMessageBuilder_add_user_message user_message ≫= fun _ =>
    ClientMessageBuilder_add_user_message_type user_message_type ≫= fun _ => ClientMessageBuilder_Finish.
Definition GetSizePrefixedClientMessage (buf : list Z) : table := GetSizePrefixedRoot buf.
Definition FinishClientMessageBuffer (root : Z) : stm Builder exn unit := FinishBuffer root.
Definition FinishSizePrefixedClientMessageBuffer (root : Z) : stm Builder exn unit :=
  FinishSizePrefixedBuffer root.

(** ** [server_message_generated.h] *)
Definition Color_MIN : Z := Color_Red.
Definition Color_MAX : Z := Color_FireOrange.
Definition EnumValuesColor : list Z :=
  [Color_Red; Color_Green; Color_Blue; Color_Indigo; Color_FireOrange].
Definition EnumNamesColor : list string :=
  ["Red"; "Green"; "Blue"; "Indigo"; "FireOrange"]%string.
Definition EnumNameColor (e : Z) : string :=
  if IsOutRange e Color_Red Color_FireOrange then EmptyString else default EmptyString (EnumNamesColor !!
    Z.to_nat e).
Definition Message_MIN : Z := Message_NONE.
Definition Message_MAX : Z := Message_ServerGameStateMessage.
Definition EnumValuesMessage : list Z :=
  [Message_NONE; Message_ServerChatMessage; Message_ServerGameStateMessage].
Definition EnumNamesMessage : list string :=
  ["NONE"; "ServerChatMessage"; "ServerGameStateMessage"]%string.
Definition EnumNameMessage (e : Z) : string :=
  if IsOutRange e Message_NONE Message_ServerGameStateMessage then EmptyString else default EmptyString
    (EnumNamesMessage !! Z.to_nat e).
Definition MessageTraits : Z := Message_NONE.
Definition MessageTraits_ServerChatMessage : Z := Message_ServerChatMessage.
Definition MessageTraits_ServerGameStateMessage : Z := Message_ServerGameStateMessage.
Definition ServerChatMessage_user (t : table) : outcome exn ptr := GetPointer t 4.
Definition ServerChatMessage_text (t : table) : outcome exn ptr := GetPointer t 6.
Definition CreateServerChatMessageDirect (user : option (list Z)) (text : option (list Z)) : stm Builder exn Z
  :=
  user__ ← opt_create CreateString user;
  text__ ← opt_create CreateString text;
  CreateServerChatMessage user__ text__.
Definition ServerGameStateMessage_dots (t : table) : outcome exn ptr := GetPointer t 4.
Definition CreateServerGameStateMessageDirect (dots : option (list Dot)) : stm Builder exn Z :=
  dots__ ← opt_create CreateVectorOfStructs dots;
  CreateServerGameStateMessage dots__.
Definition ServerMessage_message_type (t : table) : outcome exn Z := GetField_uint8 t 4 0.
Definition ServerMessage_message (t : table) : outcome exn ptr := GetPointer_table t 6.
Definition ServerMessage_message_as_ServerChatMessage (t : table) : outcome exn ptr :=
  ty ← ServerMessage_message_type t; if ty =? Message_ServerChatMessage then ServerMessage_message t else Ret
    None.
Definition ServerMessage_message_as_ServerGameStateMessage (t : table) : outcome exn ptr :=
  ty ← ServerMessage_message_type t; if ty =? Message_ServerGameStateMessage then ServerMessage_message t else
    Ret None.
Definition GetServerMessage (buf : list Z) : table := GetRoot buf.
Definition GetSizePrefixedServerMessage (buf : list Z) : table := GetSizePrefixedRoot buf.
Definition FinishServerMessageBuffer (root : Z) : stm Builder exn unit := FinishBuffer root.
Definition FinishSizePrefixedServerMessageBuffer (root : Z) : stm Builder exn unit :=
  FinishSizePrefixedBuffer root.
End with_fb.

(** ** Verification *)

(** [Verifier::VerifySizePrefixedBuffer], which the demo server does not use. *)
Class SizePrefixedVerifier `{V : Verifier} := {
  VerifySizePrefixedBuffer : (table -> stm verifier exn bool) -> stm verifier exn bool;
}.

Section verify.
Context `{SV : SizePrefixedVerifier}.

#[local] Infix "&&&" := vand (at level 40, left associativity).

(** The loop of the [Verify...Vector] functions, from [i] with [k] elements to go. *)
Fixpoint verify_each (verify : ptr -> Z -> stm verifier exn bool) (values types : ptr) (i : Z) (k : nat) : stm verifier exn bool :=
  match k with
  | O => mret true
  | S k =>
      obj ← vget (Vector_Get values i); type ← vget (Vector_GetEnum types i);
      ok ← verify obj type;
      if ok : bool then verify_each verify values types (i + 1) k else mret false
  end.

(** The body of the [Verify...Vector] functions, the same for each union. *)
Definition verify_union_vector (verify : ptr -> Z -> stm verifier exn bool) (values types : ptr) : stm verifier
  exn bool :=
  match values, types with
  | None, None => mret true
  | None, Some _ | Some _, None => mret false
  | Some _, Some _ =>
      nv ← vget (Vector_size values); nt ← vget (Vector_size types);
      if nv =? nt then verify_each verify values types 0 (Z.to_nat nv) else mret false
  end.

(** ** [connect_client_message_generated.h] *)
Definition ConnectClientMessage_Verify (t : table) : stm verifier exn bool :=
  VerifyTableStart t &&&
  VerifyOffset t 4 &&&
  (s ← vget (ConnectClientMessage_connection_string t); VerifyString s) &&&
  VerifyOffset t 6 &&&
  (v ← vget (ConnectClientMessage_app_data t); VerifyVector v) &&&
  VerifierEndTable.
Definition VerifyConnectClientMessageBuffer : stm verifier exn bool := VerifyBuffer ConnectClientMessage_Verify.
Definition VerifySizePrefixedConnectClientMessageBuffer : stm verifier exn bool :=
  VerifySizePrefixedBuffer ConnectClientMessage_Verify.

(** ** [connect_client_verdict_generated.h] *)
Definition ConnectClientVerdict_Verify (t : table) : stm verifier exn bool :=
  VerifyTableStart t &&&
  VerifyField t 4 1 &&&
  VerifyOffset t 6 &&&
  (s ← vget (ConnectClientVerdict_error_reason t); VerifyString s) &&&
  VerifyOffset t 8 &&&
  (v ← vget (ConnectClientVerdict_app_data t); VerifyVector v) &&&
  VerifierEndTable.
Definition VerifyConnectClientVerdictBuffer : stm verifier exn bool := VerifyBuffer ConnectClientVerdict_Verify.
Definition VerifySizePrefixedConnectClientVerdictBuffer : stm verifier exn bool :=
  VerifySizePrefixedBuffer ConnectClientVerdict_Verify.

(** ** [connect_destination_verdict_generated.h] *)
Definition ConnectDestinationVerdict_Verify (t : table) : stm verifier exn bool :=
  VerifyTableStart t &&&
  VerifyField t 4 4 &&&
  VerifyField t 6 1 &&&
  VerifyOffset t 8 &&&
  (s ← vget (ConnectDestinationVerdict_error_reason t); VerifyString s) &&&
  VerifyOffset t 10 &&&
  (v ← vget (ConnectDestinationVerdict_app_data t); VerifyVector v) &&&
  VerifierEndTable.
Definition VerifyConnectDestinationVerdictBuffer : stm verifier exn bool :=
  VerifyBuffer ConnectDestinationVerdict_Verify.
Definition VerifySizePrefixedConnectDestinationVerdictBuffer : stm verifier exn bool :=
  VerifySizePrefixedBuffer ConnectDestinationVerdict_Verify.

(** ** [destination_message_generated.h] *)
Definition ProxyMessage_Verify (t : table) : stm verifier exn bool :=
  VerifyTableStart t &&&
  VerifyField t 4 4 &&&
  VerifierEndTable.
Definition ConnectionVerdict_Verify (t : table) : stm verifier exn bool :=
  VerifyTableStart t &&&
  VerifyField t 4 4 &&&
  VerifyField t 6 1 &&&
  VerifierEndTable.
Definition CloseConnection_Verify (t : table) : stm verifier exn bool :=
  VerifyTableStart t &&&
  VerifyField t 4 4 &&&
  VerifyOffset t 6 &&&
  (s ← vget (CloseConnection_reason t); VerifyString s) &&&
  VerifierEndTable.
Definition VerifyInnerMsg (obj : ptr) (type : Z) : stm verifier exn bool :=
  if type =? InnerMsg_NONE then mret true
  else if type =? InnerMsg_ProxyMessage then VerifyTable ProxyMessage_Verify obj
  else if type =? InnerMsg_ConnectionVerdict then VerifyTable ConnectionVerdict_Verify obj
  else if type =? InnerMsg_CloseConnection then VerifyTable CloseConnection_Verify obj
  else mret true.
Definition DestinationMessage_Verify (t : table) : stm verifier exn bool :=
  VerifyTableStart t &&&
  VerifyField t 4 1 &&&
  VerifyOffset t 6 &&&
  (obj ← vget (DestinationMessage_msg t); type ← vget (DestinationMessage_msg_type t); VerifyInnerMsg obj type)
    &&&
  VerifyOffset t 8 &&&
  (v ← vget (DestinationMessage_app_data t); VerifyVector v) &&&
  VerifierEndTable.
Definition VerifyInnerMsgVector (values types : ptr) : stm verifier exn bool :=
  verify_union_vector VerifyInnerMsg values types.
Definition VerifyDestinationMessageBuffer : stm verifier exn bool := VerifyBuffer DestinationMessage_Verify.
Definition VerifySizePrefixedDestinationMessageBuffer : stm verifier exn bool :=
  VerifySizePrefixedBuffer DestinationMessage_Verify.

(** ** [proxy_destination_message_generated.h] *)
Definition VerifyProxyDestInnerMsgVector (values types : ptr) : stm verifier exn bool :=
  verify_union_vector VerifyProxyDestInnerMsg values types.
Definition VerifySizePrefixedProxyDestinationMessageBuffer : stm verifier exn bool :=
  VerifySizePrefixedBuffer ProxyDestinationMessage_Verify.

(** ** [client_message_generated.h] *)
Definition VerifyUserMessageVector (values types : ptr) : stm verifier exn bool :=
  verify_union_vector VerifyUserMessage values types.
Definition VerifySizePrefixedClientMessageBuffer : stm verifier exn bool :=
  VerifySizePrefixedBuffer ClientMessage_Verify.

(** ** [server_message_generated.h] *)
Definition ServerChatMessage_Verify (t : table) : stm verifier exn bool :=
  VerifyTableStart t &&&
  VerifyOffset t 4 &&&
  (s ← vget (ServerChatMessage_user t); VerifyString s) &&&
  VerifyOffset t 6 &&&
  (s ← vget (ServerChatMessage_text t); VerifyString s) &&&
  VerifierEndTable.
Definition ServerGameStateMessage_Verify (t : table) : stm verifier exn bool :=
  VerifyTableStart t &&&
  VerifyOffset t 4 &&&
  (v ← vget (ServerGameStateMessage_dots t); VerifyVector v) &&&
  VerifierEndTable.
Definition VerifyMessage (obj : ptr) (type : Z) : stm verifier exn bool :=
  if type =? Message_NONE then mret true
  else if type =? Message_ServerChatMessage then VerifyTable ServerChatMessage_Verify obj
  else if type =? Message_ServerGameStateMessage then VerifyTable ServerGameStateMessage_Verify obj
  else mret true.
Definition ServerMessage_Verify (t : table) : stm verifier exn bool :=
  VerifyTableStart t &&&
  VerifyField t 4 1 &&&
  VerifyOffset t 6 &&&
  (obj ← vget (ServerMessage_message t); type ← vget (ServerMessage_message_type t); VerifyMessage obj type) &&&
  VerifierEndTable.
Definition VerifyMessageVector (values types : ptr) : stm verifier exn bool :=
  verify_union_vector VerifyMessage values types.
Definition VerifyServerMessageBuffer : stm verifier exn bool := VerifyBuffer ServerMessage_Verify.
Definition VerifySizePrefixedServerMessageBuffer : stm verifier exn bool :=
  VerifySizePrefixedBuffer ServerMessage_Verify.
End verify.
