(* ===== verification/WireAgreement.v ===== *)
(** * One wire format in three languages

    The same schemas were compiled for TypeScript ([SpanreedMessages]), Go ([GoMessages],
    [GoGenerated]) and C++ ([CppMessages], [CppGenerated]); the demo's own messages ([HelloMessages]) for
    TypeScript and C++. What one language builds another one reads, so
    their functions have to agree message by message and field by field, also on bytes that
    nobody built: a table is any buffer with any position. The three runtimes are the one interface
    [FlatBuffers] here, so this compares the generated code: places in the vtables, slots, types,
    defaults and the numbers of the enums.

    They agree where the bytes that stand for the field lie in the buffer ([inside]), but for one thing: Go
    takes a bool to be true when its byte is 1, the others when it is not 0; a builder only writes 0 and 1. Where
    they do not, Go panics, TypeScript makes a number or a string of what it finds, and C++ may do anything
    (the demo server verifies a buffer first). The accessors of [GoMessages], the ones that the
    proxy calls, are the values Go returns when it does not panic, so for them only the first half is stated. *)

From S2P Require Import Prelude JsPlatform FlatBuffers SpanreedMessages HelloMessages ClientStore Proxy.
From S2P Require Import CppMessages CppGenerated GoMessages GoGenerated.
#[local] Open Scope Z_scope.

Section with_fb.
Context {FB : FlatBuffers} {GB : GoBounds}.

(** ** What it means to agree *)










(** ** Shape by shape *)


















Section laws.
Context {FBL : FlatBuffersLaws FB}.




End laws.













(** ** The theorem *)



(** ** The names of the enums *)

(** C++ gives a member the name that Go gives it, and any other number the empty one. *)
Lemma inner_msg_names e :
  EnumNameInnerMsg e = default EmptyString (GoGenerated.EnumNamesInnerMsg !! e).
Proof.
  destruct (decide (0 <= e < 4)) as [He|He].
  - assert (e = 0 \/ e = 1 \/ e = 2 \/ e = 3) as [->|[->|[->| ->]]] by lia; reflexivity.
  - unfold EnumNameInnerMsg, CppGenerated.IsOutRange.
    replace (_ || _) with true.
    2:{ symmetry. apply orb_true_iff. rewrite !Z.ltb_lt. cbn. unfold CppMessages.InnerMsg_NONE, InnerMsg_CloseConnection. lia. }
    unfold GoGenerated.EnumNamesInnerMsg, GoMessages.InnerMsgNONE, GoMessages.InnerMsgProxyMessage,
      GoMessages.InnerMsgConnectionVerdict, GoMessages.InnerMsgCloseConnection. cbn.
    rewrite !lookup_insert_ne by lia. done.
Qed.
End with_fb.
