(* ===== verification/DemoServer.v ===== *)
(** * The demo server (examples/hello-spanreed/server/main.cc)

    Two threads share the table of connected clients, under a mutex, and the queue of
    client messages. The receiving thread handles one datagram after the other; the main
    thread runs frames: it ages the dots, takes at most 25 messages off the queue, and
    sends the game state to the clients whose turn it is. [server] holds the globals, the
    main thread's variables and its place in the frame ([pc]); [Datagram] is one turn of
    the receiving thread, [MainStep] the main thread's next critical section, and a run is
    a sequence of events in any order.

    The two critical sections of [connection_request] are one step: between them only the
    main thread can run, and it neither adds nor removes clients nor looks at the ones to
    come. The same holds for [close_connection_request] and [handle_client_message]. The
    order in which an [unordered_map] is walked is a parameter, and so is the generator of
    the dots' radii. Reading through a null pointer ends the process: it is [Throw]. *)

From S2P Require Import Prelude JsPlatform FlatBuffers CppMessages.
From Corelib.Floats Require Import SpecFloat.
From stdpp Require Import gmap.
#[local] Open Scope Z_scope.

(** ** Addresses, colors and floats *)
Record sockaddr_in : Type := mkAddr { sin_family : Z; sin_port : Z; sin_addr : Z; sin_zero : list Z }.

#[export] Instance sockaddr_in_eq_dec : EqDecision sockaddr_in.
Proof. solve_decision. Defined.

Definition cmp_addr (a b : sockaddr_in) : bool :=
  if negb (sin_port a =? sin_port b) then false
  else if negb (sin_family a =? sin_family b) then false
  else if negb (sin_addr a =? sin_addr b) then false
  else true.

(** The static counter of [get_client_color]: an [int], and the [%] of C++. *)
Definition get_client_color (next_color : Z) : Z * Z :=
  let next_color := to_sint 32 (next_color + 1) in
  let r := Z.rem next_color 5 in
  (if r =? 0 then Color_Blue
   else if r =? 1 then Color_FireOrange
   else if r =? 2 then Color_Green
   else if r =? 3 then Color_Indigo
   else Color_Red, next_color).

Definition kClientSendFrequencyUs : Z := 50000.
Definition kClientRotateColorFrequencyUs : Z := 8000000.

(** [t - then >= freq] for a [long long t], a [uint64_t then] and a [long long freq]: the
    operands are converted to [uint64_t]. *)
Definition elapsed (t since freq : Z) : bool := to_uint 64 freq <=? to_uint 64 (t - since).

(** [float] arithmetic *)
Definition f32_of_Z (z : Z) : number := binary_normalize 24 128 z 0 false.
Definition f32_sub (x y : number) : number := SFsub 24 128 x y.
Definition f32_div (x y : number) : number := SFdiv 24 128 x y.
Definition f32_leb (x y : number) : bool := SFleb x y.

(** ** State *)
Record ConnectedClient : Type := mkClient {
  spanreed_client_addr : sockaddr_in;
  spanreed_client_id : Z;
  last_send_time : Z;
  last_rotate_colors_time : Z;
  client_name : list Z;
  dot_color : Z
}.

Record DrawnDot : Type := mkDrawn { d_x : number; d_y : number; d_t : number; d_radius : number; d_color : Z }.

Section server.
Context `{V : Verifier}.
(** The random numbers: [std::mt19937] with the [normal_distribution] of radii. *)
Context {rng : Type} (radius_dist : rng -> number * rng).
(** The order in which the table is walked. *)
Context (walk : gmap Z ConnectedClient -> list Z).

Record QueuedClientMessage : Type := mkQueued { q_client_id : Z; q_buffer : list Z; q_msg : ptr }.

(** Where the main thread is in its frame: before it, at the head of the loop over the messages
    with its counter, with a message and a copy of its client, and before the sending. *)
Inductive pc : Type :=
| FrameStart
| Draining (i : Z)
| Handling (i : Z) (msg : QueuedClientMessage) (client : ConnectedClient)
| Sending.

Record server : Type := mkServer {
  gConnectedClients : gmap Z ConnectedClient;
  next_color : Z;
  gClientMessageQueue : list QueuedClientMessage;
  dots : list DrawnDot;
  random : rng;
  this_frame_time : Z;
  last_frame_time : Z;
  at_ : pc;
  receiving : bool;                              (** the receiving thread is running *)
  outbound : list (sockaddr_in * list Z)        (** what [sendto] sent *)
}.

Definition set_clients (cs : gmap Z ConnectedClient) (s : server) : server :=
  mkServer cs (next_color s) (gClientMessageQueue s) (dots s) (random s) (this_frame_time s) (last_frame_time s) (at_ s)
    (receiving s) (outbound s).
Definition set_color (n : Z) (s : server) : server :=
  mkServer (gConnectedClients s) n (gClientMessageQueue s) (dots s) (random s) (this_frame_time s) (last_frame_time s)
    (at_ s) (receiving s) (outbound s).
Definition set_queue (q : list QueuedClientMessage) (s : server) : server :=
  mkServer (gConnectedClients s) (next_color s) q (dots s) (random s) (this_frame_time s) (last_frame_time s) (at_ s)
    (receiving s) (outbound s).
Definition set_dots (ds : list DrawnDot) (s : server) : server :=
  mkServer (gConnectedClients s) (next_color s) (gClientMessageQueue s) ds (random s) (this_frame_time s)
    (last_frame_time s) (at_ s) (receiving s) (outbound s).
Definition set_random (r : rng) (s : server) : server :=
  mkServer (gConnectedClients s) (next_color s) (gClientMessageQueue s) (dots s) r (this_frame_time s)
    (last_frame_time s) (at_ s) (receiving s) (outbound s).
Definition set_frame (this last : Z) (s : server) : server :=
  mkServer (gConnectedClients s) (next_color s) (gClientMessageQueue s) (dots s) (random s) this last (at_ s)
    (receiving s) (outbound s).
Definition goto (l : pc) (s : server) : server :=
  mkServer (gConnectedClients s) (next_color s) (gClientMessageQueue s) (dots s) (random s) (this_frame_time s)
    (last_frame_time s) l (receiving s) (outbound s).
Definition stop_receiving (s : server) : server :=
  mkServer (gConnectedClients s) (next_color s) (gClientMessageQueue s) (dots s) (random s) (this_frame_time s)
    (last_frame_time s) (at_ s) false (outbound s).
(** [sendto] records the datagram; whether the network takes it is not looked at by the code. *)
Definition sendto (to : sockaddr_in) (bs : list Z) (s : server) : server :=
  mkServer (gConnectedClients s) (next_color s) (gClientMessageQueue s) (dots s) (random s) (this_frame_time s)
    (last_frame_time s) (at_ s) (receiving s) (outbound s ++ [(to, bs)]).

(** [main] before the threads start, at time [now]. *)
Definition start_server (r : rng) (now : Z) : server := mkServer ∅ 0 [] [] r now now FrameStart true [].

(** ** The receiving thread *)
Definition verified (check : stm verifier exn bool) (buf : list Z) : outcome exn bool :=
  fst (check (new_Verifier buf 5)).

Definition verdict_message (client_id : Z) (accepted : bool) : outcome exn (list Z) :=
  fst ((ConnectionVerdictBuilder ≫= fun _ =>
        ConnectionVerdictBuilder_add_accepted accepted ≫= fun _ =>
        ConnectionVerdictBuilder_add_client_id client_id ≫= fun _ =>
        cv_offset ← ConnectionVerdictBuilder_Finish;
        DestinationMessageBuilder ≫= fun _ =>
        DestinationMessageBuilder_add_msg_type InnerMsg_ConnectionVerdict ≫= fun _ =>
        DestinationMessageBuilder_add_msg cv_offset ≫= fun _ =>
        msg ← DestinationMessageBuilder_Finish;
        FinishBuffer msg ≫= fun _ =>
        GetBuffer) FlatBufferBuilder).

Definition connection_request (now : Z) (request : ptr) (app_data : list Z) (src : sockaddr_in) (s : server) :
    outcome exn server :=
  ok ← verified VerifyClientMessageBuffer app_data;
  if negb ok then Ret s
  else
    client_message ← user_message_as_UserConnectMessage (GetClientMessage app_data);
    match client_message with
    | None => Ret s
    | Some client_message =>
        name ← UserConnectMessage_name client_message;
        client_name ← String_str name;
        request ← deref_ptr request;
        client_id ← ProxyDestConnectionRequest_client_id request;
        if bool_decide (is_Some (gConnectedClients s !! client_id)) || (20 <? Z.of_nat (size (gConnectedClients s)))
        then
          buf ← verdict_message client_id false;
          Ret (sendto src buf s)
        else
          let '(color, n) := get_client_color (next_color s) in
          let client_data := mkClient src client_id (to_uint 64 now) 0 client_name color in
          buf ← verdict_message client_id true;
          Ret (sendto src buf (set_clients (<[client_id := client_data]> (gConnectedClients s)) (set_color n s)))
    end.

Definition close_connection_request (request : ptr) (src : sockaddr_in) (s : server) : outcome exn server :=
  request ← deref_ptr request;
  client_id ← ProxyDestCloseConnection_client_id request;
  Ret (match gConnectedClients s !! client_id with
       | None => s
       | Some client =>
           if negb (cmp_addr src (spanreed_client_addr client)) then s
           else set_clients (delete client_id (gConnectedClients s)) s
       end).

Definition handle_client_message (msg : ptr) (app_data : list Z) (s : server) : outcome exn server :=
  msg ← deref_ptr msg;
  client_id ← ProxyDestClientMessage_client_id msg;
  match gConnectedClients s !! client_id with
  | None => Ret s
  | Some client =>
      ok ← verified VerifyClientMessageBuffer app_data;
      if negb ok then Ret s
      else Ret (set_queue (gClientMessageQueue s ++ [mkQueued client_id app_data (Some (GetClientMessage app_data))]) s)
  end.

Definition handle_recv_message (now : Z) (msg : list Z) (src : sockaddr_in) (s : server) : outcome exn server :=
  ok ← verified VerifyProxyDestinationMessageBuffer msg;
  if negb ok then Ret s
  else
    let proxy_destination_msg := GetProxyDestinationMessage msg in
    type ← ProxyDestinationMessage_inner_message_type proxy_destination_msg;
    if type =? ProxyDestInnerMsg_ProxyDestConnectionRequest then
      req ← inner_message_as_ProxyDestConnectionRequest proxy_destination_msg;
      v ← ProxyDestinationMessage_app_data proxy_destination_msg;
      app_data ← Vector_bytes v;
      connection_request now req app_data src s
    else if type =? ProxyDestInnerMsg_ProxyDestCloseConnection then
      req ← inner_message_as_ProxyDestCloseConnection proxy_destination_msg;
      close_connection_request req src s
    else if type =? ProxyDestInnerMsg_ProxyDestClientMessage then
      req ← inner_message_as_ProxyDestClientMessage proxy_destination_msg;
      v ← ProxyDestinationMessage_app_data proxy_destination_msg;
      app_data ← Vector_bytes v;
      handle_client_message req app_data s
    else Ret s.

(** [recvfrom] into a buffer of 1024 bytes. *)
Definition BUFLEN : nat := 1024.
Definition receive (now : Z) (datagram : list Z) (src : sockaddr_in) (s : server) : outcome exn server :=
  if receiving s then handle_recv_message now (take BUFLEN datagram) src s else Ret s.

(** ** The main thread *)

(** A [ProxyMessage] for a client around application data; the two places that build it differ
    in the name of the last call, which is [Finish]. *)
Definition proxy_datagram (client_id : Z) (data : list Z) : outcome exn (list Z) :=
  fst ((proxy_msg ← CreateProxyMessage client_id;
        app_data_v ← CreateVector data;
        dest_ptr ← CreateDestinationMessage InnerMsg_ProxyMessage proxy_msg app_data_v;
        FinishDestinationMessageBuffer dest_ptr ≫= fun _ =>
        GetBuffer) FlatBufferBuilder).

Definition chat_message (client_name text : list Z) : outcome exn (list Z) :=
  fst ((user_text ← CreateString client_name;
        broadcast_text ← CreateString text;
        server_chat_msg ← CreateServerChatMessage user_text broadcast_text;
        app_message ← CreateServerMessage Message_ServerChatMessage server_chat_msg;
        FinishBuffer app_message ≫= fun _ =>
        GetBuffer) FlatBufferBuilder).

Definition game_state_message (ds : list DrawnDot) : outcome exn (list Z) :=
  fst ((dots_v ← CreateVectorOfStructs ((fun d => mkCppDot (d_x d) (d_y d) (d_radius d) (d_color d)) <$> ds);
        game_state_msg ← CreateServerGameStateMessage dots_v;
        app_data_v ← CreateServerMessage Message_ServerGameStateMessage game_state_msg;
        FinishBuffer app_data_v ≫= fun _ =>
        GetBuffer) FlatBufferBuilder).

(** Time passes for the dots, and those whose time is over go. *)
Definition age (dt_s : number) (ds : list DrawnDot) : list DrawnDot :=
  List.filter (fun d => negb (f32_leb (d_t d) num_zero))
    ((fun d => mkDrawn (d_x d) (d_y d) (f32_sub (d_t d) dt_s) (d_radius d) (d_color d)) <$> ds).

Definition begin_frame (now : Z) (s : server) : server :=
  let dt_s := f32_div (f32_of_Z (now - last_frame_time s)) (f32_of_Z 1000000) in
  goto (Draining 0) (set_dots (age dt_s (dots s)) (set_frame now now s)).

Definition broadcast_targets (s : server) : list ConnectedClient :=
  omap (fun id => gConnectedClients s !! id) (walk (gConnectedClients s)).

Fixpoint send_each (targets : list ConnectedClient) (data : list Z) (s : server) : outcome exn server :=
  match targets with
  | [] => Ret s
  | target :: targets =>
      buf ← proxy_datagram (spanreed_client_id target) data;
      send_each targets data (sendto (spanreed_client_addr target) buf s)
  end.

(** The body of the loop, once the client is found. *)
Definition handle_message (msg : table) (client : ConnectedClient) (s : server) : outcome exn server :=
  click_msg ← user_message_as_UserClickMessage msg;
  match click_msg with
  | Some click_msg =>
      x ← UserClickMessage_x click_msg;
      y ← UserClickMessage_y click_msg;
      let '(radius, r) := radius_dist (random s) in
      Ret (set_dots (dots s ++ [mkDrawn x y (f32_of_Z 5) radius (dot_color client)]) (set_random r s))
  | None =>
      broadcast_msg ← user_message_as_UserChatMessage msg;
      match broadcast_msg with
      | Some broadcast_msg =>
          text ← UserChatMessage_text broadcast_msg;
          str ← String_str text;
          data ← chat_message (client_name client) str;
          send_each (broadcast_targets s) data s
      | None => Ret s
      end
  end.

(** The loop's condition and the look-up; [continue] goes on to [i++]. *)
Definition drain (i : Z) (s : server) : server :=
  if i <? 25 then
    match gClientMessageQueue s with
    | [] => goto Sending s
    | msg :: rest =>
        let s := set_queue rest s in
        match q_msg msg with
        | None => goto Sending s
        | Some _ =>
            match gConnectedClients s !! q_client_id msg with
            | None => goto (Draining (i + 1)) s
            | Some client => goto (Handling i msg client) s
            end
        end
    end
  else goto Sending s.

(** One client in the sending loop: its color, and its state if it is time. *)
Definition rotate_color (now : Z) (client : ConnectedClient) (n : Z) : ConnectedClient * Z :=
  if elapsed now (last_rotate_colors_time client) kClientRotateColorFrequencyUs then
    let '(color, n) := get_client_color n in
    (mkClient (spanreed_client_addr client) (spanreed_client_id client) (last_send_time client) (to_uint 64 now)
       (client_name client) color, n)
  else (client, n).

Definition sent_at (now : Z) (client : ConnectedClient) : ConnectedClient :=
  mkClient (spanreed_client_addr client) (spanreed_client_id client) (to_uint 64 now) (last_rotate_colors_time client)
    (client_name client) (dot_color client).

Definition send_state (data : list Z) (id : Z) (s : server) : outcome exn server :=
  match gConnectedClients s !! id with
  | None => Ret s
  | Some client =>
      let now := this_frame_time s in
      let '(client, n) := rotate_color now client (next_color s) in
      if elapsed now (last_send_time client) kClientSendFrequencyUs then
        buf ← proxy_datagram (spanreed_client_id client) data;
        Ret (sendto (spanreed_client_addr client) buf
               (set_clients (<[id := sent_at now client]> (gConnectedClients s)) (set_color n s)))
      else Ret (set_clients (<[id := client]> (gConnectedClients s)) (set_color n s))
  end.

Fixpoint send_states (data : list Z) (ids : list Z) (s : server) : outcome exn server :=
  match ids with
  | [] => Ret s
  | id :: ids => s ← send_state data id s; send_states data ids s
  end.

Definition send_frame (s : server) : outcome exn server :=
  data ← game_state_message (dots s);
  s ← send_states data (walk (gConnectedClients s)) s;
  Ret (goto FrameStart s).

Definition main_step (now : Z) (s : server) : outcome exn server :=
  match at_ s with
  | FrameStart => Ret (begin_frame now s)
  | Draining i => Ret (drain i s)
  | Handling i msg client =>
      m ← deref_ptr (q_msg msg);
      s ← handle_message m client s;
      Ret (goto (Draining (i + 1)) s)
  | Sending => send_frame s
  end.

(** ** Runs *)
Inductive event : Type :=
| Datagram (now : Z) (payload : list Z) (src : sockaddr_in)
| RecvError                             (** [recvfrom] fails: the thread returns *)
| MainStep (now : Z).

Definition step (ev : event) (s : server) : outcome exn server :=
  match ev with
  | Datagram now payload src => receive now payload src s
  | RecvError => Ret (stop_receiving s)
  | MainStep now => main_step now s
  end.

Fixpoint run (evs : list event) (s : server) : outcome exn server :=
  match evs with
  | [] => Ret s
  | ev :: evs => s ← step ev s; run evs s
  end.
End server.
Arguments mkQueued {FB}.
Arguments q_client_id {FB}.
Arguments q_buffer {FB}.
Arguments q_msg {FB}.
Arguments server {FB} rng.
Arguments pc {FB}.
Arguments QueuedClientMessage {FB}.
