(* ===== verification/CppCodec.v ===== *)
(** * What the C++ message code writes and reads

    The datagrams and payloads that the demo server builds show the content of the
    TypeScript and Go message classes, and what those classes write is what the C++
    accessors read. *)

From S2P Require Import Prelude JsPlatform FlatBuffers CppMessages DemoServer.
From S2P Require Import FbTables SpanreedMessages HelloMessages SpanreedCodec HelloCodec HandshakeTheorems.
#[local] Open Scope Z_scope.

Section writing.
#[local] Set Default Proof Using "Type*".
Context {FB : FlatBuffers} {FL : FlatBuffersLaws FB}.

(** Unfold the builder functions down to the calls of the runtime. *)
Ltac cpp_steps :=
  unfold verdict_message, proxy_datagram, chat_message, game_state_message, CreateProxyMessage, CreateDestinationMessage,
    CreateServerChatMessage, CreateServerMessage, CreateServerGameStateMessage,
    ProxyMessageBuilder, ProxyMessageBuilder_add_client_id, ProxyMessageBuilder_Finish,
    ConnectionVerdictBuilder, ConnectionVerdictBuilder_add_accepted, ConnectionVerdictBuilder_add_client_id,
    ConnectionVerdictBuilder_Finish, DestinationMessageBuilder, DestinationMessageBuilder_add_msg_type,
    DestinationMessageBuilder_add_msg, DestinationMessageBuilder_add_app_data, DestinationMessageBuilder_Finish,
    ServerChatMessageBuilder, ServerChatMessageBuilder_add_user, ServerChatMessageBuilder_add_text,
    ServerChatMessageBuilder_Finish, ServerGameStateMessageBuilder, ServerGameStateMessageBuilder_add_dots,
    ServerGameStateMessageBuilder_Finish, ServerMessageBuilder, ServerMessageBuilder_add_message_type,
    ServerMessageBuilder_add_message, ServerMessageBuilder_Finish, FinishDestinationMessageBuffer,
    StartTable, EndTable, AddElement_uint8, AddElement_uint32, CppMessages.AddOffset, CreateVector, CreateString,
    FinishBuffer, GetBuffer, FlatBufferBuilder, create_table, finish_bytes, InnerMsg_ConnectionVerdict,
    InnerMsg_ProxyMessage, Message_ServerChatMessage, Message_ServerGameStateMessage, opt_string;
  change (field_slot 4) with 0; change (field_slot 6) with 1; change (field_slot 8) with 2;
  cbn [run_adds run_add];
  unfold mbind, stm_bind, mret, stm_ret; repeat case_match; simplify_eq; reflexivity.

Lemma verdict_message_steps id a :
  verdict_message id a =
  fst ((pM ← create_table 2 [AddInt8 1 (bool_number a) 0; AddInt32 0 id 0];
        o ← create_table 3 [AddInt8 0 2 0; AddOffset 1 pM 0];
        u ← finish_bytes o false; mret (u8_bytes u)) (new_Builder 1024)).
Proof. cpp_steps. Qed.

Lemma proxy_datagram_steps id data :
  proxy_datagram id data =
  fst ((pM ← create_table 1 [AddInt32 0 id 0];
        pD ← createByteVector data;
        o ← create_table 3 [AddOffset 2 pD 0; AddOffset 1 pM 0; AddInt8 0 1 0];
        u ← finish_bytes o false; mret (u8_bytes u)) (new_Builder 1024)).
Proof. cpp_steps. Qed.

Lemma chat_message_steps user text :
  chat_message user text =
  fst ((pU ← opt_string (Some (Utf8 user)); pT ← opt_string (Some (Utf8 text));
        pM ← create_table 2 [AddOffset 1 pT 0; AddOffset 0 pU 0];
        o ← create_table 2 [AddOffset 1 pM 0; AddInt8 0 1 0];
        u ← finish_bytes o false; mret (u8_bytes u)) (new_Builder 1024)).
Proof. cpp_steps. Qed.

(** The dots as the message shows them. *)
Definition message_dot (d : DrawnDot) : dot := mkDot (d_x d) (d_y d) (d_radius d) (d_color d).

Definition write_dot (d : dot) : stm Builder exn unit :=
  write_Dot (mkCppDot (dot_x d) (dot_y d) (dot_radius d) (dot_color d)).

Lemma for_each_map {S E A B} (f : A -> B) (l : list A) (w : B -> stm S E unit) s :
  for_each (map f l) w s = for_each l (fun x => w (f x)) s.
Proof.
  revert s. induction l as [|x l IH]; intros s; [done|]. cbn. unfold mbind, stm_bind.
  destruct (w (f x) s) as [[]]; [apply IH | done].
Qed.

Lemma game_state_message_steps ds :
  game_state_message ds =
  fst ((pD ← (startVector 16 (zlen (message_dot <$> ds)) 4 ≫= fun _ => for_each (rev (message_dot <$> ds)) write_dot ≫= fun _ => endVector);
        pM ← create_table 1 [AddOffset 0 pD 0];
        o ← create_table 2 [AddOffset 1 pM 0; AddInt8 0 2 0];
        u ← finish_bytes o false; mret (u8_bytes u)) (new_Builder 1024)).
Proof.
  set (vec := (startVector 16 _ 4 ≫= _)).
  assert (Hd : forall b, CreateVectorOfStructs ((fun d => mkCppDot (d_x d) (d_y d) (d_radius d) (d_color d)) <$> ds) b = vec b).
  { intros b. unfold vec, CreateVectorOfStructs, zlen, mbind, stm_bind. rewrite !length_fmap.
    change (@fmap list _ ?A ?B) with (@map A B). rewrite <- !map_rev.
    destruct (startVector _ _ _ b) as [[] ?]; [|done]. by rewrite !for_each_map. }
  clearbody vec. unfold game_state_message. unfold mbind at 1, stm_bind at 1. rewrite Hd.
  unfold mbind at 4, stm_bind at 4. unfold FlatBufferBuilder. destruct (vec _) as [[] ?]; [|done]. cpp_steps.
Qed.

(** The bytes are a [DestinationMessage] with this content. *)
Definition delivers (bs : list Z) (m : dest_inner) (data : option (list Z)) : Prop :=
  Forall is_byte bs /\
  decodes (u8_of_buffer bs) (fun b => DestinationMessage.getRootAsDestinationMessage b None) (fun t =>
    reads_DestinationMessage t m data).

(** The outer table, in whatever order its fields are added. *)
Lemma dest_table_spec b l adds m pM pD data Q :
  Rep b l -> ready l 64 -> slots_ok 3 adds = true -> Forall (add_ok l) adds -> table_cost 3 adds <= 64 ->
  table_fields adds !! 0 = stored (negb (InnerMsg.to_number (dest_type m) =? 0))
    (FInline [to_uint 8 (InnerMsg.to_number (dest_type m))]) ->
  table_fields adds !! 1 = stored (negb (pM =? 0)) (FOff pM) ->
  table_fields adds !! 2 = stored (negb (pD =? 0)) (FOff pD) ->
  member_off l pM (reads_dest_inner m) -> off_is (objs l) pD (OBytes <$> data) ->
  (forall o b' l', Rep b' l' -> grows l l' 64 -> shown l' o (fun t => reads_DestinationMessage t m data) -> Q o b') ->
  wp (create_table 3 adds) b Q.
Proof.
  intros HR Hrd Hs Hok Hc H0 H1 H2 OM OD HQ.
  eapply (table_shown b l 3 adds 64); [done | done | done | done | done | | exact HQ].
  intros os o t Hsub Hs' Ho.
  assert (DestinationMessage.msgType t = Ret (InnerMsg.to_number (dest_type m))) as Htype.
  { eapply (acc_uint8 os o t _ 0 Hs' Ho); [lia | exact H0 | by destruct m]. }
  split_and!; [done | |].
  - apply dest_message_reads; [done|]. intros t0.
    eapply (acc_member os o t _ 1 _ _ _ _ Hs' Ho); [lia | exact H1 | exact OM | done].
  - eapply (acc_bytes os o t _ 2 _ _ Hs' Ho); [lia | exact H2 | eauto with fbgrow].
Qed.

Lemma verdict_message_spec id a :
  is_uint32 id -> exists bs, verdict_message id a = Ret bs /\ delivers bs (DVerdict id a) None.
Proof.
  intros Hid. rewrite verdict_message_steps. pose proof (Rep_new 1024 eq_refl) as HR.
  assert (1000 <= fb_limit) by (vm_compute; discriminate).
  set (m := (pM ← _; _)). enough (wp m (new_Builder 1024) (fun bs _ => delivers bs (DVerdict id a) None)) as
    (bs & b & -> & Hc)%wp_run by (by exists bs).
  subst m. apply wp_bind.
  eapply (table_shown _ lb_new 2 _ 64); [done | fb_arith | done | adds_ok | done | |].
  { intros os o t Hsub Hs Ho.
    refine (_ : default (fun _ => False) (reads_dest_inner (DVerdict id a)) t). cbn. split_and!.
    - eapply (acc_uint32 os o t _ 0 Hs Ho); [lia | table_field | done].
    - eapply (acc_bool os o t _ 1 Hs Ho); [lia | table_field].
    - eapply (acc_bool_byte os o t _ 1 Hs Ho); [lia | table_field]. }
  intros pM b1 l1 HR1 G1 OM. apply wp_bind.
  eapply (dest_table_spec b1 l1 _ (DVerdict id a) pM 0 None);
    [done | fb_arith | done | | done | table_field | table_field | table_field | exact OM | done |].
  { apply Forall_cons; [done|]. apply Forall_cons; [by eapply shown_add_ok | done]. }
  intros o b2 l2 HR2 G2 SO. eapply finish_go_bytes; [done | fb_arith | exact SO].
Qed.

Lemma proxy_datagram_spec id data :
  is_uint32 id -> Forall is_byte data -> zlen data + 300 <= fb_limit ->
  exists bs, proxy_datagram id data = Ret bs /\ delivers bs (DProxy id) (Some data) /\ zlen bs <= zlen data + 200.
Proof.
  intros Hid Hd Hsz. rewrite proxy_datagram_steps. pose proof (Rep_new 1024 eq_refl) as HR. pose proof (zlen_nonneg data).
  set (m := (pM ← _; _)). enough (wp m (new_Builder 1024) (fun bs _ => delivers bs (DProxy id) (Some data) /\ zlen bs <= zlen data + 200)) as
    (bs & b & -> & Hc)%wp_run by (by exists bs).
  subst m. apply wp_bind.
  eapply (client_id_table_spec (fun t => ProxyMessage.clientId t = Ret id) _ lb_new id 64);
    [done | fb_arith | done | lia | auto |].
  intros pM b1 l1 HR1 G1 OM. apply wp_bind.
  eapply (createByteVector_spec _ _ _ (zlen data + 16)); [done | fb_arith | done | lia |].
  intros pD b2 l2 HR2 Hal. pose proof (allocated_grows _ _ _ _ _ Hal) as G2.
  pose proof (allocated_off_is _ _ _ _ _ Hal) as OD. apply (shown_grows _ _ _ _ _ G2) in OM. apply wp_bind.
  eapply (dest_table_spec b2 l2 _ (DProxy id) pM pD (Some data));
    [done | fb_arith | done | adds_ok | done | table_field | table_field | table_field | exact OM | exact OD |].
  intros o b3 l3 HR3 G3 SO. eapply wp_mono; [eapply finish_bytes_bounded; [done | fb_arith | exact SO]|].
  cbv beta. intros bs _ [Hbs Hlen]. split; [exact Hbs|]. used_bound.
Qed.

(** The bytes are a [ServerMessage] with this content. *)
Definition server_payload (bs : list Z) (m : server_message) : Prop :=
  Forall is_byte bs /\
  decodes (u8_of_buffer bs) (fun b => ServerMessage.getRootAsServerMessage b None) (fun t => reads_ServerMessage t m).

Lemma server_table_spec b l m pM Q :
  Rep b l -> ready l 64 -> member_off l pM (reads_server_inner m) ->
  (forall o b' l', Rep b' l' -> grows l l' 64 -> shown l' o (fun t => reads_ServerMessage t m) -> Q o b') ->
  wp (create_table 2 [AddOffset 1 pM 0; AddInt8 0 (Message.to_number (server_type m)) 0]) b Q.
Proof.
  intros HR Hrd OM HQ. eapply (table_shown b l 2 _ 64); [done | done | done | | done | | exact HQ].
  { apply Forall_cons; [by eapply member_off_add_ok|]. by apply Forall_cons. }
  intros os o t Hsub Hs Ho.
  assert (ServerMessage.messageType t = Ret (Message.to_number (server_type m))) as Htype.
  { eapply (acc_uint8 os o t _ 0 Hs Ho); [lia | table_field | by destruct m]. }
  assert (member_reads t m) as Hm.
  { intros t0. eapply (acc_member os o t _ 1 _ _ _ _ Hs Ho); [lia | table_field | exact OM | done]. }
  split_and!; [done | by apply server_union_reads | done].
Qed.

Ltac txt := cbn [fmap option_fmap option_map text_bytes from_option]; unfold id.

Lemma chat_message_spec user text :
  Forall is_byte user -> Forall is_byte text -> zlen user + zlen text + 300 <= fb_limit ->
  exists bs, chat_message user text = Ret bs /\ zlen bs <= zlen user + zlen text + 200 /\
    server_payload bs (SChat (Some (Utf8 user)) (Some (Utf8 text))).
Proof.
  intros Hu Ht Hsz. rewrite chat_message_steps. pose proof (Rep_new 1024 eq_refl) as HR.
  pose proof (zlen_nonneg user). pose proof (zlen_nonneg text).
  set (m := (pU ← _; _)).
  enough (wp m (new_Builder 1024) (fun bs _ => zlen bs <= zlen user + zlen text + 200 /\
    server_payload bs (SChat (Some (Utf8 user)) (Some (Utf8 text))))) as (bs & b & -> & Hc)%wp_run by (by exists bs).
  subst m. apply wp_bind.
  eapply (opt_string_spec _ lb_new (Some (Utf8 user))); [done | | done | apply Z.le_refl |]; [txt; fb_arith|].
  txt. intros pU b1 l1 HR1 G1 OU. apply wp_bind.
  eapply (opt_string_spec b1 l1 (Some (Utf8 text))); [done | | done | apply Z.le_refl |]; [txt; fb_arith|].
  txt. intros pT b2 l2 HR2 G2 OT. apply wp_bind.
  eapply (table_shown b2 l2 2 [AddOffset 1 pT 0; AddOffset 0 pU 0] 40
    (default (fun _ => False) (reads_server_inner (SChat (Some (Utf8 user)) (Some (Utf8 text))))));
    [done | fb_arith | done | adds_ok | done | |].
  { intros os o t Hsub Hs Ho enc. split.
    - eapply (acc_text os o t _ 0 Hs Ho); [lia | table_field | eauto with fbgrow].
    - eapply (acc_text os o t _ 1 Hs Ho); [lia | table_field | eauto with fbgrow]. }
  intros pM b3 l3 HR3 G3 OM. apply wp_bind.
  eapply (server_table_spec b3 l3 (SChat (Some (Utf8 user)) (Some (Utf8 text)))); [done | fb_arith | exact OM |].
  intros o b4 l4 HR4 G4 SO. eapply wp_mono; [eapply finish_bytes_bounded; [done | fb_arith | exact SO]|].
  cbv beta. intros bs _ [Hbs Hlen]. split; [|exact Hbs]. used_bound.
Qed.

Lemma write_dot_writes : writes_dot write_dot.
Proof.
  intros b l n bs d Q HR Hc Hlen Hmod HQ.
  eapply (dot_writes_spec b l n bs d (fun _ => mret tt)); [done | done | done | done |].
  intros b' HR'. by apply wp_ret, HQ.
Qed.

Lemma game_state_message_spec ds :
  Forall (fun d => is_sint8 (d_color d)) ds -> 16 * zlen ds + 300 <= fb_limit ->
  exists bs, game_state_message ds = Ret bs /\ zlen bs <= 16 * zlen ds + 200 /\
    server_payload bs (SGameState (message_dot <$> ds)).
Proof.
  intros Hc Hsz. rewrite game_state_message_steps. pose proof (Rep_new 1024 eq_refl) as HR. pose proof (zlen_nonneg ds).
  assert (Hl : zlen (message_dot <$> ds) = zlen ds) by (unfold zlen; by rewrite length_fmap).
  assert (Hc' : Forall (fun d => is_sint8 (HelloCodec.dot_color d)) (message_dot <$> ds)) by (by apply Forall_fmap).
  set (m := (pD ← _; _)).
  enough (wp m (new_Builder 1024) (fun bs _ => zlen bs <= 16 * zlen ds + 200 /\
    server_payload bs (SGameState (message_dot <$> ds)))) as (bs & b & -> & Hp)%wp_run by (by exists bs).
  subst m. apply wp_bind.
  eapply (dots_vector_spec _ _ lb_new (message_dot <$> ds)); [exact write_dot_writes | done | | apply Z.le_refl |];
    rewrite Hl; [fb_arith|].
  intros pD b1 l1 HR1 Hal. pose proof (allocated_grows _ _ _ _ _ Hal) as G1.
  pose proof (allocated_off_is _ _ _ _ _ Hal) as OD. apply wp_bind.
  eapply (dots_table_spec b1 l1 pD); [done | fb_arith | exact OD | done |].
  intros pM b2 l2 HR2 G2 OM. apply wp_bind.
  eapply (server_table_spec b2 l2 (SGameState (message_dot <$> ds))); [done | fb_arith | exact OM |].
  intros o b3 l3 HR3 G3 SO. eapply wp_mono; [eapply finish_bytes_bounded; [done | fb_arith | exact SO]|].
  cbv beta. intros bs _ [Hbs Hlen]. split; [|exact Hbs]. used_bound.
Qed.
End writing.

(** ** Reading *)
Section reading.
#[local] Set Default Proof Using "Type*".
Context {FB : FlatBuffers} {FL : FlatBuffersLaws FB}.

(** What the server finds in a datagram of the proxy: the kind, the member's client id, the application data. *)
Record proxy_reads (t : table) (m : proxy_inner) (data : option (list Z)) : Prop := {
  pr_type : ProxyDestinationMessage_inner_message_type t = Ret (ProxyDestInnerMsg.to_number (proxy_type m));
  pr_inner : m <> PNone -> exists u, ProxyDestinationMessage_inner_message t = Ret (Some u) /\
    default (fun _ => True) (reads_proxy_inner m) u;
  pr_data : exists v, ProxyDestinationMessage_app_data t = Ret v /\
    match data with Some bs => Vector_bytes v = Ret bs | None => v = None end
}.

(** A vector field: its array accessor against pointer and contents. *)
Lemma vector_pointer (t : table) vt data :
  (exists r, (this_bb ← deref t;
     if truthy (__offset this_bb (bb_pos t) vt) then
       u ← u8_view (u8_buffer (bytes this_bb))
         (u8_byteOffset (bytes this_bb) + __vector this_bb (bb_pos t + __offset this_bb (bb_pos t) vt))
         (__vector_len this_bb (bb_pos t + __offset this_bb (bb_pos t) vt));
       Ret (Some u)
     else Ret None) = Ret r /\ u8_bytes <$> r = data /\ from_option u8_wf True r) ->
  exists v, GetPointer t vt = Ret v /\ match data with Some bs => Vector_bytes v = Ret bs | None => v = None end.
Proof.
  intros (r & Hr & Hd & _). unfold GetPointer. destruct (deref t) as [b|]; simpl in *; [|done].
  destruct (truthy _); simplify_eq/=; [|by eexists].
  destruct (u8_view _ _ _) eqn:E; simplify_eq/=. eexists. split; [done|].
  unfold Vector_bytes. simpl. by rewrite E.
Qed.

(** A string field likewise. *)
Lemma string_pointer (t : table) vt (s : option (list Z)) :
  (this_bb ← deref t;
   let offset := __offset this_bb (bb_pos t) vt in
   Ret (if truthy offset then Some (__string this_bb (bb_pos t + offset) (Some UTF8_BYTES)) else None)) =
    Ret (Utf8 <$> s) ->
  exists v, GetPointer t vt = Ret v /\ match s with Some bs => String_str v = Ret bs | None => v = None end.
Proof.
  intros Hs. unfold GetPointer. destruct (deref t) as [b|]; simpl in *; [|done]. injection Hs as Hs.
  destruct (truthy _), s; simplify_eq/=; eexists; (split; [done|]); [|done].
  unfold String_str. simpl. by rewrite Hs.
Qed.

Lemma carried_proxy_reads t m data : reads_ProxyDestinationMessage t m data -> proxy_reads t m data.
Proof.
  intros (Ht & (r & Hr & Hm) & _ & _ & Harr). split; [exact Ht | | by apply vector_pointer].
  intros Hne. unfold SpanreedCodec.proxy_message in Hr. rewrite Ht in Hr.
  destruct m; [done|..]; cbn -[ProxyDestinationMessage.innerMessage] in Hr; unfold proxy_member in Hr;
    cbn -[ProxyDestinationMessage.innerMessage] in Hr;
    change (ProxyDestinationMessage_inner_message t) with (ProxyDestinationMessage.innerMessage t (mkTable None 0));
    unfold ProxyDestConnectionRequest.new, ProxyDestClientMessage.new, ProxyDestCloseConnection.new in Hr;
    destruct (ProxyDestinationMessage.innerMessage t (mkTable None 0)) as [[u|]|]; simpl in Hr; simplify_eq; simpl in Hm;
    try done; by exists u.
Qed.

(** What it finds in application data. *)
Definition user_reads (t : table) (m : user_message) : Prop :=
  ClientMessage_user_message_type t = Ret (UserMessage.to_number (user_type m)) /\
  (m <> UNone -> exists u, ClientMessage_user_message t = Ret (Some u) /\ default (fun _ => True) (reads_user_message m) u).

Lemma client_user_reads t m : reads_ClientMessage t m -> user_reads t m.
Proof.
  intros (Ht & r & Hr & Hm). split; [exact Ht|]. intros Hne. unfold client_message in Hr. rewrite Ht in Hr.
  destruct m; [done|..]; cbn -[ClientMessage.userMessage] in Hr; unfold user_member in Hr;
    cbn -[ClientMessage.userMessage] in Hr;
    change (ClientMessage_user_message t) with (ClientMessage.userMessage t (mkTable None 0));
    unfold UserConnectMessage.new, UserClickMessage.new, UserChatMessage.new, UserPingMessage.new in Hr;
    destruct (ClientMessage.userMessage t (mkTable None 0)) as [[u|]|]; simpl in Hr; simplify_eq; simpl in Hm;
    try done; by exists u.
Qed.

(** The member seen as one of its classes. *)
Lemma user_reads_as t m ty :
  user_reads t m -> m <> UNone ->
  exists u, user_message_as ty t = Ret (if UserMessage.to_number (user_type m) =? ty then Some u else None) /\
    default (fun _ => True) (reads_user_message m) u.
Proof.
  intros [Ht Hm] Hne. destruct (Hm Hne) as (u & Hu & HP). exists u. split; [|done].
  unfold user_message_as. rewrite Ht. simpl. destruct (_ =? ty); [exact Hu | done].
Qed.
End reading.
