(* ===== verification/DemoServerTheorems.v ===== *)
(** * The demo server: theorems

    Who is let in and who is put out, what the main thread does with the queued
    messages, what it sends and when, that frames end, the types and bounds of the
    state in every run, and the messages that end the process. *)

From S2P Require Import Prelude JsPlatform FlatBuffers CppMessages.
From S2P Require Import FbTables FbReference SpanreedMessages HelloMessages SpanreedCodec HelloCodec HandshakeTheorems.
From S2P Require Import ClientStore Proxy Router UdpDestination UdpTheorems DemoServer CppCodec.
From stdpp Require Import gmap.
#[local] Open Scope Z_scope.

(** ** Datagrams of the proxy *)
Section receiving.
#[local] Set Default Proof Using "Type*".
Context {FB : FlatBuffers} {FL : FlatBuffersLaws FB} {V : Verifier} {rng : Type}.
Implicit Types (s : server rng).

Lemma read_root bs root (P : fbtable ByteBuffer -> Prop) :
  Forall is_byte bs -> root = root_table false -> decodes (u8_of_buffer bs) root P -> P (GetRoot bs).
Proof.
  intros Hb Hroot Hdec. pose proof (decodes_go_root _ _ _ (u8_of_buffer_wf _ Hb) Hroot Hdec) as H.
  by rewrite u8_of_buffer_bytes in H.
Qed.

Lemma carried bs m data : carries bs m data -> proxy_reads (GetProxyDestinationMessage bs) m data.
Proof. intros [Hb Hdec]. apply carried_proxy_reads. exact (read_root bs _ _ Hb eq_refl Hdec). Qed.

(** The bytes are a [ClientMessage] with this content. *)
Definition client_payload (bs : list Z) (m : user_message) : Prop :=
  Forall is_byte bs /\
  decodes (u8_of_buffer bs) (fun b => ClientMessage.getRootAsClientMessage b None) (fun t => reads_ClientMessage t m).

Lemma payload_reads bs m : client_payload bs m -> user_reads (GetClientMessage bs) m.
Proof. intros [Hb Hdec]. apply client_user_reads. exact (read_root bs _ _ Hb eq_refl Hdec). Qed.

(** A datagram that arrives whole and that the verifier accepts. *)
Definition arrives (bs : list Z) (m : proxy_inner) (data : option (list Z)) : Prop :=
  carries bs m data /\ (length bs <= BUFLEN)%nat /\ verified VerifyProxyDestinationMessageBuffer bs = Ret true.

Lemma receive_arrives now bs m data src s :
  arrives bs m data -> receiving s = true ->
  match m with
  | PNone => receive now bs src s = Ret s
  | PConnectionRequest id => exists u, ProxyDestConnectionRequest_client_id u = Ret id /\
      forall app, data = Some app -> receive now bs src s = connection_request now (Some u) app src s
  | PClientMessage id => exists u, ProxyDestClientMessage_client_id u = Ret id /\
      forall app, data = Some app -> receive now bs src s = handle_client_message (Some u) app s
  | PCloseConnection id => exists u, ProxyDestCloseConnection_client_id u = Ret id /\
      receive now bs src s = close_connection_request (Some u) src s
  end.
Proof.
  intros (Hc & Hlen & Hv) Hrec. pose proof (carried _ _ _ Hc) as [Ht Hm (v & Hv' & Hd)].
  unfold receive. rewrite Hrec, take_ge by done. unfold handle_recv_message. rewrite Hv. cbn [mbind outcome_bind negb].
  generalize dependent (GetProxyDestinationMessage bs). intros t Ht Hm Hv'. rewrite Ht. cbn [mbind outcome_bind].
  destruct m as [|id|id|id]; [done|..]; (destruct (Hm ltac:(done)) as (u & Hu & HP); exists u; split; [exact HP|]);
    simpl proxy_type; cbn [ProxyDestInnerMsg.to_number Z.eqb];
    unfold inner_message_as_ProxyDestConnectionRequest, inner_message_as_ProxyDestClientMessage,
      inner_message_as_ProxyDestCloseConnection, inner_message_as; rewrite Ht; simpl; unfold ProxyDestinationMessage_inner_message in *; rewrite Hu; simpl; [| |done];
    intros app ->; rewrite Hv'; simpl; by rewrite Hd.
Qed.

(** Without application data, a null vector is read. *)
Lemma receive_no_data now bs m src s :
  arrives bs m None -> receiving s = true ->
  (forall id, m = PConnectionRequest id -> receive now bs src s = Throw TypeError) /\
  (forall id, m = PClientMessage id -> receive now bs src s = Throw TypeError).
Proof.
  intros (Hc & Hlen & Hv) Hrec. pose proof (carried _ _ _ Hc) as [Ht Hm (v & Hv' & ->)].
  unfold receive. rewrite Hrec, take_ge by done. unfold handle_recv_message. rewrite Hv. cbn [mbind outcome_bind negb].
  generalize dependent (GetProxyDestinationMessage bs). intros t Ht Hm Hv'.
  unfold inner_message_as_ProxyDestConnectionRequest, inner_message_as_ProxyDestClientMessage, inner_message_as.
  rewrite Ht, Hv'. split; intros id ->; (destruct (Hm ltac:(done)) as (u & Hu & _));
    simpl; unfold ProxyDestinationMessage_inner_message in *; by rewrite Hu.
Qed.

(** ** Admission *)
Lemma connect_read now u id app name src s :
  ProxyDestConnectionRequest_client_id u = Ret id -> client_payload app (UConnect (Some name)) ->
  verified VerifyClientMessageBuffer app = Ret true ->
  connection_request now (Some u) app src s =
    if bool_decide (is_Some (gConnectedClients s !! id)) || (20 <? Z.of_nat (size (gConnectedClients s)))
    then buf ← verdict_message id false; Ret (sendto src buf s)
    else
      let '(color, n) := get_client_color (next_color s) in
      buf ← verdict_message id true;
      Ret (sendto src buf (set_clients (<[id := mkClient src id (to_uint 64 now) 0 (text_bytes name) color]>
        (gConnectedClients s)) (set_color n s))).
Proof.
  intros Hid Hp Hv. unfold connection_request. rewrite Hv. cbn [mbind outcome_bind negb].
  destruct (user_reads_as _ _ UserMessage_UserConnectMessage (payload_reads _ _ Hp) ltac:(done)) as (t & Ht & Hname).
  unfold user_message_as_UserConnectMessage. rewrite Ht. simpl.
  destruct (string_pointer t 4 (Some (text_bytes name)) (Hname (Some UTF8_BYTES))) as (v & Hv1 & Hv2).
  unfold UserConnectMessage_name. rewrite Hv1. simpl. rewrite Hv2. simpl. rewrite Hid. done.
Qed.

(** Room for the client, under an id that is not taken. *)
Definition has_room (id : Z) (s : server rng) : bool :=
  negb (bool_decide (is_Some (gConnectedClients s !! id)) || (20 <? Z.of_nat (size (gConnectedClients s)))).

Lemma admission now bs id app name src s :
  arrives bs (PConnectionRequest id) (Some app) -> client_payload app (UConnect (Some name)) ->
  verified VerifyClientMessageBuffer app = Ret true -> receiving s = true -> is_uint32 id ->
  exists buf, delivers buf (DVerdict id (has_room id s)) None /\
    receive now bs src s = Ret (sendto src buf (if has_room id s then
      set_clients (<[id := mkClient src id (to_uint 64 now) 0 (text_bytes name) (get_client_color (next_color s)).1]>
        (gConnectedClients s)) (set_color (get_client_color (next_color s)).2 s) else s)).
Proof.
  intros Ha Hp Hv Hrec Hid. destruct (receive_arrives now bs _ _ src s Ha Hrec) as (u & Hu & Hr).
  rewrite (Hr app eq_refl), (connect_read _ _ _ _ _ _ _ Hu Hp Hv). unfold has_room.
  destruct (_ || _); cbn [negb].
  - destruct (verdict_message_spec id false Hid) as (buf & -> & Hd). by exists buf.
  - destruct (verdict_message_spec id true Hid) as (buf & Hbuf & Hd). exists buf. split; [done|].
    destruct (get_client_color _) as [color n]. by rewrite Hbuf.
Qed.

Context {Addr : Type}.

(** C15: A connection request of the proxy, whose application data are a connect message with a name, is answered
    with one datagram to the proxy, which reports to its hub that the client was accepted, and the server then knows the
    client by its id, name and address, or, when the id is taken or more than 20 clients are connected, that it was
    refused, and the clients are unchanged. *)
Theorem server_answers_connection_requests now bs id app name src s bad_root bad_body now'
    (d : udpSpanreedDestination (Addr := Addr)) :
  arrives bs (PConnectionRequest id) (Some app) -> client_payload app (UConnect (Some name)) ->
  verified VerifyClientMessageBuffer app = Ret true -> receiving s = true -> is_uint32 id ->
  is_Some (destinationConnections d !! id) ->
  exists buf s', receive now bs src s = Ret s' /\ outbound s' = outbound s ++ [(src, buf)] /\
    (bad_root buf = false -> bad_body buf = false ->
     on_datagram bad_root bad_body now' buf d = Ret (tell_hub (DestVerdict (mkVerdict id (has_room id s) None None)) d)) /\
    gConnectedClients s' =
      (if has_room id s then
         <[id := mkClient src id (to_uint 64 now) 0 (text_bytes name) (get_client_color (next_color s)).1]> (gConnectedClients s)
       else gConnectedClients s).
Proof.
  intros Ha Hp Hv Hrec Hid Hd. destruct (admission now bs id app name src s Ha Hp Hv Hrec Hid) as (buf & [Hb Hdec] & Hr).
  exists buf. eexists. split; [exact Hr|]. split_and!.
  - by destruct (has_room id s).
  - intros H1 H2. rewrite (shown_datagram_received bad_root bad_body (DVerdict id (has_room id s)) None);
      [|exact (read_root buf _ _ Hb eq_refl Hdec)|done|done].
    simpl. by rewrite bool_decide_true.
  - by destruct (has_room id s).
Qed.

Lemma client_put_out now bs id data src s :
  arrives bs (PCloseConnection id) data -> receiving s = true ->
  receive now bs src s = Ret match gConnectedClients s !! id with
    | Some client => if cmp_addr src (spanreed_client_addr client) then set_clients (delete id (gConnectedClients s)) s else s
    | None => s
    end.
Proof.
  intros Ha Hrec. destruct (receive_arrives now bs _ _ src s Ha Hrec) as (u & Hu & ->).
  unfold close_connection_request. simpl. rewrite Hu. simpl.
  destruct (gConnectedClients s !! id); [|done]. by destruct (cmp_addr _ _).
Qed.

(** A client is put out only by a close request from the address it was connected from: such a request removes
    exactly that client, and a close request from another address, or for a client that is not connected, changes nothing. *)
Theorem server_closes_for_its_proxy_only now bs id data src s :
  arrives bs (PCloseConnection id) data -> receiving s = true ->
  receive now bs src s = Ret match gConnectedClients s !! id with
    | Some client => if cmp_addr src (spanreed_client_addr client) then set_clients (delete id (gConnectedClients s)) s else s
    | None => s
    end /\
  forall a b, cmp_addr a b = true <-> sin_port a = sin_port b /\ sin_family a = sin_family b /\ sin_addr a = sin_addr b.
Proof.
  intros Ha Hrec. split.
  - exact (client_put_out now bs id data src s Ha Hrec).
  - intros a b. unfold cmp_addr.
    destruct (Z.eqb_spec (sin_port a) (sin_port b)), (Z.eqb_spec (sin_family a) (sin_family b)),
      (Z.eqb_spec (sin_addr a) (sin_addr b)); naive_solver.
Qed.

(** C39: Messages that the verifier accepts but that leave out an optional part end the process, since the server reads
    through null pointers: a connection request or a client message without application data, a connect message without a
    name, and, when the main thread handles it, a chat message without a text. *)
Theorem incomplete_messages_end_the_server radius_dist walk now bs id app src s i q client t :
  receiving s = true ->
  (arrives bs (PConnectionRequest id) None \/ arrives bs (PClientMessage id) None ->
   receive now bs src s = Throw TypeError) /\
  (arrives bs (PConnectionRequest id) (Some app) -> client_payload app (UConnect None) ->
   verified VerifyClientMessageBuffer app = Ret true -> receive now bs src s = Throw TypeError) /\
  (at_ s = Handling i q client -> q_msg q = Some t -> user_reads t (UChat None) ->
   main_step radius_dist walk now s = Throw TypeError).
Proof.
  intros Hrec. split_and!.
  - intros [Ha|Ha]; destruct (receive_no_data now bs _ src s Ha Hrec) as [H1 H2]; eauto.
  - intros Ha Hp Hv. destruct (receive_arrives now bs _ _ src s Ha Hrec) as (u & Hu & Hr). rewrite (Hr app eq_refl).
    unfold connection_request. rewrite Hv. cbn [mbind outcome_bind negb].
    destruct (user_reads_as _ _ UserMessage_UserConnectMessage (payload_reads _ _ Hp) ltac:(done)) as (m & Hm & Hname).
    unfold user_message_as_UserConnectMessage. rewrite Hm. simpl.
    destruct (string_pointer m 4 None (Hname (Some UTF8_BYTES))) as (v & Hv1 & ->).
    unfold UserConnectMessage_name. by rewrite Hv1.
  - intros Hat Hq Ht. unfold main_step. rewrite Hat, Hq. cbn [deref_ptr mbind outcome_bind].
    destruct (user_reads_as t (UChat None) UserMessage_UserClickMessage Ht ltac:(done)) as (m & Hm & _).
    destruct (user_reads_as t (UChat None) UserMessage_UserChatMessage Ht ltac:(done)) as (m' & Hm' & Htext).
    unfold handle_message, user_message_as_UserClickMessage, user_message_as_UserChatMessage. rewrite Hm.
    cbn [user_type UserMessage.to_number Z.eqb Pos.eqb UserMessage_UserClickMessage mbind outcome_bind]. rewrite Hm'.
    cbn [user_type UserMessage.to_number Z.eqb Pos.eqb UserMessage_UserChatMessage mbind outcome_bind].
    destruct (string_pointer m' 4 None (Htext (Some UTF8_BYTES))) as (v & Hv1 & ->).
    unfold UserChatMessage_text. by rewrite Hv1.
Qed.

(** A message of a connected client is queued with its id. *)
Lemma message_queued now bs id app src s :
  arrives bs (PClientMessage id) (Some app) -> receiving s = true ->
  receive now bs src s =
    match gConnectedClients s !! id with
    | None => Ret s
    | Some _ =>
        ok ← verified VerifyClientMessageBuffer app;
        Ret (if ok : bool then set_queue (gClientMessageQueue s ++ [mkQueued id app (Some (GetClientMessage app))]) s else s)
    end.
Proof.
  intros Ha Hrec. destruct (receive_arrives now bs _ _ src s Ha Hrec) as (u & Hu & Hr). rewrite (Hr app eq_refl).
  unfold handle_client_message. simpl. rewrite Hu. simpl. destruct (gConnectedClients s !! id); [|done].
  destruct (verified _ app) as [[]|]; done.
Qed.
End receiving.

(** ** The state in every run *)
Section invariant.
Context `{V : Verifier} {rng : Type}.
Context (radius_dist : rng -> number * rng) (walk : gmap Z ConnectedClient -> list Z).
Implicit Types (s : server rng).

Definition is_color (z : Z) : Prop := 0 <= z <= 4.
Definition is_uint64 (z : Z) : Prop := 0 <= z < 2 ^ 64.
Definition is_int32 (z : Z) : Prop := - 2 ^ 31 <= z < 2 ^ 31.

Definition client_typed (id : Z) (c : ConnectedClient) : Prop :=
  spanreed_client_id c = id /\ is_uint64 (last_send_time c) /\ is_uint64 (last_rotate_colors_time c) /\
  is_color (DemoServer.dot_color c).

(** A queued message points into its own buffer, which the verifier has accepted. *)
Definition queued_typed (q : QueuedClientMessage) : Prop :=
  q_msg q = Some (GetClientMessage (q_buffer q)) /\ verified VerifyClientMessageBuffer (q_buffer q) = Ret true.

Definition pc_typed (l : pc) : Prop :=
  match l with
  | FrameStart | Sending => True
  | Draining i => 0 <= i <= 25
  | Handling i q c => 0 <= i < 25 /\ queued_typed q /\ is_color (DemoServer.dot_color c)
  end.

Record typed (s : server rng) : Prop := {
  ty_clients : map_Forall client_typed (gConnectedClients s);
  ty_count : (size (gConnectedClients s) <= 21)%nat;
  ty_next : is_int32 (next_color s);
  ty_dots : Forall (fun d => is_color (d_color d)) (DemoServer.dots s);
  ty_queue : Forall queued_typed (gClientMessageQueue s);
  ty_pc : pc_typed (at_ s)
}.

Lemma get_client_color_typed n : is_color (get_client_color n).1 /\ is_int32 (get_client_color n).2.
Proof.
  unfold get_client_color. simpl. split.
  - unfold is_color, Color_Blue, Color_FireOrange, Color_Green, Color_Indigo, Color_Red. repeat case_match; lia.
  - unfold is_int32, to_sint. pose proof (Z.mod_pos_bound (n + 1 + 2 ^ (32 - 1)) (2 ^ 32) eq_refl). lia.
Qed.

Lemma to_uint64_typed z : is_uint64 (to_uint 64 z).
Proof. by apply Z.mod_pos_bound. Qed.

Lemma typed_sendto to bs s : typed s -> typed (sendto to bs s).
Proof. by intros []. Qed.

Lemma typed_goto l s : typed s -> pc_typed l -> typed (goto l s).
Proof. by intros []. Qed.

Lemma typed_clients cs n s :
  typed s -> map_Forall client_typed cs -> (size cs <= 21)%nat -> is_int32 n -> typed (set_clients cs (set_color n s)).
Proof. by intros []. Qed.

Lemma typed_update id c c' n s :
  typed s -> gConnectedClients s !! id = Some c -> client_typed id c' -> is_int32 n ->
  typed (set_clients (<[id := c']> (gConnectedClients s)) (set_color n s)).
Proof.
  intros Hs Hc Hc' Hn. destruct (Hs) as [Hcl Hsz _ _ _ _]. apply typed_clients; [done | by apply map_Forall_insert_2 | | done].
  by rewrite map_size_insert_Some.
Qed.

(** ** The receiving thread *)
Lemma typed_connection_request now req app src s s' :
  connection_request now req app src s = Ret s' -> typed s -> typed s'.
Proof.
  intros H Hs. unfold connection_request in H.
  destruct (verified _ app) as [[]|]; simplify_eq/=; [|done].
  destruct (user_message_as_UserConnectMessage _) as [[u|]|]; simplify_eq/=; [|done].
  destruct (UserConnectMessage_name u) as [name|]; simplify_eq/=.
  destruct (String_str name) as [str|]; simplify_eq/=. destruct req as [req|]; simplify_eq/=.
  destruct (ProxyDestConnectionRequest_client_id req) as [id|]; simplify_eq/=.
  pose proof (get_client_color_typed (next_color s)) as [Hc Hn].
  destruct (bool_decide _ || _) eqn:E.
  - destruct (verdict_message id false); simplify_eq/=. by apply typed_sendto.
  - destruct (verdict_message id true); simplify_eq/=. apply orb_false_iff in E as [E1%bool_decide_eq_false E2%Z.ltb_ge].
    apply eq_None_not_Some in E1. apply typed_sendto, typed_clients; [done | | | exact Hn].
    + apply map_Forall_insert_2; [|apply Hs]. split_and!; [done | apply to_uint64_typed | done | exact Hc].
    + rewrite map_size_insert_None by done. lia.
Qed.

Lemma typed_close req src s s' : close_connection_request req src s = Ret s' -> typed s -> typed s'.
Proof.
  intros H Hs. unfold close_connection_request in H. destruct req as [req|]; simplify_eq/=.
  destruct (ProxyDestCloseConnection_client_id req) as [id|]; simplify_eq/=.
  destruct (gConnectedClients s !! id) as [c|] eqn:E; [|done]. destruct (cmp_addr _ _); [|done]. simpl.
  apply (typed_clients _ (next_color s)); [done | by apply map_Forall_delete, Hs | | apply Hs].
  destruct Hs as [_ Hsz _ _ _ _]. rewrite map_size_delete, E. lia.
Qed.

Lemma typed_handle_client_message msg app s s' : handle_client_message msg app s = Ret s' -> typed s -> typed s'.
Proof.
  intros H Hs. unfold handle_client_message in H. destruct msg as [msg|]; simplify_eq/=.
  destruct (ProxyDestClientMessage_client_id msg) as [id|]; simplify_eq/=.
  destruct (gConnectedClients s !! id); simplify_eq/=; [|done].
  destruct (verified _ app) as [[]|] eqn:E; simplify_eq/=; [|done]. destruct Hs as [? ? ? ? Hq ?].
  split; simpl; try done. apply Forall_app. split; [done|]. by apply Forall_singleton.
Qed.

Lemma typed_receive now bs src s s' : receive now bs src s = Ret s' -> typed s -> typed s'.
Proof.
  intros H Hs. unfold receive, handle_recv_message in H. destruct (receiving s); [|by simplify_eq].
  bind_inv H as ok. destruct ok; cbn [negb] in H; [|by simplify_eq]. bind_inv H as ty.
  destruct (ty =? _); [|destruct (ty =? _); [|destruct (ty =? _); [|by simplify_eq]]]; bind_inv H as req;
    [bind_inv H as v; bind_inv H as app | | bind_inv H as v; bind_inv H as app].
  - by eapply typed_connection_request.
  - by eapply typed_close.
  - by eapply typed_handle_client_message.
Qed.

(** ** The main thread *)
Lemma typed_send_each targets data s s' : send_each targets data s = Ret s' -> typed s -> typed s' /\ at_ s' = at_ s.
Proof.
  revert s. induction targets as [|t targets IH]; intros s H Hs; simpl in H; [by simplify_eq|].
  bind_inv H as buf. apply IH in H as [? ?]; [done | by apply typed_sendto].
Qed.

Lemma typed_handle_message m c s s' :
  handle_message radius_dist walk m c s = Ret s' -> is_color (DemoServer.dot_color c) -> typed s -> typed s'.
Proof.
  intros H Hc Hs. unfold handle_message in H. bind_inv H as click. destruct click as [click|].
  - bind_inv H as x. bind_inv H as y. destruct (radius_dist _) as [radius r]. simplify_eq.
    destruct Hs. split; simpl; try done. apply Forall_app. split; [done|]. by apply Forall_singleton.
  - bind_inv H as chat. destruct chat as [chat|]; [|by simplify_eq].
    bind_inv H as text. bind_inv H as str. bind_inv H as data. by apply typed_send_each in H as [? ?].
Qed.

Lemma typed_rotate_color now c n id : client_typed id c -> is_int32 n -> client_typed id (rotate_color now c n).1 /\ is_int32 (rotate_color now c n).2.
Proof.
  intros Hc Hn. unfold rotate_color. destruct (elapsed _ _ _); [|done].
  pose proof (get_client_color_typed n) as [H1 H2]. destruct (get_client_color n) as [color n'].
  destruct Hc as (? & ? & ? & ?). split; [|exact H2]. split_and!; [done | done | apply to_uint64_typed | exact H1].
Qed.

Lemma typed_send_states data ids s s' : send_states data ids s = Ret s' -> typed s -> typed s'.
Proof.
  revert s. induction ids as [|id ids IH]; intros s H Hs; simpl in H; [by simplify_eq|].
  bind_inv H as s1. eapply IH; [done|]. clear H IH. unfold send_state in Hs1.
  destruct (gConnectedClients s !! id) as [c|] eqn:E; [|by simplify_eq].
  pose proof (typed_rotate_color (this_frame_time s) c (next_color s) id (ty_clients s Hs _ _ E) (ty_next s Hs)) as [H1 H2].
  destruct (rotate_color _ _ _) as [c' n]. destruct (elapsed _ _ _).
  - bind_inv Hs1 as buf. simplify_eq. apply typed_sendto. eapply typed_update; [done | exact E | | exact H2].
    destruct H1 as (? & ? & ? & ?). split_and!; [done | apply to_uint64_typed | done | done].
  - simplify_eq. by eapply typed_update.
Qed.

Lemma typed_main_step now s s' : main_step radius_dist walk now s = Ret s' -> typed s -> typed s'.
Proof.
  intros H Hs. unfold main_step in H. pose proof (ty_pc s Hs) as Hpc. destruct (at_ s) as [|i|i q c|].
  - simplify_eq. apply typed_goto; [|done]. destruct Hs as [? ? ? Hd ? ?]. split; simpl; try done.
    unfold age. apply list.Forall_forall. intros d [Hd' _]%list_elem_of_In%filter_In.
    apply list_elem_of_In, list_elem_of_fmap in Hd' as (d0 & -> & Hd0). simpl. by eapply list.Forall_forall in Hd.
  - simplify_eq. unfold drain. destruct (Z.ltb_spec i 25); [|by apply typed_goto].
    destruct (gClientMessageQueue s) as [|q rest] eqn:Eq; [by apply typed_goto|].
    assert (typed (set_queue rest s)) as Hs' by (destruct Hs as [? ? ? ? Hq ?]; rewrite Eq in Hq; inversion Hq; by split).
    pose proof (ty_queue s Hs) as Hq. rewrite Eq in Hq. inversion Hq as [|? ? Hq0 Hq1]; subst.
    destruct (q_msg q) eqn:Em; [|by apply typed_goto]. simpl.
    destruct (gConnectedClients s !! q_client_id q) as [c|] eqn:E; apply typed_goto; simpl in *; try done; [|lia].
    split_and!; [lia | lia | exact Hq0 |]. by destruct (ty_clients s Hs _ _ E) as (_ & _ & _ & ?).
  - destruct Hpc as (? & _ & Hc). bind_inv H as m. bind_inv H as s1. simplify_eq. apply typed_goto; [|simpl; lia].
    by eapply typed_handle_message.
  - unfold send_frame in H. bind_inv H as data. bind_inv H as s1. simplify_eq. apply typed_goto; [|done].
    by eapply typed_send_states.
Qed.

Lemma typed_step ev s s' : step radius_dist walk ev s = Ret s' -> typed s -> typed s'.
Proof.
  destruct ev; simpl; [apply typed_receive | | apply typed_main_step]. intros [= <-] []. by split.
Qed.

Lemma typed_run evs s s' : run radius_dist walk evs s = Ret s' -> typed s -> typed s'.
Proof.
  revert s. induction evs as [|ev evs IH]; intros s H Hs; simpl in H; [by simplify_eq|].
  bind_inv H as s1. eapply IH; [done|]. by eapply typed_step.
Qed.

(** C16: In every run of the server, whatever datagrams arrive and however the threads interleave: at most 21 clients are
    connected, each under its own id; times are 64-bit unsigned, the color counter is a 32-bit integer and every color of
    a client or dot is one of the five; every queued message points into its own, verified buffer, so that the main thread
    never stops its loop on a null message; and its loop counter stays within 25. *)
Theorem server_state_typed r start evs s : run radius_dist walk evs (start_server r start) = Ret s -> typed s.
Proof. intros H. eapply typed_run; [exact H|]. split; simpl; try done. rewrite map_size_empty. lia. Qed.

(** ** Frames end *)

(** How many steps of the main thread are left in the frame, at most. *)
Definition frame_left (l : pc) : Z :=
  match l with
  | FrameStart => 0
  | Sending => 1
  | Draining i => 2 * (25 - i) + 2
  | Handling i _ _ => 2 * (25 - i) + 1
  end.

Definition is_main (ev : event) : bool := match ev with MainStep _ => true | _ => false end.
Definition main_steps (evs : list event) : Z := zlen (List.filter is_main evs).

Lemma receive_pc now bs src s s' : receive now bs src s = Ret s' -> at_ s' = at_ s.
Proof.
  intros H. unfold receive, handle_recv_message, connection_request, close_connection_request, handle_client_message in H.
  destruct (receiving s); [|by simplify_eq].
  bind_inv H as ok. destruct ok; cbn [negb] in H; [|by simplify_eq]. bind_inv H as ty.
  destruct (ty =? _); [|destruct (ty =? _); [|destruct (ty =? _); [|by simplify_eq]]]; bind_inv H as req;
    [bind_inv H as v; bind_inv H as app | | bind_inv H as v; bind_inv H as app].
  - bind_inv H as ok. destruct ok; cbn [negb] in H; [|by simplify_eq]. bind_inv H as u. destruct u as [u|]; [|by simplify_eq].
    bind_inv H as name. bind_inv H as str. bind_inv H as rq. bind_inv H as id.
    destruct (_ || _); [|destruct (get_client_color _)]; bind_inv H as buf; by simplify_eq.
  - bind_inv H as rq. bind_inv H as id. simplify_eq. destruct (_ !! id); [|done]. by destruct (cmp_addr _ _).
  - bind_inv H as rq. bind_inv H as id. destruct (_ !! id); [|by simplify_eq].
    bind_inv H as ok. destruct ok; cbn [negb] in H; by simplify_eq.
Qed.

(** Each step of the main thread within a frame brings the frame nearer to its end. *)
Lemma main_step_progress now s s' :
  main_step radius_dist walk now s = Ret s' -> typed s -> at_ s <> FrameStart ->
  0 <= frame_left (at_ s') < frame_left (at_ s).
Proof.
  intros H Hs Hne. unfold main_step in H. pose proof (ty_pc s Hs) as Hpc. destruct (at_ s) as [|i|i q c|]; [done|..].
  - simplify_eq. simpl in *. unfold drain. repeat case_match; simpl; lia.
  - bind_inv H as m. bind_inv H as s1. simplify_eq. simpl in *. lia.
  - unfold send_frame in H. bind_inv H as data. bind_inv H as s1. simplify_eq. simpl. lia.
Qed.

Lemma step_progress ev s s' :
  step radius_dist walk ev s = Ret s' -> typed s -> at_ s <> FrameStart ->
  frame_left (at_ s') <= frame_left (at_ s) - (if is_main ev then 1 else 0).
Proof.
  intros H Hs Hne. destruct ev; simpl in *.
  - rewrite (receive_pc _ _ _ _ _ H). lia.
  - simplify_eq. simpl. lia.
  - pose proof (main_step_progress _ _ _ H Hs Hne). lia.
Qed.

Lemma main_steps_cons ev evs : main_steps (ev :: evs) = (if is_main ev then 1 else 0) + main_steps evs.
Proof. unfold main_steps. simpl. destruct (is_main ev); autorewrite with zlen; lia. Qed.

(** C17: Every frame ends: within a frame, whatever the receiving thread does in between and however many messages it
    queues meanwhile, the main thread is back at the start of the next frame after at most 52 of its own steps (the 25
    messages, each in at most two critical sections, and the sending), unless the process ended before. *)
Theorem frames_end evs s s' :
  typed s -> run radius_dist walk evs s = Ret s' -> frame_left (at_ s) <= main_steps evs ->
  frame_left (at_ s) <= 52 /\
  exists evs1 evs2 s1, evs = evs1 ++ evs2 /\ run radius_dist walk evs1 s = Ret s1 /\ at_ s1 = FrameStart /\
    main_steps evs1 <= frame_left (at_ s).
Proof.
  intros Hs H Hn. split.
  { pose proof (ty_pc s Hs) as Hpc. destruct (at_ s); simpl in *; lia. }
  revert s Hs H Hn. induction evs as [|ev evs IH]; intros s Hs H Hn.
  - pose proof (ty_pc s Hs) as Hpc. assert (0 <= frame_left (at_ s)) by (destruct (at_ s); simpl in *; lia).
    exists [], [], s. split_and!; [done | done | | change (main_steps []) with 0; lia].
    change (main_steps []) with 0 in Hn. destruct (at_ s); simpl in *; [done | lia..].
  - assert (at_ s = FrameStart \/ at_ s <> FrameStart) as [Hat|Hne] by (destruct (at_ s); auto).
    { exists [], (ev :: evs), s. split_and!; [done | done | done | by rewrite Hat]. }
    simpl in H. bind_inv H as s1. pose proof (step_progress _ _ _ Hs1 Hs Hne) as Hle.
    destruct (IH s1 (typed_step _ _ _ Hs1 Hs) H) as (evs1 & evs2 & s2 & -> & Hrun & Hat & Hms).
    { rewrite main_steps_cons in Hn. lia. }
    exists (ev :: evs1), evs2, s2. split_and!; [done | simpl; by rewrite Hs1 | done |]. rewrite main_steps_cons. lia.
Qed.
End invariant.

(** ** A concrete server *)

(** A verifier that counts the tables it is in and checks nothing else. *)
#[export] Instance DepthVerifier : Verifier (FB := FbRef) := {|
  verifier := list Z * Z * Z;
  new_Verifier buf max := (buf, max, 0);
  VerifyTableStart _ := fun '(buf, max, d) => (Ret (d + 1 <=? max), (buf, max, d + 1));
  VerifyField _ _ _ := mret true;
  VerifyOffset _ _ := mret true;
  VerifyString _ := mret true;
  VerifyVector _ := mret true;
  VerifyTable f p := match p with Some t => f t | None => mret true end;
  VerifierEndTable := fun '(buf, max, d) => (Ret true, (buf, max, d - 1));
  VerifyBuffer f := fun '(buf, max, d) => f (GetRoot (FB := FbRef) buf) (buf, max, d)
|}.

Section samples.
#[local] Set Default Proof Using "Type*".
Context {FB : FlatBuffers} {FL : FlatBuffersLaws FB}.

(** The application data of a client message. *)
Definition app_data_of (m : user_message) : list Z :=
  match fst (encodeClientMessage m false (new_Builder 64)) with Ret u => u8_bytes u | Throw _ => [] end.

Lemma app_data_payload m :
  Forall is_byte (user_text m) -> zlen (user_text m) + 300 <= fb_limit -> client_payload (app_data_of m) m.
Proof.
  intros Hb Hsz. pose proof (Rep_new 64 eq_refl) as HR. pose proof (zlen_nonneg (user_text m)).
  assert (wp (encodeClientMessage m false) (new_Builder 64) (fun u _ => u8_wf u /\
    decodes u (root_table false) (fun t => reads_ClientMessage t m))) as (u & b & Hrun & Hwf & Hdec)%wp_run.
  { apply wp_bind. eapply buildClientMessage_spec; [done | | done | apply Z.le_refl |]; [fb_arith|].
    intros o b l HR1 G SO. eapply (finish_roundtrip b l o false _ HR1); [fb_arith | exact SO]. }
  unfold app_data_of. rewrite Hrun. split; [by apply Forall_take, Forall_drop, Hwf|].
  intros u' Hwf' Hu. apply Hdec; [done|]. by rewrite Hu, u8_of_buffer_bytes.
Qed.

(** The datagram of the proxy for a message. *)
Definition datagram_of (m : proxy_inner) (data : slice) : list Z :=
  match (match m with
         | PConnectionRequest id => UdpDestination.connection_request id data
         | PClientMessage id => UdpDestination.client_message id data
         | PCloseConnection id => UdpDestination.close_connection id
         | PNone => Ret []
         end) with Ret bs => bs | Throw _ => [] end.

Lemma datagram_of_carries m id data :
  inner_id m = Some id -> is_uint32 id -> (m = PCloseConnection id -> data = None) ->
  Forall is_byte (default [] data) -> zlen (default [] data) + 200 <= fb_limit -> carries (datagram_of m data) m data.
Proof.
  intros Hm Hid Hdata Hb Hsz. pose proof (zlen_nonneg (default [] data)). unfold datagram_of.
  destruct m as [|i|i|i]; simpl in Hm; simplify_eq.
  - destruct (datagram_made (PConnectionRequest id) id data _ _ (connection_request_steps id data)) as (bs & Hbs & Hc & _);
      [lia | done.. |]. destruct (UdpDestination.connection_request id data); by simplify_eq/=.
  - destruct (datagram_made (PClientMessage id) id data _ _ (client_message_steps id data)) as (bs & Hbs & Hc & _);
      [lia | done.. |]. destruct (UdpDestination.client_message id data); by simplify_eq/=.
  - rewrite Hdata by done. rewrite Hdata in Hb, Hsz by done.
    destruct (datagram_made (PCloseConnection id) id None 64 _ (close_connection_steps id)) as (bs & Hbs & Hc & _);
      [lia | done.. |]. destruct (UdpDestination.close_connection id); by simplify_eq/=.
Qed.
End samples.

Definition no_radius (g : unit) : number * unit := (num_zero, tt).
Definition by_key (m : gmap Z ConnectedClient) : list Z := (map_to_list m).*1.
Definition proxy_addr : sockaddr_in := mkAddr 2 12345 16777343 (zeros 8).
Definition ada : user_message := UConnect (Some (Utf8 [97; 100; 97])).
Definition hi : user_message := UChat (Some (Utf8 [104; 105])).
Definition ada_app : list Z := app_data_of (FB := FbRef) ada.
Definition hi_app : list Z := app_data_of (FB := FbRef) hi.

(** A server just started, and one with a client. *)
Definition new_server : server (FB := FbRef) unit := start_server tt 0.
Definition one_client : server (FB := FbRef) unit :=
  set_clients {[ 1 := mkClient proxy_addr 1 7 0 [97; 100; 97] 4 ]} (set_color 1 new_server).

Lemma sample_arrives m id data :
  inner_id m = Some id -> is_uint32 id -> (m = PCloseConnection id -> data = None) ->
  Forall is_byte (default [] data) -> zlen (default [] data) + 200 <= fb_limit ->
  (length (datagram_of (FB := FbRef) m data) <= BUFLEN)%nat ->
  verified VerifyProxyDestinationMessageBuffer (datagram_of (FB := FbRef) m data) = Ret true ->
  arrives (datagram_of (FB := FbRef) m data) m data.
Proof. intros. split; [eapply (datagram_of_carries (FL := FbRefLaws)); eassumption | done]. Qed.

Ltac sample := eapply sample_arrives; [reflexivity | concrete | let H := fresh in intros H; first [discriminate H | reflexivity] | concrete | concrete
  | apply Nat.leb_le; vm_compute; reflexivity | vm_compute; reflexivity].

Definition known_udp : udpSpanreedDestination (Addr := string) :=
  set_connections {[ 1 := "game:30001"%string ]} (CreateUdpDestinationHandler demo_params).

Lemma server_answers_connection_requests_witness :
  exists buf s', receive 9 (datagram_of (FB := FbRef) (PConnectionRequest 1) (Some ada_app)) proxy_addr new_server = Ret s' /\
    outbound s' = outbound new_server ++ [(proxy_addr, buf)] /\
    (never buf = false -> never buf = false -> on_datagram (FB := FbRef) never never 10 buf known_udp =
      Ret (tell_hub (DestVerdict (mkVerdict 1 (has_room 1 new_server) None None)) known_udp)) /\
    has_room 1 new_server = true.
Proof.
  assert (arrives (datagram_of (FB := FbRef) (PConnectionRequest 1) (Some ada_app)) (PConnectionRequest 1) (Some ada_app))
    as Ha by sample.
  assert (client_payload ada_app (UConnect (Some (Utf8 [97; 100; 97])))) as Hp
    by (apply (app_data_payload (FL := FbRefLaws) ada); concrete).
  pose proof (server_answers_connection_requests (FL := FbRefLaws) 9 _ 1 ada_app _ proxy_addr new_server
    never never 10 known_udp Ha Hp ltac:(vm_compute; reflexivity) eq_refl ltac:(concrete) ltac:(by eexists))
    as (buf & s' & H1 & H2 & H3 & _).
  exists buf, s'. split; [exact H1|]. split; [exact H2|]. split; [exact H3 | vm_compute; reflexivity].
Defined.

Lemma server_closes_for_its_proxy_only_witness :
  exists s', receive 9 (datagram_of (FB := FbRef) (PCloseConnection 1) None) proxy_addr one_client = Ret s' /\
    gConnectedClients one_client !! 1 <> None /\ gConnectedClients s' !! 1 = None.
Proof.
  eexists. split.
  - apply (server_closes_for_its_proxy_only (FL := FbRefLaws) 9
      (datagram_of (FB := FbRef) (PCloseConnection 1) None) 1 None proxy_addr one_client); [sample | reflexivity].
  - split; [vm_compute; discriminate | vm_compute; reflexivity].
Defined.

Lemma incomplete_messages_end_the_server_witness :
  receive 9 (datagram_of (FB := FbRef) (PConnectionRequest 1) None) proxy_addr new_server = Throw TypeError.
Proof.
  refine (proj1 (incomplete_messages_end_the_server (FL := FbRefLaws) no_radius by_key 9
    (datagram_of (FB := FbRef) (PConnectionRequest 1) None) 1 [] proxy_addr new_server 0
    (mkQueued 1 [] None) (mkClient proxy_addr 1 0 0 [] 0) (mkTable None 0) eq_refl) (or_introl _)). sample.
Defined.

Definition sample_events : list event :=
  [Datagram 9 (datagram_of (FB := FbRef) (PConnectionRequest 1) (Some ada_app)) proxy_addr; MainStep 10;
   Datagram 11 (datagram_of (FB := FbRef) (PClientMessage 1) (Some hi_app)) proxy_addr; MainStep 12; MainStep 13; MainStep 14;
   MainStep 15].

(** A check of the state a run ends in, by evaluation. *)
Definition ends_in (check : server (FB := FbRef) unit -> bool) (r : outcome exn (server (FB := FbRef) unit)) : bool :=
  match r with Ret s => check s | Throw _ => false end.

Lemma ends_in_Ret check r : ends_in check r = true -> exists s, r = Ret s /\ check s = true.
Proof. destruct r as [s|]; [by exists s | done]. Qed.

Lemma server_state_typed_witness :
  exists s, run no_radius by_key sample_events new_server = Ret s /\ (length (outbound s) =? 2)%nat = true /\ typed s.
Proof.
  assert (ends_in (fun s => (length (outbound s) =? 2)%nat) (run no_radius by_key sample_events new_server) = true)
    as (s & E & Hn)%ends_in_Ret by (vm_compute; reflexivity).
  exists s. split; [exact E|]. split; [exact Hn|]. exact (server_state_typed no_radius by_key tt 0 sample_events s E).
Defined.

Lemma one_client_typed : typed one_client.
Proof.
  split; simpl; [|rewrite map_size_singleton; lia | split; lia | constructor | constructor | done].
  apply map_Forall_singleton. repeat split; simpl; lia.
Qed.

Lemma frames_end_witness :
  exists evs1 evs2 s1, replicate 52 (MainStep 7) = evs1 ++ evs2 /\
    run no_radius by_key evs1 (goto (Draining 0) one_client) = Ret s1 /\ at_ s1 = FrameStart /\ main_steps evs1 <= 52.
Proof.
  assert (ends_in (fun _ => true) (run no_radius by_key (replicate 52 (MainStep 7)) (goto (Draining 0) one_client)) = true)
    as (s & E & _)%ends_in_Ret by (vm_compute; reflexivity).
  refine (proj2 (frames_end no_radius by_key (replicate 52 (MainStep 7)) (goto (Draining 0) one_client) s _ E _)).
  - apply typed_goto; [exact one_client_typed | simpl; lia].
  - vm_compute. discriminate.
Defined.
