(* ===== verification/DemoFrame.v ===== *)
(** * The demo server's frames

    What a frame of the main thread does with the messages that wait for it, what it sends
    to whom, and how often. *)

From S2P Require Import Prelude JsPlatform FlatBuffers CppMessages.
From S2P Require Import FbTables FbReference SpanreedMessages HelloMessages SpanreedCodec HelloCodec HandshakeTheorems.
From S2P Require Import UdpTheorems DemoServer CppCodec DemoServerTheorems.
From stdpp Require Import gmap.
#[local] Open Scope Z_scope.

(** ** When a client is sent the game state *)
Definition due (now : Z) (c : ConnectedClient) : bool := elapsed now (last_send_time c) kClientSendFrequencyUs.

Lemma elapsed_spec t since freq :
  0 <= t < 2 ^ 63 -> 0 <= since < 2 ^ 63 -> 0 <= freq < 2 ^ 63 ->
  elapsed t since freq = true <-> freq <= t - since \/ t < since.
Proof.
  intros Ht Hs Hf. unfold elapsed, to_uint. rewrite Z.leb_le, (Z.mod_small freq) by lia.
  destruct (Z.le_gt_cases since t).
  - rewrite Z.mod_small; lia.
  - replace ((t - since) mod 2 ^ 64) with (t - since + 2 ^ 64); [lia|].
    rewrite <- (Z.mod_add _ 1) by lia. rewrite Z.mod_small; lia.
Qed.

(** What the sending changes in a client: its color may change, and the time if it was due. *)
Definition client_after (now : Z) (c c' : ConnectedClient) : Prop :=
  spanreed_client_addr c' = spanreed_client_addr c /\ spanreed_client_id c' = spanreed_client_id c /\
  client_name c' = client_name c /\
  last_send_time c' = (if due now c then to_uint 64 now else last_send_time c).

Lemma due_spec now c :
  0 <= now < 2 ^ 63 -> 0 <= last_send_time c < 2 ^ 63 ->
  due now c = true <-> last_send_time c + 50000 <= now \/ now < last_send_time c.
Proof. intros Hnow Hc. unfold due, kClientSendFrequencyUs. rewrite elapsed_spec by lia. lia. Qed.

(** A client that was sent the state at [now] is due again 50 ms later. *)
Lemma due_again now c c' later :
  0 <= now < 2 ^ 63 -> client_after now c c' -> due now c = true -> now <= later < 2 ^ 63 ->
  due later c' = true <-> now + 50000 <= later.
Proof.
  intros Hnow (_ & _ & _ & Ht) Hdue Hl. rewrite Hdue in Ht. unfold to_uint in Ht. rewrite Z.mod_small in Ht by lia.
  rewrite due_spec by lia. rewrite Ht. lia.
Qed.

Section frames.
#[local] Set Default Proof Using "Type*".
Context {FB : FlatBuffers} {FL : FlatBuffersLaws FB} {V : Verifier} {rng : Type}.
Implicit Types (s : server rng).

(** ** What is sent *)

(** The bytes that the content of a message takes. *)
Definition text_size (t : option text) : Z := from_option (fun t => zlen (text_bytes t)) 0 t.
Definition message_size (m : server_message) : Z :=
  match m with SChat user text => text_size user + text_size text | SGameState dots => 16 * zlen dots | _ => 0 end.

(** A datagram to a client's proxy with a server message for that client, and little else. *)
Definition sent_to (m : server_message) (target : ConnectedClient) (d : sockaddr_in * list Z) : Prop :=
  d.1 = spanreed_client_addr target /\ zlen d.2 <= message_size m + 400 /\
  exists payload, delivers d.2 (DProxy (spanreed_client_id target)) (Some payload) /\ server_payload payload m.

Definition set_outbound (ds : list (sockaddr_in * list Z)) (s : server rng) : server rng :=
  mkServer (gConnectedClients s) (next_color s) (gClientMessageQueue s) (DemoServer.dots s) (random s) (this_frame_time s)
    (last_frame_time s) (at_ s) (receiving s) ds.

(** What makes datagrams to a client possible. *)
Definition addressable (c : ConnectedClient) : Prop :=
  is_uint32 (spanreed_client_id c) /\ Forall is_byte (client_name c) /\ zlen (client_name c) <= 1024.

Lemma send_each_spec targets data m s :
  server_payload data m -> zlen data + 300 <= fb_limit -> zlen data <= message_size m + 200 -> Forall addressable targets ->
  exists ds, send_each targets data s = Ret (set_outbound (outbound s ++ ds) s) /\ Forall2 (sent_to m) targets ds.
Proof.
  intros Hp Hsz Hms. revert s. induction targets as [|t targets IH]; intros s Ht.
  - exists []. rewrite app_nil_r. by destruct s.
  - apply Forall_cons in Ht as [Ht Hts]. simpl.
    destruct (proxy_datagram_spec (spanreed_client_id t) data) as (bs & Hbs & Hd & Hl); [apply Ht | apply Hp | done |].
    rewrite Hbs. simpl. destruct (IH (sendto (spanreed_client_addr t) bs s) Hts) as (ds & -> & Hds).
    exists ((spanreed_client_addr t, bs) :: ds). split; [|constructor; [|done]].
    + simpl. by rewrite <- app_assoc.
    + split; [done|]. split; [simpl; lia|]. by exists data.
Qed.

(** ** Handling one message *)
Lemma omap_lookup_keys (m : gmap Z ConnectedClient) : omap (fun id => m !! id) (map_to_list m).*1 = (map_to_list m).*2.
Proof.
  assert (forall l, l ⊆ map_to_list m -> omap (fun id => m !! id) l.*1 = l.*2) as H; [|by apply H].
  induction l as [|[id c] l IH]; intros Hl; [done|]. simpl.
  rewrite (proj1 (elem_of_map_to_list m id c)) by (apply Hl; left). simpl. f_equal. apply IH. set_solver.
Qed.

Context (radius_dist : rng -> number * rng) (walk : gmap Z ConnectedClient -> list Z).
Hypothesis walk_all : forall m, walk m ≡ₚ (map_to_list m).*1.

(** A broadcast goes to each connected client once. *)
Lemma targets_all s : broadcast_targets walk s ≡ₚ (map_to_list (gConnectedClients s)).*2.
Proof. unfold broadcast_targets. rewrite walk_all. by rewrite omap_lookup_keys. Qed.

Definition all_addressable (s : server rng) : Prop := map_Forall (fun _ c => addressable c) (gConnectedClients s).

Lemma targets_addressable s : all_addressable s -> Forall addressable (broadcast_targets walk s).
Proof.
  intros Ha. rewrite targets_all. apply list.Forall_forall. intros c [[id c'] [-> Hc]]%list_elem_of_fmap.
  apply elem_of_map_to_list in Hc. exact (Ha _ _ Hc).
Qed.

(** The content of a message that the server can handle. *)
Definition handleable (m : user_message) : Prop :=
  m <> UNone /\ m <> UChat None /\ Forall is_byte (user_text m) /\ zlen (user_text m) <= 1024.

(** What becomes of the world, and the chat lines, when a client's message is handled. *)
Definition new_dot (c : ConnectedClient) (x y radius : number) : DrawnDot :=
  mkDrawn (float_field x) (float_field y) (f32_of_Z 5) radius (DemoServer.dot_color c).

Definition chat_of (c : ConnectedClient) (m : user_message) : list server_message :=
  match m with UChat (Some text) => [SChat (Some (Utf8 (client_name c))) (Some (Utf8 (text_bytes text)))] | _ => [] end.

Definition dots_of (c : ConnectedClient) (m : user_message) (g : rng) : list DrawnDot * rng :=
  match m with UClick x y => let '(r, g) := radius_dist g in ([new_dot c x y r], g) | _ => ([], g) end.

Lemma handle_message_spec t m c s :
  user_reads t m -> handleable m -> addressable c -> all_addressable s ->
  exists ds, handle_message radius_dist walk t c s =
      Ret (set_outbound (outbound s ++ ds) (set_random (dots_of c m (random s)).2
        (set_dots (DemoServer.dots s ++ (dots_of c m (random s)).1) s))) /\
    Forall2 (fun '(line, target) d => sent_to line target d)
      (line ← chat_of c m; target ← broadcast_targets walk s; [(line, target)]) ds.
Proof.
  intros Ht (Hne & Hchat & Hb & Hlen) Hc Ha. unfold handle_message, user_message_as_UserClickMessage, user_message_as_UserChatMessage.
  destruct (user_reads_as t m UserMessage_UserClickMessage Ht Hne) as (u & Hu & HP).
  destruct (user_reads_as t m UserMessage_UserChatMessage Ht Hne) as (u' & Hu' & HP').
  assert (set_outbound (outbound s ++ []) (set_random (random s) (set_dots (DemoServer.dots s ++ []) s)) = s) as Hsame
    by (rewrite !app_nil_r; by destruct s).
  destruct m as [|name|x y|[text|]|]; [done | | | | done |]; simpl in HP, HP'; rewrite Hu;
    cbn [user_type UserMessage.to_number Z.eqb Pos.eqb UserMessage_UserClickMessage mbind outcome_bind].
  - rewrite Hu'. exists []. cbn [dots_of fst snd]. rewrite Hsame. by split.
  - destruct HP as [Hx Hy]. change (UserClickMessage_x u) with (UserClickMessage.x u).
    change (UserClickMessage_y u) with (UserClickMessage.y u). rewrite Hx, Hy. simpl.
    destruct (radius_dist (random s)) as [r g]. exists []. rewrite app_nil_r. split; [by destruct s | constructor].
  - rewrite Hu'. cbn [user_type UserMessage.to_number Z.eqb Pos.eqb UserMessage_UserChatMessage mbind outcome_bind].
    destruct (string_pointer u' 4 (Some (text_bytes text)) (HP' (Some UTF8_BYTES))) as (v & Hv1 & Hv2).
    unfold UserChatMessage_text. rewrite Hv1. simpl. rewrite Hv2. simpl. simpl in Hb, Hlen.
    assert (4000 <= fb_limit) by (vm_compute; discriminate).
    destruct (chat_message_spec (client_name c) (text_bytes text)) as (bs & Hbs & Hbl & Hp);
      [apply Hc | done | destruct Hc as (_ & _ & ?); lia |].
    rewrite Hbs. simpl. destruct (send_each_spec (broadcast_targets walk s) bs _ s Hp) as (ds & -> & Hds);
      [destruct Hc as (_ & _ & ?); lia | simpl; lia | by apply targets_addressable |].
    exists ds. rewrite app_nil_r. split; [by destruct s|]. simpl. rewrite app_nil_r.
    clear -Hds. induction Hds; simpl; constructor; done.
  - rewrite Hu'. exists []. cbn [dots_of fst snd]. rewrite Hsame. by split.
Qed.

(** ** Handling the queue *)

(** The messages of a queue, in order: chat lines, dots, and what is left of the random numbers. Those of clients
    that are no longer connected are dropped. *)
Fixpoint play (clients : gmap Z ConnectedClient) (msgs : list (Z * user_message)) (g : rng) :
    list server_message * list DrawnDot * rng :=
  match msgs with
  | [] => ([], [], g)
  | (id, m) :: msgs =>
      match clients !! id with
      | None => play clients msgs g
      | Some c =>
          let '(ds, g) := dots_of c m g in
          let '(lines, ds', g) := play clients msgs g in
          (chat_of c m ++ lines, ds ++ ds', g)
      end
  end.

Definition queued_as (q : QueuedClientMessage) (x : Z * user_message) : Prop :=
  q_client_id q = x.1 /\ exists t, q_msg q = Some t /\ user_reads t x.2 /\ handleable x.2.

(** The main thread alone, for [k] steps. *)
Definition main_run (k : nat) (now : Z) (s : server rng) : outcome exn (server rng) :=
  run radius_dist walk (replicate k (MainStep now)) s.

Lemma main_run_add k1 k2 now s s1 : main_run k1 now s = Ret s1 -> main_run (k1 + k2) now s = main_run k2 now s1.
Proof using Type.
  unfold main_run. revert s. induction k1 as [|k IH]; intros s H; simpl in *; [by simplify_eq|].
  bind_inv H as s2. rewrite Hs2. by apply IH.
Qed.

(** The lines of the chat, each for every connected client. *)
Definition for_everyone (lines : list server_message) (s : server rng) : list (server_message * ConnectedClient) :=
  line ← lines; target ← broadcast_targets walk s; [(line, target)].

Definition all_sent (xs : list (server_message * ConnectedClient)) (ds : list (sockaddr_in * list Z)) : Prop :=
  Forall2 (fun '(m, target) d => sent_to m target d) xs ds.

(** The state after the loop. *)
Definition played (qs : list QueuedClientMessage) (nd : list DrawnDot) (g : rng) (ds : list (sockaddr_in * list Z)) (s : server rng) :
    server rng :=
  goto Sending (set_outbound (outbound s ++ ds) (set_random g (set_dots (DemoServer.dots s ++ nd) (set_queue qs s)))).

Lemma drain_spec now n msgs s :
  at_ s = Draining (25 - Z.of_nat n) -> (n <= 25)%nat -> Forall2 queued_as (gClientMessageQueue s) msgs ->
  all_addressable s ->
  let '(lines, nd, g) := play (gConnectedClients s) (take n msgs) (random s) in
  exists k ds, (k <= 2 * n + 1)%nat /\
    main_run k now s = Ret (played (drop n (gClientMessageQueue s)) nd g ds s) /\ all_sent (for_everyone lines s) ds.
Proof.
  revert s msgs. induction n as [|n IH]; intros s msgs Hat Hn Hq Ha.
  - simpl. exists 1%nat, []. split; [lia|]. split; [|constructor]. unfold main_run, played. simpl.
    unfold main_step. rewrite Hat. simpl. unfold drain. rewrite (proj2 (Z.ltb_ge _ _)) by lia. rewrite !app_nil_r. by destruct s.
  - assert (Hstep : main_step radius_dist walk now s = Ret (drain (25 - Z.of_nat (S n)) s)) by (unfold main_step; by rewrite Hat).
    unfold drain in Hstep. rewrite (proj2 (Z.ltb_lt _ _)) in Hstep by lia.
    destruct (gClientMessageQueue s) as [|q qs] eqn:Eq; inversion Hq as [|? [id m] ? msgs' Hq0 Hqs]; subst; clear Hq.
    + simpl. exists 1%nat, []. split; [lia|]. split; [|constructor]. unfold main_run, played. simpl. rewrite Hstep. simpl.
      rewrite !app_nil_r, <- Eq. by destruct s.
    + destruct Hq0 as (Hid & t & Ht & Hread & Hhand). simpl in Hid, Hread, Hhand. rewrite Ht in Hstep. simpl in Hstep.
      rewrite Hid in Hstep. cbn [take play]. replace (25 - Z.of_nat (S n) + 1) with (25 - Z.of_nat n) in Hstep by lia.
      destruct (gConnectedClients s !! id) as [c|] eqn:Ec.
      * set (s1 := goto (Handling (25 - Z.of_nat (S n)) q c) (set_queue qs s)) in Hstep.
        destruct (handle_message_spec t m c s1 Hread Hhand (Ha _ _ Ec) Ha) as (ds1 & Hh & Hds1).
        destruct (dots_of c m (random s)) as [nd1 g1] eqn:Ed. change (random s1) with (random s) in Hh. rewrite Ed in Hh.
        set (s2 := goto (Draining (25 - Z.of_nat n)) (set_outbound (outbound s1 ++ ds1) (set_random g1
          (set_dots (DemoServer.dots s1 ++ nd1) s1)))).
        assert (main_run 2 now s = Ret s2) as Hrun1.
        { unfold main_run. cbn [replicate run step mbind outcome_bind]. rewrite Hstep. cbn [mbind outcome_bind].
          unfold main_step. change (at_ s1) with (Handling (25 - Z.of_nat (S n)) q c). cbn match. rewrite Ht.
          cbn [deref_ptr mbind outcome_bind]. rewrite Hh. cbn [mbind outcome_bind].
          by replace (25 - Z.of_nat (S n) + 1) with (25 - Z.of_nat n) by lia. }
        specialize (IH s2 msgs' eq_refl ltac:(lia) Hqs Ha).
        change (gConnectedClients s2) with (gConnectedClients s) in IH. change (random s2) with g1 in IH.
        destruct (play _ _ _) as [[lines nd] g]. destruct IH as (k & ds & Hk & Hrun & Hds).
        exists (2 + k)%nat, (ds1 ++ ds). split; [lia|]. split.
        { rewrite (main_run_add _ _ _ _ _ Hrun1), Hrun. unfold played. simpl. by rewrite <- !app_assoc. }
        unfold all_sent, for_everyone. rewrite bind_app. apply Forall2_app; [exact Hds1 | exact Hds].
      * specialize (IH (goto (Draining (25 - Z.of_nat n)) (set_queue qs s)) msgs' eq_refl ltac:(lia) Hqs Ha). simpl in IH.
        destruct (play _ _ _) as [[lines nd] g]. destruct IH as (k & ds & Hk & Hrun & Hds).
        exists (S k), ds. split; [lia|]. split; [|exact Hds].
        unfold main_run in *. simpl. rewrite Hstep. simpl. exact Hrun.
Qed.

(** ** Sending the game state *)

Lemma rotate_color_same now c n :
  let c' := (rotate_color now c n).1 in
  spanreed_client_addr c' = spanreed_client_addr c /\ spanreed_client_id c' = spanreed_client_id c /\
  client_name c' = client_name c /\ last_send_time c' = last_send_time c.
Proof using Type. unfold rotate_color. destruct (elapsed _ _ _); [|done]. by destruct (get_client_color n). Qed.

Lemma send_state_spec data m id c s :
  server_payload data m -> zlen data + 300 <= fb_limit -> zlen data <= message_size m + 200 -> gConnectedClients s !! id = Some c -> addressable c ->
  exists c' n ds, send_state data id s =
      Ret (set_outbound (outbound s ++ ds) (set_clients (<[id := c']> (gConnectedClients s)) (set_color n s))) /\
    client_after (this_frame_time s) c c' /\
    Forall2 (sent_to m) (if due (this_frame_time s) c then [c] else []) ds.
Proof using FL.
  intros Hp Hsz Hms Hc (Hid & _). unfold send_state. rewrite Hc.
  pose proof (rotate_color_same (this_frame_time s) c (next_color s)) as Hsame.
  destruct (rotate_color _ c _) as [c' n]. destruct Hsame as (H1 & H2 & H3 & H4). simpl in *.
  rewrite H4. fold (due (this_frame_time s) c). unfold client_after. destruct (due (this_frame_time s) c) eqn:Ed.
  - rewrite H2. destruct (proxy_datagram_spec (spanreed_client_id c) data Hid (proj1 Hp) Hsz) as (bs & Hbs & Hd & Hl).
    rewrite Hbs. simpl. exists (sent_at (this_frame_time s) c'), n, [(spanreed_client_addr c, bs)].
    split; [by rewrite H1|]. split; [done|]. constructor; [|constructor]. split; [done|]. split; [simpl; lia|]. by exists data.
  - exists c', n, []. rewrite app_nil_r. split; [by destruct s|]. split; [done|]. constructor.
Qed.

Lemma send_states_spec data m ids s :
  server_payload data m -> zlen data + 300 <= fb_limit -> zlen data <= message_size m + 200 -> NoDup ids ->
  (forall id, id ∈ ids -> exists c, gConnectedClients s !! id = Some c /\ addressable c) ->
  exists cs n ds, send_states data ids s = Ret (set_outbound (outbound s ++ ds) (set_clients cs (set_color n s))) /\
    (forall id, ~ (id ∈ ids) -> cs !! id = gConnectedClients s !! id) /\
    (forall id, id ∈ ids -> option_Forall2 (client_after (this_frame_time s)) (gConnectedClients s !! id) (cs !! id)) /\
    Forall2 (sent_to m) (List.filter (due (this_frame_time s)) (omap (fun id => gConnectedClients s !! id) ids)) ds.
Proof using FL.
  intros Hp Hsz Hms. revert s. induction ids as [|id ids IH]; intros s Hnd Hids.
  - exists (gConnectedClients s), (next_color s), []. rewrite app_nil_r. split; [by destruct s|].
    split_and!; [done | by intros id ?%elem_of_nil | constructor].
  - apply list.NoDup_cons in Hnd as [Hid Hnd]. destruct (Hids id) as (c & Hc & Had); [left|].
    destruct (send_state_spec data m id c s Hp Hsz Hms Hc Had) as (c' & n & ds & Hs & Hafter & Hds).
    cbn [send_states]. rewrite Hs. cbn [mbind outcome_bind].
    set (s1 := set_outbound _ _). assert (Hne : forall i, i ∈ ids -> gConnectedClients s1 !! i = gConnectedClients s !! i).
    { intros i Hi. simpl. apply lookup_insert_ne. by intros ->. }
    destruct (IH s1 Hnd) as (cs & n' & ds' & Hs' & Hout & Hin & Hds').
    { intros i Hi. rewrite Hne by done. apply Hids. by right. }
    exists cs, n', (ds ++ ds'). rewrite Hs'. split_and!.
    + by rewrite app_assoc.
    + intros i [Hi1 Hi2]%not_elem_of_cons. rewrite Hout by done. simpl. by apply lookup_insert_ne.
    + intros i [->|Hi]%elem_of_cons.
      * rewrite Hc, Hout by done. simpl. rewrite lookup_insert_eq. by constructor.
      * specialize (Hin i Hi). by rewrite Hne in Hin by done.
    + simpl. rewrite Hc. simpl.
      assert (omap (fun i => gConnectedClients s1 !! i) ids = omap (fun i => gConnectedClients s !! i) ids) as Homap.
      { clear -Hne. induction ids as [|i ids IH]; [done|]. simpl. rewrite Hne by left. destruct (gConnectedClients s !! i);
          [f_equal|]; apply IH; intros j Hj; apply Hne; by right. }
      rewrite Homap in Hds'. change (this_frame_time s1) with (this_frame_time s) in Hds'.
      destruct (due _ c); [inversion Hds as [|? ? ? ? Hd0 Hn]; subst; inversion Hn; subst; by constructor
                          | by inversion Hds; subst].
Qed.

(** ** A whole frame *)
Lemma age_typed dt ds : Forall (fun d => is_color (d_color d)) ds ->
  Forall (fun d => is_color (d_color d)) (age dt ds) /\ zlen (age dt ds) <= zlen ds.
Proof using Type.
  intros H. unfold age. split.
  - apply list.Forall_forall. intros d [Hd _]%list_elem_of_In%filter_In.
    apply list_elem_of_In, list_elem_of_fmap in Hd as (d0 & -> & Hd0). simpl. by eapply list.Forall_forall in H.
  - unfold zlen. pose proof (filter_length_le (fun d => negb (f32_leb (d_t d) num_zero))
      ((fun d => mkDrawn (d_x d) (d_y d) (f32_sub (d_t d) dt) (d_radius d) (d_color d)) <$> ds)) as Hl.
    rewrite length_fmap in Hl. lia.
Qed.

(** New dots: at most one for a message, in the client's color. *)
Lemma play_typed clients msgs g :
  map_Forall client_typed clients ->
  Forall (fun d => is_color (d_color d)) (play clients msgs g).1.2 /\
  (length (play clients msgs g).1.2 <= length msgs)%nat.
Proof using Type.
  intros Hc. revert g. induction msgs as [|[id m] msgs IH]; intros g; [done|]. simpl.
  destruct (clients !! id) as [c|] eqn:E; [|destruct (IH g); split; [done | lia]].
  assert (Forall (fun d => is_color (d_color d)) (dots_of c m g).1 /\ (length (dots_of c m g).1 <= 1)%nat) as [Hd Hl].
  { destruct (Hc _ _ E) as (_ & _ & _ & Hcol). destruct m; simpl; try (split; [constructor | lia]).
    destruct (radius_dist g). simpl. split; [by apply Forall_singleton | lia]. }
  destruct (dots_of c m g) as [ds g1]. destruct (IH g1) as [IH1 IH2]. destruct (play clients msgs g1) as [[lines ds'] g2].
  simpl in *. split; [by apply Forall_app|]. rewrite length_app. lia.
Qed.

Lemma walk_spec m : NoDup (walk m) /\ forall id, id ∈ walk m <-> is_Some (m !! id).
Proof using walk_all.
  split.
  - rewrite walk_all. apply NoDup_fst_map_to_list.
  - intros id. rewrite walk_all. rewrite list_elem_of_fmap. split.
    + intros [[i c] [-> Hc]]. apply elem_of_map_to_list in Hc. eauto.
    + intros [c Hc]. exists (id, c). by rewrite elem_of_map_to_list.
Qed.

Lemma send_frame_spec s :
  typed s -> all_addressable s -> 16 * zlen (DemoServer.dots s) + 1000 <= fb_limit ->
  exists cs n ds, send_frame walk s = Ret (goto FrameStart (set_outbound (outbound s ++ ds) (set_clients cs (set_color n s)))) /\
    (forall id, option_Forall2 (client_after (this_frame_time s)) (gConnectedClients s !! id) (cs !! id)) /\
    Forall2 (sent_to (SGameState (message_dot <$> DemoServer.dots s)))
      (List.filter (due (this_frame_time s)) (broadcast_targets walk s)) ds.
Proof using FL walk_all.
  intros Hs Ha Hsz. unfold send_frame.
  destruct (game_state_message_spec (DemoServer.dots s)) as (bs & Hbs & Hl & Hp); [|lia|].
  { eapply Forall_impl; [apply Hs|]. unfold is_color, is_sint8. simpl. lia. }
  rewrite Hbs. simpl. destruct (walk_spec (gConnectedClients s)) as [Hnd Hin].
  destruct (send_states_spec bs _ (walk (gConnectedClients s)) s Hp ltac:(lia) ltac:(simpl; unfold zlen in *; rewrite length_fmap; lia) Hnd) as (cs & n & ds & Hrun & Hout & Hcs & Hds).
  { intros id [c Hc]%Hin. exists c. split; [done|]. exact (Ha _ _ Hc). }
  rewrite Hrun. exists cs, n, ds. split_and!; [done | | exact Hds].
  intros id. destruct (decide (id ∈ walk (gConnectedClients s))) as [Hi|Hi]; [by apply Hcs|].
  rewrite (Hout id Hi). destruct (gConnectedClients s !! id) eqn:E; [|constructor]. exfalso. apply Hi, Hin. eauto.
Qed.

Lemma frame_spec now msgs s :
  typed s -> at_ s = FrameStart -> Forall2 queued_as (gClientMessageQueue s) msgs -> all_addressable s ->
  zlen (DemoServer.dots s) <= 2 ^ 20 ->
  let '(lines, new, g) := play (gConnectedClients s) (take 25 msgs) (random s) in
  let dt := f32_div (f32_of_Z (now - last_frame_time s)) (f32_of_Z 1000000) in
  let dots' := age dt (DemoServer.dots s) ++ new in
  exists k s' chats states, (k <= 53)%nat /\ main_run k now s = Ret s' /\
    at_ s' = FrameStart /\ gClientMessageQueue s' = drop 25 (gClientMessageQueue s) /\ DemoServer.dots s' = dots' /\
    outbound s' = outbound s ++ chats ++ states /\
    all_sent (for_everyone lines s) chats /\
    Forall2 (sent_to (SGameState (message_dot <$> dots'))) (List.filter (due now) (broadcast_targets walk s)) states /\
    forall id, option_Forall2 (client_after now) (gConnectedClients s !! id) (gConnectedClients s' !! id).
Proof using FL walk_all.
  intros Hs Hat Hq Ha Hsz. set (s0 := begin_frame now s).
  assert (Hrun0 : main_run 1 now s = Ret s0) by (unfold main_run; simpl; unfold main_step; by rewrite Hat).
  pose proof (typed_run radius_dist walk _ _ _ Hrun0 Hs) as Hs0.
  pose proof (drain_spec now 25 msgs s0 eq_refl (le_n _) Hq Ha) as Hd.
  pose proof (play_typed (gConnectedClients s) (take 25 msgs) (random s) (ty_clients s Hs)) as [_ Hnew].
  change (gConnectedClients s0) with (gConnectedClients s) in Hd. change (random s0) with (random s) in Hd.
  destruct (play _ _ _) as [[lines new] g]. intros dt dots'. destruct Hd as (k & chats & Hk & Hrun1 & Hchats).
  pose proof (typed_run radius_dist walk _ _ _ Hrun1 Hs0) as Hs1. set (s1 := played _ _ _ _ _) in *.
  destruct (send_frame_spec s1 Hs1 Ha) as (cs & n & states & Hsend & Hcs & Hstates).
  { change (DemoServer.dots s1) with (age dt (DemoServer.dots s) ++ new). rewrite zlen_app.
    destruct (age_typed dt _ (ty_dots s Hs)) as [_ Hage].
    assert (zlen new <= 25) by (unfold zlen; rewrite length_take in Hnew; cbn [fst snd] in Hnew; lia).
    assert (16 * (2 ^ 20 + 25) + 1000 <= fb_limit) by (vm_compute; discriminate). lia. }
  exists (1 + (k + 1))%nat, (goto FrameStart (set_outbound (outbound s1 ++ states) (set_clients cs (set_color n s1)))), chats, states.
  split_and!; [lia | | done | done | done | | exact Hchats | exact Hstates | exact Hcs].
  - rewrite (main_run_add _ _ _ _ _ Hrun0), (main_run_add _ _ _ _ _ Hrun1). unfold main_run. simpl.
    unfold main_step. change (at_ s1) with (@Sending FB). cbn match. by rewrite Hsend.
  - simpl. by rewrite <- app_assoc.
Qed.

(** C9: One frame of the main thread, when it is not interrupted, takes at most 53 steps. The first 25 queued messages
    are handled in the order in which they came in and leave the queue: a click of a connected client adds a dot of its
    color, a chat message is sent to every connected client, once, with the sender's name, and the messages of clients
    that are not connected are dropped. Then every client that is due is sent the game state, with the dots that have time
    left and the new ones, in a datagram to its own proxy that carries its id; nothing else is sent. *)
Theorem frame_serves_everyone now msgs s :
  typed s -> at_ s = FrameStart -> Forall2 queued_as (gClientMessageQueue s) msgs -> all_addressable s ->
  zlen (DemoServer.dots s) <= 2 ^ 20 ->
  let '(lines, new, g) := play (gConnectedClients s) (take 25 msgs) (random s) in
  let dt := f32_div (f32_of_Z (now - last_frame_time s)) (f32_of_Z 1000000) in
  let dots' := age dt (DemoServer.dots s) ++ new in
  exists k s' chats states, (k <= 53)%nat /\ main_run k now s = Ret s' /\
    at_ s' = FrameStart /\ gClientMessageQueue s' = drop 25 (gClientMessageQueue s) /\ DemoServer.dots s' = dots' /\
    outbound s' = outbound s ++ chats ++ states /\
    all_sent (for_everyone lines s) chats /\
    Forall2 (sent_to (SGameState (message_dot <$> dots'))) (List.filter (due now) (broadcast_targets walk s)) states /\
    forall id, option_Forall2 (client_after now) (gConnectedClients s !! id) (gConnectedClients s' !! id).
Proof using FL walk_all. apply frame_spec. Qed.

(** C38: How often a client is sent the game state, on 64-bit times: a client is due when 50 ms have passed since it last
    was sent the state (since it connected, the first time), and also when that time lies after the start of the frame, where
    the unsigned difference wraps around: a client that connects while a frame runs is sent the state at once. In the state
    that a frame at [now] ends in, every client that was due has the frame's time and is due again from 50 ms after the
    frame on and not before; a client that was not due has kept its time. *)
Theorem state_interval now msgs s :
  0 <= now < 2 ^ 63 -> map_Forall (fun _ c => 0 <= last_send_time c < 2 ^ 63) (gConnectedClients s) ->
  typed s -> at_ s = FrameStart -> Forall2 queued_as (gClientMessageQueue s) msgs -> all_addressable s ->
  zlen (DemoServer.dots s) <= 2 ^ 20 ->
  exists k s', main_run k now s = Ret s' /\ at_ s' = FrameStart /\
    forall id c, gConnectedClients s !! id = Some c ->
    (due now c = true <-> last_send_time c + 50000 <= now \/ now < last_send_time c) /\
    exists c', gConnectedClients s' !! id = Some c' /\
      if due now c
      then last_send_time c' = now /\ forall later, now <= later < 2 ^ 63 -> due later c' = true <-> now + 50000 <= later
      else last_send_time c' = last_send_time c.
Proof using FL walk_all.
  intros Hnow Htimes Hs Hat Hq Ha Hsz. pose proof (frame_spec now msgs s Hs Hat Hq Ha Hsz) as Hf.
  destruct (play _ _ _) as [[lines new] g]. destruct Hf as (k & s' & chats & states & _ & Hrun & Hat' & _ & _ & _ & _ & _ & Hafter).
  exists k, s'. split; [done|]. split; [done|]. intros id c Hc. split; [apply due_spec; [done | exact (Htimes _ _ Hc)]|].
  specialize (Hafter id). rewrite Hc in Hafter. inversion Hafter as [? c' Hcc' E1 E2|]; subst. exists c'. split; [done|].
  pose proof Hcc' as (_ & _ & _ & Ht). destruct (due now c) eqn:Hdue.
  - unfold to_uint in Ht. rewrite Z.mod_small in Ht by lia. split; [done|]. intros later Hl. by eapply due_again.
  - done.
Qed.
End frames.

(** ** A concrete frame *)
(** The one client has a chat message waiting. *)
Definition chatting : server (FB := FbRef) unit :=
  set_queue [mkQueued 1 hi_app (Some (GetClientMessage (FB := FbRef) hi_app))] one_client.

Lemma chatting_typed : typed chatting.
Proof.
  assert (verified VerifyClientMessageBuffer hi_app = Ret true) as Hv by (vm_compute; reflexivity).
  pose proof one_client_typed as [H1 H2 H3 H4 _ _]. split; [exact H1 | exact H2 | exact H3 | exact H4 | | exact I].
  - apply Forall_singleton. unfold queued_typed. cbn [q_msg q_buffer]. split; [reflexivity | exact Hv].
Qed.

Lemma chatting_queued : Forall2 queued_as (gClientMessageQueue chatting) [(1, hi)].
Proof.
  constructor; [|constructor]. unfold queued_as. cbn [q_client_id q_msg fst snd]. split; [reflexivity|].
  eexists. split; [reflexivity|]. split.
  - apply (payload_reads (FL := FbRefLaws)), (app_data_payload (FL := FbRefLaws) hi); concrete.
  - split; [discriminate|]. split; [discriminate|]. split; concrete.
Qed.

Lemma chatting_addressable : all_addressable chatting.
Proof. apply map_Forall_singleton. split; [concrete|]. split; concrete. Qed.

Lemma by_key_all m : by_key m ≡ₚ (map_to_list m).*1.
Proof. reflexivity. Qed.

Lemma frame_serves_everyone_witness : exists k s' chats states, (k <= 53)%nat /\
  main_run no_radius by_key k 60000 chatting = Ret s' /\ outbound s' = outbound chatting ++ chats ++ states /\
  length chats = 1%nat /\ length states = 1%nat.
Proof.
  destruct (frame_serves_everyone (FL := FbRefLaws) no_radius by_key by_key_all 60000 [(1, hi)] chatting chatting_typed eq_refl
    chatting_queued chatting_addressable ltac:(vm_compute; discriminate))
    as (k & s' & chats & states & Hk & Hrun & _ & _ & _ & Hout & Hchats & Hstates & _).
  exists k, s', chats, states. split; [exact Hk|]. split; [exact Hrun|]. split; [exact Hout|].
  apply Forall2_length in Hchats, Hstates. rewrite <- Hchats, <- Hstates. split; vm_compute; reflexivity.
Defined.

(** The client, last sent the state at 7, is sent it in a frame at 60000 and then not before 110000. *)
Lemma state_interval_witness : exists k s' c',
  main_run no_radius by_key k 60000 chatting = Ret s' /\ gConnectedClients s' !! 1 = Some c' /\ last_send_time c' = 60000 /\
  due 109999 c' = false /\ due 110000 c' = true.
Proof.
  destruct (state_interval (FL := FbRefLaws) no_radius by_key by_key_all 60000 [(1, hi)] chatting ltac:(lia)
    ltac:(apply map_Forall_singleton; simpl; lia) chatting_typed eq_refl
    chatting_queued chatting_addressable ltac:(vm_compute; discriminate)) as (k & s' & Hrun & _ & H).
  destruct (H 1 (mkClient proxy_addr 1 7 0 [97; 100; 97] 4) ltac:(vm_compute; reflexivity)) as (_ & c' & Hc' & Hif).
  assert (due 60000 (mkClient proxy_addr 1 7 0 [97; 100; 97] 4) = true) as Hdue by (vm_compute; reflexivity).
  rewrite Hdue in Hif. destruct Hif as [Ht Hlater]. exists k, s', c'.
  split; [exact Hrun|]. split; [exact Hc'|]. split; [exact Ht|]. split.
  - destruct (due 109999 c') eqn:E; [|reflexivity]. apply (Hlater 109999) in E; lia.
  - apply (Hlater 110000); lia.
Defined.
