(* ===== verification/Acceptance.v ===== *)
(** * What the demo server's verifier accepts

    The generated [Verify] methods check a buffer with the C++ runtime's [Verifier], which is a
    parameter ([CppMessages.Verifier]). Its documented side is that it accepts what a builder
    wrote: [VerifierLaws] says so for the three buffers whose way is followed across languages,
    written by the proxy's UDP destination and by the page. [DepthVerifierLaws] shows that the
    laws can hold. *)

From S2P Require Import Prelude JsPlatform FlatBuffers FbTables FbReference SpanreedMessages HelloMessages.
From S2P Require Import SpanreedCodec HelloCodec Connection ConnectionTheorems DemoPage DemoPageTheorems.
From S2P Require Import UdpDestination UdpTheorems CppMessages DemoServer CppCodec DemoServerTheorems.
#[local] Open Scope Z_scope.

(** The verifier accepts the proxy's datagrams for messages and closes, and the page's chat messages. *)
Class VerifierLaws `{FB : FlatBuffers} (V : Verifier) : Prop := {
  accepts_client_message id data bs :
    is_uint32 id -> Forall is_byte data -> zlen data + 200 <= fb_limit ->
    or_panic (client_message id (Some data)) = Ret bs -> verified VerifyProxyDestinationMessageBuffer bs = Ret true;
  accepts_close_connection id bs :
    is_uint32 id -> or_panic (close_connection id) = Ret bs -> verified VerifyProxyDestinationMessageBuffer bs = Ret true;
  accepts_chat text u :
    sendable text -> fst (DemoPage.chat_message text (new_Builder 64)) = Ret u ->
    verified VerifyClientMessageBuffer (u8_bytes u) = Ret true
}.

(** What the page sent is what the server reads. *)
Lemma page_payload `{FB : FlatBuffers} m payload : DemoPageTheorems.carries m payload -> client_payload payload m.
Proof.
  intros [Hb Hc]. split; [done|]. intros u Hwf Hu. apply Hc; [done|]. by rewrite Hu, u8_of_buffer_bytes.
Qed.

(** ** The verifier of the examples *)
Ltac run_checks := cbn [fst snd mret stm_ret mbind stm_bind vand vget].

Lemma depth_accepts_destination bs m data :
  m <> PNone -> UdpTheorems.carries (FB := FbRef) bs m data ->
  verified VerifyProxyDestinationMessageBuffer bs = Ret true.
Proof.
  intros Hne Hc. destruct (carried (FL := FbRefLaws) _ _ _ Hc) as [Ht Hm (v & Hv & _)].
  destruct (Hm Hne) as (u & Hu & _).
  change (verified VerifyProxyDestinationMessageBuffer bs) with
    (fst (ProxyDestinationMessage_Verify (V := DepthVerifier) (GetRoot bs) (bs, 5, 0))).
  unfold GetProxyDestinationMessage in *. generalize dependent (GetRoot (FB := FbRef) bs). intros t Ht _ Hv Hu.
  unfold ProxyDestinationMessage_Verify, vand, vget, mbind, stm_bind. rewrite Hu, Ht, Hv. destruct m; [done | reflexivity..].
Qed.

Lemma depth_accepts_chat bs text :
  client_payload (FB := FbRef) bs (UChat (Some text)) -> verified VerifyClientMessageBuffer bs = Ret true.
Proof.
  intros Hp. destruct (payload_reads (FL := FbRefLaws) _ _ Hp) as [Ht Hm]. destruct (Hm ltac:(done)) as (u & Hu & HP).
  destruct (string_pointer (FB := FbRef) u 4 (Some (text_bytes text)) (HP (Some UTF8_BYTES))) as (v & Hv & _).
  change (verified VerifyClientMessageBuffer bs) with
    (fst (ClientMessage_Verify (V := DepthVerifier) (GetRoot bs) (bs, 5, 0))).
  unfold GetClientMessage in *. generalize dependent (GetRoot (FB := FbRef) bs). intros t Ht _ Hu.
  unfold ClientMessage_Verify, vand, vget, mbind, stm_bind. rewrite Hu, Ht.
  change (VerifyUserMessage (V := DepthVerifier) (Some u) (UserMessage.to_number (user_type (UChat (Some text))))) with
    (UserChatMessage_Verify (V := DepthVerifier) u).
  unfold UserChatMessage_Verify, vand, vget, mbind, stm_bind, UserChatMessage_text. rewrite Hv. reflexivity.
Qed.

#[export] Instance DepthVerifierLaws : VerifierLaws DepthVerifier.
Proof.
  split.
  - intros id data bs Hid Hb Hsz Hbs. apply (depth_accepts_destination bs (PClientMessage id) (Some data)); [done|].
    destruct (datagram_made (FL := FbRefLaws) (PClientMessage id) id (Some data) _ _ (client_message_steps id (Some data)))
      as (bs' & Hbs' & Hc & _); [pose proof (zlen_nonneg data); simpl; lia | done..|].
    rewrite Hbs in Hbs'. by injection Hbs' as <-.
  - intros id bs Hid Hbs. apply (depth_accepts_destination bs (PCloseConnection id) None); [done|].
    destruct (datagram_made (FL := FbRefLaws) (PCloseConnection id) id None _ _ (close_connection_steps id))
      as (bs' & Hbs' & Hc & _); [done..|]. rewrite Hbs in Hbs'. by injection Hbs' as <-.
  - intros text u Htext Hu. apply (depth_accepts_chat (u8_bytes u) (Str text)), page_payload.
    destruct (chat_sends (FL := FbRefLaws) text Htext) as (payload & Hc & _ & (u' & Hu' & <-) & _).
    rewrite Hu in Hu'. by injection Hu' as <-.
Qed.
