(* ===== verification/FullCircle.v ===== *)
(** * From page to page

    The whole system: the demo page, the proxy's router, hub and UDP destination, and the
    demo server, each message handed on as the code does. *)

From S2P Require Import Prelude JsPlatform FlatBuffers FbTables FbReference SpanreedMessages HelloMessages.
From S2P Require Import SpanreedCodec HelloCodec Log Connection ConnectionTheorems DemoPage DemoPageTheorems.
From S2P Require Import ClientStore Proxy GoMessages Router HandshakeTheorems UdpDestination UdpTheorems EndToEnd.
From S2P Require Import CppMessages DemoServer CppCodec DemoServerTheorems DemoFrame Acceptance.
From stdpp Require Import gmap.
#[local] Open Scope Z_scope.

Section circle.
#[local] Set Default Proof Using "Type*".
Context {FB : FlatBuffers} {FL : FlatBuffersLaws FB} {V : Verifier} {VL : VerifierLaws V} {rng Addr : Type}.
Context (show_jsval : jsval -> jsstring).

(** A server message in a datagram is shown by the page of its client. *)
Lemma payload_shown payload m p id :
  server_payload payload m -> Socket id ∈ hooked p -> page_after m p (DemoPage.step show_jsval (WsMessage id payload) p).
Proof.
  intros [Hb Hdec] Hin. cbn [DemoPage.step]. unfold handled. rewrite bool_decide_eq_true_2 by done. unfold ws_receive.
  rewrite (read_message_reads (u8_of_buffer payload) m); [apply react_page_after|].
  exact (Hdec _ (u8_of_buffer_wf _ Hb) eq_refl).
Qed.

(** C3: A message that the demo server sends for a client ends on that client's page, when its content is small enough for
    the buffer that the UDP destination reads into: 2048 bytes, less 400 for the message around it, so a chat line
    whose name and text come to 1648 bytes at most, and a game state of up to 103 dots. The datagram is read whole and taken by the UDP destination, passed by the hub to the client's handler, put by the router into one packet with the same payload, and
    the page shows its content: a chat line with user and text, or the dots of the game state. *)
Theorem server_message_reaches_page malformed bad_root bad_body inQ outQ locked known now now1 now2 m target d p meta
    ResolveUDPAddr
    (u : udpSpanreedDestination (Addr := Addr)) (c : conn) page wid :
  let id := spanreed_client_id target in
  sent_to m target d -> message_size m + 400 <= 2048 -> bad_root d.2 = false -> bad_body d.2 = false -> is_Some (destinationConnections u !! id) ->
  clientConnections (clientStore p) !! id = Some meta -> ClientHandlerName meta ∈ clientHandlers p ->
  outward c = Running -> Router.outgoingMessages c = [] -> zlen (outgoingPackets c) < outQ ->
  Socket wid ∈ hooked page ->
  exists payload,
    let msg := mkRouted id now 0 (Some payload) in
    let msg' := mkRouted id now now1 (Some payload) in
    UdpDestination.step ResolveUDPAddr bad_root bad_body (UdpDestination.Datagram now d.2) u = Ret (tell_hub (DestMessage msg) u) /\
    sent (Proxy.step (FromDestination msg now1 now2) p) = sent p ++ [ClientMsg (ClientHandlerName meta) msg'] /\
    (exists c1 c2 c3, deliver outQ (DeliverMessage msg') c = Some c1 /\
       conn_step malformed inQ outQ locked known OutTake c1 = Some c2 /\
       conn_step malformed inQ outQ locked known OutPush c2 = Some c3 /\
       outgoingPackets c3 = outgoingPackets c ++ [Some payload]) /\
    page_after m page (DemoPage.step show_jsval (WsMessage wid payload) page).
Proof.
  intros id (_ & Hlen & payload & [Hb Hdec] & Hp) Hfit H1 H2 Hreg Hmeta Hname Ho Hq Hroom Hpage. exists payload. split_and!.
  - cbn [UdpDestination.step]. rewrite take_ge by (unfold zlen, read_buffer in *; lia). rewrite (shown_datagram_received bad_root bad_body (DProxy id) (Some payload));
      [|exact (read_root d.2 _ _ Hb eq_refl Hdec)|done|done]. simpl. by rewrite bool_decide_true.
  - by apply hub_returns.
  - do 3 eexists. split_and!.
    + simpl. rewrite Hq. rewrite (proj2 (Z.ltb_lt _ _)) by (autorewrite with zlen; pose proof (zlen_nonneg (outgoingPackets c)); lia).
      reflexivity.
    + simpl. rewrite Ho. reflexivity.
    + simpl. unfold push_packet. simpl. rewrite (proj2 (Z.ltb_lt _ _)) by done. reflexivity.
    + done.
  - by apply payload_shown.
Qed.

Context (radius_dist : rng -> number * rng) (walk : gmap Z ConnectedClient -> list Z).
Hypothesis walk_all : forall m, walk m ≡ₚ (map_to_list m).*1.

(** The server's part: a chat that arrives at an idle server is broadcast by its next frame. *)
Lemma server_broadcasts now now' bs id payload text src client (s : server rng) :
  arrives bs (PClientMessage id) (Some payload) -> client_payload payload (UChat (Some text)) ->
  verified VerifyClientMessageBuffer payload = Ret true -> Forall is_byte (text_bytes text) -> zlen (text_bytes text) <= 1024 ->
  receiving s = true -> typed s -> at_ s = FrameStart -> gClientMessageQueue s = [] -> all_addressable s ->
  zlen (DemoServer.dots s) <= 2 ^ 20 -> gConnectedClients s !! id = Some client ->
  exists s1 k s2 chats states, receive now bs src s = Ret s1 /\ main_run radius_dist walk k now' s1 = Ret s2 /\
    at_ s2 = FrameStart /\ gClientMessageQueue s2 = [] /\ outbound s2 = outbound s ++ chats ++ states /\
    Forall2 (sent_to (SChat (Some (Utf8 (client_name client))) (Some (Utf8 (text_bytes text)))))
      (broadcast_targets walk s) chats.
Proof.
  intros Ha Hp Hv Hb Hl Hrec Hs Hat Hq Haddr Hd Hc.
  pose proof (message_queued now bs id payload src s Ha Hrec) as Hr. rewrite Hc, Hv in Hr. simpl in Hr.
  set (s1 := set_queue _ s) in Hr. pose proof (typed_receive _ _ _ _ _ Hr Hs) as Hs1.
  assert (queued_as (mkQueued id payload (Some (GetClientMessage payload))) (id, UChat (Some text))) as Hqa.
  { split; [done|]. eexists. split; [done|]. split; [by apply payload_reads | done]. }
  pose proof (frame_spec radius_dist walk walk_all now' [(id, UChat (Some text))] s1 Hs1 Hat
    ltac:(simpl; rewrite Hq; constructor; [exact Hqa | constructor]) Haddr Hd) as Hf.
  change (gConnectedClients s1) with (gConnectedClients s) in Hf. simpl in Hf. rewrite Hc in Hf. simpl in Hf.
  destruct Hf as (k & s2 & chats & states & Hk & Hrun & Hat2 & Hq2 & _ & Hout & Hchats & _).
  exists s1, k, s2, chats, states. split_and!; [done | done | done | by rewrite Hq2, Hq | done |].
  unfold all_sent, for_everyone in Hchats. simpl in Hchats. rewrite app_nil_r in Hchats.
  change (broadcast_targets walk s1) with (broadcast_targets walk s) in Hchats.
  remember (broadcast_targets walk s) as targets. clear -Hchats. revert chats Hchats.
  induction targets as [|t ts IH]; intros chats H; inversion H; subst; constructor; auto.
Qed.

(** C2: What a user says reaches everyone: the chat text of a connected page, of up to 600 bytes, becomes one payload on its
    transport; the router takes it as a packet and hands it to the hub with the client's id, the hub to the UDP destination,
    and that in one datagram to the demo server, which fits the server's 1024-byte buffer. The server queues the message, and
    its next frame sends the text with the sender's name to every connected client, each once. That the server's verifier
    accepts what the page's and the proxy's builders write is assumed of the C++ runtime ([VerifierLaws]). *)
Theorem chat_reaches_all_clients malformed inQ outQ locked known now now1 now2 now3 now4 src text page cn (c : conn) p
    meta (u : udpSpanreedDestination (Addr := Addr)) a (s : server rng) client :
  let id := conn_id c in
  sendable text -> zlen (text_encode text) <= 600 -> connection page = Some cn ->
  inward c = true -> incomingPackets c = [] -> 0 < inQ -> is_uint32 id ->
  clientConnections (clientStore p) !! id = Some meta -> DestinationHandlerName meta ∈ destinationHandlers p ->
  destinationConnections u !! id = Some a ->
  receiving s = true -> typed s -> at_ s = FrameStart -> gClientMessageQueue s = [] -> all_addressable s ->
  zlen (DemoServer.dots s) <= 2 ^ 20 -> gConnectedClients s !! id = Some client ->
  exists payload c1 c2 bs s1 k s2 targets chats states,
    let m := mkRouted id now 0 (Some payload) in
    let m' := mkRouted id now now1 (Some payload) in
    DemoPage.step show_jsval (Chat text) page = emit (CSend (conn_transport cn) payload) page /\
    conn_step malformed inQ outQ locked known (Arrive payload) c = Some c1 /\
    conn_step malformed inQ outQ locked known (InPacket now) c1 = Some c2 /\
    outbox c2 = outbox c ++ [FromTransport m] /\
    sent (Proxy.step (FromClient m now1 now2) p) = sent p ++ [DestMsg (DestinationHandlerName meta) m'] /\
    onClientMessage m' u = Ret (enqueue (a, bs) u) /\
    receive now3 bs src s = Ret s1 /\ main_run radius_dist walk k now4 s1 = Ret s2 /\
    at_ s2 = FrameStart /\ gClientMessageQueue s2 = [] /\ outbound s2 = outbound s ++ chats ++ states /\
    targets ≡ₚ (map_to_list (gConnectedClients s)).*2 /\
    Forall2 (sent_to (SChat (Some (Utf8 (client_name client))) (Some (Utf8 (text_encode text))))) targets chats.
Proof.
  intros id Htext Hlen Hcn Hin Hip HinQ Hid Hmeta Hname Ha Hrec Hs Hat Hq Haddr Hd Hc.
  destruct (chat_sends text Htext) as (payload & Hcar & Hl & (up & Hup & Hpay) & Hsend). simpl in Hl.
  assert (2000 <= fb_limit) by (vm_compute; discriminate).
  destruct (message_sends u (mkRouted id now now1 (Some payload)) a Ha Hid (proj1 Hcar)) as (bs & Hbs & Hbc & Hbuild & Hbl);
    [simpl; lia|]. simpl in Hbl.
  assert (verified VerifyClientMessageBuffer payload = Ret true) as Hv by (rewrite <- Hpay; by apply (accepts_chat text)).
  assert (DemoServerTheorems.arrives bs (PClientMessage id) (Some payload)) as Harr.
  { split_and!; [exact Hbc | unfold zlen, BUFLEN in *; lia | eapply accepts_client_message; [exact Hid | apply Hcar | lia | exact Hbuild]]. }
  destruct (server_broadcasts now3 now4 bs id payload (Str text) src client s) as (s1 & k & s2 & chats & states & H1 & H2 & H3 & H4 & H5 & H6);
    [exact Harr | by apply page_payload | exact Hv | by apply sendable_bytes | simpl; lia | done.. |].
  set (c1 := set_incoming [payload] c).
  exists payload, c1. eexists. exists bs, s1, k, s2, (broadcast_targets walk s), chats, states. split_and!.
  - cbn [DemoPage.step]. unfold onSubmitChat. rewrite Hcn. apply Hsend.
  - simpl. rewrite Hip, (proj2 (Z.ltb_lt _ _)) by done. done.
  - simpl. rewrite Hin. reflexivity.
  - done.
  - by apply hub_forwards.
  - exact Hbs.
  - done.
  - done.
  - done.
  - done.
  - done.
  - by apply targets_all.
  - done.
Qed.
End circle.

(** ** A concrete system *)
Definition ada_client : ConnectedClient := mkClient proxy_addr 1 7 0 [97; 100; 97] 4.
Definition ada_says_hi : server_message := SChat (Some (Utf8 [97; 100; 97])) (Some (Utf8 [104; 105])).

(** A datagram the server can send. *)
Lemma ada_says_hi_sent : exists d, sent_to (FB := FbRef) ada_says_hi ada_client d.
Proof.
  destruct (chat_message_spec (FL := FbRefLaws) [97; 100; 97] [104; 105]) as (payload & _ & Hl & Hp); [concrete.. |].
  destruct (proxy_datagram_spec (FL := FbRefLaws) 1 payload) as (bs & _ & Hd & Hl'); [concrete | exact (proj1 Hp) | |].
  - assert (zlen [97; 100; 97] + zlen [104; 105] + 300 + 300 <= fb_limit) by concrete. lia.
  - exists (proxy_addr, bs). split; [reflexivity|]. split; [simpl; change (zlen [97; 100; 97]) with 3 in *; change (zlen [104; 105]) with 2 in *; lia|]. exists payload. split; [exact Hd | exact Hp].
Qed.

Lemma server_message_reaches_page_witness : exists d payload,
  UdpDestination.step (FB := FbRef) resolve never never (UdpDestination.Datagram 8 d) open_udp = Ret (tell_hub (DestMessage (mkRouted 1 8 0 (Some payload))) open_udp) /\
  page_after ada_says_hi sample_page (DemoPage.step (FB := FbRef) (fun _ => []) (WsMessage 1 payload) sample_page).
Proof.
  pose proof ada_says_hi_sent as [d Hd].
  assert (is_Some (destinationConnections open_udp !! 1)) as Hreg by (eexists; vm_compute; reflexivity).
  assert (clientConnections (clientStore attached_hub) !! 1 = Some (mkMeta false "ws" "udp" 5 5 5)) as Hmeta by (vm_compute; reflexivity).
  assert ("ws"%string ∈ clientHandlers attached_hub) as Hh
    by (apply (bool_decide_eq_true_1 ("ws"%string ∈ clientHandlers attached_hub)); vm_compute; reflexivity).
  assert (Socket 1 ∈ hooked sample_page) as Hp by (apply (bool_decide_eq_true_1 (Socket 1 ∈ hooked sample_page)); vm_compute; reflexivity).
  pose proof (server_message_reaches_page (FL := FbRefLaws) (fun _ => []) never never never 16 16 false true 8 9 10 ada_says_hi ada_client
    d attached_hub (mkMeta false "ws" "udp" 5 5 5) resolve open_udp (set_outward Running (new_conn 1)) sample_page 1
    Hd ltac:(concrete) eq_refl eq_refl Hreg Hmeta Hh eq_refl eq_refl eq_refl Hp) as (payload & H1 & _ & _ & H2).
  exists d.2, payload. split; [exact H1 | exact H2].
Defined.

Lemma chat_reaches_all_clients_witness : exists payload bs s1 k s2 targets chats states,
  DemoPage.step (FB := FbRef) (fun _ => []) (Chat (js "hi")) sample_page = emit (CSend (Socket 1) payload) sample_page /\
  onClientMessage (FB := FbRef) (mkRouted 1 8 9 (Some payload)) open_udp =
    Ret (enqueue ("localhost:30001"%string, bs) open_udp) /\
  receive (FB := FbRef) 11 bs proxy_addr one_client = Ret s1 /\
  main_run (FB := FbRef) no_radius by_key k 12 s1 = Ret s2 /\
  outbound s2 = outbound one_client ++ chats ++ states /\
  targets ≡ₚ [ada_client] /\
  Forall2 (sent_to (FB := FbRef) ada_says_hi) targets chats.
Proof.
  assert (sendable (js "hi")) as Hs by (split; [vm_compute; reflexivity | vm_compute; discriminate]).
  assert (clientConnections (clientStore attached_hub) !! 1 = Some (mkMeta false "ws" "udp" 5 5 5)) as Hmeta by (vm_compute; reflexivity).
  assert ("udp"%string ∈ destinationHandlers attached_hub) as Hh
    by (apply (bool_decide_eq_true_1 ("udp"%string ∈ destinationHandlers attached_hub)); vm_compute; reflexivity).
  assert (destinationConnections open_udp !! 1 = Some "localhost:30001"%string) as Ha by (vm_compute; reflexivity).
  assert (gConnectedClients one_client !! 1 = Some ada_client) as Hc by (vm_compute; reflexivity).
  assert (all_addressable one_client) as Haddr by exact chatting_addressable.
  assert (is_uint32 1) as Hid by concrete.
  pose proof (chat_reaches_all_clients (FL := FbRefLaws) (fun _ => []) no_radius by_key by_key_all never 16 16 false true
    8 9 10 11 12 proxy_addr (js "hi") sample_page (WebsocketConnection 1 sample_user) (set_inward true (new_conn 1))
    attached_hub (mkMeta false "ws" "udp" 5 5 5) open_udp "localhost:30001"%string one_client ada_client
    Hs ltac:(concrete) eq_refl eq_refl eq_refl eq_refl Hid Hmeta Hh Ha eq_refl one_client_typed eq_refl eq_refl Haddr ltac:(concrete) Hc)
    as (payload & c1 & c2 & bs & s1 & k & s2 & targets & chats & states & H1 & _ & _ & _ & _ & H2 & H3 & H4 & _ & _ & H5 & H6 & H7).
  exists payload, bs, s1, k, s2, targets, chats, states. split_and!; [exact H1 | exact H2 | exact H3 | exact H4 | exact H5 | | exact H7].
  rewrite H6. unfold one_client. simpl. by rewrite map_to_list_singleton.
Defined.

(** A game state of 123 dots does not fit the buffer that the UDP destination reads into. *)
Example many_dots_do_not_fit :
  match (payload ← game_state_message (FB := FbRef) (replicate 123 (mkDrawn num_zero num_zero num_zero num_zero 0));
         proxy_datagram (FB := FbRef) 1 payload) with
  | Ret bs => (read_buffer <? length bs)%nat | Throw _ => false end = true.
Proof. vm_compute. reflexivity. Qed.
