(* ===== verification/Departure.v ===== *)
(** * A client leaves

    What happens to a client whose socket closes while it is connected: the session of its
    server, its router, the hub, the UDP destination and the demo server, each told by the
    one before. [seen] is one session of a server and its connection; the lemmas say what a
    step does to them. *)

From S2P Require Import Prelude JsPlatform FlatBuffers FbTables FbReference SpanreedMessages SpanreedCodec ClientStore.
From S2P Require Import CppMessages DemoServer CppCodec DemoServerTheorems Acceptance.
From S2P Require Import Proxy ProxyInvariant ProxyTheorems GoMessages UdpDestination UdpTheorems EndToEnd Router RouterTheorems Transports TransportTheorems.
From stdpp Require Import gmap.
#[local] Open Scope Z_scope.

Section departure.
#[local] Set Default Proof Using "Type*".
Context {FB : FlatBuffers} {FL : FlatBuffersLaws FB} {V : Verifier} {VL : VerifierLaws V} {rng Addr : Type}.
Context (malformed : list Z -> bool).
Abbreviation server := Transports.server.
Abbreviation step := (Transports.step malformed).
Abbreviation run := (Transports.run malformed).

(** ** Following one session *)
Record seen (i : nat) (ss : session) (c : conn) (m : gmap Z nat) (l : loop) (s : server) : Prop := {
  seen_session : sessions s !! i = Some ss;
  seen_conn : conns (clientConnectionRouter s) !! i = Some c;
  seen_map : connections (clientConnectionRouter s) = m;
  seen_loop : listener (clientConnectionRouter s) = l
}.

Lemma inserted {A} (l : list A) i x y : l !! i = Some x -> <[i := y]> l !! i = Some y.
Proof using Type. intros H. by eapply list_lookup_insert_eq, lookup_lt_Some. Qed.

Lemma seen_alone i ss c m l s a ss' :
  seen i ss c m l s -> (forall ctx, session_step (kind s) ctx c a ss = Some (Nothing, ss')) ->
  exists s', step (Session i a) s = Some s' /\ kind s' = kind s /\ seen i ss' c m l s'.
Proof using Type.
  intros [H1 H2 H3 H4] Hs. cbn [Transports.step]. rewrite H1, H2. cbn [mbind option_bind]. rewrite Hs.
  eexists. split; [reflexivity|]. split; [done|]. split; simpl; [by eapply inserted | done..].
Qed.

Lemma seen_both i ss c m l s a ca ss' c' :
  seen i ss c m l s -> (forall ctx, session_step (kind s) ctx c a ss = Some (OnConn ca, ss')) ->
  (forall inQ outQ locked known, conn_step malformed inQ outQ locked known ca c = Some c') ->
  exists s', step (Session i a) s = Some s' /\ kind s' = kind s /\ seen i ss' c' m l s'.
Proof using Type.
  intros [H1 H2 H3 H4] Hs Hc. cbn [Transports.step]. rewrite H1, H2. cbn [mbind option_bind]. rewrite Hs.
  cbn [mbind option_bind apply_effect fst snd Router.step]. rewrite H2. cbn [mbind option_bind]. rewrite Hc. cbn [mbind option_bind].
  eexists. split; [reflexivity|]. split; [done|]. split; simpl; [by eapply inserted | by eapply inserted | done..].
Qed.

Lemma seen_unregister i ss c m l s a ss' :
  seen i ss c m l s -> (forall ctx, session_step (kind s) ctx c a ss = Some (Unregister, ss')) -> unlocked (clientConnectionRouter s) = true ->
  exists s', step (Session i a) s = Some s' /\ kind s' = kind s /\ seen i ss' c (delete (conn_id c) m) l s'.
Proof using Type.
  intros [H1 H2 H3 H4] Hs Hl. cbn [Transports.step]. rewrite H1, H2. cbn [mbind option_bind]. rewrite Hs.
  cbn [mbind option_bind apply_effect fst snd Router.step]. rewrite Hl. cbn [mbind option_bind].
  eexists. split; [reflexivity|]. split; [done|]. split; simpl; [by eapply inserted | done | by rewrite H3 | done].
Qed.

Lemma seen_routing i ss c m l s a c' :
  seen i ss c m l s -> not_transport a = true ->
  (forall inQ outQ locked known, conn_step malformed inQ outQ locked known a c = Some c') ->
  exists s', step (Routing (Conn i a)) s = Some s' /\ kind s' = kind s /\ seen i ss c' m l s'.
Proof using Type.
  intros [H1 H2 H3 H4] Ha Hc. cbn [Transports.step]. assert (routers_own s (Conn i a) = true) as -> by (by destruct a).
  cbn [Router.step]. rewrite H2. cbn [mbind option_bind]. rewrite Hc. cbn [mbind option_bind].
  eexists. split; [reflexivity|]. split; [done|]. split; simpl; [done | by eapply inserted | done..].
Qed.

Lemma seen_told i ss c m s d c' :
  seen i ss c m Listening s -> m !! delivery_id d = Some i -> (forall outQ, deliver outQ d c = Some c') ->
  exists s', run [Routing (Take d); Routing Deliver] s = Some s' /\ kind s' = kind s /\ seen i ss c' m Listening s'.
Proof using Type.
  intros [H1 H2 H3 H4] Hd Hc. simpl. rewrite H4. simpl. rewrite H3, Hd. simpl. rewrite H2. simpl. rewrite Hc. simpl.
  eexists. split; [reflexivity|]. split; [done|]. split; simpl; [done | by eapply inserted | done..].
Qed.

Lemma run_cons a acts s s1 s2 : step a s = Some s1 -> run acts s1 = Some s2 -> run (a :: acts) s = Some s2.
Proof using Type. intros H1 H2. cbn [Transports.run]. by rewrite H1. Qed.

Lemma run_app acts1 acts2 s s1 s2 : run acts1 s = Some s1 -> run acts2 s1 = Some s2 -> run (acts1 ++ acts2) s = Some s2.
Proof using Type.
  revert s. induction acts1 as [|a acts1 IH]; intros s H1 H2; simpl in H1 |- *; [by simplify_eq|].
  destruct (Transports.step malformed a s); [auto | done].
Qed.

(** ** The two halves of a departure *)

(** An accepted client whose channels for closing are empty. *)
Record in_service (i : nat) (s : server) (ss : session) (c : conn) : Prop := {
  sv_seen : seen i ss c (connections (clientConnectionRouter s)) Listening s;
  sv_known : connections (clientConnectionRouter s) !! conn_id c = Some i;
  sv_session : rd ss = Reading /\ wr ss = Selecting /\ handler ss = Serving;
  sv_conn : ph c = Router.Routing /\ inward c = true /\ outward c = Running;
  sv_quiet : closeRequest c = 0 /\ clientClose c = 0 /\ proxyClose c = 0
}.

(** The socket closes: the read fails, the reader cancels and tells the router, which tells the hub. *)
Definition leaving (i : nat) : list action :=
  [Session i PeerCloses; Session i (Read ReadError); Session i ReaderStep; Session i ReaderStep; Routing (Conn i InCtx)].

Definition left_session (ss : session) : session := mkSession ReaderDone Selecting Serving true (attempts ss).
Definition left_conn (c : conn) : conn :=
  set_inward false (Router.tell_hub (CloseMe (conn_id c)) (set_clientClose 1 (set_cancelled c))).

Lemma client_leaves i s ss c m l :
  seen i ss c m l s -> rd ss = Reading -> wr ss = Selecting -> handler ss = Serving -> inward c = true -> clientClose c = 0 ->
  exists s', run (leaving i) s = Some s' /\ seen i (left_session ss) (left_conn c) m l s'.
Proof using Type.
  intros H0 Hrd Hwr Hh Hin Hcc. destruct ss as [r w h en at_]. cbn in Hrd, Hwr, Hh. subst.
  destruct (seen_alone _ _ _ _ _ _ PeerCloses (mkSession Reading Selecting Serving true at_) H0) as (s1 & R1 & K1 & H1); [reflexivity|].
  destruct (seen_alone _ _ _ _ _ _ (Read ReadError) (mkSession Cancelling Selecting Serving true at_) H1) as (s2 & R2 & K2 & H2); [simpl; intros; by destruct (kind s1)|].
  destruct (seen_both _ _ _ _ _ _ ReaderStep Router.Cancel (mkSession Telling Selecting Serving true at_) (set_cancelled c) H2) as (s3 & R3 & K3 & H3); [reflexivity | reflexivity |].
  destruct (seen_both _ _ _ _ _ _ ReaderStep Leave (mkSession ReaderDone Selecting Serving true at_) (set_clientClose 1 (set_cancelled c)) H3) as (s4 & R4 & K4 & H4);
    [reflexivity | intros; simpl; by rewrite Hcc |].
  destruct (seen_routing _ _ _ _ _ _ InCtx (left_conn c) H4) as (s5 & R5 & K5 & H5); [done | intros; simpl; by rewrite Hin |].
  exists s5. split; [|exact H5]. unfold leaving. do 5 (eapply run_cons; [eassumption|]). done.
Qed.

(** The close command of the hub: the router asks the transport, whose writer closes; then the handler ends. *)
Definition closing (i : nat) (id : Z) : list action :=
  [Routing (Take (DeliverClose id)); Routing Deliver] ++
  [Routing (Conn i OutClose); Session i TakeProxyClose;
   Session i WriterStep; Session i WriterStep; Session i HandlerStep; Session i HandlerStep; Session i HandlerStep].

Lemma proxy_closes i s ss c m :
  seen i ss c m Listening s -> m !! conn_id c = Some i -> rd ss = ReaderDone -> wr ss = Selecting -> handler ss = Serving ->
  outward c = Running -> closeRequest c = 0 -> proxyClose c = 0 ->
  exists s' c', run (closing i (conn_id c)) s = Some s' /\
    seen i (mkSession ReaderDone WriterDone Returned true (attempts ss)) c' (delete (conn_id c) m) Listening s' /\
    inward c' = inward c.
Proof using Type.
  intros H0 Hm Hrd Hwr Hh Ho Hcr Hpc. destruct ss as [r w h en at_]. cbn in Hrd, Hwr, Hh. subst.
  set (c2 := set_outward Stopped (set_proxyClose 1 (set_closeRequest 0 (set_closeRequest 1 c)))).
  destruct (seen_told _ _ _ _ _ (DeliverClose (conn_id c)) (set_closeRequest 1 c) H0) as (s1 & R1 & K1 & H1);
    [done | intros; simpl; by rewrite Hcr |].
  destruct (seen_routing _ _ _ _ _ _ OutClose c2 H1)
    as (s2 & R2 & K2 & H2); [done | intros; simpl; unfold push_proxyClose; simpl; by rewrite Ho, Hpc |].
  destruct (seen_both _ _ _ _ _ _ TakeProxyClose TakeClose (mkSession ReaderDone Closing Serving en at_) (set_proxyClose 0 c2) H2) as (s3 & R3 & K3 & H3); [reflexivity | reflexivity |].
  destruct (seen_alone _ _ _ _ _ _ WriterStep (mkSession ReaderDone WriterCancelling Serving true at_) H3) as (s4 & R4 & K4 & H4); [reflexivity|].
  destruct (seen_both _ _ _ _ _ _ WriterStep Router.Cancel (mkSession ReaderDone WriterDone Serving true at_) (set_cancelled (set_proxyClose 0 c2)) H4) as (s5 & R5 & K5 & H5); [reflexivity | reflexivity |].
  destruct (seen_unregister _ _ _ _ _ _ HandlerStep (mkSession ReaderDone WriterDone Removed true at_) H5) as (s6 & R6 & K6 & H6);
    [reflexivity | unfold unlocked; by rewrite (seen_loop _ _ _ _ _ _ H5) |].
  destruct (seen_both _ _ _ _ _ _ HandlerStep Router.Cancel (mkSession ReaderDone WriterDone Transports.Cancelled true at_) (set_cancelled (set_cancelled (set_proxyClose 0 c2))) H6) as (s7 & R7 & K7 & H7); [reflexivity | reflexivity |].
  destruct (seen_alone _ _ _ _ _ _ HandlerStep (mkSession ReaderDone WriterDone Returned true at_) H7) as (s8 & R8 & K8 & H8); [reflexivity|].
  exists s8. eexists. split; [|split; [exact H8 | done]].
  eapply run_app; [exact R1|]. do 7 (eapply run_cons; [eassumption|]). done.
Qed.

(** ** Every other order

    Whatever else happens in between, and in whatever order: the hub is told that the client is gone when the router's
    inward goroutine ends, once and last, and the writer is asked to close when the outward one ends. *)
Record accounted (outbox0 : list to_hub) (id : Z) (ss : session) (c : conn) : Prop := {
  ac_conn : conn_id c = id /\ ph c = Router.Routing /\ 0 <= proxyClose c;
  ac_told : exists fw, Forall (fun m => msg_ClientId m = id) fw /\
    outbox c = outbox0 ++ (FromTransport <$> fw) ++ (if inward c then [] else [CloseMe id]);
  ac_asked : outward c = Stopped -> 0 < proxyClose c \/ wr ss <> Selecting
}.

Lemma accounted_conn outbox0 id inQ outQ locked known a ss c c' :
  conn_step malformed inQ outQ locked known a c = Some c' -> a <> TakeClose ->
  accounted outbox0 id ss c -> accounted outbox0 id ss c'.
Proof using Type.
  intros Hs Hne [(Hid & Hph & Hpc) (fw & Hfw & Hout) Hasked]. destruct c; simpl in *.
  destruct a; conn_cases Hs; simpl in *; repeat match goal with E : _ && _ = true |- _ => apply andb_prop in E as [-> E] end; simplify_eq;
    (split; simpl; [by split_and!; try lia | | intros; first [by auto | left; lia | discriminate]]);
    try (exists fw; split; [done | by rewrite ?app_nil_r, <- ?app_assoc in *]).
  exists (fw ++ [mkRouted id now 0 (Some l)]). split; [by apply Forall_app_2, Forall_singleton|].
  by rewrite fmap_app, !app_nil_r, <- app_assoc.
Qed.

(** A writer that has left its select does not go back to it. *)
Lemma writer_left k ctx c a ss e ss' : session_step k ctx c a ss = Some (e, ss') -> wr ss <> Selecting -> wr ss' <> Selecting.
Proof using Type.
  destruct ss as [r w h en at_]. simpl. intros Hs Hw. destruct a as [|[bin payload|]| | | | | |]; simpl in Hs.
  - by simplify_eq.
  - destruct r; [|done..]. destruct k, bin; by simplify_eq.
  - destruct r; [|done..]. destruct k; by simplify_eq.
  - destruct r; by simplify_eq.
  - by destruct w.
  - by destruct w.
  - by destruct w.
  - destruct w; by simplify_eq.
  - destruct h; [|by simplify_eq..]. destruct r, w; by simplify_eq.
Qed.

Lemma accounted_moves outbox0 id ss c ss' c' :
  moves malformed ss c ss' c' -> accounted outbox0 id ss c -> accounted outbox0 id ss' c'.
Proof using Type.
  intros Hm Ha. destruct Hm as [|? ? ? ? ? ? ? ? Hno Hs | ? d ? ? ? Hs | k ctx a ss c e ss' Hs Hno | k ctx a ss c ca ss' ? ? ? ? c' Hs Hc].
  - done.
  - eapply accounted_conn; [exact Hs | | exact Ha]. intros ->. by destruct Hno.
  - destruct Ha as [H1 H2 H3]. destruct d; simpl in Hs; match type of Hs with (if ?b then _ else _) = _ => destruct b end; simplify_eq; (split; [exact H1 | exact H2 | exact H3]).
  - destruct Ha as [H1 H2 H3]. split; [done..|]. intros Ho. destruct (H3 Ho) as [?|Hw]; [by left | right]. by eapply writer_left.
  - assert (ca = TakeClose \/ ca <> TakeClose) as [->|Hne] by (destruct ca; first [by left | right; discriminate]).
    + destruct Ha as [(Hid & Hph & Hpc) H2 H3]. destruct c; conn_cases Hc; simpl in *. 
      assert (wr ss' <> Selecting) by (destruct a; simpl in Hs; repeat case_match; simplify_eq; done).
      split; simpl; [split_and!; [done..|lia] | done | by right].
    + pose proof (accounted_conn _ _ _ _ _ _ _ _ _ _ Hc Hne Ha) as [H1 H2 H3]. split; [done..|].
      intros Ho. destruct (H3 Ho) as [?|Hw]; [by left | right]. by eapply writer_left.
Qed.
(** What is always true of a session that was in service: the accounting; once the reader has noticed that the client is
    gone, the hub can be told; once the router has stopped serving the client, its writer can be made to close; and a handler
    that has returned left nothing behind. *)
Definition accounts_for (outbox0 : list to_hub) (id : Z) (i : nat) (s : server) : Prop :=
  exists ss c, sessions s !! i = Some ss /\ conns (clientConnectionRouter s) !! i = Some c /\ accounted outbox0 id ss c /\
    (rd ss = Telling \/ rd ss = ReaderDone -> inward c = true -> is_Some (step (Routing (Conn i InCtx)) s)) /\
    (outward c = Stopped -> wr ss = Selecting -> is_Some (step (Session i TakeProxyClose) s)) /\
    (handler ss = Returned -> ended ss = true /\ cancelled c = true /\ connections (clientConnectionRouter s) !! id <> Some i).

Lemma always_accounted k origin_ok incoming outgoing before i s ss c acts s' :
  run before (start_server k origin_ok incoming outgoing) = Some s -> in_service i s ss c ->
  run acts s = Some s' -> accounts_for (outbox c) (conn_id c) i s'.
Proof using Type.
  intros Hb [[Hss Hc _ _] _ _ (Hph & Hin & Ho) (_ & _ & Hpc)] Hr.
  destruct (moves_kept malformed _ _ _ _ _ _ _ (accounted_moves (outbox c) (conn_id c)) Hr Hss Hc) as (ss' & c' & Hss' & Hc' & Ha).
  { split; [split_and!; [done..|lia] | | by rewrite Ho].
    exists []. split; [constructor|]. by rewrite Hin, app_nil_r. }
  destruct (server_reachable malformed _ _ _ _ _ _ (run_app _ _ _ _ _ Hb Hr)) as [Hok _].
  destruct (ok_sessions _ _ _ Hok _ _ _ Hss' Hc') as [_ _ Hrd _ Hh He Hk _].
  exists ss', c'. split_and!; [done | done | done | | |].
  - intros Hnoticed Hin'. cbn [Transports.step routers_own Router.step]. rewrite Hc'. cbn [mbind option_bind conn_step].
    rewrite Hin', (Hrd Hnoticed). by eexists.
  - intros Ho' Hw. destruct (ac_asked _ _ _ _ Ha Ho') as [Hp|]; [|done].
    cbn [Transports.step]. rewrite Hss', Hc'. cbn [mbind option_bind session_step]. rewrite Hw.
    cbn [mbind option_bind apply_effect fst snd Router.step]. rewrite Hc'. cbn [mbind option_bind conn_step].
    rewrite (proj2 (Z.ltb_lt _ _)) by done. by eexists.
  - intros Hret. rewrite (proj1 (ac_conn _ _ _ _ Ha)) in Hk. split_and!; [auto | | intros Hm%Hk; congruence].
    apply Hrd. right. by destruct Hh as [?|[? _]]; [congruence|].
Qed.

(** ** Theorem *)

(** C5: A connected client whose socket closes is forgotten everywhere. In every later state of its server, whatever else
    happens and in whatever order: the router has told the hub that the client is gone exactly once when its inward goroutine
    for it has ended, not before, and nothing after it; when the reader has seen the socket close this can be done at once; when
    the router's outward goroutine has ended, the writer can be made to close the socket; and when the handler has returned, the
    socket is closed, the context cancelled and the client no longer in the router's map. There is a way to get there: the
    session's steps after the close, the hub's command for the client, and the session's steps after that. The hub, told,
    forgets the client and sends one close command to each of its two handlers; the UDP destination forgets it and sends one
    datagram, and that makes the demo server remove exactly this client. That the server's verifier accepts the datagram is
    assumed of the C++ runtime ([VerifierLaws]). *)
Theorem departure_forgets_client k origin_ok incoming outgoing before i s ss c cfg p meta reason
    (u : udpSpanreedDestination (Addr := Addr)) a now src (d : DemoServer.server rng) client :
  let id := conn_id c in
  run before (start_server k origin_ok incoming outgoing) = Some s -> in_service i s ss c ->
  reachable cfg p -> clientConnections (clientStore p) !! id = Some meta ->
  ClientHandlerName meta <> EmptyString -> DestinationHandlerName meta <> EmptyString ->
  is_uint32 id -> destinationConnections u !! id = Some a ->
  receiving d = true -> gConnectedClients d !! id = Some client -> cmp_addr src (spanreed_client_addr client) = true ->
  (forall acts s', run acts s = Some s' -> accounts_for (outbox c) id i s') /\
  (exists s1 c1 s2 ss2 c2, run (leaving i) s = Some s1 /\ conns (clientConnectionRouter s1) !! i = Some c1 /\
    outbox c1 = outbox c ++ [CloseMe id] /\ cancelled c1 = true /\
    run (closing i id) s1 = Some s2 /\ sessions s2 !! i = Some ss2 /\ handler ss2 = Returned /\ ended ss2 = true /\
    conns (clientConnectionRouter s2) !! i = Some c2 /\ inward c2 = false /\
    connections (clientConnectionRouter s2) = delete id (connections (clientConnectionRouter s))) /\
  sent (Proxy.step (CloseRequest id reason) p) =
    sent p ++ [ClientClose (ClientHandlerName meta) id reason; DestClose (DestinationHandlerName meta) id reason] /\
  clientConnections (clientStore (Proxy.step (CloseRequest id reason) p)) = delete id (clientConnections (clientStore p)) /\
  exists bs, onProxyRequestClose id u = Ret (UdpDestination.set_connections (delete id (destinationConnections u)) (enqueue (a, bs) u)) /\
    receive now bs src d = Ret (set_clients (delete id (gConnectedClients d)) d).
Proof.
  intros id Hb Hsv Hp%reachable_ok Hm Hc1 Hc2 Hid Ha Hrec Hcl Haddr.
  split; [intros acts s' Hr; by eapply always_accounted|].
  destruct Hsv as [Hseen Hk (Hrd & Hwr & Hh) (Hph & Hin & Ho) (Hcr & Hcc & Hpc)].
  destruct (client_leaves i s ss c _ _ Hseen Hrd Hwr Hh Hin Hcc) as (s1 & R1 & S1).
  destruct (proxy_closes i s1 _ _ _ S1 Hk eq_refl eq_refl eq_refl Ho Hcr Hpc) as (s2 & c2 & R2 & S2 & Hin2).
  destruct (close_sends u id a Ha Hid) as (bs & Hbs & Hcar & Hbuild & Hlen).
  split_and!.
  - exists s1, (left_conn c), s2. eexists. exists c2.
    split_and!; [done | apply S1 | done | done | done | apply S2 | done | done | apply S2 | done | apply S2].
  - cbn [Proxy.step]. rewrite (kickClient_known p id meta reason Hp Hm). cbn [sent]. unfold closes.
    by rewrite !bool_decide_eq_false_2.
  - cbn [Proxy.step]. by rewrite (kickClient_known p id meta reason Hp Hm).
  - exists bs. split; [done|]. rewrite (client_put_out now bs id None src d); [by rewrite Hcl, Haddr | | done].
    split_and!; [done | unfold zlen, BUFLEN in *; lia | by eapply accepts_close_connection].
Qed.
End departure.

(** ** A concrete system *)
Lemma departure_forgets_client_witness : exists s c s1 s2 ss2 bs,
  run_ws (served_acts ++ [Session 0 ReaderStep]) = Some s /\
  accounts_for (FB := FbRef) (fun _ => false) (outbox c) 1 0 s /\
  Transports.run (FB := FbRef) (fun _ => false) (leaving 0) s = Some s1 /\
  Transports.run (FB := FbRef) (fun _ => false) (closing 0 1) s1 = Some s2 /\ sessions s2 !! 0%nat = Some ss2 /\ handler ss2 = Returned /\
  onProxyRequestClose (FB := FbRef) 1 open_udp =
    Ret (UdpDestination.set_connections (delete 1 (destinationConnections open_udp)) (enqueue ("localhost:30001"%string, bs) open_udp)) /\
  receive (FB := FbRef) 12 bs proxy_addr one_client = Ret (set_clients (delete 1 (gConnectedClients one_client)) one_client).
Proof.
  destruct (run_ws (served_acts ++ [Session 0 ReaderStep])) as [s|] eqn:Hr; [|vm_compute in Hr; discriminate Hr].
  destruct (sessions s !! 0%nat) as [ss|] eqn:Hss; [|vm_compute in Hr; injection Hr as <-; discriminate Hss].
  destruct (conns (clientConnectionRouter s) !! 0%nat) as [c|] eqn:Hc; [|vm_compute in Hr; injection Hr as <-; discriminate Hc].
  assert (in_service 0 s ss c /\ conn_id c = 1) as [Hsv Hid].
  { vm_compute in Hr. injection Hr as <-. injection Hss as <-. injection Hc as <-. split; [|reflexivity].
    split; [split; reflexivity | reflexivity | split_and!; reflexivity | split_and!; reflexivity | split_and!; reflexivity]. }
  assert (destinationConnections open_udp !! 1 = Some "localhost:30001"%string) as Ha by (vm_compute; reflexivity).
  assert (gConnectedClients one_client !! 1 = Some (mkClient proxy_addr 1 7 0 [97; 100; 97] 4)) as Hcl by (vm_compute; reflexivity).
  destruct (departure_forgets_client (FL := FbRefLaws) (fun _ => false) WebSocket (fun _ => true) 4 4 _ 0 s ss c demo_config demo_hub
    (mkMeta false "ws" "udp" 5 5 5) None open_udp "localhost:30001"%string 12 proxy_addr one_client
    (mkClient proxy_addr 1 7 0 [97; 100; 97] 4) Hr Hsv demo_hub_reachable)
    as (H0 & (s1 & c1 & s2 & ss2 & c2 & H1 & _ & _ & _ & H2 & H3 & H4 & _) & _ & _ & bs & H5 & H6);
    [rewrite Hid; vm_compute; reflexivity | discriminate | discriminate | rewrite Hid; concrete | rewrite Hid; exact Ha
    | reflexivity | rewrite Hid; exact Hcl | reflexivity |].
  rewrite Hid in H0, H2, H5, H6. exists s, c, s1, s2, ss2, bs.
  split_and!; [reflexivity | exact (H0 [] s eq_refl) | exact H1 | exact H2 | exact H3 | exact H4 | exact H5 | exact H6].
Defined.
